(* ===== verification/_CoqProject ===== *)
-Q . S2P
Prelude.v
Errors.v
Packet.v
PacketFacts.v
Utf8.v
Topic.v
TopicFacts.v
Etl.v
Codec.v
CodecFacts.v
TxQueue.v
Config.v
Transport.v
ClientState.v
Effects.v
Client.v
Application.v
ClientTables.v
ClientInv.v
ClientQueue.v
ClientSpecs.v
SubscribeSpecs.v
ReceiveSpecs.v
SessionSpecs.v
StepSpecs.v
AppSpecs.v
ClientPersist.v
ClientTrace.v
TraceSpecs.v
ClientDevice.v
CLib.v
Ipv4.v
Platform.v
LinkSpec.v
Posix.v
TcpIpTransport.v
PosixTransport.v
WinsockTransport.v
TlsTransport.v
Examples.v
ExampleFacts.v
ExampleDeadline.v
Bench.v
DeviceRuns.v
Scenarios.v
WireProps.v
ClientProps.v
SessionProps.v
SubscribeProps.v
Findings.v
PersistProps.v
TraceProps.v
Broker.v
Talk.v
Settle.v
LiveProps.v
Network.v
NetBench.v
TcpLive.v
DeviceProps.v
ExampleProps.v
ExampleLive.v
DeviceFindings.v
