(* ===== verification/Prelude.v ===== *)
(** * A verification of the static MQTT 3.1.1 client

    ** The program

    The repository is an MQTT 3.1.1 client for targets without a heap:
    - include/mqtt/error.hpp, packet.hpp and src/packet.cpp: error codes and
      [Result<T>], packet types, the fixed header, variable byte integers;
    - src/utf8.cpp, src/topic.cpp: the strings of the protocol, topic names and
      filters, matching;
    - include/mqtt/codec.hpp, src/codec.cpp: encoders and decoders of every
      packet the client sends or receives, over the byte streams of ETL;
    - include/mqtt/tx_queue.hpp: the outbound byte queue;
    - include/mqtt/config.hpp: the capacities, fixed at compile time;
    - include/mqtt/transport.hpp: the abstract byte stream and clock the client
      is given, and the wrap-around difference of two clock readings;
    - include/mqtt/client.hpp, src/client.cpp: the client, a state machine
      driven by [step()], with its tables of QoS 1 and 2 exchanges,
      subscriptions and awaited acknowledgements. It calls application handlers
      from [step()] and from the calls that end a session, and these may call it
      back;
    - examples/: four transports (tcp_ip_transport.hpp and posix_transport.hpp
      over BSD sockets, winsock_transport.hpp, tls_transport.hpp over mbedTLS),
      the clocks posix_clock.hpp and win_clock.hpp, the address parser ipv4.hpp,
      and three programs (minimal_publisher.cpp, ip_publisher.cpp,
      pubsub_demo.cpp) that drive a client over them.

    ** The files

    This file, after the header: sizes and sub-ranges of byte lists, machine
    integers, record update, the tactics and hint databases the others use.

    Models, definition by definition after the source, in executable form:
    - [Errors], [Packet], [Utf8], [Topic], [Codec], [TxQueue], [Config]: the
      files of the same names. Integers of a machine width are [Z] with the
      reduction written out ([u8], [u16], [u32], [size_t]); the width of
      [size_t] is the class [SizeT]. Spans, strings and buffers are lists of
      bytes, and an encoder returns the buffer it wrote into along with its
      result. Table indices stand for the source's pointers.
    - [Etl]: the interface of ETL's byte streams, a type class of operations
      with the documented laws ([ByteStreamWriterOk], [ByteStreamReaderOk]), and
      an instance over lists. Code outside the repository appears only so.
    - [Transport]: the two abstract classes as type classes over an environment,
      with the contract their comments state ([TransportOk]).
    - [ClientState]: the data members as a record with a field per member, the
      tables, identifier allocation. [Effects]: the state of a run (the client,
      the environment, the history of what crossed the client's boundary and of
      the packets it handled) and a monad over it with its weakest preconditions. [Client]: one definition per
      member function. [Application]: handlers as programs that call the public
      interface, the calls running handlers in turn, and the states reachable by
      any application.
    - [Platform]: an object and the operating system it calls. A member function
      of a transport is a program over the object, the system and the trace of
      the calls that touch a resource; monitors read the trace (which descriptor
      is held, whether a call could wait). [Posix] has the system calls as a
      type class of operations with the ranges POSIX documents, and the POSIX
      clock; [TcpIpTransport], [PosixTransport], [WinsockTransport] and
      [TlsTransport] are the classes of examples/, the last two over interfaces
      of Winsock and mbedTLS, each an instance of [Transport].
    - [CLib]: what the examples use of the C library. [Ipv4]: the parser.
      [Examples]: the three programs in the client's monad, over any device.

    Proofs about the parts, used through their interfaces:
    - [PacketFacts], [TopicFacts], [CodecFacts]: reference definitions of the
      wire formats and of topic levels, and the equations of the code with them;
      [encodes] is what the client relies on of an encoder.
    - [ClientTables]: searches, edits, identifier allocation. [ClientInv]: the
      invariant [sys_ok]. [ClientQueue], [ClientSpecs], [SubscribeSpecs],
      [ReceiveSpecs], [SessionSpecs], [StepSpecs], [AppSpecs]: every operation
      keeps it and its loops end, whatever the handlers do, up to the calls of an
      application; [SessionSpecs] has the retransmission, table and queue.
    - [ClientDevice]: what the client keeps of its surroundings, against the
      interface [TransportKeeps]: a property of the transport that its methods
      preserve holds throughout, the transport is closed in [Idle], and the
      members stay within their C++ types. The transports are instances of that
      interface; [DeviceRuns] puts the two together and has simulated systems.
    - [ClientPersist]: what a slot carries, through every operation, in an
      application that asks for no clean session, or up to the end of a clean one.
    - [ClientTrace], [TraceSpecs]: the invariant [traced] between the history and
      the receive side (what is held of what was received, which packet is being
      handled, which QoS 2 identifiers are not released), kept by every operation.
    - [Broker]: a link that moves bytes and a broker that answers a publisher, as
      an interface ([Peer], [PeerOk]), and an instance that runs. [Talk]: the
      client's half of the exchange, through receiving; [Settle]: the whole step,
      [connect] and [publish], a measure in bytes that every step brings down
      while something is outstanding. [Network]: what it takes of the system
      calls for [TcpIpTransport] to be such a link ([NetworkOk], an instance of
      [PeerOk]); [NetBench]: a system that runs.
    - [LinkSpec]: the abstract link that transport.hpp describes, and what it
      takes to refine it.
    - [ExampleFacts], [ExampleDeadline]: the programs keep what the client keeps,
      and the deadline of pubsub_demo ends its loops.
    - [Bench], [Scenarios]: a scripted link that satisfies the transport
      contract, and runs over it that reach concrete states.

    Properties:
    - [ClientProps]: the invariant in all reachable states; on every connection
      the bytes sent and queued are a CONNECT and whole session packets after
      it; every call returns; the outcome of [publish]; inbound QoS 1 and 2
      (acknowledged before delivery, no repeat delivered, PUBREL).
    - [SessionProps]: outbound acknowledgements (PUBACK, PUBREC, PUBCOMP),
      retransmission, [connect], [shutdown], dispatch, keep-alive.
    - [SubscribeProps]: [subscribe] and [unsubscribe], SUBACK and UNSUBACK as
      maps over the table, renewal after a reconnection, when it is sent and when
      it is stuck.
    - [WireProps]: variable byte integers, headers, strings, filters, matching,
      PUBLISH round trips, framing, CONNECT byte for byte, SUBSCRIBE, SUBACK; the
      transmit queue, member by member, refines a bounded FIFO with a region to
      write in.
    - [PersistProps]: an accepted QoS 1 or 2 message is kept, across connections,
      until the application is told of its delivery.
    - [TraceProps]: the bytes received are the packets handled and the bytes held;
      every callback is caused by the packet handled last; no QoS 2 message is
      handed over twice.
    - [LiveProps]: with a link and a broker that work, everything in flight is
      delivered after a bounded number of steps.
    - [TcpLive]: the same for the client, [TcpIpTransport] and [PosixClock]
      together, over a system and a network that work.
    - [ExampleLive]: minimal_publisher ends and returns 0 over any link and broker
      that work; when [publish], [connect] and [disconnect] are bound to succeed.
    - [DeviceProps]: the transports refine the abstract link; a client over
      TCP, Winsock or TLS holds at most one socket or verified connection, calls
      nothing on another, and has none in [Idle]; the IPv4 parser against a
      definition by fields, and back.
    - [ExampleProps]: what exit code zero of the programs means, and that
      pubsub_demo ends. (ip_publisher has no deadline; nothing is claimed of
      whether it does.)
    - [Findings], [DeviceFindings]: runs in which the client, the transports and
      the programs do not do what they mean to or what is said of them.

    ** Assumptions, bounds and fuel

    The theorems about the client assume a configuration that [ConfigCheck]
    accepts ([ConfigOk]), with at most 65535 subscriptions and stored packets of
    at most 65535 bytes ([ConfigSane]; [Findings] shows what happens beyond),
    and a [size_t] of at least 32 bits ([WideSizeT]; [Findings] shows what
    happens below). The arguments of calls are
    within their types ([call_ok]).

    The delivery theorems of [LiveProps], [TcpLive] and [ExampleLive] are about a
    client without subscriptions and handlers that do not call it. The peer
    accepts and answers; [send] moves at least a byte, [connect] and [recv] keep
    the client waiting a number of times that is bounded ([delays]). The window of
    time is not longer than the connect timeout and shorter than the
    retransmission interval ([patient]) and three quarters of the keep-alive
    interval ([publishing]), where these are not 0. The queue has room for a PUBREL
    per exchange ([releases_fit]), which [ConfigCheck] does not ask for, and for
    what the table keeps from an earlier connection unless a clean session
    discards it ([kept_fits]): without room a packet waits for the retransmission
    timer, if there is one ([Findings]).

    [dispatch_exact] is about handlers that leave the subscription table alone
    while the session goes on; the invariant, the termination and the trace
    theorems are about any handlers.

    Loops of the source that are not structural carry a bound that is proved
    sufficient: [pump_tx] one round per queued byte, since a round that goes on
    has sent at least one; [drain_rx] one round per byte held, since a round
    that goes on has consumed a packet; the searches and parsers one round per
    element. [pump_rx] has the source's own bound. Nested callbacks are bounded
    by a depth; depth two is enough unless the handler for the end of a session
    itself ends a session or pumps ([calls_return]), and a run that exceeds its
    depth is [None], never a result.

    The loops of the example programs that have no bound of their own carry
    fuel, and a run that exceeds it is [None]. The theorems of [ExampleProps]
    about exit codes are about runs that end, with runs that do as witnesses.
    minimal_publisher has no deadline, and ends if its broker answers: 28 rounds
    are enough and one for each delay, since the measure of [Settle] goes down in
    each ([ExampleLive]). For pubsub_demo, which
    has a deadline, one round per nanosecond of it is enough if the clock
    advances and no call takes longer than a day ([steady]). The theorems about
    [PosixTransport] assume descriptors below [FD_SETSIZE] ([SmallFds];
    [DeviceFindings] shows what happens beyond), those about mbedTLS that
    [close] follows a failed [connect], as the interface promises.

    ** Not modelled

    ETL, the operating systems and mbedTLS themselves, which are interfaces; the
    delegate type of the handler slots and its deleted overloads; console output
    of the programs and the static_asserts on object sizes; tests and tools. The
    overload of [publish] for text is [publish] itself, the bytes being the
    same. *)
From stdpp Require Export base list decidable.
From Stdlib Require Export ZArith Lia.

#[global] Open Scope Z_scope.

(** ** Sizes and sub-ranges of byte buffers

    Sizes, indices and lengths are [size_t] values in the source; they are
    integers here, and a buffer is the list of its bytes. *)
Definition zlen {A} (l : list A) : Z := Z.of_nat (length l).
Definition ztake {A} (n : Z) (l : list A) : list A := take (Z.to_nat n) l.
Definition zdrop {A} (n : Z) (l : list A) : list A := drop (Z.to_nat n) l.
Definition zget {A} (l : list A) (i : Z) : option A := l !! Z.to_nat i.

(** [memcpy]/[memmove] of [xs] to offset [i] of [l]. *)
Definition splice {A} (l : list A) (i : Z) (xs : list A) : list A :=
  ztake i l ++ xs ++ zdrop (i + zlen xs) l.

Create Rewrite HintDb zlist.

Section zlists.
Context {A : Type}.
Implicit Types (l k : list A) (n i : Z).

Lemma zlen_nonneg l : 0 <= zlen l.
Proof. unfold zlen; lia. Qed.

Lemma zlen_nil : zlen (@nil A) = 0.
Proof. reflexivity. Qed.

Lemma zlen_cons x l : zlen (x :: l) = 1 + zlen l.
Proof. unfold zlen; cbn [length]; lia. Qed.

Lemma zlen_app l k : zlen (l ++ k) = zlen l + zlen k.
Proof. unfold zlen; rewrite length_app; lia. Qed.

Lemma zlen_ztake n l : 0 <= n <= zlen l -> zlen (ztake n l) = n.
Proof. unfold zlen, ztake; rewrite length_take; lia. Qed.

Lemma zlen_zdrop n l : 0 <= n <= zlen l -> zlen (zdrop n l) = zlen l - n.
Proof. unfold zlen, zdrop; rewrite length_drop; lia. Qed.

Lemma zlen_zdrop_le n l : zlen (zdrop n l) <= zlen l.
Proof. unfold zlen, zdrop; rewrite length_drop; lia. Qed.

Lemma zlen_0_nil l : zlen l = 0 -> l = [].
Proof. unfold zlen; destruct l; cbn [length]; [done | lia]. Qed.

Lemma zlen_replicate n (x : A) : zlen (replicate (Z.to_nat n) x) = Z.max 0 n.
Proof. unfold zlen; rewrite length_replicate; lia. Qed.

Lemma zlen_insert (i : nat) x l : zlen (<[i:=x]> l) = zlen l.
Proof. unfold zlen; by rewrite length_insert. Qed.

Lemma zlen_fmap {B} (f : A -> B) l : zlen (f <$> l) = zlen l.
Proof. unfold zlen; by rewrite length_fmap. Qed.

Lemma ztake_app_zlen l k : ztake (zlen l) (l ++ k) = l.
Proof. unfold ztake, zlen. by rewrite Nat2Z.id, take_app_length. Qed.

Lemma zdrop_app_zlen l k : zdrop (zlen l) (l ++ k) = k.
Proof. unfold zdrop, zlen. by rewrite Nat2Z.id, drop_app_length. Qed.

Lemma ztake_zdrop n l : ztake n l ++ zdrop n l = l.
Proof. apply take_drop. Qed.

Lemma ztake_0 l : ztake 0 l = [].
Proof. reflexivity. Qed.

Lemma zdrop_0 l : zdrop 0 l = l.
Proof. reflexivity. Qed.

Lemma ztake_all n l : zlen l <= n -> ztake n l = l.
Proof. unfold zlen, ztake; intros; apply take_ge; lia. Qed.

Lemma zdrop_all n l : zlen l <= n -> zdrop n l = [].
Proof. unfold zlen, zdrop; intros; apply drop_ge; lia. Qed.

Lemma zdrop_zdrop n m l : 0 <= n -> 0 <= m -> zdrop n (zdrop m l) = zdrop (m + n) l.
Proof. intros; unfold zdrop; rewrite drop_drop; f_equal; lia. Qed.

Lemma ztake_ztake n m l : 0 <= n -> 0 <= m -> ztake n (ztake m l) = ztake (Z.min n m) l.
Proof. intros; unfold ztake; rewrite take_take; f_equal; lia. Qed.

Lemma ztake_app_le n l k : n <= zlen l -> ztake n (l ++ k) = ztake n l.
Proof. unfold ztake, zlen; intros; apply take_app_le; lia. Qed.

Lemma zdrop_app_le n l k : n <= zlen l -> zdrop n (l ++ k) = zdrop n l ++ k.
Proof. unfold zdrop, zlen; intros; apply drop_app_le; lia. Qed.

Lemma ztake_app_add l k n : 0 <= n -> ztake (zlen l + n) (l ++ k) = l ++ ztake n k.
Proof.
  intros; unfold ztake, zlen.
  replace (Z.to_nat (Z.of_nat (length l) + n)) with (length l + Z.to_nat n)%nat by lia.
  by rewrite take_app_add.
Qed.

Lemma zdrop_app_add l k n : 0 <= n -> zdrop (zlen l + n) (l ++ k) = zdrop n k.
Proof.
  intros; unfold zdrop, zlen.
  replace (Z.to_nat (Z.of_nat (length l) + n)) with (length l + Z.to_nat n)%nat by lia.
  by rewrite drop_app_add.
Qed.

(** Where a buffer splits at the write position, a copy there replaces the
    front of the second half. *)
Lemma splice_app l k xs :
  zlen xs <= zlen k -> splice (l ++ k) (zlen l) xs = (l ++ xs) ++ zdrop (zlen xs) k.
Proof.
  intros. unfold splice.
  rewrite ztake_app_zlen, zdrop_app_add by apply zlen_nonneg.
  by rewrite app_assoc.
Qed.

Lemma zlen_splice l i xs :
  0 <= i -> i + zlen xs <= zlen l -> zlen (splice l i xs) = zlen l.
Proof.
  intros. unfold splice. pose proof (zlen_nonneg xs).
  rewrite !zlen_app, zlen_ztake, zlen_zdrop; lia.
Qed.

Lemma zget_Some_lt l i x : 0 <= i -> zget l i = Some x -> i < zlen l.
Proof. unfold zget, zlen; intros ? ?%lookup_lt_Some; lia. Qed.

Lemma zget_is_Some l i : 0 <= i < zlen l -> is_Some (zget l i).
Proof. unfold zget, zlen; intros; apply lookup_lt_is_Some; lia. Qed.

Lemma zdrop_zget l i x : 0 <= i -> zget l i = Some x -> zdrop i l = x :: zdrop (i + 1) l.
Proof.
  intros Hi Hx. unfold zget, zdrop in *.
  replace (Z.to_nat (i + 1)) with (S (Z.to_nat i)) by lia.
  by apply drop_S.
Qed.
End zlists.

(** ** Lists edited in place *)
Section edits.
Context {A : Type}.
Implicit Types (l : list A) (i : nat).

Lemma zlen_alter (f : A -> A) i l : zlen (alter f i l) = zlen l.
Proof. unfold zlen. by rewrite length_alter. Qed.

Lemma zlen_sublist l k : l `sublist_of` k -> zlen l <= zlen k.
Proof. intros H%sublist_length. unfold zlen. lia. Qed.

Lemma zlen_omap {B} (f : A -> option B) l : zlen (omap f l) <= zlen l.
Proof.
  induction l as [|x l IH]; [done|]. rewrite zlen_cons. cbn [omap list_omap].
  destruct (f x); [rewrite zlen_cons|]; lia.
Qed.

Lemma alter_lookup_insert (f : A -> A) i l x : l !! i = Some x -> alter f i l = <[i := f x]> l.
Proof.
  revert i; induction l as [|y l IH]; intros [|i] Hi; cbn in *; try done.
  - by injection Hi as ->.
  - f_equal. by apply IH.
Qed.

Lemma Forall_sublist (P : A -> Prop) l k : l `sublist_of` k -> Forall P k -> Forall P l.
Proof.
  induction 1 as [|x l k Hs IH|x l k Hs IH]; intros Hk; [done|..];
    apply Forall_cons_iff in Hk as [? ?]; [constructor|]; auto.
Qed.

(** An edit that keeps what [f] reads keeps the list of what [f] reads. *)
Lemma fmap_alter_same {B} (f : A -> B) (g : A -> A) i l :
  (forall x, l !! i = Some x -> f (g x) = f x) -> f <$> alter g i l = f <$> l.
Proof.
  revert i; induction l as [|x l IH]; intros [|i] Hg; cbn; try done.
  - f_equal. by apply Hg.
  - f_equal. apply IH. intros y Hy. by apply (Hg y).
Qed.
End edits.

#[export] Hint Rewrite @zlen_nil @zlen_cons @zlen_app @zlen_insert @zlen_fmap
  @zlen_replicate : zlist.
#[export] Hint Rewrite @zlen_ztake @zlen_zdrop using lia : zlist.

(** Linear arithmetic over lengths of composed lists. *)
Ltac zlia := autorewrite with zlist in *; try lia.

(** ** Machine integers *)
Definition u8 (x : Z) : Z := x mod 2 ^ 8.
Definition u16 (x : Z) : Z := x mod 2 ^ 16.
Definition u32 (x : Z) : Z := x mod 2 ^ 32.
Definition u64 (x : Z) : Z := x mod 2 ^ 64.

Definition is_u8 (x : Z) : Prop := 0 <= x < 2 ^ 8.
Definition is_u16 (x : Z) : Prop := 0 <= x < 2 ^ 16.
Definition is_u32 (x : Z) : Prop := 0 <= x < 2 ^ 32.

(** The bytes of a buffer are in range. *)
Definition bytes_ok (l : list Z) : Prop := Forall is_u8 l.

(** The width of [size_t] on the target. ISO C++ guarantees 16 bits. *)
Class SizeT := { size_bits : Z; size_bits_min : 16 <= size_bits }.

(** Conversion of an exact value to [size_t]. *)
Definition size_t `{SizeT} (x : Z) : Z := x mod 2 ^ size_bits.

(** The targets the library is built for: [size_t] of at least 32 bits. *)
Class WideSizeT `{SizeT} : Prop := size_bits_wide : 32 <= size_bits.

Section ints.
Lemma u8_range x : is_u8 (u8 x).
Proof. unfold is_u8, u8; apply Z.mod_pos_bound; lia. Qed.
Lemma u16_range x : is_u16 (u16 x).
Proof. unfold is_u16, u16; apply Z.mod_pos_bound; lia. Qed.
Lemma u32_range x : is_u32 (u32 x).
Proof. unfold is_u32, u32; apply Z.mod_pos_bound; lia. Qed.
Lemma u8_small x : is_u8 x -> u8 x = x.
Proof. apply Z.mod_small. Qed.
Lemma u16_small x : is_u16 x -> u16 x = x.
Proof. apply Z.mod_small. Qed.
Lemma u32_small x : is_u32 x -> u32 x = x.
Proof. apply Z.mod_small. Qed.

Lemma size_t_small `{WideSizeT} x : 0 <= x < 2 ^ 32 -> size_t x = x.
Proof.
  unfold WideSizeT, size_t in *. intros. apply Z.mod_small.
  split; [lia|]. apply Z.lt_le_trans with (2 ^ 32); [lia|].
  by apply Z.pow_le_mono_r.
Qed.

(** A field put next to the low [n] bits. *)
Lemma lor_shiftl_add a b n : 0 <= n -> 0 <= b < 2 ^ n -> Z.lor (Z.shiftl a n) b = a * 2 ^ n + b.
Proof.
  intros Hn Hb.
  assert (Hland : Z.land (Z.shiftl a n) b = 0).
  { apply Z.bits_inj'. intros i Hi. rewrite Z.land_spec, Z.bits_0.
    destruct (Z.ltb_spec i n).
    - by rewrite Z.shiftl_spec_low.
    - rewrite <- (Z.mod_small b (2 ^ n)) by lia.
      by rewrite Z.mod_pow2_bits_high, andb_false_r by lia. }
  pose proof (Z.add_lor_land (Z.shiftl a n) b) as H. rewrite Hland in H.
  rewrite Z.shiftl_mul_pow2 in * by lia. lia.
Qed.

Lemma bytes_ok_cons b l : bytes_ok (b :: l) <-> is_u8 b /\ bytes_ok l.
Proof. apply Forall_cons_iff. Qed.
Lemma bytes_ok_app l k : bytes_ok (l ++ k) <-> bytes_ok l /\ bytes_ok k.
Proof. apply Forall_app. Qed.
Lemma bytes_ok_take n l : bytes_ok l -> bytes_ok (ztake n l).
Proof. apply Forall_take. Qed.
Lemma bytes_ok_drop n l : bytes_ok l -> bytes_ok (zdrop n l).
Proof. apply Forall_drop. Qed.
End ints.

#[export] Instance is_u8_dec x : Decision (is_u8 x).
Proof. unfold is_u8. apply _. Defined.
#[export] Instance bytes_ok_dec l : Decision (bytes_ok l).
Proof. unfold bytes_ok. apply _. Defined.

(** A statement about one byte that evaluation settles for each of the 256
    values. *)
Definition all_bytes : list Z := Z.of_nat <$> seq 0 256.

Lemma all_bytes_spec (P : Z -> bool) :
  forallb P all_bytes = true -> forall b, is_u8 b -> P b = true.
Proof.
  intros Hall b Hb. rewrite forallb_forall in Hall. apply Hall.
  apply list_elem_of_In, list_elem_of_fmap. exists (Z.to_nat b).
  unfold is_u8 in Hb. split; [lia|]. apply elem_of_seq. lia.
Qed.

(** ** Proof steps shared by the components *)

(** Split every conditional of the goal or the hypotheses and reflect the
    integer comparisons. *)
Ltac zbool :=
  repeat match goal with
  | H : (_ && _) = true |- _ => apply andb_prop in H as [? ?]
  | H : (_ && _) = false |- _ => apply andb_false_iff in H
  | H : (_ || _) = true |- _ => apply orb_prop in H
  | H : (_ || _) = false |- _ => apply orb_false_elim in H as [? ?]
  | H : negb _ = true |- _ => apply negb_true_iff in H
  | H : negb _ = false |- _ => apply negb_false_iff in H
  | H : (_ =? _) = true |- _ => apply Z.eqb_eq in H
  | H : (_ =? _) = false |- _ => apply Z.eqb_neq in H
  | H : (_ <? _) = true |- _ => apply Z.ltb_lt in H
  | H : (_ <? _) = false |- _ => apply Z.ltb_ge in H
  | H : (_ <=? _) = true |- _ => apply Z.leb_le in H
  | H : (_ <=? _) = false |- _ => apply Z.leb_gt in H
  | H : (_ >? _) = true |- _ => rewrite Z.gtb_ltb in H; apply Z.ltb_lt in H
  | H : (_ >? _) = false |- _ => rewrite Z.gtb_ltb in H; apply Z.ltb_ge in H
  | H : (_ >=? _) = true |- _ => rewrite Z.geb_leb in H; apply Z.leb_le in H
  | H : (_ >=? _) = false |- _ => rewrite Z.geb_leb in H; apply Z.leb_gt in H
  end.

Ltac case_if :=
  match goal with
  | |- context [if ?b then _ else _] =>
      lazymatch type of b with bool => let E := fresh "E" in destruct b eqn:E end
  end.

Ltac case_if_in H :=
  match type of H with
  | context [if ?b then _ else _] =>
      lazymatch type of b with bool => let E := fresh "E" in destruct b eqn:E end
  end.

(** A closed decidable proposition, by evaluation. *)
Ltac by_decide := apply (bool_decide_unpack _); vm_compute; exact I.

(** ** Record update

    [r <| p := v |>] replaces the field [p]; [r <| p ::= f |>] maps it. A record
    type takes part by declaring its eta-expansion; the updates are derived. *)
Class Eta (R : Type) := eta_record : R -> R.
Class Field {R F : Type} (proj : R -> F) := update_field : (F -> F) -> R -> R.

Ltac derive_field :=
  lazymatch goal with
  | |- @Field ?R ?F ?proj =>
      let body := constr:(fun (f : F) (r : R) => ltac:(
        let e := eval cbv [eta_record] in (eta_record r) in
        let e := eval hnf in e in
        let e := eval pattern (proj r) in e in
        lazymatch e with ?k _ => let t := eval cbv beta in (k f) in exact t end)) in
      exact (fun g r => body (g (proj r)) r)
  end.

#[export] Hint Extern 0 (Field _) => derive_field : typeclass_instances.

Declare Scope record_scope.
#[global] Open Scope record_scope.
Notation "r <| p := v |>" := (update_field (proj := p) (fun _ => v) r)
  (at level 1, left associativity) : record_scope.
Notation "r <| p ::= f |>" := (update_field (proj := p) f r)
  (at level 1, left associativity) : record_scope.
