(* ===== verification/Errors.v ===== *)
(** * Errors: the [Error] enumeration and [Result<T>] (include/mqtt/error.hpp)

    [Error] keeps the source's enumerators and their pinned numeric values;
    [Result] is the value-or-error carrier every fallible codec operation
    returns. *)
From Stdlib Require Import String.
From S2P Require Import Prelude.

Inductive Error :=
  | Ok | WouldBlock | Incomplete
  | InvalidArgument | NotConnected | AlreadyConnected | NotSupported
  | BufferTooSmall | TxQueueFull | NoInflightSlot | NoSubscriptionSlot
  | NoPendingAckSlot | PayloadTooLarge | TopicTooLong
  | MalformedPacket | ProtocolViolation | PacketTooLarge | ConnectionRefused
  | KeepAliveTimeout | ConnectTimeout
  | TransportFailure | TransportClosed | Reentrant.

#[export] Instance Error_eq_dec : EqDecision Error.
Proof. solve_decision. Defined.

(** The byte an [Error] is stored as. *)
Definition Error_value (e : Error) : Z :=
  match e with
  | Ok => 0 | WouldBlock => 1 | Incomplete => 2 | InvalidArgument => 3
  | NotConnected => 4 | AlreadyConnected => 5 | NotSupported => 6
  | BufferTooSmall => 7 | TxQueueFull => 8 | NoInflightSlot => 9
  | NoSubscriptionSlot => 10 | NoPendingAckSlot => 11 | PayloadTooLarge => 12
  | TopicTooLong => 13 | MalformedPacket => 14 | ProtocolViolation => 15
  | PacketTooLarge => 16 | ConnectionRefused => 17 | KeepAliveTimeout => 18
  | ConnectTimeout => 19 | TransportFailure => 20 | TransportClosed => 21
  | Reentrant => 22
  end.

Definition all_errors : list Error :=
  [Ok; WouldBlock; Incomplete; InvalidArgument; NotConnected; AlreadyConnected;
   NotSupported; BufferTooSmall; TxQueueFull; NoInflightSlot; NoSubscriptionSlot;
   NoPendingAckSlot; PayloadTooLarge; TopicTooLong; MalformedPacket;
   ProtocolViolation; PacketTooLarge; ConnectionRefused; KeepAliveTimeout;
   ConnectTimeout; TransportFailure; TransportClosed; Reentrant].

(** [static_cast<Error>(v)], where [v] names an enumerator. *)
Definition Error_of_value (v : Z) : option Error :=
  List.find (fun e => Error_value e =? v) all_errors.

Definition Error_eqb (a b : Error) : bool := bool_decide (a = b).

Definition is_retryable (e : Error) : bool :=
  Error_eqb e WouldBlock || Error_eqb e Incomplete.

(** [to_string(Error)] of a stored byte; a byte that names no enumerator falls
    out of the switch. *)
Definition Error_name (e : Error) : string :=
  match e with
  | Ok => "Ok" | WouldBlock => "WouldBlock" | Incomplete => "Incomplete"
  | InvalidArgument => "InvalidArgument" | NotConnected => "NotConnected"
  | AlreadyConnected => "AlreadyConnected" | NotSupported => "NotSupported"
  | BufferTooSmall => "BufferTooSmall" | TxQueueFull => "TxQueueFull"
  | NoInflightSlot => "NoInflightSlot" | NoSubscriptionSlot => "NoSubscriptionSlot"
  | NoPendingAckSlot => "NoPendingAckSlot" | PayloadTooLarge => "PayloadTooLarge"
  | TopicTooLong => "TopicTooLong" | MalformedPacket => "MalformedPacket"
  | ProtocolViolation => "ProtocolViolation" | PacketTooLarge => "PacketTooLarge"
  | ConnectionRefused => "ConnectionRefused" | KeepAliveTimeout => "KeepAliveTimeout"
  | ConnectTimeout => "ConnectTimeout" | TransportFailure => "TransportFailure"
  | TransportClosed => "TransportClosed" | Reentrant => "Reentrant"
  end%string.

Definition Error_to_string (v : Z) : string :=
  match Error_of_value v with
  | Some e => Error_name e
  | None => "Unknown"%string
  end.

(** ** Result<T> *)
Inductive Result (A : Type) :=
  | Val (v : A)
  | Err (e : Error).
Arguments Val {A} v.
Arguments Err {A} e.

Definition ok {A} (r : Result A) : bool :=
  match r with Val _ => true | Err e => Error_eqb e Ok end.

Definition error {A} (r : Result A) : Error :=
  match r with Val _ => Ok | Err e => e end.

(** [value()] of a failed result is a default-constructed [T]. *)
Definition value {A} (dflt : A) (r : Result A) : A :=
  match r with Val v => v | Err _ => dflt end.

(** [value_or()] tests [ok()] before it falls back. *)
Definition value_or {A} (dflt : A) (r : Result A) (fallback : A) : A :=
  match r with
  | Val v => v
  | Err e => if Error_eqb e Ok then dflt else fallback
  end.

Declare Scope result_scope.
Delimit Scope result_scope with result.
#[global] Open Scope result_scope.
Notation "'let?' x ':=' r 'in' k" :=
  (match r with Val x => k | Err e => Err e end)
  (at level 10, x pattern, r at level 100, k at level 200) : result_scope.

Section errors.
Lemma Error_eqb_eq a b : Error_eqb a b = true <-> a = b.
Proof. apply bool_decide_eq_true. Qed.

Lemma Error_eqb_neq a b : Error_eqb a b = false <-> a <> b.
Proof. apply bool_decide_eq_false. Qed.

Lemma Val_inj {A} (a b : A) : Val a = Val b -> a = b.
Proof. congruence. Qed.

Lemma Error_value_range e : is_u8 (Error_value e).
Proof. unfold is_u8; destruct e; cbn; lia. Qed.
End errors.
