(* ===== verification/Packet.v ===== *)
(** * Packet: the MQTT wire vocabulary (packet.hpp, packet.cpp)

    Control packet types, the fixed header's first byte, the variable byte
    integer and the value types the codec and the client exchange. *)
From Stdlib Require Import String.
From S2P Require Import Prelude Errors.

Inductive PacketType :=
  | Reserved | Connect | Connack | Publish | Puback | Pubrec | Pubrel | Pubcomp
  | Subscribe | Suback | Unsubscribe | Unsuback | Pingreq | Pingresp | Disconnect.

#[export] Instance PacketType_eq_dec : EqDecision PacketType.
Proof. solve_decision. Defined.

Definition PacketType_value (t : PacketType) : Z :=
  match t with
  | Reserved => 0 | Connect => 1 | Connack => 2 | Publish => 3 | Puback => 4
  | Pubrec => 5 | Pubrel => 6 | Pubcomp => 7 | Subscribe => 8 | Suback => 9
  | Unsubscribe => 10 | Unsuback => 11 | Pingreq => 12 | Pingresp => 13
  | Disconnect => 14
  end.

Definition all_packet_types : list PacketType :=
  [Reserved; Connect; Connack; Publish; Puback; Pubrec; Pubrel; Pubcomp;
   Subscribe; Suback; Unsubscribe; Unsuback; Pingreq; Pingresp; Disconnect].

(** [static_cast<PacketType>(v)], where [v] names an enumerator. *)
Definition PacketType_of_value (v : Z) : option PacketType :=
  List.find (fun t => PacketType_value t =? v) all_packet_types.

Definition PacketType_eqb (a b : PacketType) : bool := bool_decide (a = b).

Definition PacketType_name (t : PacketType) : string :=
  match t with
  | Reserved => "RESERVED" | Connect => "CONNECT" | Connack => "CONNACK"
  | Publish => "PUBLISH" | Puback => "PUBACK" | Pubrec => "PUBREC"
  | Pubrel => "PUBREL" | Pubcomp => "PUBCOMP" | Subscribe => "SUBSCRIBE"
  | Suback => "SUBACK" | Unsubscribe => "UNSUBSCRIBE" | Unsuback => "UNSUBACK"
  | Pingreq => "PINGREQ" | Pingresp => "PINGRESP" | Disconnect => "DISCONNECT"
  end%string.

(** [to_string(PacketType)] of a stored byte. *)
Definition PacketType_to_string (v : Z) : string :=
  match PacketType_of_value v with
  | Some t => PacketType_name t
  | None => "UNKNOWN"%string
  end.

(** [QoS] is an enumeration over a byte. A cast can put any byte in it, and the
    codec checks for that, so it stays the byte. *)
Definition QoS : Type := Z.
Definition AtMostOnce : QoS := 0.
Definition AtLeastOnce : QoS := 1.
Definition ExactlyOnce : QoS := 2.

Inductive ConnackCode :=
  | Accepted | UnacceptableProtocolVersion | IdentifierRejected
  | ServerUnavailable | BadUsernameOrPassword | NotAuthorized.

#[export] Instance ConnackCode_eq_dec : EqDecision ConnackCode.
Proof. solve_decision. Defined.

Definition ConnackCode_value (c : ConnackCode) : Z :=
  match c with
  | Accepted => 0 | UnacceptableProtocolVersion => 1 | IdentifierRejected => 2
  | ServerUnavailable => 3 | BadUsernameOrPassword => 4 | NotAuthorized => 5
  end.

Definition all_connack_codes : list ConnackCode :=
  [Accepted; UnacceptableProtocolVersion; IdentifierRejected; ServerUnavailable;
   BadUsernameOrPassword; NotAuthorized].

Definition ConnackCode_of_value (v : Z) : option ConnackCode :=
  List.find (fun c => ConnackCode_value c =? v) all_connack_codes.

(** [to_string(ConnackCode)] of a stored byte. *)
Definition ConnackCode_to_string (v : Z) : string :=
  match ConnackCode_of_value v with
  | Some Accepted => "Accepted"
  | Some UnacceptableProtocolVersion => "Unacceptable protocol version"
  | Some IdentifierRejected => "Identifier rejected"
  | Some ServerUnavailable => "Server unavailable"
  | Some BadUsernameOrPassword => "Bad user name or password"
  | Some NotAuthorized => "Not authorized"
  | None => "Unknown CONNACK code"
  end%string.

Definition kSubackFailure : Z := 0x80.
Definition kProtocolLevel_3_1_1 : Z := 4.
Definition kMaxRemainingLength : Z := 268435455.
Definition kMaxVbiBytes : Z := 4.

(** ** Fixed header *)
Record FixedHeader := mkFixedHeader {
  fh_type : PacketType;
  fh_dup : bool;
  fh_qos : QoS;
  fh_retain : bool;
  fh_remaining_length : Z;
}.

Definition default_FixedHeader : FixedHeader :=
  mkFixedHeader Reserved false AtMostOnce false 0.

(** The three types whose flag nibble is mandated to be 0b0010. *)
Definition has_flags_0010 (t : PacketType) : bool :=
  PacketType_eqb t Pubrel || PacketType_eqb t Subscribe || PacketType_eqb t Unsubscribe.

Definition to_byte (h : FixedHeader) : Z :=
  let b := u8 (Z.shiftl (PacketType_value (fh_type h)) 4) in
  if PacketType_eqb (fh_type h) Publish then
    let b := if fh_dup h then Z.lor b 0x08 else b in
    let b := Z.lor b (u8 (Z.shiftl (Z.land (fh_qos h) 0x03) 1)) in
    if fh_retain h then Z.lor b 0x01 else b
  else if has_flags_0010 (fh_type h) then Z.lor b 0x02
  else b.

Definition from_byte (b : Z) : Result FixedHeader :=
  let type_nibble := Z.land (Z.shiftr b 4) 0x0F in
  let flags := Z.land b 0x0F in
  if (type_nibble =? 0) || (type_nibble >? PacketType_value Disconnect) then Err MalformedPacket
  else
    match PacketType_of_value type_nibble with
    | None => Err MalformedPacket (* excluded by the range check above *)
    | Some t =>
        if PacketType_eqb t Publish then
          let q := Z.land (Z.shiftr flags 1) 0x03 in
          if q >? 2 then Err MalformedPacket
          else Val (mkFixedHeader t (negb (Z.land flags 0x08 =? 0)) q
                      (negb (Z.land flags 0x01 =? 0)) 0)
        else
          let expected := if has_flags_0010 t then 0x02 else 0x00 in
          if negb (flags =? expected) then Err MalformedPacket
          else Val (mkFixedHeader t false AtMostOnce false 0)
    end.

(** ** Variable byte integer *)
Definition vbi_size (v : Z) : Z :=
  if v >? kMaxRemainingLength then 0
  else if v <? 128 then 1
  else if v <? 16384 then 2
  else if v <? 2097152 then 3
  else 4.

Definition header_size `{SizeT} (h : FixedHeader) : Z :=
  let n := vbi_size (fh_remaining_length h) in
  if n =? 0 then 0 else size_t (1 + n).

Definition total_size `{SizeT} (h : FixedHeader) : Z :=
  size_t (header_size h + fh_remaining_length h).

(** The do-while loop of [vbi_encode]: [out[i++] = byte] until the value is
    used up. A 32-bit value is used up after five rounds. *)
Fixpoint vbi_encode_loop (rounds : nat) (out : list Z) (i v : Z) : list Z * Z :=
  match rounds with
  | O => (out, i)
  | S rounds =>
      let byte := u8 (v mod 128) in
      let v := v / 128 in
      let byte := if v >? 0 then u8 (Z.lor byte 0x80) else byte in
      let out := <[Z.to_nat i := byte]> out in
      let i := i + 1 in
      if v >? 0 then vbi_encode_loop rounds out i v else (out, i)
  end.

Definition vbi_encode (out : list Z) (v : Z) : Result Z * list Z :=
  if v >? kMaxRemainingLength then (Err InvalidArgument, out)
  else
    let needed := vbi_size v in
    if zlen out <? needed then (Err BufferTooSmall, out)
    else let '(out, i) := vbi_encode_loop 5 out 0 v in (Val i, out).

Record VbiDecode := mkVbiDecode { vbi_value : Z; vbi_bytes : Z }.

(** The loop of [vbi_decode] from index [i] on, with [rounds] rounds to go. *)
Fixpoint vbi_decode_loop (rounds : nat) (inp : list Z) (i acc multiplier : Z) : Result VbiDecode :=
  match rounds with
  | O => Err MalformedPacket
  | S rounds =>
      match zget inp i with
      | None => Err Incomplete
      | Some byte =>
          let acc := u32 (acc + u32 (Z.land byte 0x7F * multiplier)) in
          if Z.land byte 0x80 =? 0 then
            if negb (i + 1 =? vbi_size acc) then Err MalformedPacket
            else Val (mkVbiDecode acc (i + 1))
          else vbi_decode_loop rounds inp (i + 1) acc (u32 (multiplier * 128))
      end
  end.

Definition vbi_decode (inp : list Z) : Result VbiDecode :=
  vbi_decode_loop (Z.to_nat kMaxVbiBytes) inp 0 0 1.

(** ** Message and option value types *)
Record Message := mkMessage {
  msg_topic : list Z;
  msg_payload : list Z;
  msg_qos : QoS;
  msg_retain : bool;
  msg_dup : bool;
  msg_packet_id : Z;
}.

Record Will := mkWill {
  will_topic : list Z;
  will_payload : list Z;
  will_qos : QoS;
  will_retain : bool;
}.

Definition empty {A} (l : list A) : bool := match l with [] => true | _ => false end.

(** [Will::valid]. *)
Definition will_valid (w : Will) : bool := negb (empty (will_topic w)).

Record ConnectOptions := mkConnectOptions {
  opt_client_id : list Z;
  opt_username : list Z;
  opt_password : list Z;
  opt_will : Will;
  opt_keep_alive_s : Z;
  opt_clean_session : bool;
}.

Record ConnackInfo := mkConnackInfo {
  ci_code : ConnackCode;
  ci_session_present : bool;
}.

Definition default_ConnackInfo : ConnackInfo := mkConnackInfo Accepted false.

Record TopicSubscription := mkTopicSubscription {
  ts_filter : list Z;
  ts_qos : QoS;
}.
