(* ===== verification/PacketFacts.v ===== *)
(** * PacketFacts: correctness of the wire vocabulary

    The variable byte integer against its reference encoding ([vbi_wire]), and
    the fixed header's first byte. *)
From S2P Require Import Prelude Errors Packet.

(** ** Bit operations on a byte *)
Lemma land_7F b : Z.land b 0x7F = b mod 128.
Proof. change 0x7F with (Z.ones 7). by rewrite Z.land_ones by lia. Qed.

Lemma land_0F b : Z.land b 0x0F = b mod 16.
Proof. change 0x0F with (Z.ones 4). by rewrite Z.land_ones by lia. Qed.

Lemma land_80_zero b : is_u8 b -> (Z.land b 0x80 =? 0) = (b <? 128).
Proof.
  intros Hb. apply eqb_prop.
  revert b Hb. apply (all_bytes_spec (fun b => eqb (Z.land b 0x80 =? 0) (b <? 128))).
  vm_compute. reflexivity.
Qed.

Lemma lor_80 b : 0 <= b < 128 -> Z.lor b 0x80 = b + 128.
Proof.
  intros Hb.
  assert (Hall : forallb (fun b => (128 <=? b) || (Z.lor b 0x80 =? b + 128)) all_bytes = true)
    by (vm_compute; reflexivity).
  pose proof (all_bytes_spec _ Hall b ltac:(unfold is_u8; lia)) as H.
  cbv beta in H. zbool. destruct H; zbool; lia.
Qed.

(** ** The reference encoding of a remaining length

    Base-128 digits, least significant first, the continuation bit set on every
    digit but the last. *)
Fixpoint vbi_digits (n : nat) (v : Z) : list Z :=
  match n with
  | O => []
  | S n => if v <? 128 then [v] else (v mod 128 + 128) :: vbi_digits n (v / 128)
  end.

Definition vbi_wire (v : Z) : list Z := vbi_digits 4 v.

(** The remaining lengths MQTT can express. *)
Definition vbi_ok (v : Z) : Prop := 0 <= v <= kMaxRemainingLength.

Lemma vbi_ok_div v : vbi_ok v -> 0 <= v / 128 < 2097152.
Proof. unfold vbi_ok, kMaxRemainingLength. Z.to_euclidean_division_equations; lia. Qed.

Lemma vbi_size_range v : vbi_ok v -> 1 <= vbi_size v <= 4.
Proof. unfold vbi_ok, vbi_size. intros. repeat case_if; zbool; lia. Qed.

Lemma zlen_vbi_wire v : vbi_ok v -> zlen (vbi_wire v) = vbi_size v.
Proof.
  unfold vbi_ok, vbi_wire, vbi_size, kMaxRemainingLength. intros Hv. cbn [vbi_digits].
  repeat case_if; zbool; autorewrite with zlist; Z.to_euclidean_division_equations; lia.
Qed.

Lemma vbi_digits_bytes n v : 0 <= v -> bytes_ok (vbi_digits n v).
Proof.
  revert v; induction n as [|n IH]; intros v Hv; cbn [vbi_digits]; [constructor|].
  case_if; zbool; constructor.
  - unfold is_u8; lia.
  - constructor.
  - pose proof (Z.mod_pos_bound v 128). unfold is_u8; lia.
  - apply IH. apply Z.div_pos; lia.
Qed.

Lemma vbi_wire_bytes v : vbi_ok v -> bytes_ok (vbi_wire v).
Proof. intros [? _]. by apply vbi_digits_bytes. Qed.

(** The encoder's loop writes the reference digits at its index. *)
Lemma vbi_encode_loop_spec rounds pre out v :
  0 <= v < 128 ^ Z.of_nat rounds -> v < 2 ^ 32 ->
  zlen (vbi_digits rounds v) <= zlen out -> (0 < rounds)%nat ->
  vbi_encode_loop rounds (pre ++ out) (zlen pre) v =
    (pre ++ vbi_digits rounds v ++ zdrop (zlen (vbi_digits rounds v)) out,
     zlen pre + zlen (vbi_digits rounds v)).
Proof.
  revert pre out v; induction rounds as [|rounds IH]; intros pre out v Hv H32 Hlen Hr; [lia|].
  assert (Hm : 0 <= v mod 128 < 128) by (apply Z.mod_pos_bound; lia).
  assert (Hins : forall x y k, <[Z.to_nat (zlen pre):=y]> (pre ++ x :: k) = pre ++ y :: k).
  { intros x y k. unfold zlen. rewrite Nat2Z.id, <- (Nat.add_0_r (length pre)).
    by rewrite insert_app_r. }
  cbn [vbi_encode_loop vbi_digits] in *.
  rewrite (u8_small (v mod 128)) by (unfold is_u8; lia).
  destruct (v <? 128) eqn:Ev; zbool.
  - rewrite Z.div_small, Z.mod_small by lia. cbn [Z.gtb Z.compare].
    destruct out as [|x out]; [zlia|]. rewrite Hins. done.
  - assert (Hd : 0 < v / 128) by (Z.to_euclidean_division_equations; lia).
    destruct (v / 128 >? 0) eqn:Eg; zbool; [|lia].
    rewrite lor_80, u8_small by (unfold is_u8; lia).
    destruct out as [|x out]; [exfalso; zlia; pose proof (zlen_nonneg (vbi_digits rounds (v / 128))); lia|].
    rewrite Hins. autorewrite with zlist in Hlen.
    replace (zlen pre + 1) with (zlen (pre ++ [v mod 128 + 128])) by zlia.
    replace (pre ++ (v mod 128 + 128) :: out) with ((pre ++ [v mod 128 + 128]) ++ out)
      by (by rewrite <- app_assoc).
    assert (Hpow : v / 128 < 128 ^ Z.of_nat rounds).
    { apply Z.div_lt_upper_bound; [lia|].
      rewrite Nat2Z.inj_succ, Z.pow_succ_r in Hv by lia. lia. }
    destruct rounds as [|rounds].
    { cbn in Hpow. lia. }
    rewrite IH; [| split; [lia|done] | | lia | lia].
    + rewrite <- !app_assoc. cbn [app]. autorewrite with zlist. f_equal; [|lia].
      do 2 f_equal. unfold zdrop. f_equal.
      replace (Z.to_nat (1 + zlen (vbi_digits (S rounds) (v / 128))))
        with (S (Z.to_nat (zlen (vbi_digits (S rounds) (v / 128)))))
        by (pose proof (zlen_nonneg (vbi_digits (S rounds) (v / 128))); lia).
      done.
    + Z.to_euclidean_division_equations; lia.
Qed.

Lemma vbi_digits_5 v : vbi_ok v -> vbi_digits 5 v = vbi_wire v.
Proof.
  unfold vbi_ok, kMaxRemainingLength, vbi_wire. intros Hv. cbn [vbi_digits].
  repeat case_if; zbool; try done;
    exfalso; Z.to_euclidean_division_equations; lia.
Qed.

(** What [vbi_encode] writes is the reference encoding, and it leaves the rest
    of the span alone. *)
Lemma vbi_encode_wire out v :
  vbi_ok v -> vbi_size v <= zlen out ->
  vbi_encode out v = (Val (vbi_size v), vbi_wire v ++ zdrop (vbi_size v) out).
Proof.
  intros Hv Hlen. unfold vbi_encode.
  rewrite (proj2 (Z.ltb_ge (zlen out) (vbi_size v)) Hlen).
  destruct (v >? kMaxRemainingLength) eqn:E1; zbool; [unfold vbi_ok in Hv; lia|].
  pose proof (vbi_encode_loop_spec 5 [] out v) as Hloop.
  rewrite vbi_digits_5, zlen_vbi_wire in Hloop by done.
  change (zlen (@nil Z)) with 0 in Hloop. cbn [app] in Hloop.
  unfold vbi_ok, kMaxRemainingLength in Hv. rewrite Hloop by (lia || done).
  done.
Qed.

(** ** Decoding

    The decoder's loop, unrolled over the bytes it looks at. *)
Definition vbi_finish (n acc : Z) : Result VbiDecode :=
  if n =? vbi_size acc then Val (mkVbiDecode acc n) else Err MalformedPacket.

Fixpoint vbi_read (rounds : nat) (inp : list Z) (i acc mult : Z) : Result VbiDecode :=
  match rounds with
  | O => Err MalformedPacket
  | S rounds =>
      match inp with
      | [] => Err Incomplete
      | b :: inp =>
          if b <? 128 then vbi_finish (i + 1) (acc + b * mult)
          else vbi_read rounds inp (i + 1) (acc + (b - 128) * mult) (mult * 128)
      end
  end.

Lemma vbi_decode_loop_read rounds pre inp acc mult :
  bytes_ok inp -> 0 <= acc < mult -> 0 < mult -> mult * 128 ^ Z.of_nat rounds <= 2 ^ 28 ->
  vbi_decode_loop rounds (pre ++ inp) (zlen pre) acc mult = vbi_read rounds inp (zlen pre) acc mult.
Proof.
  revert pre inp acc mult; induction rounds as [|rounds IH];
    intros pre inp acc mult Hok Hacc Hm Hpow; [done|].
  rewrite Nat2Z.inj_succ, Z.pow_succ_r in Hpow by lia.
  assert (1 <= 128 ^ Z.of_nat rounds) by (apply Z.lt_pred_le, Z.pow_pos_nonneg; lia).
  assert (mult * 128 <= 2 ^ 28) by nia.
  cbn [vbi_decode_loop vbi_read]. destruct inp as [|b inp].
  { unfold zget, zlen. rewrite app_nil_r, Nat2Z.id, lookup_ge_None_2 by lia. done. }
  apply bytes_ok_cons in Hok as [Hb Hok].
  replace (zget (pre ++ b :: inp) (zlen pre)) with (Some b).
  2: { unfold zget, zlen. by rewrite Nat2Z.id, list_lookup_middle. }
  rewrite land_80_zero, land_7F by done. unfold is_u8 in Hb.
  assert (Hmod : 0 <= b mod 128 < 128) by (apply Z.mod_pos_bound; lia).
  rewrite (u32_small (b mod 128 * mult)), (u32_small (acc + _)) by (unfold is_u32; nia).
  destruct (b <? 128) eqn:Eb; zbool.
  - rewrite Z.mod_small by lia. unfold vbi_finish.
    destruct (zlen pre + 1 =? vbi_size (acc + b * mult)); done.
  - replace (b mod 128) with (b - 128) by (Z.to_euclidean_division_equations; lia).
    rewrite (u32_small (mult * 128)) by (unfold is_u32; lia).
    replace (zlen pre + 1) with (zlen (pre ++ [b])) by zlia.
    replace (pre ++ b :: inp) with ((pre ++ [b]) ++ inp) by (by rewrite <- app_assoc).
    apply IH; [done | nia | lia | lia].
Qed.

Lemma vbi_decode_read inp : bytes_ok inp -> vbi_decode inp = vbi_read 4 inp 0 0 1.
Proof.
  intros Hok. unfold vbi_decode, kMaxVbiBytes.
  apply (vbi_decode_loop_read 4 []); [done | lia..].
Qed.

(** Decoding the reference encoding, whatever follows it, gives the value. *)
Lemma vbi_decode_wire v rest :
  vbi_ok v -> bytes_ok rest ->
  vbi_decode (vbi_wire v ++ rest) = Val (mkVbiDecode v (vbi_size v)).
Proof.
  intros Hv Hr. rewrite vbi_decode_read by (apply bytes_ok_app; eauto using vbi_wire_bytes).
  pose proof (zlen_vbi_wire v Hv) as Hlen. unfold vbi_ok, kMaxRemainingLength in Hv.
  unfold vbi_wire in *. cbn [vbi_digits] in *.
  assert (Hfin : forall n w, n = vbi_size v -> w = v -> vbi_finish n w = Val (mkVbiDecode v (vbi_size v))).
  { intros n w -> ->. unfold vbi_finish. by rewrite Z.eqb_refl. }
  repeat (case_if; zbool; cbn [app vbi_read]; autorewrite with zlist in Hlen);
    first [ apply Hfin; [lia | Z.to_euclidean_division_equations; lia]
          | exfalso; Z.to_euclidean_division_equations; lia ].
Qed.

(** Whatever the decoder accepts is the reference encoding of a value in
    range: one spelling per value. *)
Lemma vbi_decode_sound inp d :
  bytes_ok inp -> vbi_decode inp = Val d ->
  vbi_ok (vbi_value d) /\ vbi_bytes d = vbi_size (vbi_value d) /\
  inp = vbi_wire (vbi_value d) ++ zdrop (vbi_bytes d) inp.
Proof.
  intros Hok Hd. rewrite vbi_decode_read in Hd by done. cbn [vbi_read] in Hd.
  assert (Hfin : forall n w, vbi_finish n w = Val d -> d = mkVbiDecode w n /\ n = vbi_size w).
  { intros n w. unfold vbi_finish. case_if; [|done]. intros [= <-]. by zbool. }
  assert (Hsz : forall n w, n = vbi_size w -> 0 < n -> 0 <= w ->
            vbi_ok w /\ zlen (vbi_wire w) = n).
  { intros n w -> Hn Hw. assert (vbi_ok w) by (unfold vbi_size in Hn; unfold vbi_ok; case_if_in Hn; zbool; lia).
    by rewrite zlen_vbi_wire. }
  repeat (destruct inp as [|? inp]; [done|]; apply bytes_ok_cons in Hok as [? Hok];
          case_if_in Hd; zbool;
          [ apply Hfin in Hd as [-> Hn]; cbn [vbi_value vbi_bytes]; unfold is_u8 in *;
            destruct (Hsz _ _ Hn) as [Hv Hw]; [lia | lia | split; [done|split; [done|]]] | ]);
    [..|done].
  all: unfold vbi_wire in *; cbn [vbi_digits] in *; cbn [zdrop Z.to_nat Z.add];
    match goal with |- _ = (if ?w <? 128 then _ else _) ++ _ => remember w as v eqn:Ew in * end.
  all: repeat case_if; zbool; autorewrite with zlist in Hw; try lia;
    change (zdrop _ _) with inp; cbn [app];
    repeat f_equal; Z.to_euclidean_division_equations; lia.
Qed.

(** The decoder asks for more bytes exactly while it holds fewer than four and
    each carries the continuation bit. *)
Lemma vbi_decode_incomplete inp :
  bytes_ok inp ->
  vbi_decode inp = Err Incomplete <-> zlen inp < kMaxVbiBytes /\ Forall (fun b => 128 <= b) inp.
Proof.
  intros Hok. rewrite vbi_decode_read by done.
  assert (Hgo : forall n inp i acc m,
    vbi_read n inp i acc m = Err Incomplete <-> zlen inp < Z.of_nat n /\ Forall (fun b => 128 <= b) inp).
  { clear. induction n as [|n IH]; intros inp i acc m; cbn [vbi_read].
    - split; [done|]. intros [? _]. pose proof (zlen_nonneg inp). lia.
    - destruct inp as [|b inp]; [split; [intros _; split; [zlia|constructor] | done]|].
      rewrite zlen_cons, Forall_cons_iff. case_if; zbool.
      + unfold vbi_finish. split; [by case_if | lia].
      + rewrite IH. split; intros; destruct_and?; repeat split; try done; lia. }
  apply Hgo.
Qed.

(** The decoder's only other refusal is [MalformedPacket]. *)
Lemma vbi_decode_errors inp e :
  vbi_decode inp = Err e -> e = Incomplete \/ e = MalformedPacket.
Proof.
  assert (Hgo : forall n i acc m, vbi_decode_loop n inp i acc m = Err e ->
            e = Incomplete \/ e = MalformedPacket).
  { intros n. induction n as [|n IH]; cbn [vbi_decode_loop]; intros i acc m H.
    - injection H as <-. by right.
    - destruct (zget inp i); [|injection H as <-; by left].
      case_if_in H; [|by eapply IH].
      case_if_in H; [injection H as <-; by right | done]. }
  apply Hgo.
Qed.

(** ** The fixed header's first byte *)

(** The headers that exist on the wire: a real packet type, a QoS in range, and
    no flags but on PUBLISH. The length is not part of the byte. *)
Definition header_ok (h : FixedHeader) : bool :=
  negb (PacketType_eqb (fh_type h) Reserved) &&
  (fh_remaining_length h =? 0) &&
  if PacketType_eqb (fh_type h) Publish then (0 <=? fh_qos h) && (fh_qos h <=? 2)
  else negb (fh_dup h) && (fh_qos h =? 0) && negb (fh_retain h).

Lemma header_ok_qos h : header_ok h = true -> 0 <= fh_qos h <= 2.
Proof. unfold header_ok. intros Hh. zbool. destruct (PacketType_eqb _ Publish); zbool; lia. Qed.

Lemma to_byte_from_byte h : header_ok h = true -> from_byte (to_byte h) = Val h.
Proof.
  destruct h as [t dup q retain rl]. unfold header_ok. cbn [fh_type fh_dup fh_qos fh_retain fh_remaining_length].
  intros H. zbool. subst rl.
  destruct (PacketType_eqb t Publish) eqn:Et; zbool.
  - apply bool_decide_eq_true in Et as ->.
    assert (q = 0 \/ q = 1 \/ q = 2) as [-> | [-> | ->]] by lia; by destruct dup, retain.
  - subst. destruct t; done.
Qed.

Lemma from_byte_to_byte b h :
  is_u8 b -> from_byte b = Val h -> to_byte h = b /\ header_ok h = true.
Proof.
  intros Hb Hh.
  assert (Hall : forallb (fun b => match from_byte b with
      | Val h => (to_byte h =? b) && header_ok h | Err _ => true end) all_bytes = true)
    by (vm_compute; reflexivity).
  pose proof (all_bytes_spec _ Hall b Hb) as H. cbv beta in H. rewrite Hh in H.
  zbool. clear Hall. split; assumption.
Qed.

Lemma from_byte_errors b e : from_byte b = Err e -> e = MalformedPacket.
Proof.
  unfold from_byte. intros H. case_if_in H; [congruence|].
  destruct (PacketType_of_value _) as [t|]; [|congruence].
  destruct (PacketType_eqb t Publish); case_if_in H; congruence.
Qed.

Lemma to_byte_range h : is_u8 (fh_qos h) -> is_u8 (to_byte h).
Proof.
  destruct h as [t dup q retain rl]. cbn [fh_qos]. intros Hq.
  destruct (decide (t = Publish)) as [->|Ht].
  - assert (Hall : forallb (fun q => bool_decide (is_u8 (to_byte (mkFixedHeader Publish dup q retain rl))))
              all_bytes = true) by (destruct dup, retain; vm_compute; reflexivity).
    eapply bool_decide_eq_true, (all_bytes_spec _ Hall q Hq).
  - unfold is_u8. destruct t; try done; cbn; lia.
Qed.
