(* ===== verification/Utf8.v ===== *)
(** * Utf8: validation of MQTT strings (utf8.hpp, utf8.cpp)

    [is_valid_mqtt_string] as the source loops over byte indices, and its
    equivalence with RFC 3629: a string is accepted exactly when it is the
    encoding of a sequence of Unicode scalar values other than U+0000. *)
From S2P Require Import Prelude Errors Packet PacketFacts.

(** [byte_at(s, i)]. The callers stay in range. *)
Definition byte_at (s : list Z) (i : Z) : Z := default 0 (zget s i).

Definition kSmallestFor (continuations : Z) : Z :=
  if continuations =? 0 then 0x00000000
  else if continuations =? 1 then 0x00000080
  else if continuations =? 2 then 0x00000800
  else 0x00010000.

Definition kMaxCodePoint : Z := 0x0010FFFF.
Definition kSurrogateFirst : Z := 0x0000D800.
Definition kSurrogateLast : Z := 0x0000DFFF.

(** Classification of a lead byte: the number of continuation bytes and the
    bits the lead contributes; [None] is the [return false]. *)
Definition lead_class (lead : Z) : option (Z * Z) :=
  if lead <? 0x80 then Some (0, lead)
  else if Z.land lead 0xE0 =? 0xC0 then Some (1, Z.land lead 0x1F)
  else if Z.land lead 0xF0 =? 0xE0 then Some (2, Z.land lead 0x0F)
  else if Z.land lead 0xF8 =? 0xF0 then Some (3, Z.land lead 0x07)
  else None.

(** The loop over [k = 1 .. continuations]; [None] is the [return false]. *)
Fixpoint continuation_loop (count : nat) (s : list Z) (at_ code_point : Z) : option Z :=
  match count with
  | O => Some code_point
  | S count =>
      let cont := byte_at s at_ in
      if negb (Z.land cont 0xC0 =? 0x80) then None
      else continuation_loop count s (at_ + 1)
             (Z.lor (u32 (Z.shiftl code_point 6)) (Z.land cont 0x3F))
  end.

(** The [while (i < n)] loop; [None] means [fuel] rounds were not enough. *)
Fixpoint validate_loop (fuel : nat) (s : list Z) (i : Z) : option bool :=
  let n := zlen s in
  match fuel with
  | O => None
  | S fuel =>
      if i <? n then
        let lead := byte_at s i in
        if lead =? 0x00 then Some false
        else
          match lead_class lead with
          | None => Some false
          | Some (continuations, code_point) =>
              if n - i <=? continuations then Some false
              else
                match continuation_loop (Z.to_nat continuations) s (i + 1) code_point with
                | None => Some false
                | Some code_point =>
                    if code_point <? kSmallestFor continuations then Some false
                    else if (code_point >=? kSurrogateFirst) && (code_point <=? kSurrogateLast)
                    then Some false
                    else if code_point >? kMaxCodePoint then Some false
                    else validate_loop fuel s (i + (continuations + 1))
                end
          end
      else Some true
  end.

(** Every round consumes at least one byte, so one round per byte and one to
    notice the end are enough. *)
Definition is_valid_mqtt_string (s : list Z) : bool :=
  default false (validate_loop (S (length s)) s 0).

(** ** The reference: RFC 3629 *)
Definition scalar_value (c : Z) : Prop :=
  0 <= c <= 0x10FFFF /\ ~ (0xD800 <= c <= 0xDFFF).

Definition utf8_encode (c : Z) : list Z :=
  if c <? 0x80 then [c]
  else if c <? 0x800 then [0xC0 + c / 64; 0x80 + c mod 64]
  else if c <? 0x10000 then [0xE0 + c / 64 / 64; 0x80 + c / 64 mod 64; 0x80 + c mod 64]
  else [0xF0 + c / 64 / 64 / 64; 0x80 + c / 64 / 64 mod 64; 0x80 + c / 64 mod 64; 0x80 + c mod 64].

Definition utf8_text (cs : list Z) : list Z := mjoin (utf8_encode <$> cs).

(** The characters an MQTT string may hold. *)
Definition mqtt_char (c : Z) : Prop := scalar_value c /\ c <> 0.

(** ** Bit patterns of a byte *)
Lemma lead_class_spec b :
  is_u8 b ->
  lead_class b =
    if b <? 128 then Some (0, b)
    else if b <? 192 then None
    else if b <? 224 then Some (1, b - 192)
    else if b <? 240 then Some (2, b - 224)
    else if b <? 248 then Some (3, b - 240)
    else None.
Proof.
  intros Hb.
  set (ref := fun b : Z => if b <? 128 then Some (0, b) else if b <? 192 then None
    else if b <? 224 then Some (1, b - 192) else if b <? 240 then Some (2, b - 224)
    else if b <? 248 then Some (3, b - 240) else None).
  assert (Hall : forallb (fun b => bool_decide (lead_class b = ref b)) all_bytes = true)
    by (vm_compute; reflexivity).
  eapply bool_decide_eq_true, (all_bytes_spec _ Hall b Hb).
Qed.

Lemma cont_class b :
  is_u8 b -> (Z.land b 0xC0 =? 0x80) = (128 <=? b) && (b <? 192).
Proof.
  intros Hb.
  assert (Hall : forallb (fun b => eqb (Z.land b 0xC0 =? 0x80) ((128 <=? b) && (b <? 192))) all_bytes = true)
    by (vm_compute; reflexivity).
  apply eqb_prop, (all_bytes_spec _ Hall b Hb).
Qed.

Lemma land_3F b : 128 <= b < 192 -> Z.land b 0x3F = b - 128.
Proof.
  intros. change 0x3F with (Z.ones 6). rewrite Z.land_ones by lia.
  Z.to_euclidean_division_equations; lia.
Qed.

Lemma shift_lor c x :
  0 <= c < 2 ^ 26 -> 0 <= x < 64 -> Z.lor (u32 (Z.shiftl c 6)) x = c * 64 + x.
Proof.
  intros Hc Hx. rewrite u32_small.
  - apply (lor_shiftl_add c x 6); lia.
  - unfold is_u32. rewrite Z.shiftl_mul_pow2; lia.
Qed.

(** ** One character off the front of a string *)

(** The same step on the bytes still to be read, without indices. *)
Definition take_cont (s : list Z) (acc : Z) : option (Z * list Z) :=
  match s with
  | b :: s => if (128 <=? b) && (b <? 192) then Some (acc * 64 + (b - 128), s) else None
  | [] => None
  end.

Fixpoint take_conts (count : nat) (s : list Z) (acc : Z) : option (Z * list Z) :=
  match count with
  | O => Some (acc, s)
  | S count => match take_cont s acc with
               | Some (acc, s) => take_conts count s acc
               | None => None
               end
  end.

Definition take_char (s : list Z) : option (Z * list Z) :=
  match s with
  | [] => None
  | b :: s =>
      if b =? 0 then None
      else match lead_class b with
      | None => None
      | Some (k, acc) =>
          match take_conts (Z.to_nat k) s acc with
          | None => None
          | Some (c, s) =>
              if (kSmallestFor k <=? c) && negb ((kSurrogateFirst <=? c) && (c <=? kSurrogateLast))
                 && (c <=? kMaxCodePoint)
              then Some (c, s) else None
          end
      end
  end.

Lemma byte_at_app pre b rest : byte_at (pre ++ b :: rest) (zlen pre) = b.
Proof. unfold byte_at, zget, zlen. by rewrite Nat2Z.id, list_lookup_middle. Qed.

Lemma continuation_loop_take count pre s acc :
  bytes_ok s -> (count <= length s)%nat -> (count <= 3)%nat -> 0 <= acc < 2 ^ (26 - 6 * Z.of_nat count + 6) ->
  continuation_loop count (pre ++ s) (zlen pre) acc = fst <$> take_conts count s acc.
Proof.
  revert pre s acc; induction count as [|count IH]; intros pre s acc Hok Hlen Hc Hacc; [done|].
  destruct s as [|b s]; cbn [length] in Hlen; [lia|].
  apply bytes_ok_cons in Hok as [Hb Hok].
  cbn [continuation_loop take_conts take_cont]. rewrite byte_at_app, cont_class by done.
  destruct ((128 <=? b) && (b <? 192)) eqn:E; [|done]. cbn [negb]. zbool.
  assert (acc < 2 ^ 26).
  { eapply Z.lt_le_trans; [apply Hacc|]. apply Z.pow_le_mono_r; lia. }
  rewrite land_3F, shift_lor by lia.
  replace (zlen pre + 1) with (zlen (pre ++ [b])) by zlia.
  replace (pre ++ b :: s) with ((pre ++ [b]) ++ s) by (by rewrite <- app_assoc).
  apply IH; [done | lia | lia |]. split; [lia|].
  replace (26 - 6 * Z.of_nat count + 6) with (26 - 6 * Z.of_nat (S count) + 6 + 6) by lia.
  rewrite (Z.pow_add_r 2 _ 6) by lia. lia.
Qed.

Lemma take_conts_drop count s acc c rest :
  take_conts count s acc = Some (c, rest) -> (count <= length s)%nat /\ rest = drop count s.
Proof.
  revert s acc; induction count as [|count IH]; intros s acc H; cbn [take_conts] in H.
  - injection H as _ <-. split; [lia|done].
  - destruct s as [|b s]; [done|]. cbn [take_cont] in H.
    destruct ((128 <=? b) && (b <? 192)); [|done].
    apply IH in H as [? ->]. cbn [length drop]. split; [lia|done].
Qed.

Lemma lead_class_range b k acc :
  is_u8 b -> lead_class b = Some (k, acc) ->
  (k = 0 \/ k = 1 \/ k = 2 \/ k = 3) /\ 0 <= acc < 2 ^ (26 - 6 * k + 6).
Proof.
  intros Hb. rewrite lead_class_spec by done. unfold is_u8 in Hb.
  intros H. repeat case_if_in H; zbool; simplify_eq; (split; [lia|]); cbn; lia.
Qed.

(** The source's loop, as a loop over the bytes still to be read. *)
Lemma validate_loop_take fuel pre s :
  bytes_ok s -> (length s < fuel)%nat ->
  validate_loop fuel (pre ++ s) (zlen pre) =
    match s with
    | [] => Some true
    | _ => match take_char s with
           | None => Some false
           | Some (_, rest) => validate_loop (pred fuel) (pre ++ s) (zlen (pre ++ s) - zlen rest)
           end
    end.
Proof.
  intros Hok Hf. destruct fuel as [|fuel]; [lia|]. cbn [validate_loop pred].
  destruct s as [|b s].
  { rewrite app_nil_r, Z.ltb_irrefl. done. }
  replace (zlen pre <? zlen (pre ++ b :: s)) with true
    by (symmetry; apply Z.ltb_lt; zlia; pose proof (zlen_nonneg s); lia).
  rewrite byte_at_app. apply bytes_ok_cons in Hok as [Hb Hok]. cbn [take_char].
  destruct (b =? 0) eqn:E0; [done|].
  destruct (lead_class b) as [[k acc]|] eqn:Ek; [|done].
  destruct (lead_class_range b k acc Hb Ek) as [Hk Hacc].
  replace (zlen (pre ++ b :: s) - zlen pre) with (1 + zlen s) by zlia.
  case_if; zbool.
  { destruct (take_conts (Z.to_nat k) s acc) as [[c rest]|] eqn:Et; [|done].
    apply take_conts_drop in Et as [? _]. unfold zlen in *. lia. }
  replace (zlen pre + 1) with (zlen (pre ++ [b])) by zlia.
  replace (pre ++ b :: s) with ((pre ++ [b]) ++ s) by (by rewrite <- app_assoc).
  rewrite continuation_loop_take;
    [| done | unfold zlen in *; lia | lia | replace (Z.of_nat (Z.to_nat k)) with k by lia; done].
  destruct (take_conts (Z.to_nat k) s acc) as [[c rest]|] eqn:Et; [|done]. cbn [fmap option_fmap option_map fst].
  apply take_conts_drop in Et as [Hlen ->].
  rewrite Z.geb_leb, Z.gtb_ltb.
  destruct (c <? kSmallestFor k) eqn:E1, (kSurrogateFirst <=? c) eqn:E2,
    (c <=? kSurrogateLast) eqn:E3, (kMaxCodePoint <? c) eqn:E4;
    destruct (kSmallestFor k <=? c) eqn:E5, (c <=? kMaxCodePoint) eqn:E6; cbn [andb negb]; zbool;
    try lia; try done.
  all: f_equal; autorewrite with zlist; unfold zlen; rewrite ?length_drop; lia.
Qed.

(** A character taken off the front is the encoding of an MQTT character, and
    the encoding of an MQTT character comes off the front. *)
Lemma take_char_sound s c rest :
  bytes_ok s -> take_char s = Some (c, rest) -> mqtt_char c /\ s = utf8_encode c ++ rest.
Proof.
  intros Hok H. destruct s as [|b s]; [done|]. cbn [take_char] in H.
  apply bytes_ok_cons in Hok as [Hb Hok]. unfold is_u8 in Hb.
  case_if_in H; [done|]. rewrite lead_class_spec in H by done.
  unfold mqtt_char, scalar_value, utf8_encode, kSurrogateFirst, kSurrogateLast, kMaxCodePoint in *.
  repeat case_if_in H; zbool; try done;
    change (Z.to_nat 0) with 0%nat in H; change (Z.to_nat 1) with 1%nat in H;
    change (Z.to_nat 2) with 2%nat in H; change (Z.to_nat 3) with 3%nat in H;
    cbn [take_conts] in H;
    repeat match type of H with
    | context [take_cont ?t _] =>
        destruct t as [|? t]; [done|]; apply bytes_ok_cons in Hok as [? Hok];
        cbn [take_cont] in H; case_if_in H; [|done]; zbool
    end;
    (case_if_in H; [|done]); injection H as Hc <-;
    match goal with E : _ && negb ?x && _ = true |- _ =>
      apply andb_prop in E as [[Hmin Hsur]%andb_prop Hmax]; unfold kSmallestFor in Hmin; cbn in Hmin end;
    zbool; clear Hok.
  all: assert (~ (55296 <= c <= 57343)) by (destruct Hsur; zbool; lia); clear Hsur.
  all: split; [split; [split|]|]; try lia.
  all: repeat case_if; zbool; try lia; cbn [app]; subst c;
    repeat f_equal; Z.to_euclidean_division_equations; lia.
Qed.

Lemma take_cont_ok x s acc : 0 <= x < 64 -> take_cont (128 + x :: s) acc = Some (acc * 64 + x, s).
Proof.
  intros. cbn [take_cont]. case_if; [do 2 f_equal; lia|].
  zbool. destruct E; zbool; lia.
Qed.

(** The final checks accept a scalar value in the range of its length. *)
Lemma char_checks k c :
  mqtt_char c -> kSmallestFor k <= c ->
  (kSmallestFor k <=? c) && negb ((kSurrogateFirst <=? c) && (c <=? kSurrogateLast))
    && (c <=? kMaxCodePoint) = true.
Proof.
  unfold mqtt_char, scalar_value, kSurrogateFirst, kSurrogateLast, kMaxCodePoint.
  intros [[Hc Hs] H0] Hk.
  rewrite (proj2 (Z.leb_le _ _) Hk), (proj2 (Z.leb_le c 0x10FFFF)) by lia.
  destruct (0xD800 <=? c) eqn:E1, (c <=? 0xDFFF) eqn:E2; zbool; try done. lia.
Qed.

Lemma take_char_complete c rest :
  mqtt_char c -> take_char (utf8_encode c ++ rest) = Some (c, rest).
Proof.
  intros Hc. pose proof Hc as [[Hr Hs] H0].
  assert (Hmod : forall x, 0 <= x mod 64 < 64) by (intros; apply Z.mod_pos_bound; lia).
  assert (Hsplit : forall x, x / 64 * 64 + x mod 64 = x) by (intros; Z.to_euclidean_division_equations; lia).
  unfold take_char, utf8_encode.
  repeat case_if; zbool; cbn [app];
    match goal with |- context [if ?b =? 0 then _ else _] =>
      replace (b =? 0) with false by (symmetry; apply Z.eqb_neq; Z.to_euclidean_division_equations; lia)
    end; (rewrite lead_class_spec; [|unfold is_u8; Z.to_euclidean_division_equations; lia]);
    repeat (case_if; zbool; try (exfalso; Z.to_euclidean_division_equations; lia));
    change (Z.to_nat 0) with 0%nat; change (Z.to_nat 1) with 1%nat;
    change (Z.to_nat 2) with 2%nat; change (Z.to_nat 3) with 3%nat;
    cbn [take_conts]; rewrite ?take_cont_ok by done;
    rewrite ?Z.add_simpl_l, ?Hsplit, ?char_checks by (done || (cbn; lia)); done.
Qed.

Lemma utf8_encode_bytes c : mqtt_char c -> bytes_ok (utf8_encode c).
Proof.
  intros [[Hr Hs] H0]. unfold utf8_encode, bytes_ok.
  repeat case_if; zbool; repeat constructor; unfold is_u8; Z.to_euclidean_division_equations; lia.
Qed.

Lemma utf8_encode_nonempty c : 1 <= zlen (utf8_encode c).
Proof. unfold utf8_encode. repeat case_if; zlia. Qed.

(** The loop accepts exactly the encodings of MQTT characters, and it finishes. *)
Lemma validate_loop_spec fuel pre s :
  bytes_ok s -> (length s < fuel)%nat ->
  exists r, validate_loop fuel (pre ++ s) (zlen pre) = Some r /\
    (r = true <-> exists cs, Forall mqtt_char cs /\ s = utf8_text cs).
Proof.
  revert pre s; induction fuel as [|fuel IH]; intros pre s Hok Hf; [lia|].
  rewrite validate_loop_take by done. destruct s as [|b s].
  { exists true. split; [done|]. split; [|done]. intros _. by exists []. }
  destruct (take_char (b :: s)) as [[c rest]|] eqn:Et.
  - apply take_char_sound in Et as [Hc Heq]; [|done]. rewrite Heq in *.
    apply bytes_ok_app in Hok as [_ Hok]. cbn [pred].
    pose proof (utf8_encode_nonempty c).
    replace (zlen (pre ++ utf8_encode c ++ rest) - zlen rest)
      with (zlen (pre ++ utf8_encode c)) by zlia.
    rewrite app_assoc.
    destruct (IH (pre ++ utf8_encode c) rest Hok) as (r & -> & Hr).
    { rewrite length_app in Hf. unfold zlen in *. lia. }
    exists r. split; [done|]. rewrite Hr. split; intros (cs & Hcs & Hs).
    + exists (c :: cs). split; [by constructor|]. by rewrite Hs.
    + destruct cs as [|c' cs].
      { exfalso. apply (f_equal zlen) in Hs. change (utf8_text []) with (@nil Z) in Hs.
        pose proof (zlen_nonneg rest). zlia. }
      apply Forall_cons_iff in Hcs as [Hc' Hcs].
      change (utf8_text (c' :: cs)) with (utf8_encode c' ++ utf8_text cs) in Hs.
      apply (f_equal take_char) in Hs. rewrite !take_char_complete in Hs by done.
      injection Hs as <- Hs. by exists cs.
  - exists false. split; [done|]. split; [done|]. intros (cs & Hcs & Hs).
    destruct cs as [|c cs]; [done|]. apply Forall_cons_iff in Hcs as [Hc Hcs].
    change (utf8_text (c :: cs)) with (utf8_encode c ++ utf8_text cs) in Hs.
    rewrite Hs, take_char_complete in Et by done. done.
Qed.

Lemma is_valid_mqtt_string_spec s :
  bytes_ok s ->
  is_valid_mqtt_string s = true <-> exists cs, Forall mqtt_char cs /\ s = utf8_text cs.
Proof.
  intros Hok. unfold is_valid_mqtt_string.
  destruct (validate_loop_spec (S (length s)) [] s Hok ltac:(lia)) as (r & Hr & Hiff).
  change (zlen (@nil Z)) with 0 in Hr. cbn [app] in Hr. by rewrite Hr.
Qed.

(** Different texts have different encodings. *)
Lemma utf8_text_inj cs cs' :
  Forall mqtt_char cs -> Forall mqtt_char cs' -> utf8_text cs = utf8_text cs' -> cs = cs'.
Proof.
  intros Hcs. revert cs'. induction Hcs as [|c cs Hc Hcs IH]; intros cs' Hcs' Heq.
  - destruct cs' as [|c' cs']; [done|]. exfalso. apply (f_equal zlen) in Heq.
    change (utf8_text (c' :: cs')) with (utf8_encode c' ++ utf8_text cs') in Heq.
    pose proof (utf8_encode_nonempty c'). pose proof (zlen_nonneg (utf8_text cs')).
    change (utf8_text []) with (@nil Z) in Heq. zlia.
  - destruct cs' as [|c' cs'].
    { exfalso. apply (f_equal zlen) in Heq.
      change (utf8_text (c :: cs)) with (utf8_encode c ++ utf8_text cs) in Heq.
      pose proof (utf8_encode_nonempty c). pose proof (zlen_nonneg (utf8_text cs)).
      change (utf8_text []) with (@nil Z) in Heq. zlia. }
    apply Forall_cons_iff in Hcs' as [Hc' Hcs'].
    change (utf8_encode c ++ utf8_text cs = utf8_encode c' ++ utf8_text cs') in Heq.
    apply (f_equal take_char) in Heq. rewrite !take_char_complete in Heq by done.
    injection Heq as <- Heq. f_equal. by apply IH.
Qed.
