(* ===== verification/Topic.v ===== *)
(** * Topic: topic names, topic filters and matching (topic.hpp, topic.cpp)

    The three functions as the source writes them, over byte indices, and their
    meaning on topic levels: the bytes between the '/' separators. *)
From S2P Require Import Prelude Errors Packet PacketFacts Utf8.

Definition chr_slash : Z := 47.
Definition chr_plus : Z := 43.
Definition chr_hash : Z := 35.
Definition chr_dollar : Z := 36.

Definition is_wildcard (c : Z) : bool := (c =? chr_plus) || (c =? chr_hash).

(** [filter[i]]. The callers stay in range. *)
Definition char_at (s : list Z) (i : Z) : Z := default 0 (zget s i).

Definition is_valid_topic_name (name : list Z) : bool :=
  if empty name || (zlen name >? 65535) then false
  else if negb (is_valid_mqtt_string name) then false
  else forallb (fun c => negb ((c =? chr_plus) || (c =? chr_hash) || (c =? 0))) name.

(** The inner loop over [j = level_start .. i-1]: is there a wildcard? *)
Fixpoint has_wildcard_from (count : nat) (s : list Z) (j : Z) : bool :=
  match count with
  | O => false
  | S count => is_wildcard (char_at s j) || has_wildcard_from count s (j + 1)
  end.

(** The loop over [i] up to and including [filter.size()], with [rounds]
    rounds to go. *)
Fixpoint filter_loop (rounds : nat) (filter : list Z) (i level_start : Z) : bool :=
  match rounds with
  | O => true
  | S rounds =>
      let at_end := i =? zlen filter in
      if negb at_end && negb (char_at filter i =? chr_slash) then
        if char_at filter i =? 0 then false
        else filter_loop rounds filter (i + 1) level_start
      else
        let level_len := i - level_start in
        if level_len >? 1 then
          if has_wildcard_from (Z.to_nat level_len) filter level_start then false
          else filter_loop rounds filter (i + 1) (i + 1)
        else if (level_len =? 1) && (char_at filter level_start =? chr_hash) then
          if negb at_end then false
          else filter_loop rounds filter (i + 1) (i + 1)
        else filter_loop rounds filter (i + 1) (i + 1)
  end.

Definition is_valid_filter (filter : list Z) : bool :=
  if empty filter || (zlen filter >? 65535) then false
  else if negb (is_valid_mqtt_string filter) then false
  else filter_loop (S (length filter)) filter 0 0.

(** [while (end < s.size() && s[end] != '/') ++end;] with [rounds] to go. *)
Fixpoint level_end_loop (rounds : nat) (s : list Z) (end_ : Z) : Z :=
  match rounds with
  | O => end_
  | S rounds =>
      if (end_ <? zlen s) && negb (char_at s end_ =? chr_slash)
      then level_end_loop rounds s (end_ + 1)
      else end_
  end.

Definition level_end (s : list Z) (from : Z) : Z := level_end_loop (length s) s from.

(** [s.substr(pos, n)] and [s.substr(pos)]. *)
Definition substr (s : list Z) (pos n : Z) : list Z := ztake n (zdrop pos s).
Definition substr_from (s : list Z) (pos : Z) : list Z := zdrop pos s.

Definition is_level (s : list Z) (c : Z) : bool := (zlen s =? 1) && (char_at s 0 =? c).

(** The [for (;;)] loop; [None] means [fuel] rounds were not enough. *)
Fixpoint matches_loop (fuel : nat) (filter topic : list Z) (f t : Z) : option bool :=
  match fuel with
  | O => None
  | S fuel =>
      let f_end := level_end filter f in
      let f_level := substr filter f (f_end - f) in
      if is_level f_level chr_hash then Some true
      else
        let t_end := level_end topic t in
        let t_level := substr topic t (t_end - t) in
        if negb (is_level f_level chr_plus) && negb (bool_decide (f_level = t_level))
        then Some false
        else
          let f_more := f_end <? zlen filter in
          let t_more := t_end <? zlen topic in
          if negb f_more && negb t_more then Some true
          else if negb f_more && t_more then Some false
          else if f_more && negb t_more then
            let rest := substr_from filter (f_end + 1) in
            Some (is_level rest chr_hash)
          else matches_loop fuel filter topic (f_end + 1) (t_end + 1)
  end.

Definition topic_matches (filter topic : list Z) : bool :=
  if empty filter || empty topic then false
  else if (char_at topic 0 =? chr_dollar) && is_wildcard (char_at filter 0) then false
  else default false (matches_loop (S (length filter)) filter topic 0 0).

(** ** Topic levels *)

(** The bytes up to the first separator, and what follows it if there is one. *)
Fixpoint split_level (s : list Z) : list Z * option (list Z) :=
  match s with
  | [] => ([], None)
  | c :: s => if c =? chr_slash then ([], Some s)
              else let '(l, r) := split_level s in (c :: l, r)
  end.

Fixpoint levels (s : list Z) : list (list Z) :=
  match s with
  | [] => [[]]
  | c :: s => if c =? chr_slash then [] :: levels s
              else match levels s with
                   | l :: ls => (c :: l) :: ls
                   | [] => [[c]]
                   end
  end.

(** The string a list of levels spells. *)
Fixpoint join_levels (ls : list (list Z)) : list Z :=
  match ls with
  | [] => []
  | [l] => l
  | l :: ls => l ++ chr_slash :: join_levels ls
  end.

(** MQTT 3.1.1 section 4.7: '#' as the last level stands for the parent and any
    number of levels below it, '+' for exactly one level. *)
Inductive level_match : list (list Z) -> list (list Z) -> Prop :=
  | match_end : level_match [] []
  | match_hash ts : level_match [[chr_hash]] ts
  | match_plus t fs ts : level_match fs ts -> level_match ([chr_plus] :: fs) (t :: ts)
  | match_same t fs ts : level_match fs ts -> level_match (t :: fs) (t :: ts).

(** A wildcard fills its level. *)
Definition level_ok (l : list Z) : Prop :=
  Forall (fun c => is_wildcard c = false) l \/ l = [chr_plus] \/ l = [chr_hash].

(** '#' is the last level or absent. *)
Fixpoint hash_last (ls : list (list Z)) : Prop :=
  match ls with
  | [] | [_] => True
  | l :: ls => l <> [chr_hash] /\ hash_last ls
  end.

Definition filter_levels_ok (ls : list (list Z)) : Prop := Forall level_ok ls /\ hash_last ls.
