(* ===== verification/TopicFacts.v ===== *)
(** * TopicFacts: topic functions against their level-wise meaning *)
From S2P Require Import Prelude Errors Packet PacketFacts Utf8 Topic.

(** ** Levels *)
Lemma levels_nonempty s : levels s <> [].
Proof. destruct s as [|c s]; cbn; [done|]. case_if; [done|]. by destruct (levels s). Qed.

Lemma levels_split s :
  levels s = fst (split_level s) ::
    match snd (split_level s) with Some r => levels r | None => [] end.
Proof.
  induction s as [|c s IH]; [done|]. cbn [levels split_level].
  destruct (c =? chr_slash); [done|].
  destruct (split_level s) as [l r]. cbn [fst snd] in *. by rewrite IH.
Qed.

Lemma split_level_join s :
  s = fst (split_level s) ++
    match snd (split_level s) with Some r => chr_slash :: r | None => [] end.
Proof.
  induction s as [|c s IH]; [done|]. cbn [split_level].
  destruct (c =? chr_slash) eqn:E; zbool; [by subst|].
  destruct (split_level s) as [l r]. cbn [fst snd app] in *. by f_equal.
Qed.

(** Levels lose nothing: joining them with separators gives the string back. *)
Lemma join_levels_levels s : join_levels (levels s) = s.
Proof.
  induction s as [|c s IH]; [done|]. cbn [levels].
  pose proof (levels_nonempty s).
  destruct (c =? chr_slash) eqn:E; zbool.
  - subst. cbn [join_levels app]. destruct (levels s) eqn:El; [done|]. by rewrite IH.
  - destruct (levels s) as [|l [|l' ls]]; [done|..]; cbn [join_levels app] in *; by rewrite IH.
Qed.

Lemma levels_inj s s' : levels s = levels s' -> s = s'.
Proof. intros H. by rewrite <- (join_levels_levels s), H, join_levels_levels. Qed.

Lemma char_at_app pre c s : char_at (pre ++ c :: s) (zlen pre) = c.
Proof. apply byte_at_app. Qed.

Lemma app_cons_snoc {A} (pre : list A) c s : pre ++ c :: s = (pre ++ [c]) ++ s.
Proof. by rewrite <- app_assoc. Qed.

(** The scan for the end of a level. *)
Lemma level_end_loop_spec rounds pre s :
  (length s <= rounds)%nat ->
  level_end_loop rounds (pre ++ s) (zlen pre) = zlen pre + zlen (fst (split_level s)).
Proof.
  revert pre s; induction rounds as [|rounds IH]; intros pre s Hr; cbn [level_end_loop].
  - destruct s; [|cbn in Hr; lia]. cbn. zlia.
  - destruct s as [|c s].
    + rewrite app_nil_r, Z.ltb_irrefl. cbn. zlia.
    + replace (zlen pre <? zlen (pre ++ c :: s)) with true
        by (symmetry; apply Z.ltb_lt; pose proof (zlen_nonneg s); zlia).
      rewrite char_at_app. cbn [andb split_level].
      destruct (c =? chr_slash); cbn [negb]; [cbn; zlia|].
      replace (zlen pre + 1) with (zlen (pre ++ [c])) by zlia.
      rewrite app_cons_snoc, IH by (cbn in Hr; lia).
      destruct (split_level s); cbn [fst]. zlia.
Qed.

Lemma level_end_spec pre s :
  level_end (pre ++ s) (zlen pre) = zlen pre + zlen (fst (split_level s)).
Proof. apply level_end_loop_spec. rewrite length_app. lia. Qed.

Lemma is_level_spec s c : is_level s c = bool_decide (s = [c]).
Proof.
  unfold is_level. destruct s as [|x [|y s]]; [done|..].
  - change (char_at [x] 0) with x. change (zlen [x] =? 1) with true. cbn [andb].
    destruct (x =? c) eqn:E; zbool; subst.
    + by rewrite bool_decide_eq_true_2.
    + rewrite bool_decide_eq_false_2; [done|]. congruence.
  - rewrite !zlen_cons. pose proof (zlen_nonneg s).
    rewrite (proj2 (Z.eqb_neq _ 1)) by lia. by rewrite bool_decide_eq_false_2.
Qed.

(** ** Matching *)

(** What the loop computes, on levels. *)
Fixpoint levels_matchb (fs ts : list (list Z)) : bool :=
  match fs with
  | [] => false
  | f :: fs' =>
      bool_decide (f = [chr_hash]) ||
      match ts with
      | [] => false
      | t :: ts' =>
          (bool_decide (f = [chr_plus]) || bool_decide (f = t)) &&
          match fs', ts' with
          | [], [] => true
          | [], _ => false
          | _, [] => bool_decide (fs' = [[chr_hash]])
          | _, _ => levels_matchb fs' ts'
          end
      end
  end.

Lemma substr_level pre s :
  substr (pre ++ s) (zlen pre) (zlen pre + zlen (fst (split_level s)) - zlen pre) = fst (split_level s).
Proof.
  unfold substr. rewrite zdrop_app_zlen.
  replace (zlen pre + _ - zlen pre) with (zlen (fst (split_level s))) by lia.
  rewrite (split_level_join s) at 2. apply ztake_app_zlen.
Qed.

(** More input follows the level exactly when a separator ended it. *)
Lemma level_more pre s :
  (zlen pre + zlen (fst (split_level s)) <? zlen (pre ++ s)) =
  match snd (split_level s) with Some _ => true | None => false end.
Proof.
  rewrite zlen_app. rewrite (split_level_join s) at 2. rewrite zlen_app.
  destruct (snd (split_level s)) as [r|].
  - apply Z.ltb_lt. pose proof (zlen_nonneg r). zlia.
  - apply Z.ltb_ge. zlia.
Qed.

Lemma split_level_next pre s r :
  snd (split_level s) = Some r ->
  exists pre', pre ++ s = pre' ++ r /\ zlen pre' = zlen pre + zlen (fst (split_level s)) + 1 /\
    (length r < length s)%nat.
Proof.
  intros Hr. exists (pre ++ fst (split_level s) ++ [chr_slash]).
  pose proof (split_level_join s) as Hs. rewrite Hr in Hs. split; [|split].
  - rewrite Hs at 1. by rewrite <- !app_assoc.
  - zlia.
  - rewrite Hs, length_app. cbn [length]. lia.
Qed.

Lemma levels_matchb_cons f fs t ts :
  levels_matchb (f :: fs) (t :: ts) =
    bool_decide (f = [chr_hash]) ||
    (bool_decide (f = [chr_plus]) || bool_decide (f = t)) &&
    match fs, ts with
    | [], [] => true
    | [], _ => false
    | _, [] => bool_decide (fs = [[chr_hash]])
    | _, _ => levels_matchb fs ts
    end.
Proof. done. Qed.

(** The loop terminates, and computes [levels_matchb]. *)
Lemma matches_loop_spec fuel pf sf pt st :
  (length sf < fuel)%nat ->
  matches_loop fuel (pf ++ sf) (pt ++ st) (zlen pf) (zlen pt) =
    Some (levels_matchb (levels sf) (levels st)).
Proof.
  revert pf sf pt st; induction fuel as [|fuel IH]; intros pf sf pt st Hf; [lia|].
  cbn [matches_loop]. rewrite !level_end_spec, !substr_level, !is_level_spec, !level_more.
  rewrite (levels_split sf), (levels_split st), levels_matchb_cons.
  destruct (bool_decide (fst (split_level sf) = [chr_hash])); [done|]. cbn [orb].
  destruct (bool_decide (_ = [chr_plus])), (bool_decide (_ = fst (split_level st)));
    cbn [negb andb orb]; try done.
  all: destruct (snd (split_level sf)) as [rf|] eqn:Ef, (snd (split_level st)) as [rt|] eqn:Et;
    cbn [negb andb orb];
    try (destruct (split_level_next pf sf rf Ef) as (pf' & Hpf & Hlf & Hsf); rewrite Hpf, <- Hlf);
    try (destruct (split_level_next pt st rt Et) as (pt' & Hpt & Hlt & Hst); rewrite Hpt, <- Hlt);
    unfold substr_from; rewrite ?zdrop_app_zlen.
  all: try done.
  all: try (rewrite IH by lia; f_equal;
    pose proof (levels_nonempty rf); pose proof (levels_nonempty rt);
    destruct (levels rf), (levels rt); done).
  all: try (pose proof (levels_nonempty rt); by destruct (levels rt)).
  all: pose proof (levels_nonempty rf); f_equal;
    destruct (levels rf) as [|l ls] eqn:El; [done|]; rewrite <- El;
    apply bool_decide_ext; split; [by intros -> | intros E; by apply levels_inj].
Qed.

(** On the levels of a filter whose '#' is last, the loop's test is the
    relation of section 4.7. *)
Lemma levels_matchb_match fs ts :
  fs <> [] -> ts <> [] -> hash_last fs -> levels_matchb fs ts = true <-> level_match fs ts.
Proof.
  revert ts; induction fs as [|f fs IH]; intros ts Hfs Hts Hh; [done|].
  destruct ts as [|t ts]; [done|]. rewrite levels_matchb_cons, orb_true_iff, andb_true_iff, orb_true_iff.
  rewrite !bool_decide_eq_true. split.
  - intros [-> | [Hft Hrest]].
    + destruct fs as [|f' fs]; [constructor|]. by destruct Hh.
    + assert (level_match fs ts).
      { destruct fs as [|f' fs], ts as [|t' ts]; try done; [constructor|..].
        - apply bool_decide_eq_true in Hrest as ->. constructor.
        - apply IH; [done | done | by destruct Hh | done]. }
      destruct Hft as [-> | ->]; by constructor.
  - intros Hm. inversion Hm as [| | ? ? ? Hm' | ? ? ? Hm']; subst; [by left|..]; right.
    all: split; [by auto|].
    all: destruct fs as [|f' fs], ts as [|t' ts]; try done; try by inversion Hm'.
    all: try (apply IH; [done | done | by destruct Hh | done]).
    all: apply bool_decide_eq_true; by inversion Hm'.
Qed.

(** ** Filter validity *)

(** The boundary check of one level. *)
Definition levelb (l : list Z) (last : bool) : bool :=
  if zlen l >? 1 then negb (existsb is_wildcard l)
  else negb (bool_decide (l = [chr_hash])) || last.

Fixpoint levelsb (ls : list (list Z)) : bool :=
  match ls with
  | [] => true
  | [l] => levelb l true
  | l :: ls => levelb l false && levelsb ls
  end.

Lemma has_wildcard_from_spec pre l rest :
  has_wildcard_from (length l) (pre ++ l ++ rest) (zlen pre) = existsb is_wildcard l.
Proof.
  revert pre; induction l as [|c l IH]; intros pre; [done|].
  cbn [length has_wildcard_from existsb app]. rewrite char_at_app. f_equal.
  replace (zlen pre + 1) with (zlen (pre ++ [c])) by zlia.
  by rewrite app_cons_snoc, IH.
Qed.

Lemma level_check_spec {A} pre l rest last (no yes : A) :
  (if zlen pre + zlen l - zlen pre >? 1 then
     if has_wildcard_from (Z.to_nat (zlen pre + zlen l - zlen pre)) (pre ++ l ++ rest) (zlen pre)
     then no else yes
   else if (zlen pre + zlen l - zlen pre =? 1) && (char_at (pre ++ l ++ rest) (zlen pre) =? chr_hash)
   then if negb last then no else yes else yes) =
  if levelb l last then yes else no.
Proof.
  replace (zlen pre + zlen l - zlen pre) with (zlen l) by lia.
  unfold levelb. destruct (zlen l >? 1) eqn:E; zbool.
  - replace (Z.to_nat (zlen l)) with (length l) by (unfold zlen; lia).
    rewrite has_wildcard_from_spec. by destruct (existsb is_wildcard l).
  - destruct l as [|c [|c' l]]; [by destruct last|..].
    + cbn [app]. rewrite char_at_app. change (zlen [c] =? 1) with true. cbn [andb].
      destruct (c =? chr_hash) eqn:Ec; zbool; subst.
      * rewrite bool_decide_eq_true_2 by done. by destruct last.
      * rewrite bool_decide_eq_false_2 by congruence. done.
    + rewrite !zlen_cons in E. pose proof (zlen_nonneg l). lia.
Qed.

(** Prepend the bytes of a level already read. *)
Definition with_level (cur : list Z) (ls : list (list Z)) : list (list Z) :=
  match ls with l :: ls => (cur ++ l) :: ls | [] => [cur] end.

Lemma filter_loop_S rounds filter i level_start :
  filter_loop (S rounds) filter i level_start =
    if negb (i =? zlen filter) && negb (char_at filter i =? chr_slash) then
      if char_at filter i =? 0 then false else filter_loop rounds filter (i + 1) level_start
    else if i - level_start >? 1 then
      if has_wildcard_from (Z.to_nat (i - level_start)) filter level_start then false
      else filter_loop rounds filter (i + 1) (i + 1)
    else if (i - level_start =? 1) && (char_at filter level_start =? chr_hash) then
      if negb (i =? zlen filter) then false else filter_loop rounds filter (i + 1) (i + 1)
    else filter_loop rounds filter (i + 1) (i + 1).
Proof. done. Qed.

Lemma filter_loop_spec s pre cur :
  Forall (fun c => c <> 0) s ->
  filter_loop (S (length s)) (pre ++ cur ++ s) (zlen pre + zlen cur) (zlen pre) =
    levelsb (with_level cur (levels s)).
Proof.
  revert pre cur; induction s as [|c s IH]; intros pre cur Hnz; cbn [length];
    rewrite filter_loop_S.
  - cbn [filter_loop]. rewrite app_nil_r. rewrite zlen_app, Z.eqb_refl. cbn [negb andb].
    pose proof (level_check_spec pre cur [] true false true) as H. rewrite app_nil_r in H.
    cbn [with_level levels levelsb]. rewrite app_nil_r.
    etransitivity; [exact H|]. by destruct (levelb cur true).
  - apply Forall_cons_iff in Hnz as [Hc Hnz].
    replace (zlen pre + zlen cur =? zlen (pre ++ cur ++ c :: s)) with false
      by (symmetry; apply Z.eqb_neq; pose proof (zlen_nonneg s); zlia).
    replace (char_at (pre ++ cur ++ c :: s) (zlen pre + zlen cur)) with c
      by (rewrite app_assoc, <- zlen_app; by rewrite char_at_app).
    cbn [negb andb levels]. destruct (c =? chr_slash) eqn:Ec; cbn [negb]; zbool.
    + subst c. replace (zlen pre + zlen cur + 1) with (zlen (pre ++ cur ++ [chr_slash])) by zlia.
      pose proof (IH (pre ++ cur ++ [chr_slash]) [] Hnz) as IH'.
      change (zlen (@nil Z)) with 0 in IH'. rewrite Z.add_0_r in IH'. cbn [app] in IH'.
      rewrite <- !app_assoc in IH'. cbn [app] in IH'. rewrite IH'.
      pose proof (level_check_spec pre cur (chr_slash :: s) false false
        (levelsb (with_level [] (levels s)))) as Hlc.
      cbn [negb] in Hlc. etransitivity; [exact Hlc|].
      cbn [with_level]. rewrite app_nil_r.
      pose proof (levels_nonempty s). destruct (levels s) as [|l ls]; [done|].
      cbn [with_level app]. change (levelsb (cur :: l :: ls)) with (levelb cur false && levelsb (l :: ls)).
      by destruct (levelb cur false).
    + rewrite (proj2 (Z.eqb_neq c 0)) by done.
      pose proof (IH pre (cur ++ [c]) Hnz) as IH'.
      rewrite <- app_assoc in IH'. cbn [app] in IH'. rewrite zlen_app in IH'.
      replace (zlen pre + (zlen cur + zlen [c])) with (zlen pre + zlen cur + 1) in IH' by zlia.
      rewrite IH'. pose proof (levels_nonempty s). destruct (levels s) as [|l ls]; [done|].
      cbn [with_level]. by rewrite <- app_assoc.
Qed.

Lemma levelb_ok l last :
  levelb l last = true <-> level_ok l /\ (last = true \/ l <> [chr_hash]).
Proof.
  unfold levelb, level_ok.
  assert (Hw : existsb is_wildcard l = false <-> Forall (fun c => is_wildcard c = false) l).
  { clear. induction l as [|c l IH]; cbn; [done|].
    rewrite orb_false_iff, Forall_cons_iff, IH. done. }
  destruct (zlen l >? 1) eqn:E; zbool.
  - rewrite negb_true_iff, Hw. split.
    + intros H. split; [by left|]. right. intros ->. zlia.
    + intros [[H|[->| ->]] _]; [done | zlia..].
  - rewrite orb_true_iff, negb_true_iff, bool_decide_eq_false. split.
    + intros H. split; [|destruct H; by auto].
      destruct l as [|c [|c' l]]; [left; constructor | |].
      * destruct (is_wildcard c) eqn:Ec; [right | left; by repeat constructor].
        unfold is_wildcard in Ec. zbool. destruct Ec; zbool; subst; by auto.
      * rewrite !zlen_cons in E. pose proof (zlen_nonneg l). lia.
    + intros [_ [-> | Hl]]; by auto.
Qed.

Lemma levelsb_ok ls : levelsb ls = true <-> filter_levels_ok ls.
Proof.
  unfold filter_levels_ok. induction ls as [|l ls IH]; [by repeat constructor|].
  rewrite Forall_cons_iff. destruct ls as [|l' ls].
  - cbn [levelsb hash_last]. rewrite levelb_ok, Forall_nil_iff. naive_solver.
  - change (levelsb (l :: l' :: ls)) with (levelb l false && levelsb (l' :: ls)).
    change (hash_last (l :: l' :: ls)) with (l <> [chr_hash] /\ hash_last (l' :: ls)).
    rewrite andb_true_iff, levelb_ok, IH. naive_solver.
Qed.

(** An MQTT string holds no NUL. *)
Lemma mqtt_string_no_nul s :
  bytes_ok s -> is_valid_mqtt_string s = true -> Forall (fun c => c <> 0) s.
Proof.
  intros Hok Hv. apply is_valid_mqtt_string_spec in Hv as (cs & Hcs & ->); [|done].
  clear Hok. induction Hcs as [|c cs Hc Hcs IH]; [constructor|].
  change (utf8_text (c :: cs)) with (utf8_encode c ++ utf8_text cs).
  apply Forall_app. split; [|done]. destruct Hc as [[Hr _] H0].
  unfold utf8_encode. repeat case_if; zbool; repeat constructor;
    Z.to_euclidean_division_equations; lia.
Qed.

(** The check of a filter, on its levels. *)
Lemma is_valid_filter_levels f :
  bytes_ok f ->
  is_valid_filter f =
    negb (empty f) && (zlen f <=? 65535) && is_valid_mqtt_string f && levelsb (levels f).
Proof.
  intros Hok. unfold is_valid_filter. destruct (empty f); [done|]. cbn [orb negb andb].
  rewrite Z.gtb_ltb, Z.ltb_antisym. destruct (zlen f <=? 65535); [|done]. cbn [negb andb].
  destruct (is_valid_mqtt_string f) eqn:Ev; [|done]. cbn [negb andb].
  pose proof (filter_loop_spec f [] [] (mqtt_string_no_nul f Hok Ev)) as Hloop. cbn [app] in Hloop.
  change (zlen [] + zlen []) with 0 in Hloop. change (zlen []) with 0 in Hloop. rewrite Hloop.
  by destruct (levels f).
Qed.
