(* ===== verification/Etl.v ===== *)
(** * Etl: the byte streams the codec is written against

    [etl::byte_stream_writer] and [etl::byte_stream_reader] are third-party
    code. They are parameters of the codec: an interface with the operations
    the codec calls, and the documented behaviour it relies on -- a write
    either stores all its bytes at the position reached so far or reports
    [false], a read either yields all it asked for or nothing, both in network
    byte order. [ListStreams] is a concrete implementation, used to evaluate
    the model. *)
From S2P Require Import Prelude.

(** The two bytes of a 16-bit field in network order, and back. *)
Definition be16 (v : Z) : list Z := [v / 256; v mod 256].
Definition of_be16 (hi lo : Z) : Z := hi * 256 + lo.

Class ByteStreamWriter := {
  writer : Type;
  (** [byte_stream_writer(data, size, endian::big)] over the bytes [mem]. *)
  bsw_open (mem : list Z) : writer;
  bsw_write_u8 (b : Z) (w : writer) : bool * writer;
  bsw_write_u16 (v : Z) (w : writer) : bool * writer;
  bsw_write_bytes (l : list Z) (w : writer) : bool * writer;
  bsw_size_bytes (w : writer) : Z;
  (** The memory the writer was opened over. *)
  bsw_memory (w : writer) : list Z;
}.

(** [w] has stored [done] and has [rest] to go. *)
Definition wrote `{ByteStreamWriter} (w : writer) (done rest : list Z) : Prop :=
  bsw_memory w = done ++ rest /\ bsw_size_bytes w = zlen done.

(** What the codec relies on a write of the bytes [l] for. *)
Definition write_contract `{ByteStreamWriter} (write : writer -> bool * writer) (l : list Z) : Prop :=
  forall w done rest, wrote w done rest ->
    (zlen l <= zlen rest ->
       fst (write w) = true /\ wrote (snd (write w)) (done ++ l) (zdrop (zlen l) rest)) /\
    (zlen rest < zlen l ->
       fst (write w) = false /\ zlen (bsw_memory (snd (write w))) = zlen (bsw_memory w)).

Class ByteStreamWriterOk `{ByteStreamWriter} : Prop := {
  bsw_open_ok mem : wrote (bsw_open mem) [] mem;
  bsw_write_u8_ok b : is_u8 b -> write_contract (bsw_write_u8 b) [b];
  bsw_write_u16_ok v : is_u16 v -> write_contract (bsw_write_u16 v) (be16 v);
  bsw_write_bytes_ok l : write_contract (bsw_write_bytes l) l;
}.

Class ByteStreamReader := {
  reader : Type;
  bsr_open (mem : list Z) : reader;
  bsr_read_u16 (r : reader) : option Z * reader;
  (** [read<char>(n)]: a view of the next [n] bytes. *)
  bsr_read_chars (n : Z) (r : reader) : option (list Z) * reader;
  bsr_available_bytes (r : reader) : Z;
}.

Class ByteStreamReaderOk `{ByteStreamReader} := {
  (** The bytes not yet read. *)
  bsr_rest : reader -> list Z;
  bsr_open_ok mem : bsr_rest (bsr_open mem) = mem;
  bsr_read_u16_ok r hi lo rest :
    bsr_rest r = hi :: lo :: rest ->
    fst (bsr_read_u16 r) = Some (of_be16 hi lo) /\ bsr_rest (snd (bsr_read_u16 r)) = rest;
  bsr_read_u16_short r : zlen (bsr_rest r) < 2 -> fst (bsr_read_u16 r) = None;
  bsr_read_chars_ok r n :
    0 < n <= zlen (bsr_rest r) ->
    fst (bsr_read_chars n r) = Some (ztake n (bsr_rest r)) /\
    bsr_rest (snd (bsr_read_chars n r)) = zdrop n (bsr_rest r);
  bsr_read_chars_short r n : zlen (bsr_rest r) < n -> fst (bsr_read_chars n r) = None;
  bsr_available_ok r : bsr_available_bytes r = zlen (bsr_rest r);
}.

(** ** Streams over lists *)
Module ListStreams.
Definition write (l : list Z) (w : list Z * list Z) : bool * (list Z * list Z) :=
  let '(done, rest) := w in
  if zlen l <=? zlen rest then (true, (done ++ l, zdrop (zlen l) rest)) else (false, w).

#[export] Instance list_writer : ByteStreamWriter := {|
  writer := list Z * list Z;
  bsw_open mem := ([], mem);
  bsw_write_u8 b := write [b];
  bsw_write_u16 v := write (be16 v);
  bsw_write_bytes l := write l;
  bsw_size_bytes w := zlen (fst w);
  bsw_memory w := fst w ++ snd w;
|}.

Lemma write_ok l : write_contract (write l) l.
Proof.
  intros [d r] done rest [Hm Hs]. cbn in Hm, Hs.
  assert (d = done /\ r = rest) as [-> ->].
  { apply app_inj_1; [|done]. unfold zlen in Hs. lia. }
  unfold write. split; intros Hl.
  - rewrite (proj2 (Z.leb_le _ _) Hl). split; [done|]. split; done.
  - rewrite (proj2 (Z.leb_gt _ _) Hl). done.
Qed.

#[export] Instance list_writer_ok : ByteStreamWriterOk.
Proof. split; intros; try apply write_ok. by split. Qed.

#[export] Instance list_reader : ByteStreamReader := {|
  reader := list Z;
  bsr_open mem := mem;
  bsr_read_u16 r :=
    match r with hi :: lo :: rest => (Some (of_be16 hi lo), rest) | _ => (None, r) end;
  bsr_read_chars n r := if n <=? zlen r then (Some (ztake n r), zdrop n r) else (None, r);
  bsr_available_bytes r := zlen r;
|}.

#[export] Instance list_reader_ok : ByteStreamReaderOk.
Proof.
  refine (Build_ByteStreamReaderOk list_reader (fun r => r) _ _ _ _ _ _); cbn.
  - done.
  - by intros r hi lo rest ->.
  - intros [|? [|? r]] Hr; try done. rewrite !zlen_cons in Hr. pose proof (zlen_nonneg r). lia.
  - intros r n Hn. rewrite (proj2 (Z.leb_le n (zlen r))) by lia. done.
  - intros r n Hn. by rewrite (proj2 (Z.leb_gt n (zlen r))) by lia.
  - done.
Defined.
End ListStreams.
