(* ===== verification/Codec.v ===== *)
(** * Codec: MQTT 3.1.1 packet serialization (codec.hpp, codec.cpp)

    One definition per function of the source. An encoder takes the output span
    and returns its result with the contents of the span afterwards; a decoder
    is a function of the packet body. Byte streams are the interface of
    [Etl]. *)
From S2P Require Import Prelude Errors Packet Utf8 Etl.

Definition kMaxStringLen : Z := 65535.

(** [checked_add(total, add)]: the new total, or [None] for [false]. *)
Definition checked_add (total add : Z) : option Z :=
  let sum := u64 (total + add) in
  if sum >? kMaxRemainingLength then None else Some (u32 sum).

Definition valid_qos (q : QoS) : bool := q <=? 2.

(** ** The writer monad: an early return carries the error, the stream keeps
    what was written. *)
Section writer_monad.
Context `{ByteStreamWriter}.

Definition W (A : Type) : Type := writer -> Result A * writer.

Definition wret {A} (a : A) : W A := fun w => (Val a, w).

Definition wbind {A B} (m : W A) (k : A -> W B) : W B :=
  fun w => match m w with
           | (Val a, w) => k a w
           | (Err e, w) => (Err e, w)
           end.

Definition wfail {A} (e : Error) : W A := fun w => (Err e, w).

(** [MQTT_WRITE(expr)]: a write that reports [false] returns
    [BufferTooSmall]. *)
Definition mqtt_write (write : writer -> bool * writer) : W unit :=
  fun w => let '(b, w) := write w in (if b then Val tt else Err BufferTooSmall, w).

Definition wsize_bytes : W Z := fun w => (Val (bsw_size_bytes w), w).

(** Open a writer over [out], run, and hand back the memory with the result. *)
Definition with_writer {A} (out : list Z) (m : W A) : Result A * list Z :=
  let '(r, w) := m (bsw_open out) in (r, bsw_memory w).
End writer_monad.

Declare Scope codec_scope.
Delimit Scope codec_scope with codec.
Notation "'let!' x ':=' m 'in' k" := (wbind m (fun x => k))
  (at level 10, x pattern, m at level 100, k at level 200) : codec_scope.
Notation "'do!' m 'in' k" := (wbind m (fun _ => k))
  (at level 10, m at level 100, k at level 200) : codec_scope.
Notation "'when!' b 'do' m" := (if b then m else wret tt)
  (at level 10, b at level 100, m at level 200) : codec_scope.
#[local] Open Scope codec_scope.

Section codec.
Context `{SizeT} `{BW : ByteStreamWriter} `{BR : ByteStreamReader}.

Definition write_fixed_header (type : PacketType) (remaining_length : Z)
    (dup : bool) (qos : QoS) (retain : bool) : W unit :=
  let h := mkFixedHeader type dup qos retain remaining_length in
  do! mqtt_write (bsw_write_u8 (to_byte h)) in
  match vbi_encode (replicate (Z.to_nat kMaxVbiBytes) 0) remaining_length with
  | (Err e, _) => wfail e
  | (Val n, vbi) => mqtt_write (bsw_write_bytes (ztake n vbi))
  end.

(** ** Field helpers *)
Definition write_string (s : list Z) : W unit :=
  if zlen s >? kMaxStringLen then wfail InvalidArgument
  else
    do! mqtt_write (bsw_write_u16 (u16 (zlen s))) in
    when! negb (empty s) do mqtt_write (bsw_write_bytes s).

Definition write_binary (d : list Z) : W unit :=
  if zlen d >? kMaxStringLen then wfail InvalidArgument
  else
    do! mqtt_write (bsw_write_u16 (u16 (zlen d))) in
    when! negb (empty d) do mqtt_write (bsw_write_bytes d).

Definition read_string (r : reader) : Result (list Z) * reader :=
  match bsr_read_u16 r with
  | (None, r) => (Err MalformedPacket, r)
  | (Some len, r) =>
      if len =? 0 then (Val [], r)
      else
        match bsr_read_chars len r with
        | (None, r) => (Err MalformedPacket, r)
        | (Some s, r) =>
            if negb (is_valid_mqtt_string s) then (Err MalformedPacket, r) else (Val s, r)
        end
  end.

(** ** Size computation *)
Definition utf8_size (len : Z) : Z := size_t (2 + len).

(** [if (!checked_add(total, add)) return e;] *)
Definition add_or (total add : Z) (e : Error) : Result Z :=
  match checked_add total add with Some t => Val t | None => Err e end.

(** The will's share of the CONNECT payload, added to [total]. *)
Definition add_will (will : Will) (total : Z) : Result Z :=
  if will_valid will then
    if negb (valid_qos (will_qos will)) then Err InvalidArgument
    else if (zlen (will_topic will) >? kMaxStringLen) || (zlen (will_payload will) >? kMaxStringLen)
    then Err InvalidArgument
    else if negb (is_valid_mqtt_string (will_topic will)) then Err InvalidArgument
    else
      let? total := add_or total (utf8_size (zlen (will_topic will))) InvalidArgument in
      add_or total (utf8_size (zlen (will_payload will))) InvalidArgument
  else Val total.

Definition add_username (username : list Z) (total : Z) : Result Z :=
  if negb (empty username) then
    if zlen username >? kMaxStringLen then Err InvalidArgument
    else if negb (is_valid_mqtt_string username) then Err InvalidArgument
    else add_or total (utf8_size (zlen username)) InvalidArgument
  else Val total.

Definition add_password (username password : list Z) (total : Z) : Result Z :=
  if negb (empty password) then
    if empty username then Err InvalidArgument
    else if zlen password >? kMaxStringLen then Err InvalidArgument
    else add_or total (utf8_size (zlen password)) InvalidArgument
  else Val total.

Definition connect_remaining_length (opts : ConnectOptions) : Result Z :=
  if zlen (opt_client_id opts) >? kMaxStringLen then Err InvalidArgument
  else if negb (is_valid_mqtt_string (opt_client_id opts)) then Err InvalidArgument
  else
    let? total := add_or 0 (size_t (utf8_size 4 + 1 + 1 + 2)) InvalidArgument in
    let? total := add_or total (utf8_size (zlen (opt_client_id opts))) InvalidArgument in
    let? total := add_will (opt_will opts) total in
    let? total := add_username (opt_username opts) total in
    add_password (opt_username opts) (opt_password opts) total.

Definition publish_remaining_length (topic : list Z) (payload_len : Z) (qos : QoS) : Result Z :=
  if empty topic || (zlen topic >? kMaxStringLen) then Err InvalidArgument
  else if negb (valid_qos qos) then Err InvalidArgument
  else if negb (is_valid_mqtt_string topic) then Err InvalidArgument
  else
    let? total := add_or 0 (utf8_size (zlen topic)) InvalidArgument in
    let? total := if negb (qos =? AtMostOnce) then add_or total 2 InvalidArgument else Val total in
    add_or total payload_len PayloadTooLarge.

Fixpoint subscribe_lengths (subs : list TopicSubscription) (total : Z) : Result Z :=
  match subs with
  | [] => Val total
  | s :: subs =>
      if empty (ts_filter s) || (zlen (ts_filter s) >? kMaxStringLen) then Err InvalidArgument
      else if negb (is_valid_mqtt_string (ts_filter s)) then Err InvalidArgument
      else if negb (valid_qos (ts_qos s)) then Err InvalidArgument
      else
        let? total := add_or total (size_t (utf8_size (zlen (ts_filter s)) + 1)) InvalidArgument in
        subscribe_lengths subs total
  end.

Definition subscribe_remaining_length (subs : list TopicSubscription) : Result Z :=
  if empty subs then Err InvalidArgument else subscribe_lengths subs 2.

Fixpoint unsubscribe_lengths (filters : list (list Z)) (total : Z) : Result Z :=
  match filters with
  | [] => Val total
  | f :: filters =>
      if empty f || (zlen f >? kMaxStringLen) then Err InvalidArgument
      else if negb (is_valid_mqtt_string f) then Err InvalidArgument
      else
        let? total := add_or total (utf8_size (zlen f)) InvalidArgument in
        unsubscribe_lengths filters total
  end.

Definition unsubscribe_remaining_length (filters : list (list Z)) : Result Z :=
  if empty filters then Err InvalidArgument else unsubscribe_lengths filters 2.

(** ** Encoding *)

(** The connect flags byte. *)
Definition connect_flags (opts : ConnectOptions) : Z :=
  let flags := 0 in
  let flags := if opt_clean_session opts then Z.lor flags 0x02 else flags in
  let flags :=
    if will_valid (opt_will opts) then
      let flags := Z.lor flags 0x04 in
      let flags := u8 (Z.lor flags (Z.shiftl (Z.land (will_qos (opt_will opts)) 0x03) 3)) in
      if will_retain (opt_will opts) then Z.lor flags 0x20 else flags
    else flags in
  let flags := if negb (empty (opt_password opts)) then Z.lor flags 0x40 else flags in
  if negb (empty (opt_username opts)) then Z.lor flags 0x80 else flags.

(** The protocol name, "MQTT". *)
Definition protocol_name : list Z := [77; 81; 84; 84].

Definition encode_connect (out : list Z) (opts : ConnectOptions) : Result Z * list Z :=
  match connect_remaining_length opts with
  | Err e => (Err e, out)
  | Val rl =>
      with_writer out (
        do! write_fixed_header Connect rl false AtMostOnce false in
        do! write_string protocol_name in
        do! mqtt_write (bsw_write_u8 kProtocolLevel_3_1_1) in
        do! mqtt_write (bsw_write_u8 (connect_flags opts)) in
        do! mqtt_write (bsw_write_u16 (opt_keep_alive_s opts)) in
        do! write_string (opt_client_id opts) in
        do! when! will_valid (opt_will opts) do
              (do! write_string (will_topic (opt_will opts)) in
               write_binary (will_payload (opt_will opts))) in
        do! when! negb (empty (opt_username opts)) do write_string (opt_username opts) in
        do! when! negb (empty (opt_password opts)) do write_binary (opt_password opts) in
        wsize_bytes)
  end.

Definition encode_publish (out topic payload : list Z) (qos : QoS) (retain dup : bool)
    (packet_id : Z) : Result Z * list Z :=
  if negb (qos =? AtMostOnce) && (packet_id =? 0) then (Err InvalidArgument, out)
  else if (qos =? AtMostOnce) && dup then (Err InvalidArgument, out)
  else
    match publish_remaining_length topic (zlen payload) qos with
    | Err e => (Err e, out)
    | Val rl =>
        with_writer out (
          do! write_fixed_header Publish rl dup qos retain in
          do! write_string topic in
          do! when! negb (qos =? AtMostOnce) do mqtt_write (bsw_write_u16 packet_id) in
          do! when! negb (empty payload) do mqtt_write (bsw_write_bytes payload) in
          wsize_bytes)
    end.

(** The types [encode_ack] accepts. *)
Definition is_ack_type (type : PacketType) : bool :=
  match type with Puback | Pubrec | Pubrel | Pubcomp => true | _ => false end.

Definition encode_ack (out : list Z) (type : PacketType) (packet_id : Z) : Result Z * list Z :=
  if negb (is_ack_type type) then (Err InvalidArgument, out)
  else if packet_id =? 0 then (Err InvalidArgument, out)
  else
    with_writer out (
      do! write_fixed_header type 2 false AtMostOnce false in
      do! mqtt_write (bsw_write_u16 packet_id) in
      wsize_bytes).

Fixpoint write_subscriptions (subs : list TopicSubscription) : W unit :=
  match subs with
  | [] => wret tt
  | s :: subs =>
      do! write_string (ts_filter s) in
      do! mqtt_write (bsw_write_u8 (ts_qos s)) in
      write_subscriptions subs
  end.

Definition encode_subscribe (out : list Z) (packet_id : Z) (subs : list TopicSubscription)
    : Result Z * list Z :=
  if packet_id =? 0 then (Err InvalidArgument, out)
  else
    match subscribe_remaining_length subs with
    | Err e => (Err e, out)
    | Val rl =>
        with_writer out (
          do! write_fixed_header Subscribe rl false AtMostOnce false in
          do! mqtt_write (bsw_write_u16 packet_id) in
          do! write_subscriptions subs in
          wsize_bytes)
    end.

Fixpoint write_filters (filters : list (list Z)) : W unit :=
  match filters with
  | [] => wret tt
  | f :: filters => do! write_string f in write_filters filters
  end.

Definition encode_unsubscribe (out : list Z) (packet_id : Z) (filters : list (list Z))
    : Result Z * list Z :=
  if packet_id =? 0 then (Err InvalidArgument, out)
  else
    match unsubscribe_remaining_length filters with
    | Err e => (Err e, out)
    | Val rl =>
        with_writer out (
          do! write_fixed_header Unsubscribe rl false AtMostOnce false in
          do! mqtt_write (bsw_write_u16 packet_id) in
          do! write_filters filters in
          wsize_bytes)
    end.

Definition encode_empty (out : list Z) (type : PacketType) : Result Z * list Z :=
  if negb (PacketType_eqb type Pingreq) && negb (PacketType_eqb type Disconnect)
  then (Err InvalidArgument, out)
  else
    with_writer out (
      do! write_fixed_header type 0 false AtMostOnce false in
      wsize_bytes).

(** ** Decoding *)
Record PacketPeek := mkPacketPeek {
  peek_hdr : FixedHeader;
  peek_header_bytes : Z;
  peek_total_bytes : Z;
}.

Definition peek_header (inp : list Z) : Result PacketPeek :=
  match inp with
  | [] => Err Incomplete
  | b0 :: _ =>
      let? h := from_byte b0 in
      let? vbi := vbi_decode (zdrop 1 inp) in
      let header := mkFixedHeader (fh_type h) (fh_dup h) (fh_qos h) (fh_retain h) (vbi_value vbi) in
      let header_bytes := size_t (1 + vbi_bytes vbi) in
      Val (mkPacketPeek header header_bytes (size_t (header_bytes + vbi_value vbi)))
  end.

Definition decode_connack (body : list Z) : Result ConnackInfo :=
  match body with
  | [b0; b1] =>
      if negb (Z.land b0 0xFE =? 0) then Err ProtocolViolation
      else if b1 >? ConnackCode_value NotAuthorized then Err ProtocolViolation
      else if negb (Z.land b0 0x01 =? 0) && negb (b1 =? 0) then Err ProtocolViolation
      else
        match ConnackCode_of_value b1 with
        | Some code => Val (mkConnackInfo code (negb (Z.land b0 0x01 =? 0)))
        | None => Err ProtocolViolation (* excluded by the range check above *)
        end
  | _ => Err MalformedPacket
  end.

Definition decode_publish (header : FixedHeader) (body : list Z) : Result Message :=
  let r := bsr_open body in
  let '(topic, r) := read_string r in
  let? topic := topic in
  if empty topic then Err ProtocolViolation
  else
    let msg id r :=
      let consumed := zlen body - bsr_available_bytes r in
      Val (mkMessage topic (zdrop consumed body) (fh_qos header) (fh_retain header)
             (fh_dup header) id) in
    if negb (fh_qos header =? AtMostOnce) then
      match bsr_read_u16 r with
      | (None, _) => Err MalformedPacket
      | (Some id, r) => if id =? 0 then Err ProtocolViolation else msg id r
      end
    else if fh_dup header then Err ProtocolViolation
    else msg 0 r.

(** [(body[0] << 8) | body[1]]. *)
Definition id_of_bytes (b0 b1 : Z) : Z := u16 (Z.lor (Z.shiftl b0 8) b1).

Definition decode_packet_id (body : list Z) : Result Z :=
  match body with
  | [b0; b1] =>
      let id := id_of_bytes b0 b1 in
      if id =? 0 then Err ProtocolViolation else Val id
  | _ => Err MalformedPacket
  end.

Record SubackView := mkSubackView {
  sv_packet_id : Z;
  sv_return_codes : list Z;
}.

Definition decode_suback (body : list Z) : Result SubackView :=
  match body with
  | b0 :: b1 :: codes =>
      if zlen body <? 3 then Err MalformedPacket
      else
        let id := id_of_bytes b0 b1 in
        if id =? 0 then Err ProtocolViolation
        else if existsb (fun c => (c >? 2) && negb (c =? kSubackFailure)) codes
        then Err ProtocolViolation
        else Val (mkSubackView id codes)
  | _ => Err MalformedPacket
  end.
End codec.
