(* ===== verification/CodecFacts.v ===== *)
(** * CodecFacts: what the encoders write and the decoders accept

    The wire format of every packet as a list of bytes ([wire_*]), proved to be
    what the encoders write into the span they are given; the size computations
    agree with it; decoding inverts encoding. *)
From S2P Require Import Prelude Errors Packet PacketFacts Utf8 Etl Codec.
#[local] Open Scope codec_scope.

(** ** The wire format *)
Definition wire_string (s : list Z) : list Z := be16 (zlen s) ++ s.

Definition wire_packet (type : PacketType) (dup : bool) (qos : QoS) (retain : bool)
    (body : list Z) : list Z :=
  to_byte (mkFixedHeader type dup qos retain (zlen body)) :: vbi_wire (zlen body) ++ body.

Definition wire_opt (b : bool) (l : list Z) : list Z := if b then l else [].

(** The flags of CONNECT, bit by bit (MQTT 3.1.1, 3.1.2.3): user name 7,
    password 6, will retain 5, will QoS 4 and 3, will 2, clean session 1. *)
Definition connect_flag_bits (o : ConnectOptions) : Z :=
  128 * Z.b2z (negb (empty (opt_username o))) + 64 * Z.b2z (negb (empty (opt_password o))) +
  (if will_valid (opt_will o)
   then 32 * Z.b2z (will_retain (opt_will o)) + 8 * (will_qos (opt_will o) mod 4) + 4 else 0) +
  2 * Z.b2z (opt_clean_session o).

(** ["MQTT"], level 4, the flags and the keep-alive interval; then the fields
    that the flags announce. *)
Definition connect_body (o : ConnectOptions) : list Z :=
  wire_string [77; 81; 84; 84] ++ [4] ++ [connect_flag_bits o] ++
  be16 (opt_keep_alive_s o) ++ wire_string (opt_client_id o) ++
  wire_opt (will_valid (opt_will o))
    (wire_string (will_topic (opt_will o)) ++ wire_string (will_payload (opt_will o))) ++
  wire_opt (negb (empty (opt_username o))) (wire_string (opt_username o)) ++
  wire_opt (negb (empty (opt_password o))) (wire_string (opt_password o)).

Definition publish_body (topic payload : list Z) (qos : QoS) (packet_id : Z) : list Z :=
  wire_string topic ++ wire_opt (negb (qos =? AtMostOnce)) (be16 packet_id) ++ payload.

Fixpoint subscriptions_body (subs : list TopicSubscription) : list Z :=
  match subs with
  | [] => []
  | s :: subs => wire_string (ts_filter s) ++ [ts_qos s] ++ subscriptions_body subs
  end.

Definition subscribe_body (packet_id : Z) (subs : list TopicSubscription) : list Z :=
  be16 packet_id ++ subscriptions_body subs.

Fixpoint filters_body (filters : list (list Z)) : list Z :=
  match filters with [] => [] | f :: fs => wire_string f ++ filters_body fs end.

Definition unsubscribe_body (packet_id : Z) (filters : list (list Z)) : list Z :=
  be16 packet_id ++ filters_body filters.

(** ** Programs of the writer monad that emit a fixed byte string *)
Create HintDb emits.

Section emits.
Context `{ByteStreamWriterOk}.

(** [m] stores exactly [l], or reports [BufferTooSmall] when it does not fit;
    its value is computed from the position it reaches. *)
Definition emits {A} (m : W A) (l : list Z) (f : Z -> A) : Prop :=
  forall w done rest, wrote w done rest ->
    (zlen l <= zlen rest ->
       fst (m w) = Val (f (zlen (done ++ l))) /\
       wrote (snd (m w)) (done ++ l) (zdrop (zlen l) rest)) /\
    (zlen rest < zlen l ->
       fst (m w) = Err BufferTooSmall /\
       zlen (bsw_memory (snd (m w))) = zlen (bsw_memory w)).

Lemma emits_write op l : write_contract op l -> emits (mqtt_write op) l (fun _ => tt).
Proof.
  intros Hop w done rest Hw. destruct (Hop w done rest Hw) as [Hfit Hno].
  unfold mqtt_write. destruct (op w) as [b w'] eqn:Eop. cbn [fst snd] in *.
  split; intros Hl; [destruct (Hfit Hl) as [-> ?] | destruct (Hno Hl) as [-> ?]]; done.
Qed.

Lemma emits_u8 b : is_u8 b -> emits (mqtt_write (bsw_write_u8 b)) [b] (fun _ => tt).
Proof. intros. by apply emits_write, bsw_write_u8_ok. Qed.

Lemma emits_u16 v : is_u16 v -> emits (mqtt_write (bsw_write_u16 v)) (be16 v) (fun _ => tt).
Proof. intros. by apply emits_write, bsw_write_u16_ok. Qed.

Lemma emits_bytes l : emits (mqtt_write (bsw_write_bytes l)) l (fun _ => tt).
Proof. apply emits_write, bsw_write_bytes_ok. Qed.

Lemma emits_ret : emits (wret tt) [] (fun _ => tt).
Proof.
  intros w done rest Hw. split; intros Hl.
  - cbn. rewrite app_nil_r. done.
  - pose proof (zlen_nonneg rest). zlia.
Qed.

Lemma emits_size : emits wsize_bytes [] (fun n => n).
Proof.
  intros w done rest Hw. split; intros Hl.
  - cbn. rewrite app_nil_r. split; [|done]. by rewrite (proj2 Hw).
  - pose proof (zlen_nonneg rest). zlia.
Qed.

Lemma emits_seq {A} (m : W unit) (m' : W A) l l' g f :
  emits m l g -> emits m' l' f -> emits (do! m in m') (l ++ l') f.
Proof.
  intros Hm Hm' w done rest Hw. destruct (Hm w done rest Hw) as [Hfit Hno].
  pose proof (zlen_nonneg l). pose proof (zlen_nonneg l').
  unfold wbind. destruct (m w) as [r w'] eqn:Em. cbn [fst snd] in *.
  destruct (Z.le_gt_cases (zlen l) (zlen rest)) as [Hl|Hl].
  - destruct (Hfit Hl) as [-> Hw'].
    assert (Hrest : zlen (zdrop (zlen l) rest) = zlen rest - zlen l) by (rewrite zlen_zdrop; lia).
    destruct (Hm' w' _ _ Hw') as [Hfit' Hno'].
    rewrite zlen_app. split; intros Hll.
    + destruct Hfit' as [-> Hw'']; [lia|].
      rewrite zdrop_zdrop in Hw'' by lia. by rewrite !app_assoc.
    + destruct Hno' as [-> Hmem]; [lia|]. split; [done|].
      rewrite Hmem. destruct Hw as [-> _], Hw' as [-> _]. zlia.
  - destruct (Hno Hl) as [-> Hmem]. rewrite zlen_app. split; intros; [lia|done].
Qed.

(** The size is read off after the last write. *)
Lemma emits_last (m : W unit) l g : emits m l g -> emits (do! m in wsize_bytes) l (fun n => n).
Proof. intros Hm. rewrite <- (app_nil_r l). eapply emits_seq; [done | apply emits_size]. Qed.

Lemma emits_when b m l : (b = true -> emits m l (fun _ => tt)) ->
  emits (when! b do m) (wire_opt b l) (fun _ => tt).
Proof. destruct b; intros; [by auto | apply emits_ret]. Qed.

(** Running an emitting program over a span. *)
Lemma with_writer_fits {A} (m : W A) l f out :
  emits m l f -> zlen l <= zlen out ->
  with_writer out m = (Val (f (zlen l)), l ++ zdrop (zlen l) out).
Proof.
  intros Hm Hl. destruct (Hm _ [] out (bsw_open_ok out)) as [Hfit _].
  unfold with_writer. destruct (m (bsw_open out)) as [r w]. cbn [fst snd app] in Hfit.
  destruct (Hfit Hl) as [-> [-> _]]. done.
Qed.

Lemma with_writer_short {A} (m : W A) l f out :
  emits m l f -> zlen out < zlen l ->
  fst (with_writer out m) = Err BufferTooSmall /\ zlen (snd (with_writer out m)) = zlen out.
Proof.
  intros Hm Hl. destruct (bsw_open_ok out) as [Hmem _].
  destruct (Hm _ [] out (bsw_open_ok out)) as [_ Hno].
  unfold with_writer. destruct (m (bsw_open out)) as [r w]. cbn [fst snd] in *.
  destruct (Hno Hl) as [-> ->]. by rewrite Hmem.
Qed.
End emits.

#[export] Hint Resolve emits_u8 emits_u16 emits_bytes emits_ret emits_size emits_when : emits.

(** ** Fields *)
Section fields.
Context `{ByteStreamWriterOk}.

Lemma zlen_be16 v : zlen (be16 v) = 2.
Proof. done. Qed.

Lemma be16_bytes v : is_u16 v -> bytes_ok (be16 v).
Proof.
  unfold is_u16. intros. unfold be16, bytes_ok. repeat constructor; unfold is_u8;
    Z.to_euclidean_division_equations; lia.
Qed.

Lemma emits_string s : zlen s <= kMaxStringLen -> emits (write_string s) (wire_string s) (fun _ => tt).
Proof.
  intros Hs. unfold write_string, kMaxStringLen in *. pose proof (zlen_nonneg s).
  rewrite Z.gtb_ltb, (proj2 (Z.ltb_ge 65535 (zlen s))) by done.
  rewrite u16_small by (unfold is_u16; lia). unfold wire_string.
  eapply emits_seq; [apply emits_u16; unfold is_u16; lia|].
  destruct s; [apply emits_ret | apply emits_bytes].
Qed.

Lemma emits_binary d : zlen d <= kMaxStringLen -> emits (write_binary d) (wire_string d) (fun _ => tt).
Proof. apply emits_string. Qed.

Lemma emits_fixed_header type rl dup qos retain :
  vbi_ok rl -> is_u8 qos ->
  emits (write_fixed_header type rl dup qos retain)
    (to_byte (mkFixedHeader type dup qos retain rl) :: vbi_wire rl) (fun _ => tt).
Proof.
  intros Hrl Hq. unfold write_fixed_header.
  change (to_byte _ :: vbi_wire rl) with ([to_byte (mkFixedHeader type dup qos retain rl)] ++ vbi_wire rl).
  eapply emits_seq; [by apply emits_u8, to_byte_range|].
  pose proof (vbi_size_range rl Hrl).
  rewrite vbi_encode_wire by (done || (autorewrite with zlist; unfold kMaxVbiBytes; lia)).
  rewrite <- (zlen_vbi_wire rl Hrl), ztake_app_zlen. apply emits_bytes.
Qed.
End fields.

#[export] Hint Resolve emits_string emits_binary emits_fixed_header : emits.

(** ** Size computation *)
Section sizes.
Context `{WideSizeT}.

Lemma add_or_Val total add e t :
  vbi_ok total -> 0 <= add < 2 ^ 63 -> add_or total add e = Val t -> t = total + add /\ vbi_ok t.
Proof.
  unfold vbi_ok, add_or, checked_add, kMaxRemainingLength. intros Ht Ha.
  unfold u64. rewrite Z.mod_small by lia. case_if; [done|]. zbool.
  rewrite u32_small by (unfold is_u32; lia). intros [= <-]. lia.
Qed.

Lemma add_or_ok total add e :
  0 <= total -> 0 <= add -> total + add <= kMaxRemainingLength -> add_or total add e = Val (total + add).
Proof.
  unfold add_or, checked_add, kMaxRemainingLength. intros. unfold u64.
  rewrite Z.mod_small by lia. rewrite Z.gtb_ltb, (proj2 (Z.ltb_ge _ _)) by lia.
  by rewrite u32_small by (unfold is_u32; lia).
Qed.

Lemma add_or_Err total add e e' : add_or total add e = Err e' -> e' = e.
Proof. unfold add_or. destruct (checked_add total add); congruence. Qed.

(** Split on every check of a length computation. *)
Ltac length_cases H :=
  repeat match type of H with
  | context [add_or ?a ?b ?c] =>
      let Ea := fresh in destruct (add_or a b c) eqn:Ea; [|apply add_or_Err in Ea]
  | context [if ?b then _ else _] => destruct b
  end.

Lemma utf8_size_string (s : list Z) : zlen s <= kMaxStringLen -> utf8_size (zlen s) = zlen (wire_string s).
Proof.
  unfold kMaxStringLen, utf8_size, wire_string. intros. pose proof (zlen_nonneg s).
  rewrite size_t_small by lia. rewrite zlen_app, zlen_be16. lia.
Qed.

Lemma utf8_size_string_1 (s : list Z) :
  zlen s <= kMaxStringLen -> size_t (utf8_size (zlen s) + 1) = zlen (wire_string s) + 1.
Proof.
  intros Hs. rewrite utf8_size_string by done. pose proof (zlen_nonneg s).
  unfold kMaxStringLen, wire_string in *. rewrite zlen_app, zlen_be16. apply size_t_small. lia.
Qed.

Lemma zlen_wire_string_bound (s : list Z) :
  zlen s <= kMaxStringLen -> 0 <= zlen (wire_string s) <= 65537.
Proof.
  unfold kMaxStringLen, wire_string. intros. rewrite zlen_app, zlen_be16.
  pose proof (zlen_nonneg s). lia.
Qed.

(** A string field an encoder accepts: encodable and well-formed. *)
Definition field_ok (s : list Z) : Prop :=
  zlen s <= kMaxStringLen /\ is_valid_mqtt_string s = true.

Definition publish_ok (topic : list Z) (qos : QoS) : Prop :=
  topic <> [] /\ field_ok topic /\ qos <= 2.

Lemma empty_true {A} (l : list A) : empty l = true <-> l = [].
Proof. by destruct l. Qed.

Lemma empty_false {A} (l : list A) : empty l = false <-> l <> [].
Proof. by destruct l. Qed.

Lemma zlen_publish_body topic payload qos id : zlen payload <= zlen (publish_body topic payload qos id).
Proof.
  unfold publish_body. rewrite !zlen_app. pose proof (zlen_nonneg (wire_string topic)).
  pose proof (zlen_nonneg (wire_opt (negb (qos =? AtMostOnce)) (be16 id))). lia.
Qed.

Lemma publish_remaining_length_Val topic payload qos id rl :
  zlen payload < 2 ^ 63 ->
  publish_remaining_length topic (zlen payload) qos = Val rl ->
  publish_ok topic qos /\ rl = zlen (publish_body topic payload qos id) /\ vbi_ok rl.
Proof.
  intros Hp. unfold publish_remaining_length, valid_qos, publish_ok, field_ok.
  pose proof (zlen_nonneg payload). intros Hrl.
  case_if_in Hrl; [done|]. case_if_in Hrl; [done|]. case_if_in Hrl; [done|]. zbool.
  match goal with E : empty _ = false |- _ => apply empty_false in E end.
  rewrite utf8_size_string in Hrl by done.
  pose proof (zlen_wire_string_bound topic ltac:(done)) as Hb.
  destruct (add_or 0 _ _) as [t1|e] eqn:Ea; [|done].
  apply add_or_Val in Ea as [-> Ht1]; [|unfold vbi_ok, kMaxRemainingLength; lia | lia].
  unfold publish_body, wire_opt. destruct (qos =? AtMostOnce) eqn:Eq; cbn [negb] in *.
  - apply add_or_Val in Hrl as [-> ?]; [|done|lia]. cbn [app]. rewrite zlen_app.
    split_and!; try done; lia.
  - destruct (add_or _ 2 _) as [t2|e] eqn:Eb; [|done].
    apply add_or_Val in Eb as [-> Ht2]; [|done|lia].
    apply add_or_Val in Hrl as [-> ?]; [|done|lia]. rewrite !zlen_app, zlen_be16.
    split_and!; try done; lia.
Qed.

Lemma publish_remaining_length_Err topic n qos e :
  publish_remaining_length topic n qos = Err e -> e = InvalidArgument \/ e = PayloadTooLarge.
Proof.
  unfold publish_remaining_length. intros He.
  repeat (case_if_in He; [left; congruence|]).
  length_cases He; (left; congruence) || (right; congruence).
Qed.

Lemma publish_remaining_length_ok topic payload qos id :
  publish_ok topic qos -> vbi_ok (zlen (publish_body topic payload qos id)) ->
  publish_remaining_length topic (zlen payload) qos = Val (zlen (publish_body topic payload qos id)).
Proof.
  intros (Hne & [Hlen Hv] & Hq) [_ Hrl]. unfold publish_remaining_length, valid_qos.
  rewrite (proj2 (empty_false topic) Hne), Hv, (proj2 (Z.leb_le qos 2) Hq).
  rewrite Z.gtb_ltb, (proj2 (Z.ltb_ge _ _) Hlen). cbn [orb negb].
  rewrite utf8_size_string by done. pose proof (zlen_nonneg payload).
  pose proof (zlen_wire_string_bound topic Hlen).
  unfold publish_body, wire_opt in *. destruct (qos =? AtMostOnce); cbn [negb] in *;
    cbn [app] in *; rewrite !zlen_app, ?zlen_be16 in *.
  - rewrite !add_or_ok by lia. f_equal; lia.
  - rewrite !add_or_ok by lia. f_equal; lia.
Qed.

Definition sub_ok (s : TopicSubscription) : Prop :=
  ts_filter s <> [] /\ field_ok (ts_filter s) /\ ts_qos s <= 2.

Lemma subscribe_lengths_Val subs total rl :
  vbi_ok total -> subscribe_lengths subs total = Val rl ->
  Forall sub_ok subs /\ rl = total + zlen (subscriptions_body subs) /\ vbi_ok rl.
Proof.
  revert total; induction subs as [|s subs IH]; intros total Ht Hrl; cbn [subscribe_lengths] in Hrl.
  - apply Val_inj in Hrl as <-. change (zlen _) with 0. rewrite Z.add_0_r. split_and!; [constructor | done | done].
  - case_if_in Hrl; [done|]. case_if_in Hrl; [done|]. case_if_in Hrl; [done|].
    unfold valid_qos in *. zbool.
    match goal with E : empty _ = false |- _ => apply empty_false in E end.
    rewrite utf8_size_string_1 in Hrl by done.
    pose proof (zlen_wire_string_bound (ts_filter s) ltac:(done)).
    destruct (add_or _ _ _) as [t1|e] eqn:Ea; [|done].
    apply add_or_Val in Ea as [-> Ht1]; [|done|lia].
    apply IH in Hrl as (Hsubs & -> & Hok); [|done].
    split; [by constructor; [repeat split|]|]. split; [|done].
    cbn [subscriptions_body]. rewrite !zlen_app. change (zlen [ts_qos s]) with 1. lia.
Qed.

Lemma subscribe_lengths_ok subs total :
  Forall sub_ok subs -> 0 <= total -> total + zlen (subscriptions_body subs) <= kMaxRemainingLength ->
  subscribe_lengths subs total = Val (total + zlen (subscriptions_body subs)).
Proof.
  revert total; induction subs as [|s subs IH]; intros total Hs Ht Hsum; cbn [subscribe_lengths].
  { change (zlen _) with 0. by rewrite Z.add_0_r. }
  apply Forall_cons_iff in Hs as [(Hne & [Hl Hv] & Hq) Hs]. apply empty_false in Hne.
  rewrite Hne, Hv, Z.gtb_ltb, (proj2 (Z.ltb_ge _ _) Hl). unfold valid_qos. rewrite (proj2 (Z.leb_le _ _) Hq).
  cbn [negb orb]. rewrite utf8_size_string_1 by done.
  cbn [subscriptions_body] in *. rewrite !zlen_app in *. change (zlen [ts_qos s]) with 1 in *.
  pose proof (zlen_nonneg (wire_string (ts_filter s))). pose proof (zlen_nonneg (subscriptions_body subs)).
  rewrite add_or_ok by lia. rewrite IH by (done || lia). f_equal. lia.
Qed.

Definition filter_ok (f : list Z) : Prop := f <> [] /\ field_ok f.

Lemma unsubscribe_lengths_Val filters total rl :
  vbi_ok total -> unsubscribe_lengths filters total = Val rl ->
  Forall filter_ok filters /\ rl = total + zlen (filters_body filters) /\ vbi_ok rl.
Proof.
  revert total; induction filters as [|f filters IH]; intros total Ht Hrl; cbn [unsubscribe_lengths] in Hrl.
  - apply Val_inj in Hrl as <-. change (zlen _) with 0. rewrite Z.add_0_r. split_and!; [constructor | done | done].
  - case_if_in Hrl; [done|]. case_if_in Hrl; [done|]. zbool.
    match goal with E : empty _ = false |- _ => apply empty_false in E end.
    rewrite utf8_size_string in Hrl by done.
    pose proof (zlen_wire_string_bound f ltac:(done)).
    destruct (add_or _ _ _) as [t1|e] eqn:Ea; [|done].
    apply add_or_Val in Ea as [-> Ht1]; [|done|lia].
    apply IH in Hrl as (Hfs & -> & Hok); [|done].
    split; [by constructor; [repeat split|]|]. split; [|done].
    cbn [filters_body]. rewrite !zlen_app. lia.
Qed.

Lemma vbi_ok_2 : vbi_ok 2.
Proof. unfold vbi_ok, kMaxRemainingLength. lia. Qed.

Lemma subscribe_remaining_length_Val subs id rl :
  subscribe_remaining_length subs = Val rl ->
  subs <> [] /\ Forall sub_ok subs /\ rl = zlen (subscribe_body id subs) /\ vbi_ok rl.
Proof.
  unfold subscribe_remaining_length. destruct subs as [|s subs]; [done|].
  cbn [empty]. intros Hrl. apply subscribe_lengths_Val in Hrl as (? & -> & ?); [|apply vbi_ok_2].
  unfold subscribe_body. rewrite zlen_app, zlen_be16. done.
Qed.

Lemma subscribe_remaining_length_ok subs id :
  subs <> [] -> Forall sub_ok subs -> vbi_ok (zlen (subscribe_body id subs)) ->
  subscribe_remaining_length subs = Val (zlen (subscribe_body id subs)).
Proof.
  intros Hne Hs [_ Hv]. unfold subscribe_remaining_length. rewrite (proj2 (empty_false _) Hne).
  unfold subscribe_body in *. rewrite zlen_app, zlen_be16 in *. by apply subscribe_lengths_ok.
Qed.

Lemma unsubscribe_remaining_length_Val filters id rl :
  unsubscribe_remaining_length filters = Val rl ->
  filters <> [] /\ Forall filter_ok filters /\ rl = zlen (unsubscribe_body id filters) /\ vbi_ok rl.
Proof.
  unfold unsubscribe_remaining_length. destruct filters as [|f filters]; [done|].
  cbn [empty]. intros Hrl. apply unsubscribe_lengths_Val in Hrl as (? & -> & ?); [|apply vbi_ok_2].
  unfold unsubscribe_body. rewrite zlen_app, zlen_be16. done.
Qed.

(** The options CONNECT can carry: every string field encodable and
    well-formed, a will QoS in range, no password without a user name. *)
Definition will_ok (w : Will) : Prop :=
  will_valid w = true ->
  field_ok (will_topic w) /\ zlen (will_payload w) <= kMaxStringLen /\ will_qos w <= 2.

Definition connect_ok (o : ConnectOptions) : Prop :=
  field_ok (opt_client_id o) /\ will_ok (opt_will o) /\
  (opt_username o <> [] -> field_ok (opt_username o)) /\
  (opt_password o <> [] -> opt_username o <> [] /\ zlen (opt_password o) <= kMaxStringLen).

Lemma add_field_Val (total : Z) (s : list Z) t :
  vbi_ok total -> zlen s <= kMaxStringLen ->
  add_or total (utf8_size (zlen s)) InvalidArgument = Val t ->
  t = total + zlen (wire_string s) /\ vbi_ok t.
Proof.
  intros Ht Hs. rewrite utf8_size_string by done. pose proof (zlen_wire_string_bound s Hs).
  apply add_or_Val; [done|lia].
Qed.

Lemma add_will_Val w total t :
  vbi_ok total -> add_will w total = Val t ->
  will_ok w /\ vbi_ok t /\
  t = total + zlen (wire_opt (will_valid w) (wire_string (will_topic w) ++ wire_string (will_payload w))).
Proof.
  unfold add_will, will_ok, valid_qos. intros Ht Ew.
  destruct (will_valid w); cbn [wire_opt].
  - case_if_in Ew; [done|]. case_if_in Ew; [done|]. case_if_in Ew; [done|]. zbool.
    destruct (add_or _ (utf8_size (zlen (will_topic _))) _) as [t'|e] eqn:Ea; [|done].
    apply add_field_Val in Ea as [-> Ht']; [|done|done].
    apply add_field_Val in Ew as [-> ?]; [|done|done].
    rewrite zlen_app. split_and!; try done; lia.
  - apply Val_inj in Ew as <-. change (zlen []) with 0. rewrite Z.add_0_r. by split_and!.
Qed.

Lemma add_username_Val u total t :
  vbi_ok total -> add_username u total = Val t ->
  (u <> [] -> field_ok u) /\ vbi_ok t /\ t = total + zlen (wire_opt (negb (empty u)) (wire_string u)).
Proof.
  unfold add_username. intros Ht Eu. destruct (empty u) eqn:Eemp; cbn [negb wire_opt] in *.
  - apply Val_inj in Eu as <-. apply empty_true in Eemp. change (zlen []) with 0.
    rewrite Z.add_0_r. by split_and!.
  - case_if_in Eu; [done|]. case_if_in Eu; [done|]. zbool.
    apply add_field_Val in Eu as [-> ?]; [|done|done]. by split_and!.
Qed.

Lemma add_password_Val u p total t :
  vbi_ok total -> add_password u p total = Val t ->
  (p <> [] -> u <> [] /\ zlen p <= kMaxStringLen) /\ vbi_ok t /\
  t = total + zlen (wire_opt (negb (empty p)) (wire_string p)).
Proof.
  unfold add_password. intros Ht Ep. destruct (empty p) eqn:Eemp; cbn [negb wire_opt] in *.
  - apply Val_inj in Ep as <-. apply empty_true in Eemp. change (zlen []) with 0.
    rewrite Z.add_0_r. by split_and!.
  - destruct (empty u) eqn:Eu; [done|]. apply empty_false in Eu.
    case_if_in Ep; [done|]. zbool.
    apply add_field_Val in Ep as [-> ?]; [|done|done]. by split_and!.
Qed.

Lemma connect_remaining_length_Val o rl :
  connect_remaining_length o = Val rl ->
  connect_ok o /\ rl = zlen (connect_body o) /\ vbi_ok rl.
Proof.
  unfold connect_remaining_length. intros Hrl.
  case_if_in Hrl; [done|]. case_if_in Hrl; [done|]. zbool.
  change (utf8_size 4) with (size_t 6) in Hrl.
  rewrite !(size_t_small 6), (size_t_small (6 + 1 + 1 + 2)) in Hrl by lia.
  destruct (add_or 0 _ _) as [t0|e] eqn:Ea; [|done].
  apply add_or_Val in Ea as [-> Ht0]; [|unfold vbi_ok, kMaxRemainingLength; lia|lia].
  destruct (add_or _ (utf8_size (zlen (opt_client_id o))) _) as [t1|e] eqn:Ea; [|done].
  apply add_field_Val in Ea as [-> Ht1]; [|done|done].
  destruct (add_will _ _) as [t2|e] eqn:Ew; [|done]. apply add_will_Val in Ew as (? & Ht2 & ->); [|done].
  destruct (add_username _ _) as [t3|e] eqn:Eu; [|done]. apply add_username_Val in Eu as (? & Ht3 & ->); [|done].
  apply add_password_Val in Hrl as (? & Ht4 & ->); [|done].
  split; [by split_and!|]. split; [|done].
  unfold connect_body. rewrite !zlen_app, zlen_be16.
  change (zlen (wire_string [77; 81; 84; 84])) with 6.
  change (zlen [4]) with 1. change (zlen [connect_flag_bits o]) with 1. lia.
Qed.

(** Room for what is left of a CONNECT payload. *)
Definition has_room (n : Z) (total : Z) : Prop := 0 <= total <= 1000000 - n * 65537.

Lemma add_field_room total (s : list Z) n :
  0 <= n -> has_room (n + 1) total -> zlen s <= kMaxStringLen ->
  exists t, add_or total (utf8_size (zlen s)) InvalidArgument = Val t /\ has_room n t.
Proof.
  unfold has_room. intros Hn Ht Hs. rewrite utf8_size_string by done.
  pose proof (zlen_wire_string_bound s Hs).
  exists (total + zlen (wire_string s)). rewrite add_or_ok by (unfold kMaxRemainingLength; lia).
  split; [done | lia].
Qed.

Lemma connect_remaining_length_ok o : connect_ok o -> exists rl, connect_remaining_length o = Val rl.
Proof.
  intros ([Hc Hcv] & Hw & Hu & Hp). unfold connect_remaining_length.
  rewrite Z.gtb_ltb, (proj2 (Z.ltb_ge _ _) Hc), Hcv. cbn [negb].
  change (utf8_size 4) with (size_t 6). rewrite !(size_t_small 6), (size_t_small (6 + 1 + 1 + 2)) by lia.
  rewrite add_or_ok by (unfold kMaxRemainingLength; lia).
  destruct (add_field_room (0 + (6 + 1 + 1 + 2)) (opt_client_id o) 4) as (t1 & -> & H1);
    [lia | unfold has_room; lia | done |].
  assert (Hwill : exists t2, add_will (opt_will o) t1 = Val t2 /\ has_room 2 t2).
  { unfold add_will. destruct (will_valid (opt_will o)) eqn:Ew; [|exists t1; split; [done | unfold has_room in *; lia]].
    destruct (Hw Ew) as ([Ht Htv] & Hpl & Hq). unfold valid_qos. rewrite (proj2 (Z.leb_le _ _) Hq).
    rewrite !Z.gtb_ltb, (proj2 (Z.ltb_ge _ _) Ht), (proj2 (Z.ltb_ge _ _) Hpl), Htv. cbn [negb orb].
    destruct (add_field_room t1 (will_topic (opt_will o)) 3) as (t & -> & Ht'); [lia | done | done |].
    apply add_field_room; [lia | done | done]. }
  destruct Hwill as (t2 & -> & H2).
  assert (Huser : exists t3, add_username (opt_username o) t2 = Val t3 /\ has_room 1 t3).
  { unfold add_username. destruct (empty (opt_username o)) eqn:Eu; cbn [negb];
      [exists t2; split; [done | unfold has_room in *; lia]|].
    apply empty_false in Eu. destruct (Hu Eu) as [Hl Hv]. rewrite Z.gtb_ltb, (proj2 (Z.ltb_ge _ _) Hl), Hv.
    cbn [negb]. by apply add_field_room. }
  destruct Huser as (t3 & -> & H3). unfold add_password.
  destruct (empty (opt_password o)) eqn:Ep; cbn [negb]; [by exists t3|].
  apply empty_false in Ep. destruct (Hp Ep) as [Hne Hl]. apply empty_false in Hne.
  rewrite Hne, Z.gtb_ltb, (proj2 (Z.ltb_ge _ _) Hl).
  destruct (add_field_room t3 (opt_password o) 0) as (t & -> & _); [lia | done | done |]. by exists t.
Qed.

(** Every refusal of filters is [InvalidArgument]. *)
Lemma subscribe_remaining_length_Err subs e : subscribe_remaining_length subs = Err e -> e = InvalidArgument.
Proof.
  unfold subscribe_remaining_length. destruct (empty subs); [congruence|]. generalize 2.
  induction subs as [|s subs IH]; intros total; cbn [subscribe_lengths]; [done|]. intros He.
  length_cases He; try congruence. by eapply IH.
Qed.

Lemma unsubscribe_remaining_length_Err fs e : unsubscribe_remaining_length fs = Err e -> e = InvalidArgument.
Proof.
  unfold unsubscribe_remaining_length. destruct (empty fs); [congruence|]. generalize 2.
  induction fs as [|f fs IH]; intros total; cbn [unsubscribe_lengths]; [done|]. intros He.
  length_cases He; try congruence. by eapply IH.
Qed.

(** Every refusal of options is [InvalidArgument]. *)
Lemma connect_remaining_length_Err o e : connect_remaining_length o = Err e -> e = InvalidArgument.
Proof.
  unfold connect_remaining_length, add_will, add_username, add_password. intros He.
  repeat (case_if_in He; try congruence);
  length_cases He; congruence.
Qed.
End sizes.

(** ** Encoders *)

(** [enc] writes [pkt] at the front of the span and returns its length, or
    reports [BufferTooSmall] when the span is shorter. This is the interface
    the client's transmit path relies on. *)
Definition encodes (enc : list Z -> Result Z * list Z) (pkt : list Z) : Prop :=
  forall out,
    (zlen pkt <= zlen out -> enc out = (Val (zlen pkt), pkt ++ zdrop (zlen pkt) out)) /\
    (zlen out < zlen pkt -> fst (enc out) = Err BufferTooSmall /\ zlen (snd (enc out)) = zlen out).

(** [enc] refuses its arguments before it touches the span. *)
Definition refuses (enc : list Z -> Result Z * list Z) (e : Error) : Prop :=
  forall out, enc out = (Err e, out).

Section encoders.
Context `{WideSizeT} `{ByteStreamWriterOk}.

Lemma encodes_with_writer m l :
  emits m l (fun n => n) -> encodes (fun out => with_writer out m) l.
Proof.
  intros Hm out. split; intros Hl;
    [by apply with_writer_fits with (f := fun n => n) | by eapply with_writer_short].
Qed.

Lemma wire_packet_app type dup qos retain body :
  wire_packet type dup qos retain body =
    (to_byte (mkFixedHeader type dup qos retain (zlen body)) :: vbi_wire (zlen body)) ++ body.
Proof. done. Qed.

(** The encoder's flags are these. *)
Lemma connect_flags_exact o : connect_flags o = connect_flag_bits o.
Proof.
  unfold connect_flags, connect_flag_bits. set (qos := will_qos (opt_will o)).
  assert (Hl : Z.land qos 3 = qos mod 4) by exact (Z.land_ones qos 2 ltac:(lia)). rewrite Hl.
  assert (Hq : qos mod 4 = 0 \/ qos mod 4 = 1 \/ qos mod 4 = 2 \/ qos mod 4 = 3) by (pose proof (Z.mod_pos_bound qos 4); lia).
  destruct (opt_clean_session o), (will_valid (opt_will o)), (will_retain (opt_will o)),
    (negb (empty (opt_password o))), (negb (empty (opt_username o)));
    try reflexivity; destruct Hq as [->|[->|[->| ->]]]; reflexivity.
Qed.

Lemma connect_flags_u8 o : is_u8 (connect_flags o).
Proof.
  unfold connect_flags.
  assert (Hor : forall a b, is_u8 a -> is_u8 b -> is_u8 (Z.lor a b)).
  { unfold is_u8. intros a b Ha Hb. split; [apply Z.lor_nonneg; lia|].
    destruct (Z.eq_dec (Z.lor a b) 0) as [->|]; [lia|].
    apply Z.log2_lt_cancel. rewrite Z.log2_lor by lia. change (Z.log2 (2 ^ 8)) with 8.
    assert (forall x, 0 <= x < 2 ^ 8 -> Z.log2 x < 8).
    { intros x Hx. destruct (Z.eq_dec x 0) as [->|]; [cbn; lia|]. apply Z.log2_lt_pow2; lia. }
    apply Z.max_lub_lt; auto. }
  repeat case_if; repeat (apply Hor || apply u8_range); unfold is_u8; lia.
Qed.

Lemma encode_connect_encodes o rl :
  is_u16 (opt_keep_alive_s o) -> connect_remaining_length o = Val rl ->
  encodes (fun out => encode_connect out o) (wire_packet Connect false AtMostOnce false (connect_body o)).
Proof.
  intros Hka Erl. unfold encode_connect. rewrite Erl.
  apply connect_remaining_length_Val in Erl as ((Hcid & Hwill & Huser & Hpass) & -> & Hrl).
  apply encodes_with_writer. rewrite wire_packet_app.
  eapply emits_seq; [apply emits_fixed_header; [done | unfold is_u8, AtMostOnce; lia]|].
  unfold connect_body. rewrite <- connect_flags_exact.
  eapply emits_seq; [apply (emits_string protocol_name); done|].
  eapply emits_seq; [apply emits_u8; unfold is_u8, kProtocolLevel_3_1_1; lia|].
  eapply emits_seq; [apply emits_u8, connect_flags_u8|].
  eapply emits_seq; [by apply emits_u16|].
  eapply emits_seq; [apply emits_string, Hcid|].
  eapply emits_seq.
  { apply emits_when. intros Hv. destruct (Hwill Hv) as ([] & ? & ?).
    eapply emits_seq; [by apply emits_string | by apply emits_binary]. }
  eapply emits_seq.
  { apply emits_when. intros Hu%negb_true_iff%empty_false. by apply emits_string, Huser. }
  eapply emits_last, emits_when. intros Hp%negb_true_iff%empty_false. by apply emits_binary, Hpass.
Qed.

Lemma encode_publish_encodes topic payload qos retain dup id rl :
  0 <= qos -> is_u16 id -> zlen payload < 2 ^ 63 ->
  (qos <> AtMostOnce -> id <> 0) -> (qos = AtMostOnce -> dup = false) ->
  publish_remaining_length topic (zlen payload) qos = Val rl ->
  encodes (fun out => encode_publish out topic payload qos retain dup id)
    (wire_packet Publish dup qos retain (publish_body topic payload qos id)).
Proof.
  intros Hq Hid Hp Hid0 Hdup Erl. unfold encode_publish. rewrite Erl.
  destruct (negb (qos =? AtMostOnce) && (id =? 0)) eqn:E1; [zbool; tauto|].
  destruct ((qos =? AtMostOnce) && dup) eqn:E2.
  { zbool. rewrite Hdup in * by done. done. }
  apply (publish_remaining_length_Val _ _ _ id) in Erl as ((Hne & [Hlen Hv] & Hq2) & -> & Hrl); [|done].
  apply encodes_with_writer. rewrite wire_packet_app.
  eapply emits_seq; [apply emits_fixed_header; [done | unfold is_u8; lia]|].
  eapply emits_seq; [by apply emits_string|].
  eapply emits_seq; [apply emits_when; intros _; by apply emits_u16|].
  eapply emits_last. destruct payload; [apply emits_ret | apply emits_bytes].
Qed.

Lemma encode_ack_encodes type id :
  is_ack_type type = true -> is_u16 id -> id <> 0 ->
  encodes (fun out => encode_ack out type id) (wire_packet type false AtMostOnce false (be16 id)).
Proof.
  intros Ht Hid H0'. unfold encode_ack. rewrite Ht, (proj2 (Z.eqb_neq id 0) H0'). cbn [negb].
  apply encodes_with_writer. rewrite wire_packet_app.
  eapply emits_seq; [apply emits_fixed_header; [apply vbi_ok_2 | unfold is_u8, AtMostOnce; lia]|].
  by eapply emits_last, emits_u16.
Qed.

Lemma emits_subscriptions subs :
  Forall sub_ok subs -> Forall (fun s => 0 <= ts_qos s) subs ->
  emits (write_subscriptions subs) (subscriptions_body subs) (fun _ => tt).
Proof.
  intros Hok Hq. induction subs as [|s subs IH]; [apply emits_ret|].
  apply Forall_cons_iff in Hok as [(Hne & [] & Hq2) Hok], Hq as [Hq0 Hq].
  cbn [write_subscriptions subscriptions_body].
  eapply emits_seq; [by apply emits_string|].
  eapply emits_seq; [apply emits_u8; unfold is_u8; lia | by apply IH].
Qed.

Lemma encode_subscribe_encodes id subs rl :
  is_u16 id -> id <> 0 -> Forall (fun s => 0 <= ts_qos s) subs ->
  subscribe_remaining_length subs = Val rl ->
  encodes (fun out => encode_subscribe out id subs)
    (wire_packet Subscribe false AtMostOnce false (subscribe_body id subs)).
Proof.
  intros Hid Hid0 Hq Erl. unfold encode_subscribe. rewrite Erl, (proj2 (Z.eqb_neq id 0) Hid0).
  apply (subscribe_remaining_length_Val _ id) in Erl as (Hne & Hsubs & -> & Hrl).
  apply encodes_with_writer. rewrite wire_packet_app.
  eapply emits_seq; [apply emits_fixed_header; [done | unfold is_u8, AtMostOnce; lia]|].
  eapply emits_seq; [by apply emits_u16|].
  by eapply emits_last, emits_subscriptions.
Qed.

Lemma emits_filters filters :
  Forall filter_ok filters -> emits (write_filters filters) (filters_body filters) (fun _ => tt).
Proof.
  induction 1 as [|f filters [Hne []] Hok IH]; [apply emits_ret|].
  cbn [write_filters filters_body]. eapply emits_seq; [by apply emits_string | done].
Qed.

Lemma encode_unsubscribe_encodes id filters rl :
  is_u16 id -> id <> 0 -> unsubscribe_remaining_length filters = Val rl ->
  encodes (fun out => encode_unsubscribe out id filters)
    (wire_packet Unsubscribe false AtMostOnce false (unsubscribe_body id filters)).
Proof.
  intros Hid Hid0 Erl. unfold encode_unsubscribe. rewrite Erl, (proj2 (Z.eqb_neq id 0) Hid0).
  apply (unsubscribe_remaining_length_Val _ id) in Erl as (Hne & Hfs & -> & Hrl).
  apply encodes_with_writer. rewrite wire_packet_app.
  eapply emits_seq; [apply emits_fixed_header; [done | unfold is_u8, AtMostOnce; lia]|].
  eapply emits_seq; [by apply emits_u16|].
  by eapply emits_last, emits_filters.
Qed.

Lemma encode_empty_encodes type :
  type = Pingreq \/ type = Disconnect ->
  encodes (fun out => encode_empty out type) (wire_packet type false AtMostOnce false []).
Proof.
  intros Ht. unfold encode_empty.
  replace (negb (PacketType_eqb type Pingreq) && negb (PacketType_eqb type Disconnect)) with false
    by (by destruct Ht as [-> | ->]).
  apply encodes_with_writer. rewrite wire_packet_app, app_nil_r.
  change (zlen (@nil Z)) with 0.
  eapply emits_last, emits_fixed_header; [unfold vbi_ok, kMaxRemainingLength; lia | unfold is_u8, AtMostOnce; lia].
Qed.

(** Every packet is its two-part fixed header and its body. *)
Lemma zlen_wire_packet type dup qos retain body :
  vbi_ok (zlen body) ->
  zlen (wire_packet type dup qos retain body) = 1 + vbi_size (zlen body) + zlen body.
Proof. intros. unfold wire_packet. rewrite zlen_cons, zlen_app, zlen_vbi_wire by done. lia. Qed.
End encoders.

(** ** Decoders *)
Section decoders.
Context `{WideSizeT} `{ByteStreamReaderOk}.

Lemma of_be16_be16 v : is_u16 v -> of_be16 (v / 256) (v mod 256) = v.
Proof. unfold of_be16, is_u16. intros. Z.to_euclidean_division_equations; lia. Qed.

Lemma be16_of_be16 hi lo : is_u8 hi -> is_u8 lo -> be16 (of_be16 hi lo) = [hi; lo].
Proof.
  unfold of_be16, is_u8, be16. intros. f_equal; [|f_equal]; Z.to_euclidean_division_equations; lia.
Qed.

Lemma of_be16_range hi lo : is_u8 hi -> is_u8 lo -> is_u16 (of_be16 hi lo).
Proof. unfold of_be16, is_u8, is_u16. lia. Qed.

Lemma id_of_bytes_be16 hi lo : is_u8 hi -> is_u8 lo -> id_of_bytes hi lo = of_be16 hi lo.
Proof.
  intros Hh Hl. unfold id_of_bytes. rewrite lor_shiftl_add by (unfold is_u8 in *; lia).
  apply u16_small. by apply of_be16_range.
Qed.

(** Reading a length-prefixed string: what was written comes back... *)
Lemma read_string_wire r s tail :
  bsr_rest r = wire_string s ++ tail -> zlen s <= kMaxStringLen ->
  (s <> [] -> is_valid_mqtt_string s = true) ->
  fst (read_string r) = Val s /\ bsr_rest (snd (read_string r)) = tail.
Proof.
  intros Hr Hlen Hv. unfold kMaxStringLen in Hlen. pose proof (zlen_nonneg s).
  unfold wire_string, be16 in Hr. cbn [app] in Hr.
  destruct (bsr_read_u16_ok r _ _ _ Hr) as [Hn Hrest].
  rewrite of_be16_be16 in Hn by (unfold is_u16; lia).
  unfold read_string. destruct (bsr_read_u16 r) as [n r1]. cbn [fst snd] in *. subst n.
  destruct (zlen s =? 0) eqn:E; zbool.
  { apply zlen_0_nil in E as ->. done. }
  destruct (bsr_read_chars_ok r1 (zlen s)) as [Hs Hrest'].
  { rewrite Hrest, zlen_app. pose proof (zlen_nonneg tail). lia. }
  destruct (bsr_read_chars (zlen s) r1) as [o r2]. cbn [fst snd] in *. subst o.
  rewrite Hrest, ztake_app_zlen. rewrite Hrest, zdrop_app_zlen in Hrest'.
  rewrite Hv by (intros ->; done). done.
Qed.

(** ... and nothing else is accepted. *)
Lemma read_string_sound r s r' :
  bytes_ok (bsr_rest r) -> read_string r = (Val s, r') ->
  bsr_rest r = wire_string s ++ bsr_rest r' /\ zlen s <= kMaxStringLen /\
  (s <> [] -> is_valid_mqtt_string s = true).
Proof.
  intros Hok Hrd. unfold read_string in Hrd.
  destruct (bsr_rest r) as [|hi [|lo rest]] eqn:Er.
  1, 2: pose proof (bsr_read_u16_short r) as Hs; rewrite Er in Hs;
    specialize (Hs ltac:(zlia)); destruct (bsr_read_u16 r) as [[]]; cbn in Hs; congruence.
  destruct (bsr_read_u16_ok r _ _ _ Er) as [Hn Hrest].
  destruct (bsr_read_u16 r) as [n r1]. cbn [fst snd] in *. subst n.
  apply bytes_ok_cons in Hok as [Hhi Hok]. apply bytes_ok_cons in Hok as [Hlo Hok].
  pose proof (of_be16_range hi lo Hhi Hlo) as Hrange. unfold is_u16 in Hrange.
  destruct (of_be16 hi lo =? 0) eqn:E; zbool.
  { injection Hrd as <- <-. unfold wire_string. change (zlen []) with 0.
    rewrite <- E, be16_of_be16 by done. rewrite Hrest. cbn. split_and!; [done | | done].
    unfold kMaxStringLen; zlia. }
  destruct (Z.le_gt_cases (of_be16 hi lo) (zlen rest)) as [Hle|Hgt].
  - destruct (bsr_read_chars_ok r1 (of_be16 hi lo)) as [Hs Hrest']; [rewrite Hrest; lia|].
    destruct (bsr_read_chars _ r1) as [o r2]. cbn [fst snd] in *. subst o.
    rewrite Hrest in Hrd, Hrest'. case_if_in Hrd; [done|]. injection Hrd as <- <-. zbool.
    rewrite Hrest'. unfold wire_string, kMaxStringLen. rewrite zlen_ztake by lia.
    rewrite be16_of_be16 by done. cbn [app]. rewrite ztake_zdrop. split_and!; [done | lia | done].
  - pose proof (bsr_read_chars_short r1 (of_be16 hi lo)) as Hs. rewrite Hrest in Hs.
    specialize (Hs ltac:(lia)). destruct (bsr_read_chars _ r1) as [[]]; cbn in Hs; congruence.
Qed.

(** A body the encoder writes decodes to the message it was made from. *)
Lemma decode_publish_wire dup qos retain rl topic payload id :
  0 <= qos -> publish_ok topic qos -> is_u16 id ->
  (qos <> AtMostOnce -> id <> 0) -> (qos = AtMostOnce -> dup = false) ->
  decode_publish (mkFixedHeader Publish dup qos retain rl) (publish_body topic payload qos id) =
    Val (mkMessage topic payload qos retain dup (if qos =? AtMostOnce then 0 else id)).
Proof.
  intros Hq (Hne & [Hlen Hv] & Hq2) Hid Hid0 Hdup. unfold decode_publish.
  destruct (read_string_wire (bsr_open (publish_body topic payload qos id)) topic
    (wire_opt (negb (qos =? AtMostOnce)) (be16 id) ++ payload)) as [Ht Hr];
    [by rewrite bsr_open_ok | done | done |].
  destruct (read_string _) as [t r1]. cbn [fst snd] in *. subst t.
  rewrite (proj2 (empty_false topic) Hne). cbn [fh_qos fh_dup fh_retain].
  destruct (qos =? AtMostOnce) eqn:Eq; cbn [negb wire_opt app] in *; zbool.
  - rewrite Hdup by done. rewrite bsr_available_ok, Hr. unfold publish_body.
    rewrite Eq. cbn [negb wire_opt app Z.eqb]. rewrite zlen_app.
    replace (_ + zlen payload - zlen payload) with (zlen (wire_string topic)) by lia.
    by rewrite zdrop_app_zlen.
  - unfold be16 in Hr. cbn [app] in Hr.
    destruct (bsr_read_u16_ok r1 _ _ _ Hr) as [Hn Hr2]. rewrite of_be16_be16 in Hn by done.
    destruct (bsr_read_u16 r1) as [n r2]. cbn [fst snd] in *. subst n.
    rewrite (proj2 (Z.eqb_neq id 0)) by auto.
    rewrite bsr_available_ok, Hr2. unfold publish_body.
    rewrite (proj2 (Z.eqb_neq qos AtMostOnce) Eq). cbn [negb wire_opt].
    rewrite app_assoc, zlen_app.
    replace (_ + zlen payload - zlen payload) with (zlen (wire_string topic ++ be16 id)) by lia.
    by rewrite zdrop_app_zlen.
Qed.

(** A body the decoder accepts is the encoding of the message it returns. *)
Lemma decode_publish_sound h body m :
  bytes_ok body -> decode_publish h body = Val m ->
  body = publish_body (msg_topic m) (msg_payload m) (fh_qos h) (msg_packet_id m) /\
  msg_topic m <> [] /\ field_ok (msg_topic m) /\
  msg_qos m = fh_qos h /\ msg_retain m = fh_retain h /\ msg_dup m = fh_dup h /\
  is_u16 (msg_packet_id m) /\
  (fh_qos h = AtMostOnce -> fh_dup h = false /\ msg_packet_id m = 0) /\
  (fh_qos h <> AtMostOnce -> msg_packet_id m <> 0).
Proof.
  intros Hok Hd. unfold decode_publish in Hd.
  destruct (read_string (bsr_open body)) as [[topic|e] r1] eqn:Et; [|done].
  apply read_string_sound in Et as (Hbody & Hlen & Hv); rewrite bsr_open_ok in *; [|done].
  rewrite Hbody in Hok. apply bytes_ok_app in Hok as [_ Hok1].
  destruct (empty topic) eqn:Ene; [done|]. apply empty_false in Ene.
  assert (Hpay : forall pre tail, body = pre ++ tail -> zdrop (zlen body - zlen tail) body = tail).
  { intros pre tail ->. rewrite zlen_app.
    replace (zlen pre + zlen tail - zlen tail) with (zlen pre) by lia. apply zdrop_app_zlen. }
  unfold publish_body, field_ok, wire_opt.
  destruct (fh_qos h =? AtMostOnce) eqn:Eq; cbn [negb] in *; zbool.
  - destruct (fh_dup h) eqn:Ed; [done|]. injection Hd as <-.
    cbn [msg_topic msg_payload msg_qos msg_retain msg_dup msg_packet_id app].
    rewrite bsr_available_ok, (Hpay (wire_string topic)) by done.
    split_and!; try done; auto.
  - destruct (bsr_rest r1) as [|hi [|lo rest]] eqn:Er.
    1, 2: pose proof (bsr_read_u16_short r1) as Hs; rewrite Er in Hs;
      specialize (Hs ltac:(zlia)); destruct (bsr_read_u16 r1) as [[]]; cbn in Hs; congruence.
    destruct (bsr_read_u16_ok r1 _ _ _ Er) as [Hn Hrest].
    destruct (bsr_read_u16 r1) as [n r2]. cbn [fst snd] in *. subst n.
    apply bytes_ok_cons in Hok1 as [Hhi Hok1]. apply bytes_ok_cons in Hok1 as [Hlo _].
    destruct (of_be16 hi lo =? 0) eqn:E; [done|]. zbool. injection Hd as <-.
    cbn [msg_topic msg_payload msg_qos msg_retain msg_dup msg_packet_id].
    rewrite bsr_available_ok, Hrest, be16_of_be16, (Hpay (wire_string topic ++ [hi; lo])) by
      (done || by rewrite <- app_assoc).
    split_and!; try done; auto using of_be16_range.
Qed.

Lemma decode_packet_id_be16 id : is_u16 id -> id <> 0 -> decode_packet_id (be16 id) = Val id.
Proof.
  intros Hid Hne. unfold decode_packet_id, be16.
  rewrite id_of_bytes_be16, of_be16_be16 by
    (done || (unfold is_u16, is_u8 in *; Z.to_euclidean_division_equations; lia)).
  by rewrite (proj2 (Z.eqb_neq id 0) Hne).
Qed.

Lemma decode_packet_id_sound body id :
  bytes_ok body -> decode_packet_id body = Val id -> body = be16 id /\ is_u16 id /\ id <> 0.
Proof.
  intros Hok Hd. destruct body as [|hi [|lo [|x body]]]; try done.
  apply bytes_ok_cons in Hok as [Hhi Hok]. apply bytes_ok_cons in Hok as [Hlo _].
  unfold decode_packet_id in Hd. rewrite id_of_bytes_be16 in Hd by done.
  case_if_in Hd; [done|]. injection Hd as <-. zbool.
  rewrite be16_of_be16 by done. auto using of_be16_range.
Qed.

Lemma decode_suback_sound body v :
  bytes_ok body -> decode_suback body = Val v ->
  body = be16 (sv_packet_id v) ++ sv_return_codes v /\
  is_u16 (sv_packet_id v) /\ sv_packet_id v <> 0 /\ sv_return_codes v <> [] /\
  Forall (fun c => 0 <= c <= 2 \/ c = kSubackFailure) (sv_return_codes v).
Proof.
  intros Hok Hd. destruct body as [|hi [|lo codes]]; try done.
  apply bytes_ok_cons in Hok as [Hhi Hok]. apply bytes_ok_cons in Hok as [Hlo Hok].
  unfold decode_suback in Hd. rewrite id_of_bytes_be16 in Hd by done.
  case_if_in Hd; [done|]. case_if_in Hd; [done|]. case_if_in Hd; [done|].
  injection Hd as <-. cbn [sv_packet_id sv_return_codes]. zbool.
  rewrite be16_of_be16 by done. split_and!; try done.
  - by apply of_be16_range.
  - intros ->. zlia.
  - apply Forall_forall. intros c Hc. apply list_elem_of_In in Hc.
    assert (Hb : is_u8 c) by (eapply Forall_forall; [exact Hok | by apply list_elem_of_In]).
    match goal with E : existsb _ _ = false |- _ => rename E into Hex end.
    destruct ((c >? 2) && negb (c =? kSubackFailure)) eqn:Ec.
    + exfalso. rewrite <- not_true_iff_false in Hex. apply Hex, existsb_exists.
      exists c. split; [by apply list_elem_of_In | done].
    + unfold is_u8 in Hb. zbool. destruct Ec; zbool; lia.
Qed.

(** *** Framing *)
Lemma to_byte_length t dup qos retain rl rl' :
  to_byte (mkFixedHeader t dup qos retain rl) = to_byte (mkFixedHeader t dup qos retain rl').
Proof. done. Qed.

(** The header of a packet the encoders write is read back in full, whatever
    follows the packet in the buffer. *)
Lemma peek_header_wire t dup qos retain body rest :
  header_ok (mkFixedHeader t dup qos retain 0) = true ->
  vbi_ok (zlen body) -> bytes_ok body -> bytes_ok rest ->
  peek_header (wire_packet t dup qos retain body ++ rest) =
    Val (mkPacketPeek (mkFixedHeader t dup qos retain (zlen body)) (1 + vbi_size (zlen body))
           (zlen (wire_packet t dup qos retain body))).
Proof.
  intros Hh Hrl Hb Hr. unfold wire_packet. cbn [app peek_header].
  rewrite (to_byte_length _ _ _ _ _ 0), to_byte_from_byte by done.
  change (zdrop 1 (?b :: ?l)) with l. rewrite <- app_assoc.
  rewrite vbi_decode_wire by (done || by apply bytes_ok_app).
  cbn [fh_type fh_dup fh_qos fh_retain vbi_value vbi_bytes].
  pose proof (vbi_size_range _ Hrl). unfold vbi_ok, kMaxRemainingLength in Hrl.
  rewrite !size_t_small by lia. rewrite zlen_cons, zlen_app, zlen_vbi_wire by done.
  do 2 f_equal. lia.
Qed.

(** Whatever header is read off the front of the buffer, the bytes there are
    its encoding, and the sizes are exact. *)
Lemma peek_header_sound inp p :
  bytes_ok inp -> peek_header inp = Val p ->
  let h := peek_hdr p in
  vbi_ok (fh_remaining_length h) /\
  header_ok (mkFixedHeader (fh_type h) (fh_dup h) (fh_qos h) (fh_retain h) 0) = true /\
  peek_header_bytes p = 1 + vbi_size (fh_remaining_length h) /\
  peek_total_bytes p = peek_header_bytes p + fh_remaining_length h /\
  inp = (to_byte h :: vbi_wire (fh_remaining_length h)) ++ zdrop (peek_header_bytes p) inp.
Proof.
  intros Hok Hp. destruct inp as [|b0 inp]; [done|]. cbn [peek_header] in Hp.
  apply bytes_ok_cons in Hok as [Hb0 Hok].
  destruct (from_byte b0) as [h|e] eqn:Eh; [|done].
  apply from_byte_to_byte in Eh as [Hto Hh]; [|done].
  change (zdrop 1 (b0 :: inp)) with inp in Hp.
  destruct (vbi_decode inp) as [d|e] eqn:Ed; [|done].
  apply vbi_decode_sound in Ed as (Hv & Hn & Hinp); [|done].
  apply Val_inj in Hp as <-. cbn [peek_hdr peek_header_bytes peek_total_bytes fh_type fh_dup fh_qos fh_retain fh_remaining_length].
  pose proof (vbi_size_range _ Hv). pose proof Hv as Hv'. unfold vbi_ok, kMaxRemainingLength in Hv'.
  rewrite Hn, !size_t_small by lia.
  assert (Hrl0 : fh_remaining_length h = 0).
  { unfold header_ok in Hh. zbool. lia. }
  destruct h as [t dup q r rl]. cbn [fh_type fh_dup fh_qos fh_retain fh_remaining_length] in *. subst rl.
  split_and!; try done. rewrite (to_byte_length _ _ _ _ _ 0), Hto. cbn [app]. f_equal.
  rewrite Hinp at 1. rewrite Hn. f_equal. unfold zdrop.
  replace (Z.to_nat (1 + vbi_size (vbi_value d))) with (S (Z.to_nat (vbi_size (vbi_value d)))) by lia.
  done.
Qed.

Lemma peek_header_errors inp e :
  peek_header inp = Err e -> e = Incomplete \/ e = MalformedPacket.
Proof.
  destruct inp as [|b0 inp]; cbn [peek_header]; [naive_solver|].
  destruct (from_byte b0) eqn:Eh; [|intros [= <-]; right; by eapply from_byte_errors].
  destruct (vbi_decode _) eqn:Ed; [done|]. intros [= <-]. by eapply vbi_decode_errors.
Qed.

(** The header is still arriving only while fewer than five bytes are in. *)
Lemma peek_header_incomplete inp :
  bytes_ok inp -> peek_header inp = Err Incomplete -> zlen inp < 5.
Proof.
  intros Hok. destruct inp as [|b0 inp]; [zlia|]. cbn [peek_header].
  apply bytes_ok_cons in Hok as [Hb0 Hok]. change (zdrop 1 (b0 :: inp)) with inp.
  destruct (from_byte b0) eqn:Eh; [|intros [= ->]; apply from_byte_errors in Eh; done].
  destruct (vbi_decode inp) eqn:Ed; [done|]. intros [= ->].
  apply vbi_decode_incomplete in Ed as [? _]; [|done]. unfold kMaxVbiBytes in *. zlia.
Qed.
End decoders.
