(* ===== verification/TxQueue.v ===== *)
(** * TxQueue: the outbound byte FIFO (tx_queue.hpp)

    The linear buffer with its two indices, and its refinement of a bounded
    FIFO of bytes. *)
From S2P Require Import Prelude.

Record TxQueue := mkTxQueue {
  tx_buffer : list Z;
  tx_head : Z;
  tx_tail : Z;
}.

Section tx_queue.
(** The template parameter [Capacity]. *)
Context (Capacity : Z).

(** [TxQueue<Capacity> q{}]. *)
Definition tx_init : TxQueue := mkTxQueue (replicate (Z.to_nat Capacity) 0) 0 0.

Definition tx_pending (q : TxQueue) : Z := tx_tail q - tx_head q.

Definition tx_empty (q : TxQueue) : bool := tx_head q =? tx_tail q.

(** [memmove(buffer_, buffer_ + head_, n)] and the indices reset. *)
Definition tx_compact (q : TxQueue) : TxQueue :=
  if tx_head q =? 0 then q
  else
    let n := tx_tail q - tx_head q in
    let buffer :=
      if n >? 0 then splice (tx_buffer q) 0 (ztake n (zdrop (tx_head q) (tx_buffer q)))
      else tx_buffer q in
    mkTxQueue buffer 0 n.

Definition tx_reserve (n : Z) (q : TxQueue) : bool * TxQueue :=
  if n >? Capacity then (false, q)
  else if Capacity - tx_tail q >=? n then (true, q)
  else let q := tx_compact q in (Capacity - tx_tail q >=? n, q).

(** The bytes of [write_span()]: the free region at the tail. *)
Definition tx_write_span (q : TxQueue) : list Z :=
  ztake (Capacity - tx_tail q) (zdrop (tx_tail q) (tx_buffer q)).

(** Store [bytes] at the front of [write_span()]. *)
Definition tx_store (bytes : list Z) (q : TxQueue) : TxQueue :=
  mkTxQueue (splice (tx_buffer q) (tx_tail q) bytes) (tx_head q) (tx_tail q).

Definition tx_commit (n : Z) (q : TxQueue) : TxQueue :=
  let room := Capacity - tx_tail q in
  mkTxQueue (tx_buffer q) (tx_head q) (tx_tail q + (if n <? room then n else room)).

(** The bytes of [peek()]: waiting to go out. *)
Definition tx_peek (q : TxQueue) : list Z :=
  ztake (tx_tail q - tx_head q) (zdrop (tx_head q) (tx_buffer q)).

Definition tx_consume (n : Z) (q : TxQueue) : TxQueue :=
  let avail := tx_tail q - tx_head q in
  let head := tx_head q + (if n <? avail then n else avail) in
  if head =? tx_tail q then mkTxQueue (tx_buffer q) 0 0
  else mkTxQueue (tx_buffer q) head (tx_tail q).

Definition tx_clear (q : TxQueue) : TxQueue := mkTxQueue (tx_buffer q) 0 0.

(** ** Invariant *)
Definition tx_wf (q : TxQueue) : Prop :=
  zlen (tx_buffer q) = Capacity /\ 0 <= tx_head q <= tx_tail q /\ tx_tail q <= Capacity.

Lemma tx_init_wf : 0 <= Capacity -> tx_wf tx_init.
Proof. unfold tx_wf, tx_init. cbn [tx_buffer tx_head tx_tail]. intros. zlia. Qed.

Lemma tx_init_peek : tx_peek tx_init = [].
Proof. done. Qed.

Lemma zlen_tx_peek q : tx_wf q -> zlen (tx_peek q) = tx_pending q.
Proof. unfold tx_wf, tx_peek, tx_pending. intros. rewrite zlen_ztake; [done|]. zlia. Qed.

Lemma zlen_tx_write_span q : tx_wf q -> zlen (tx_write_span q) = Capacity - tx_tail q.
Proof. unfold tx_wf, tx_write_span. intros. rewrite zlen_ztake; [done|]. zlia. Qed.

Lemma tx_empty_peek q : tx_wf q -> tx_empty q = true <-> tx_peek q = [].
Proof.
  intros Hwf. pose proof (zlen_tx_peek q Hwf) as Hl. unfold tx_empty, tx_pending in *. split.
  - intros E. zbool. apply zlen_0_nil. lia.
  - intros E. rewrite E in Hl. change (zlen []) with 0 in Hl. apply Z.eqb_eq. lia.
Qed.

Lemma tx_compact_spec q :
  tx_wf q -> tx_wf (tx_compact q) /\ tx_peek (tx_compact q) = tx_peek q /\
             tx_tail (tx_compact q) = tx_pending q.
Proof.
  intros Hwf. pose proof (zlen_tx_peek q Hwf) as Hl. unfold tx_compact.
  destruct (tx_head q =? 0) eqn:E0; zbool.
  { unfold tx_pending. split_and!; [done | done | lia]. }
  change (ztake (tx_tail q - tx_head q) (zdrop (tx_head q) (tx_buffer q))) with (tx_peek q).
  unfold tx_wf, tx_pending in *.
  destruct (tx_tail q - tx_head q >? 0) eqn:En; zbool; cbn [tx_buffer tx_head tx_tail].
  - rewrite zlen_splice by lia. split_and!; try lia.
    unfold tx_peek at 1. cbn [tx_buffer tx_head tx_tail]. rewrite zdrop_0, Z.sub_0_r.
    unfold splice. rewrite ztake_0, <- Hl. cbn [app]. apply ztake_app_zlen.
  - split_and!; try lia. unfold tx_peek. cbn [tx_buffer tx_head tx_tail].
    replace (tx_tail q - tx_head q - 0) with (tx_tail q - tx_head q) by lia.
    replace (tx_tail q - tx_head q) with 0 by lia. done.
Qed.

(** ** Refinement of a bounded FIFO

    [tx_repr q l]: the queue holds the bytes [l], in order. *)
Definition tx_repr (q : TxQueue) (l : list Z) : Prop := tx_wf q /\ tx_peek q = l.

(** [reserve] succeeds exactly when the bytes fit beside those waiting; it
    never changes what is queued. *)
Lemma tx_reserve_repr n q l :
  0 <= n -> tx_repr q l ->
  tx_repr (snd (tx_reserve n q)) l /\
  (fst (tx_reserve n q) = true <-> zlen l + n <= Capacity) /\
  (fst (tx_reserve n q) = true -> n <= Capacity - tx_tail (snd (tx_reserve n q))).
Proof.
  intros Hn [Hwf <-]. pose proof (zlen_tx_peek q Hwf) as Hl. rewrite Hl.
  pose proof (tx_compact_spec q Hwf) as (Hwf' & Hpeek' & Htail').
  unfold tx_reserve, tx_pending, tx_wf, tx_repr in *.
  destruct (n >? Capacity) eqn:E1; cbn [fst snd]; zbool.
  { split_and!; try done; split; [done | lia]. }
  destruct (Capacity - tx_tail q >=? n) eqn:E2; cbn [fst snd]; zbool.
  { split_and!; try done; try lia; split; lia. }
  split_and!; try done; try lia.
Qed.

(** Bytes stored in the reserved region and committed go to the back. *)
Lemma tx_append_repr bytes n q l :
  tx_repr q l -> n = zlen bytes -> zlen bytes <= Capacity - tx_tail q ->
  tx_repr (tx_commit n (tx_store bytes q)) (l ++ bytes).
Proof.
  intros [Hwf <-] -> Hroom. pose proof (zlen_nonneg bytes).
  unfold tx_repr, tx_wf, tx_commit, tx_store in *. cbn [tx_buffer tx_head tx_tail].
  assert (Hmin : (if zlen bytes <? Capacity - tx_tail q then zlen bytes else Capacity - tx_tail q)
                 = zlen bytes) by (case_if; zbool; lia).
  rewrite Hmin, zlen_splice by lia. split_and!; try lia.
  unfold tx_peek. cbn [tx_buffer tx_head tx_tail]. unfold splice.
  destruct Hwf as (Hlen & Hh & Ht).
  rewrite zdrop_app_le by zlia.
  replace (tx_tail q + zlen bytes - tx_head q) with
    (zlen (zdrop (tx_head q) (ztake (tx_tail q) (tx_buffer q))) + zlen bytes)
    by (rewrite zlen_zdrop; rewrite zlen_ztake; lia).
  rewrite ztake_app_add, ztake_app_zlen by lia. f_equal.
  unfold ztake, zdrop. rewrite skipn_firstn_comm. f_equal. lia.
Qed.

(** [consume] drops from the front. *)
Lemma tx_consume_repr n q l :
  0 <= n -> tx_repr q l -> tx_repr (tx_consume n q) (zdrop n l).
Proof.
  intros Hn [Hwf <-]. pose proof (zlen_tx_peek q Hwf) as Hl.
  unfold tx_consume, tx_repr, tx_pending in *.
  set (m := if n <? tx_tail q - tx_head q then n else tx_tail q - tx_head q).
  assert (Hm : 0 <= m <= tx_tail q - tx_head q /\ zdrop n (tx_peek q) = zdrop m (tx_peek q)).
  { unfold tx_wf in Hwf. subst m. case_if; zbool; split; try lia; [done|].
    rewrite !zdrop_all; [done | lia | lia]. }
  destruct Hm as [Hm ->]. unfold tx_wf in *. destruct Hwf as (Hlen & Hh & Ht).
  destruct (tx_head q + m =? tx_tail q) eqn:E; zbool; cbn [tx_buffer tx_head tx_tail].
  - split; [lia|]. rewrite zdrop_all by lia. done.
  - split; [lia|]. unfold tx_peek. cbn [tx_buffer tx_head tx_tail].
    unfold ztake, zdrop. rewrite skipn_firstn_comm, drop_drop. f_equal; [lia|]. f_equal. lia.
Qed.

Lemma tx_clear_wf q : tx_wf q -> tx_wf (tx_clear q).
Proof. unfold tx_wf, tx_clear. cbn [tx_buffer tx_head tx_tail]. lia. Qed.

Lemma tx_clear_repr q l : tx_repr q l -> tx_repr (tx_clear q) [].
Proof. unfold tx_repr, tx_wf, tx_clear. cbn [tx_buffer tx_head tx_tail]. intros. split; [lia|done]. Qed.

(** ** The specification: a FIFO and the region to write in

    Every member is an operation, with what it returns; [TxWrite] is the caller
    who writes at the front of [write_span()], which holds what it holds. *)
Inductive TxOp :=
  | TxPending | TxEmpty | TxPeek | TxWriteSpan
  | TxReserve (n : Z) | TxWrite (bytes : list Z) | TxCommit (n : Z) | TxConsume (n : Z) | TxClear.

Inductive TxResult := TxSize (n : Z) | TxBool (b : bool) | TxBytes (l : list Z) | TxVoid.

Definition tx_do (op : TxOp) (q : TxQueue) : TxResult * TxQueue :=
  match op with
  | TxPending => (TxSize (tx_pending q), q)
  | TxEmpty => (TxBool (tx_empty q), q)
  | TxPeek => (TxBytes (tx_peek q), q)
  | TxWriteSpan => (TxBytes (tx_write_span q), q)
  | TxReserve n => let '(b, q) := tx_reserve n q in (TxBool b, q)
  | TxWrite bytes => (TxVoid, if zlen bytes <=? zlen (tx_write_span q) then tx_store bytes q else q)
  | TxCommit n => (TxVoid, tx_commit n q)
  | TxConsume n => (TxVoid, tx_consume n q)
  | TxClear => (TxVoid, tx_clear q)
  end.

(** The arguments are of type [size_t]. *)
Definition op_ok (op : TxOp) : Prop :=
  match op with TxReserve n | TxCommit n | TxConsume n => 0 <= n | _ => True end.

(** The bytes queued, and the bytes of the region after them. *)
Record Fifo := mkFifo { queued : list Z; region : list Z }.

(** What each operation returns and does. [commit] moves bytes of the region to
    the queue, at most all of it; [consume] drops bytes, at most all. [reserve]
    says whether [n] bytes fit beside those queued, and then the region has them;
    a region that had them stays as it is. Queue and region may lie anywhere in
    the buffer, but an empty queue leaves all of it to the region. *)
Inductive fifo_step : TxOp -> Fifo -> TxResult -> Fifo -> Prop :=
  | fifo_pending f : fifo_step TxPending f (TxSize (zlen (queued f))) f
  | fifo_empty f : fifo_step TxEmpty f (TxBool (bool_decide (queued f = []))) f
  | fifo_peek f : fifo_step TxPeek f (TxBytes (queued f)) f
  | fifo_write_span f : fifo_step TxWriteSpan f (TxBytes (region f)) f
  | fifo_reserve n l w w' :
      zlen l + zlen w' <= Capacity -> (n <= zlen w -> w' = w) -> (zlen l + n <= Capacity -> n <= zlen w') ->
      fifo_step (TxReserve n) (mkFifo l w) (TxBool (zlen l + n <=? Capacity)) (mkFifo l w')
  | fifo_write bytes l w : zlen bytes <= zlen w ->
      fifo_step (TxWrite bytes) (mkFifo l w) TxVoid (mkFifo l (bytes ++ zdrop (zlen bytes) w))
  | fifo_no_write bytes f : zlen (region f) < zlen bytes -> fifo_step (TxWrite bytes) f TxVoid f
  | fifo_commit n l w : fifo_step (TxCommit n) (mkFifo l w) TxVoid (mkFifo (l ++ ztake n w) (zdrop n w))
  | fifo_consume n l w w' : (if bool_decide (zdrop n l = []) then zlen w' = Capacity else w' = w) ->
      fifo_step (TxConsume n) (mkFifo l w) TxVoid (mkFifo (zdrop n l) w')
  | fifo_clear f w : zlen w = Capacity -> fifo_step TxClear f TxVoid (mkFifo [] w).

Inductive fifo_runs : list TxOp -> Fifo -> list TxResult -> Prop :=
  | fifo_done f : fifo_runs [] f []
  | fifo_more op ops f r f' rs : fifo_step op f r f' -> fifo_runs ops f' rs -> fifo_runs (op :: ops) f (r :: rs).

Fixpoint tx_runs (ops : list TxOp) (q : TxQueue) : list TxResult :=
  match ops with
  | [] => []
  | op :: ops => fst (tx_do op q) :: tx_runs ops (snd (tx_do op q))
  end.

(** ** The queue is such a FIFO *)
Definition tx_fifo (q : TxQueue) : Fifo := mkFifo (tx_peek q) (tx_write_span q).

(** The buffer: bytes already sent, the queue, the region. *)
Lemma tx_layout q : tx_wf q -> exists pre,
  q = mkTxQueue (pre ++ tx_peek q ++ tx_write_span q) (zlen pre) (zlen pre + zlen (tx_peek q)) /\
  zlen pre + zlen (tx_peek q) + zlen (tx_write_span q) = Capacity.
Proof.
  intros Hwf. pose proof (zlen_tx_peek q Hwf) as Hp. pose proof (zlen_tx_write_span q Hwf) as Hs.
  unfold tx_wf, tx_pending in *. exists (ztake (tx_head q) (tx_buffer q)). rewrite Hp, Hs, zlen_ztake by lia. split; [|lia].
  assert (Hb : tx_peek q ++ tx_write_span q = zdrop (tx_head q) (tx_buffer q)).
  { unfold tx_write_span. rewrite (ztake_all _ (zdrop _ _)) by (rewrite zlen_zdrop; lia). unfold tx_peek.
    rewrite <- (ztake_zdrop (tx_tail q - tx_head q) (zdrop (tx_head q) (tx_buffer q))) at 2.
    rewrite zdrop_zdrop by lia. do 2 f_equal. lia. }
  rewrite Hb, ztake_zdrop. destruct q; cbn in *. f_equal. lia.
Qed.

Lemma layout_fifo pre l w :
  zlen pre + zlen l + zlen w = Capacity ->
  let q := mkTxQueue (pre ++ l ++ w) (zlen pre) (zlen pre + zlen l) in tx_wf q /\ tx_fifo q = mkFifo l w.
Proof.
  intros Hc. pose proof (zlen_nonneg pre). pose proof (zlen_nonneg l). pose proof (zlen_nonneg w).
  split; [unfold tx_wf; cbn; rewrite !zlen_app; lia|].
  unfold tx_fifo, tx_peek, tx_write_span. cbn. f_equal.
  - replace (zlen pre + zlen l - zlen pre) with (zlen l) by lia. by rewrite zdrop_app_zlen, ztake_app_zlen.
  - rewrite zdrop_app_add, zdrop_app_zlen by lia. apply ztake_all. lia.
Qed.

Lemma tx_commit_fifo n q : 0 <= n -> tx_wf q ->
  tx_wf (tx_commit n q) /\ tx_fifo (tx_commit n q) = mkFifo (tx_peek q ++ ztake n (tx_write_span q)) (zdrop n (tx_write_span q)).
Proof.
  intros Hn Hwf. pose proof (zlen_tx_write_span q Hwf) as Hs. destruct (tx_layout q Hwf) as (pre & Hq & Hc).
  set (l := tx_peek q) in *. set (w := tx_write_span q) in *. pose proof (zlen_nonneg w).
  assert (Hz : zlen (ztake n w) = (if n <? zlen w then n else zlen w)).
  { case_if; zbool; [apply zlen_ztake; lia | by rewrite ztake_all]. }
  destruct (layout_fifo pre (l ++ ztake n w) (zdrop n w)) as [Hwf' Hf].
  { rewrite zlen_app, <- Hc. assert (zlen w = zlen (ztake n w) + zlen (zdrop n w)) by (by rewrite <- zlen_app, ztake_zdrop). lia. }
  replace (tx_commit n q) with (mkTxQueue (pre ++ (l ++ ztake n w) ++ zdrop n w) (zlen pre) (zlen pre + zlen (l ++ ztake n w))); [done|].
  unfold tx_commit. rewrite <- Hs. rewrite Hq. cbn. rewrite <- app_assoc, ztake_zdrop, zlen_app, Hz. f_equal. lia.
Qed.

Lemma tx_store_fifo bytes q : tx_wf q -> zlen bytes <= zlen (tx_write_span q) ->
  tx_wf (tx_store bytes q) /\ tx_fifo (tx_store bytes q) = mkFifo (tx_peek q) (bytes ++ zdrop (zlen bytes) (tx_write_span q)).
Proof.
  intros Hwf Hb. destruct (tx_layout q Hwf) as (pre & Hq & Hc). set (l := tx_peek q) in *. set (w := tx_write_span q) in *.
  destruct (layout_fifo pre l (bytes ++ zdrop (zlen bytes) w)) as [Hwf' Hf].
  { pose proof (zlen_nonneg bytes). rewrite zlen_app, zlen_zdrop by lia. lia. }
  replace (tx_store bytes q) with (mkTxQueue (pre ++ l ++ bytes ++ zdrop (zlen bytes) w) (zlen pre) (zlen pre + zlen l)); [done|].
  unfold tx_store. rewrite Hq. cbn. f_equal. rewrite (app_assoc pre l w), <- zlen_app, splice_app by done. by rewrite <- !app_assoc.
Qed.

Lemma tx_consume_fifo n q : 0 <= n -> tx_wf q -> tx_wf (tx_consume n q) /\
  exists w, tx_fifo (tx_consume n q) = mkFifo (zdrop n (tx_peek q)) w /\
    if bool_decide (zdrop n (tx_peek q) = []) then zlen w = Capacity else w = tx_write_span q.
Proof.
  intros Hn Hwf. destruct (tx_consume_repr n q (tx_peek q) Hn (conj Hwf eq_refl)) as [Hwf' Hp]. split; [done|].
  exists (tx_write_span (tx_consume n q)). unfold tx_fifo. rewrite Hp. split; [done|].
  pose proof (zlen_tx_peek _ Hwf') as Hl. pose proof (zlen_tx_peek _ Hwf). unfold tx_pending in *. rewrite Hp in Hl. revert Hl Hwf'.
  unfold tx_consume. set (head := tx_head q + _). destruct (head =? tx_tail q) eqn:E; intros Hl Hwf'; zbool; cbn in Hl.
  - apply zlen_0_nil in Hl. rewrite bool_decide_true by done. rewrite zlen_tx_write_span by done. cbn. lia.
  - rewrite bool_decide_false; [done|]. intros Hnil. rewrite Hnil in Hl. change (zlen []) with 0 in Hl. lia.
Qed.

Lemma tx_clear_fifo q : tx_wf q -> exists w, tx_fifo (tx_clear q) = mkFifo [] w /\ zlen w = Capacity.
Proof.
  intros Hwf. exists (tx_write_span (tx_clear q)). split; [done|]. rewrite zlen_tx_write_span by (by apply tx_clear_wf). cbn. lia.
Qed.

Lemma tx_reserve_fifo n q : 0 <= n -> tx_wf q ->
  tx_wf (snd (tx_reserve n q)) /\ fifo_step (TxReserve n) (tx_fifo q) (TxBool (fst (tx_reserve n q))) (tx_fifo (snd (tx_reserve n q))).
Proof.
  intros Hn Hwf. destruct (tx_reserve_repr n q (tx_peek q) Hn (conj Hwf eq_refl)) as ([Hwf' Hp] & Hiff & Hroom).
  split; [done|]. unfold tx_fifo. rewrite Hp.
  replace (fst (tx_reserve n q)) with (zlen (tx_peek q) + n <=? Capacity)
    by (apply eq_true_iff_eq; rewrite Hiff; apply Z.leb_le).
  pose proof (zlen_tx_write_span _ Hwf) as Hs. pose proof (zlen_tx_write_span _ Hwf') as Hs'. pose proof (zlen_tx_peek _ Hwf') as Hl.
  rewrite Hp in Hl. unfold tx_pending in Hl. unfold tx_wf in Hwf'. constructor.
  - lia.
  - rewrite Hs. intros Hfit. unfold tx_reserve. destruct (n >? Capacity); [done|].
    by rewrite (proj2 (Z.geb_le _ _)).
  - intros Hfit. rewrite Hs'. by apply Hroom, Hiff.
Qed.

(** Every operation is a step of the specification. *)
Lemma tx_do_simulates op q : op_ok op -> tx_wf q ->
  tx_wf (snd (tx_do op q)) /\ fifo_step op (tx_fifo q) (fst (tx_do op q)) (tx_fifo (snd (tx_do op q))).
Proof.
  intros Hop Hwf. destruct op as [| | | |n|bytes|n|n|]; cbn [op_ok] in Hop; cbn [tx_do].
  - split; [done|]. cbn. rewrite <- zlen_tx_peek by done. apply (fifo_pending (tx_fifo q)).
  - split; [done|]. cbn. replace (tx_empty q) with (bool_decide (queued (tx_fifo q) = [])); [constructor|].
    apply eq_true_iff_eq. by rewrite bool_decide_eq_true, tx_empty_peek.
  - split; [done | apply (fifo_peek (tx_fifo q))].
  - split; [done | apply (fifo_write_span (tx_fifo q))].
  - pose proof (tx_reserve_fifo n q Hop Hwf) as Hr. by destruct (tx_reserve n q).
  - cbn [fst snd]. case_if; zbool; [|split; [done | by constructor]].
    destruct (tx_store_fifo bytes q Hwf ltac:(lia)) as [? ->]. split; [done | by constructor].
  - destruct (tx_commit_fifo n q Hop Hwf) as [? Hf]. split; [done|]. cbn. rewrite Hf. constructor.
  - destruct (tx_consume_fifo n q Hop Hwf) as (? & w & Hf & Hw). split; [done|]. cbn. rewrite Hf. by constructor.
  - destruct (tx_clear_fifo q Hwf) as (w & Hf & Hw). split; [by apply tx_clear_wf|]. cbn [fst snd]. rewrite Hf. by constructor.
Qed.

(** A packet reserved for, written and committed goes to the back whole. *)
Lemma fifo_put bytes f r1 f1 r2 f2 r3 f3 :
  fifo_step (TxReserve (zlen bytes)) f r1 f1 -> fifo_step (TxWrite bytes) f1 r2 f2 -> fifo_step (TxCommit (zlen bytes)) f2 r3 f3 ->
  r1 = TxBool true -> queued f3 = queued f ++ bytes.
Proof.
  intros H1 H2 H3. inversion H1; subst. intros [= Hfit]. zbool.
  inversion H2; subst; [|cbn in *; lia]. inversion H3; subst. cbn. by rewrite ztake_app_zlen.
Qed.
End tx_queue.
