(* ===== verification/Config.v ===== *)
(** * Config: compile-time capacities (config.hpp)

    The template parameter [Cfg] is a record of the constants it supplies;
    [ConfigCheck]'s static assertions are the hypothesis every instantiation
    of the client satisfies. *)
From S2P Require Import Prelude.

Class Config := {
  rx_buffer_size : Z;
  tx_buffer_size : Z;
  max_topic_len : Z;
  max_client_id_len : Z;
  max_username_len : Z;
  max_password_len : Z;
  max_inflight_out : Z;
  max_persisted_msg_size : Z;
  max_inflight_in : Z;
  max_subscriptions : Z;
  max_pending_acks : Z;
  max_topics_per_request : Z;
  retry_interval_ms : Z;
  connect_timeout_ms : Z;
}.

Definition DefaultConfig : Config := {|
  rx_buffer_size := 1024;
  tx_buffer_size := 1024;
  max_topic_len := 64;
  max_client_id_len := 24;
  max_username_len := 32;
  max_password_len := 32;
  max_inflight_out := 4;
  max_persisted_msg_size := 256;
  max_inflight_in := 4;
  max_subscriptions := 8;
  max_pending_acks := 4;
  max_topics_per_request := 4;
  retry_interval_ms := 20000;
  connect_timeout_ms := 30000;
|}.

(** The [static_assert]s of [ConfigCheck]. *)
Definition ConfigCheck (c : Config) : bool :=
  (rx_buffer_size >=? 16) && (tx_buffer_size >=? 16) && (max_topic_len >=? 1) &&
  (max_client_id_len >=? 1) && (max_topics_per_request >=? 1) &&
  ((max_inflight_out =? 0) || (max_persisted_msg_size >=? 8)) &&
  (rx_buffer_size <=? 268435460).

(** The constants are [size_t] and [uint32_t] values. *)
Definition config_unsigned (c : Config) : bool :=
  (0 <=? max_username_len) && (0 <=? max_password_len) && (0 <=? max_inflight_out) &&
  (0 <=? max_persisted_msg_size) && (0 <=? max_inflight_in) && (0 <=? max_subscriptions) &&
  (0 <=? max_pending_acks) &&
  (0 <=? retry_interval_ms) && (retry_interval_ms <? 2 ^ 32) &&
  (0 <=? connect_timeout_ms) && (connect_timeout_ms <? 2 ^ 32).

(** A configuration the client can be instantiated with. *)
Class ConfigOk (c : Config) : Prop := {
  config_checked : ConfigCheck c = true;
  config_is_unsigned : config_unsigned c = true;
}.

#[export] Instance DefaultConfig_ok : ConfigOk DefaultConfig.
Proof. by split. Qed.

Section config.
Context `{COK : ConfigOk}.

Lemma config_facts :
  16 <= rx_buffer_size <= 268435460 /\ 16 <= tx_buffer_size /\ 1 <= max_topic_len /\
  1 <= max_topics_per_request /\ (max_inflight_out = 0 \/ 8 <= max_persisted_msg_size) /\
  0 <= max_inflight_out /\ 0 <= max_persisted_msg_size /\ 0 <= max_inflight_in /\
  0 <= max_subscriptions /\ 0 <= max_pending_acks /\ is_u32 retry_interval_ms /\
  is_u32 connect_timeout_ms.
Proof.
  destruct COK as [H1 H2]. unfold ConfigCheck, config_unsigned, is_u32 in *. zbool.
  split_and!; lia.
Qed.
End config.

(** [detail::at_least_one]: a table configured to hold nothing keeps one slot. *)
Definition at_least_one (n : Z) : Z := if n >? 0 then n else 1.
