(* ===== verification/Transport.v ===== *)
(** * Transport: the two interfaces an application implements (transport.hpp)

    [Transport] and [Clock] are abstract classes; their implementations live
    outside the library. An environment type stands for everything behind
    them, and the contract written on the methods is a class of laws. *)
From S2P Require Import Prelude Errors.

Class Transport (E : Type) := {
  transport_connect : E -> Error * E;
  (** [send(data, written)]: the code, [written], the environment after. *)
  transport_send : list Z -> E -> Error * Z * E;
  (** [recv(buffer, read)] with room for [n] bytes: the code, the [read] bytes
      placed in the buffer, the environment after. *)
  transport_recv : Z -> E -> Error * list Z * E;
  transport_close : E -> E;
  transport_is_connected : E -> bool;
}.

Class Clock (E : Type) := {
  (** Time passes between calls, so reading it yields a new environment. *)
  now_ms : E -> Z * E;
}.

Definition elapsed_ms (now since : Z) : Z := u32 (now - since).

(** The documented contract of the methods. *)
Class TransportOk (E : Type) `{Transport E} `{Clock E} : Prop := {
  transport_connect_codes env :
    In (fst (transport_connect env)) [Ok; WouldBlock; TransportFailure];
  transport_send_codes data env :
    In (fst (fst (transport_send data env))) [Ok; WouldBlock; TransportClosed; TransportFailure];
  transport_send_written data env : 0 <= snd (fst (transport_send data env)) <= zlen data;
  transport_recv_codes n env :
    In (fst (fst (transport_recv n env))) [Ok; WouldBlock; TransportClosed; TransportFailure];
  transport_recv_room n env : 0 <= n -> zlen (snd (fst (transport_recv n env))) <= n;
  transport_recv_bytes n env : bytes_ok (snd (fst (transport_recv n env)));
  clock_u32 env : is_u32 (fst (now_ms env));
}.

(** What an implementation keeps of its own: a property [P] of its object that
    the methods preserve, and what [closed] means for it, which nothing but
    [connect] undoes. After a [connect] that failed it is enough that [close]
    restores [P]: the interface says that the client will close. *)
Class TransportKeeps {E : Type} `{Transport E} `{Clock E} (P closed : E -> Prop) : Prop := {
  keeps_connect env : P env -> fst (transport_connect env) <> TransportFailure -> P (snd (transport_connect env));
  keeps_failed env :
    P env -> fst (transport_connect env) = TransportFailure ->
    P (transport_close (snd (transport_connect env))) /\ closed (transport_close (snd (transport_connect env)));
  keeps_send data env : P env -> P (snd (transport_send data env));
  keeps_recv n env : P env -> P (snd (transport_recv n env));
  keeps_close env : P env -> P (transport_close env) /\ closed (transport_close env);
  keeps_now env : P env -> P (snd (now_ms env));
  closed_send data env : P env -> closed env -> closed (snd (transport_send data env));
  closed_recv n env : P env -> closed env -> closed (snd (transport_recv n env));
  closed_now env : P env -> closed env -> closed (snd (now_ms env));
}.

(** Elapsed time is exact across one wrap of the counter: if the true times are
    less than 2^32 ms apart, the wrapped difference is the true difference. *)
Lemma elapsed_ms_exact (t0 t1 : Z) :
  t0 <= t1 < t0 + 2 ^ 32 -> elapsed_ms (u32 t1) (u32 t0) = t1 - t0.
Proof.
  intros. unfold elapsed_ms, u32. rewrite <- Zminus_mod. apply Z.mod_small. lia.
Qed.

Lemma elapsed_ms_u32 a b : is_u32 (elapsed_ms a b).
Proof. apply u32_range. Qed.
