(* ===== verification/ClientState.v ===== *)
(** * ClientState: the client's members and tables (client.hpp)

    The state of [Client<Cfg>] as a record with one field per data member, and
    the helpers that search and edit its tables. A pointer into a table is the
    index of the element it points at. *)
From Stdlib Require Import String.
From S2P Require Import Prelude Errors Packet Topic Codec TxQueue Config Transport.

Inductive State := Idle | Connecting | AwaitingConnack | Connected | Disconnecting.

#[export] Instance State_eq_dec : EqDecision State.
Proof. solve_decision. Defined.

(** [to_string(State)] of a stored byte. *)
Definition State_to_string (v : Z) : string :=
  if v =? 0 then "Idle"%string
  else if v =? 1 then "Connecting"%string
  else if v =? 2 then "AwaitingConnack"%string
  else if v =? 3 then "Connected"%string
  else if v =? 4 then "Disconnecting"%string
  else "Unknown"%string.

Definition State_eqb (a b : State) : bool := bool_decide (a = b).

Inductive Phase := Free | WaitPuback | WaitPubrec | WaitPubcomp.

#[export] Instance Phase_eq_dec : EqDecision Phase.
Proof. solve_decision. Defined.

Definition Phase_eqb (a b : Phase) : bool := bool_decide (a = b).

(** A callable an application bound to a handler slot; an unset slot is
    [None]. *)
Definition HandlerId : Type := Z.

Record OutboundSlot := mkOutboundSlot {
  slot_packet : list Z;
  slot_packet_id : Z;
  slot_packet_len : Z;
  slot_last_sent_ms : Z;
  slot_qos : QoS;
  slot_phase : Phase;
}.

#[export] Instance eta_OutboundSlot : Eta OutboundSlot := fun r =>
  mkOutboundSlot (slot_packet r) (slot_packet_id r) (slot_packet_len r) (slot_last_sent_ms r)
    (slot_qos r) (slot_phase r).

Record Subscription := mkSubscription {
  sub_filter : list Z;
  sub_handler : option HandlerId;
  sub_id : Z;
  sub_requested_qos : QoS;
  sub_granted_qos : Z;
  sub_needs_resub : bool;
}.

#[export] Instance eta_Subscription : Eta Subscription := fun r =>
  mkSubscription (sub_filter r) (sub_handler r) (sub_id r) (sub_requested_qos r)
    (sub_granted_qos r) (sub_needs_resub r).

Record PendingAck := mkPendingAck {
  ack_subs : list Z;
  ack_sent_ms : Z;
  ack_packet_id : Z;
  ack_expected : PacketType;
}.

Record Client := mkClient {
  tx_ : TxQueue;
  rx_ : list Z;
  rx_len_ : Z;
  outbound_ : list OutboundSlot;
  inbound_ids_ : list Z;
  subscriptions_ : list Subscription;
  pending_ : list PendingAck;
  on_message_ : option HandlerId;
  on_connect_ : option HandlerId;
  on_disconnect_ : option HandlerId;
  on_delivery_ : option HandlerId;
  on_suback_ : option HandlerId;
  connack_ : ConnackInfo;
  state_ : State;
  last_error_ : Error;
  in_step_ : bool;
  keep_alive_ms_ : Z;
  last_sent_ms_ : Z;
  last_received_ms_ : Z;
  ping_sent_ms_ : Z;
  connect_started_ms_ : Z;
  inbound_overflow_count_ : Z;
  tx_backpressure_count_ : Z;
  next_packet_id_ : Z;
  next_sub_id_ : Z;
  ping_outstanding_ : bool;
  clean_session_ : bool;
  retransmit_now_ : bool;
}.

#[export] Instance eta_Client : Eta Client := fun r =>
  mkClient (tx_ r) (rx_ r) (rx_len_ r) (outbound_ r) (inbound_ids_ r) (subscriptions_ r)
    (pending_ r) (on_message_ r) (on_connect_ r) (on_disconnect_ r) (on_delivery_ r)
    (on_suback_ r) (connack_ r) (state_ r) (last_error_ r) (in_step_ r) (keep_alive_ms_ r)
    (last_sent_ms_ r) (last_received_ms_ r) (ping_sent_ms_ r) (connect_started_ms_ r)
    (inbound_overflow_count_ r) (tx_backpressure_count_ r) (next_packet_id_ r) (next_sub_id_ r)
    (ping_outstanding_ r) (clean_session_ r) (retransmit_now_ r).

Section tables.
Context `{Cfg : Config}.

Definition kOutSlots : Z := at_least_one max_inflight_out.
Definition kPersistSize : Z := at_least_one max_persisted_msg_size.
Definition kInSlots : Z := at_least_one max_inflight_in.
Definition kSubSlots : Z := at_least_one max_subscriptions.
Definition kAckSlots : Z := at_least_one max_pending_acks.

Definition empty_slot : OutboundSlot :=
  mkOutboundSlot (replicate (Z.to_nat kPersistSize) 0) 0 0 0 AtMostOnce Free.

(** A client just constructed. *)
Definition client_init : Client := {|
  tx_ := tx_init tx_buffer_size;
  rx_ := replicate (Z.to_nat rx_buffer_size) 0;
  rx_len_ := 0;
  outbound_ := replicate (Z.to_nat kOutSlots) empty_slot;
  inbound_ids_ := [];
  subscriptions_ := [];
  pending_ := [];
  on_message_ := None; on_connect_ := None; on_disconnect_ := None;
  on_delivery_ := None; on_suback_ := None;
  connack_ := default_ConnackInfo;
  state_ := Idle;
  last_error_ := Ok;
  in_step_ := false;
  keep_alive_ms_ := 0; last_sent_ms_ := 0; last_received_ms_ := 0; ping_sent_ms_ := 0;
  connect_started_ms_ := 0; inbound_overflow_count_ := 0; tx_backpressure_count_ := 0;
  next_packet_id_ := 0; next_sub_id_ := 0;
  ping_outstanding_ := false; clean_session_ := true; retransmit_now_ := false;
|}.

(** ** Capacity tests *)
Definition ack_table_full (c : Client) : bool := zlen (pending_ c) >=? max_pending_acks.

Definition inbound_table_full (c : Client) : bool := zlen (inbound_ids_ c) >=? max_inflight_in.

Definition vbi_size_c (v : Z) : Z :=
  if v <? 128 then 1 else if v <? 16384 then 2 else if v <? 2097152 then 3 else 4.

Definition packet_size `{SizeT} (remaining_length : Z) : Z :=
  size_t (1 + vbi_size_c remaining_length + remaining_length).

(** ** Searches. [find_index p n l] is the first [i < n] with [p l[i]]. *)
Fixpoint find_index {A} (p : A -> bool) (n : nat) (l : list A) : option nat :=
  match n, l with
  | S n, x :: l => if p x then Some 0%nat else S <$> find_index p n l
  | _, _ => None
  end.

Definition slot_free (s : OutboundSlot) : bool := Phase_eqb (slot_phase s) Free.

Definition slot_holds (id : Z) (s : OutboundSlot) : bool :=
  negb (Phase_eqb (slot_phase s) Free) && (slot_packet_id s =? id).

Definition free_outbound_slot (c : Client) : option nat :=
  find_index slot_free (Z.to_nat max_inflight_out) (outbound_ c).

Definition find_outbound (id : Z) (c : Client) : option nat :=
  find_index (slot_holds id) (Z.to_nat max_inflight_out) (outbound_ c).

Definition release_slot (s : OutboundSlot) : OutboundSlot :=
  s <| slot_phase := Free |> <| slot_packet_id := 0 |> <| slot_packet_len := 0 |>.

Definition mark_dup (s : OutboundSlot) : OutboundSlot :=
  if slot_packet_len s =? 0 then s
  else
    match slot_packet s with
    | [] => s
    | b0 :: rest =>
        let type := Z.land (Z.shiftr b0 4) 0x0F in
        if type =? PacketType_value Publish
        then s <| slot_packet := u8 (Z.lor b0 0x08) :: rest |>
        else s
    end.

Definition inbound_contains (id : Z) (c : Client) : bool :=
  existsb (fun v => v =? id) (inbound_ids_ c).

Fixpoint remove_first (id : Z) (l : list Z) : list Z :=
  match l with
  | [] => []
  | v :: l => if v =? id then l else v :: remove_first id l
  end.

Definition inbound_remove (id : Z) (c : Client) : Client :=
  c <| inbound_ids_ ::= remove_first id |>.

Definition find_subscription (filter : list Z) (c : Client) : option nat :=
  find_index (fun s => bool_decide (sub_filter s = filter)) (length (subscriptions_ c)) (subscriptions_ c).

Definition find_by_sub_id (sid : Z) (c : Client) : option nat :=
  find_index (fun s => sub_id s =? sid) (length (subscriptions_ c)) (subscriptions_ c).

Fixpoint erase_sub (sid : Z) (l : list Subscription) : list Subscription :=
  match l with
  | [] => []
  | s :: l => if sub_id s =? sid then l else s :: erase_sub sid l
  end.

Definition erase_subscription (sid : Z) (c : Client) : Client :=
  c <| subscriptions_ ::= erase_sub sid |>.

Definition update_subscription (i : nat) (f : Subscription -> Subscription) (c : Client) : Client :=
  c <| subscriptions_ ::= alter f i |>.

Definition find_pending (id : Z) (expected : PacketType) (c : Client) : option nat :=
  find_index (fun a => (ack_packet_id a =? id) && PacketType_eqb (ack_expected a) expected)
    (length (pending_ c)) (pending_ c).

Definition remove_pending (i : nat) (c : Client) : Client :=
  c <| pending_ ::= fun l => take i l ++ drop (S i) l |>.

Definition packet_id_in_use (id : Z) (c : Client) : bool :=
  existsb (slot_holds id) (take (Z.to_nat max_inflight_out) (outbound_ c)) ||
  existsb (fun a => ack_packet_id a =? id) (pending_ c).

(** ** Identifier allocation: 65535 tries round the counter, skipping zero. *)
Definition next_id (id : Z) : Z := if id =? 65535 then 1 else u16 (id + 1).

Fixpoint alloc_loop (tries : nat) (in_use : Z -> bool) (id : Z) : Z * Z :=
  match tries with
  | O => (0, id)
  | S tries =>
      let id := next_id id in
      if in_use id then alloc_loop tries in_use id else (id, id)
  end.

Definition id_tries : nat := Z.to_nat 65535.

Definition alloc_packet_id (c : Client) : Z * Client :=
  let '(id, next) := alloc_loop id_tries (fun id => packet_id_in_use id c) (next_packet_id_ c) in
  (id, c <| next_packet_id_ := next |>).

Definition alloc_sub_id (c : Client) : Z * Client :=
  let '(id, next) := alloc_loop id_tries
    (fun id => match find_by_sub_id id c with Some _ => true | None => false end)
    (next_sub_id_ c) in
  (id, c <| next_sub_id_ := next |>).

Definition mark_all_resub (c : Client) : Client :=
  c <| subscriptions_ ::= fmap (fun s => s <| sub_needs_resub := true |>) |>.

Definition reset_session_state (c : Client) : Client :=
  let c := c <| outbound_ ::= fmap release_slot |> in
  let c := c <| inbound_ids_ := [] |> in
  let c := c <| pending_ := [] |> in
  let c := c <| next_packet_id_ := 0 |> in
  mark_all_resub c.

(** ** Introspection *)
Definition is_connected (c : Client) : bool := State_eqb (state_ c) Connected.

Definition inflight_count (c : Client) : Z :=
  zlen (List.filter (fun s => negb (slot_free s)) (take (Z.to_nat max_inflight_out) (outbound_ c))).

Definition subscription_count (c : Client) : Z := zlen (subscriptions_ c).

Definition tx_pending_bytes (c : Client) : Z := tx_pending (tx_ c).
End tables.
