(* ===== verification/Effects.v ===== *)
(** * Effects: the client together with its surroundings

    A system state is the client object, the environment behind its transport
    and clock, and the history of what crossed the client's boundary: transport
    connections made, bytes accepted and produced by the transport, the packets
    these were found to be when each is handled, closes, and callbacks into the
    application. Client operations are programs of a state
    monad over it.

    Callbacks run application code that calls back into the client, so an
    execution can nest; [None] is a run that exceeded the depth or the loop
    bound it was given. [wp] reasons about both outcomes at once: the
    proposition [N] is what is claimed of such a run, [True] for statements
    about runs that return and [False] for statements that the run returns. *)
From S2P Require Import Prelude Errors Packet ClientState Transport.

(** Invocations of a bound callable. *)
Inductive Callback :=
  | CbMessage (h : HandlerId) (m : Message)
  | CbConnect (h : HandlerId) (info : ConnackInfo)
  | CbDisconnect (h : HandlerId) (reason : Error)
  | CbDelivery (h : HandlerId) (packet_id : Z)
  | CbSuback (h : HandlerId) (packet_id : Z) (codes : list Z).

Inductive Event :=
  | EvOpen
  | EvCall (cb : Callback)
  | EvSend (bytes : list Z)
  | EvRecv (bytes : list Z)
  | EvPacket (h : FixedHeader) (body : list Z)
  | EvClose.

Record Sys (E : Type) := mkSys {
  cl : Client;
  env : E;
  history : list Event;
}.
Arguments mkSys {E} _ _ _.
Arguments cl {E} _.
Arguments env {E} _.
Arguments history {E} _.

#[export] Instance eta_Sys {E} : Eta (Sys E) := fun r => mkSys (cl r) (env r) (history r).

Definition M (E A : Type) : Type := Sys E -> option (A * Sys E).

Section monad.
Context {E : Type}.

Definition ret {A} (a : A) : M E A := fun s => Some (a, s).

Definition bind {A B} (m : M E A) (k : A -> M E B) : M E B :=
  fun s => match m s with Some (a, s) => k a s | None => None end.

(** The loop or nesting bound is used up. *)
Definition out_of_fuel {A} : M E A := fun _ => None.

Definition get : M E Client := fun s => Some (cl s, s).
Definition modify (f : Client -> Client) : M E unit := fun s => Some (tt, s <| cl ::= f |>).
Definition put (c : Client) : M E unit := modify (fun _ => c).
Definition read {A} (f : Client -> A) : M E A := fun s => Some (f (cl s), s).
Definition record (e : Event) : M E unit := fun s => Some (tt, s <| history ::= fun h => h ++ [e] |>).

(** An operation on the environment. *)
Definition with_env {A} (f : E -> A * E) : M E A :=
  fun s => let '(a, e) := f (env s) in Some (a, s <| env := e |>).
End monad.

Declare Scope client_scope.
Delimit Scope client_scope with client.
Notation "x <- m ;; k" := (bind m (fun x => k))
  (at level 100, m at next level, right associativity) : client_scope.
Notation "'let*' p ':=' m 'in' k" := (bind m (fun x => match x with p => k end))
  (at level 10, p pattern, m at level 100, k at level 200) : client_scope.
Notation "m ;;; k" := (bind m (fun _ => k))
  (at level 100, right associativity) : client_scope.

(** ** Weakest preconditions *)
Section wp.
Context {E : Type} (N : Prop).

Definition wp {A} (m : M E A) (Q : A -> Sys E -> Prop) (s : Sys E) : Prop :=
  match m s with Some (a, s') => Q a s' | None => N end.

Lemma wp_bind {A B} (m : M E A) (k : A -> M E B) Q s :
  wp m (fun a s' => wp (k a) Q s') s -> wp (bind m k) Q s.
Proof. unfold wp, bind. by destruct (m s) as [[a s']|]. Qed.

Lemma wp_mono {A} (m : M E A) (Q Q' : A -> Sys E -> Prop) s :
  wp m Q s -> (forall a s', Q a s' -> Q' a s') -> wp m Q' s.
Proof. unfold wp. destruct (m s) as [[a s']|]; auto. Qed.

Lemma wp_and {A} (m : M E A) (Q Q' : A -> Sys E -> Prop) s :
  wp m Q s -> wp m Q' s -> wp m (fun a s' => Q a s' /\ Q' a s') s.
Proof. unfold wp. by destruct (m s) as [[a s']|]. Qed.

Lemma wp_ret {A} (a : A) (Q : A -> Sys E -> Prop) s : Q a s -> wp (ret a) Q s.
Proof. done. Qed.

Lemma wp_get (Q : Client -> Sys E -> Prop) s : Q (cl s) s -> wp get Q s.
Proof. done. Qed.

Lemma wp_modify f (Q : unit -> Sys E -> Prop) c e h :
  Q tt (mkSys (f c) e h) -> wp (modify f) Q (mkSys c e h).
Proof. done. Qed.

Lemma wp_put c' (Q : unit -> Sys E -> Prop) c e h :
  Q tt (mkSys c' e h) -> wp (put c') Q (mkSys c e h).
Proof. done. Qed.

Lemma wp_record ev (Q : unit -> Sys E -> Prop) c e h :
  Q tt (mkSys c e (h ++ [ev])) -> wp (record ev) Q (mkSys c e h).
Proof. done. Qed.

Lemma wp_with_env {A} (f : E -> A * E) (Q : A -> Sys E -> Prop) c e h :
  Q (fst (f e)) (mkSys c (snd (f e)) h) -> wp (with_env f) Q (mkSys c e h).
Proof. unfold wp, with_env. cbn. by destruct (f e). Qed.
End wp.

Lemma bind_run {E A B} (m : M E A) (k : A -> M E B) s a s' :
  m s = Some (a, s') -> bind m k s = k a s'.
Proof. unfold bind. by intros ->. Qed.

Lemma get_run {E B} (k : Client -> M E B) c e h : bind get k (mkSys c e h) = k c (mkSys c e h).
Proof. done. Qed.

Lemma modify_run {E B} f (k : unit -> M E B) c e h :
  bind (modify f) k (mkSys c e h) = k tt (mkSys (f c) e h).
Proof. done. Qed.

(** [m] returns from [s], with a result and a state that satisfy [Q]. *)
Definition returns {E A} (m : M E A) (s : Sys E) (Q : A -> Sys E -> Prop) : Prop :=
  exists a s', m s = Some (a, s') /\ Q a s'.

Lemma wp_returns {E A} (m : M E A) (s : Sys E) (Q : A -> Sys E -> Prop) : wp False m Q s -> returns m s Q.
Proof. unfold wp, returns. destruct (m s) as [[a s']|]; [|done]. by exists a, s'. Qed.

(** Run the primitive at the head of a program. *)
Ltac wp_step :=
  lazymatch goal with
  | |- wp _ (bind _ _) _ _ => apply wp_bind
  | |- wp _ (ret _) _ _ => apply wp_ret
  | |- wp _ get _ _ => apply wp_get; cbn [cl]
  | |- wp _ (modify _) _ _ => apply wp_modify
  | |- wp _ (put _) _ _ => apply wp_put
  | |- wp _ (record _) _ _ => apply wp_record
  | |- wp _ (with_env _) _ _ => apply wp_with_env
  end.

Ltac wp_steps := repeat wp_step; cbv beta.
