(* ===== verification/Client.v ===== *)
(** * Client: the operations of [Client<Cfg>] (client.hpp)

    One definition per member function, over the effects of [Effects]. The
    parameter [callback] runs the application's callable; [Application] ties it
    to handlers that call the client back. *)
From S2P Require Import Prelude Errors Packet Topic Etl Codec TxQueue Config Transport ClientState.
From S2P Require Import Effects.
#[local] Open Scope client_scope.

Section client.
Context `{Cfg : Config} `{SZ : SizeT} `{BW : ByteStreamWriter} `{BR : ByteStreamReader}.
Context {E : Type} `{T : Transport E} `{CK : Clock E}.
Context (callback : Callback -> M E unit).

Definition now : M E Z := with_env now_ms.

(** [handler.call_if(...)]: nothing happens on an unset slot. *)
Definition call_if (h : option HandlerId) (invoke : HandlerId -> Callback) : M E unit :=
  match h with Some h => callback (invoke h) | None => ret tt end.

(** ** Transmit path *)
Definition enqueue (bytes : list Z) : M E Error :=
  c <- get;;
  let '(room, q) := tx_reserve tx_buffer_size (zlen bytes) (tx_ c) in
  modify (fun c => c <| tx_ := q |>);;;
  if negb room then ret TxQueueFull
  else
    modify (fun c => c <| tx_ ::= tx_store bytes |>);;;
    modify (fun c => c <| tx_ ::= tx_commit tx_buffer_size (zlen bytes) |>);;;
    ret Ok.

Definition enqueue_sized (size : Z) (encode : list Z -> Result Z * list Z) : M E Error :=
  if size >? tx_buffer_size then ret BufferTooSmall
  else
    c <- get;;
    let '(room, q) := tx_reserve tx_buffer_size size (tx_ c) in
    modify (fun c => c <| tx_ := q |>);;;
    if negb room then ret TxQueueFull
    else
      let '(r, out) := encode (ztake size (tx_write_span tx_buffer_size q)) in
      modify (fun c => c <| tx_ ::= tx_store out |>);;;
      match r with
      | Err e => ret e
      | Val n => modify (fun c => c <| tx_ ::= tx_commit tx_buffer_size n |>);;; ret Ok
      end.

(** The [while (!tx_.empty())] loop. *)
Fixpoint pump_tx_loop (fuel : nat) : M E Error :=
  match fuel with
  | O => out_of_fuel
  | S fuel =>
      c <- get;;
      if tx_empty (tx_ c) then ret Ok
      else
        let out := tx_peek (tx_ c) in
        let* (e, written) := with_env (transport_send out) in
        if Error_eqb e WouldBlock then ret Ok
        else if negb (Error_eqb e Ok) then ret e
        else if written =? 0 then ret Ok
        else
          record (EvSend (ztake written out));;;
          modify (fun c => c <| tx_ ::= tx_consume written |>);;;
          t <- now;;
          modify (fun c => c <| last_sent_ms_ := t |>);;;
          pump_tx_loop fuel
  end.

(** Every round sends at least one byte, so the queued bytes bound the
    rounds. *)
Definition pump_tx : M E Error :=
  c <- get;; pump_tx_loop (S (Z.to_nat (tx_pending (tx_ c)))).

Definition send_ack (type : PacketType) (id : Z) : M E Error :=
  enqueue_sized (packet_size 2) (fun out => encode_ack out type id).

(** ** End of a session *)
Definition shutdown (reason : Error) : M E Error :=
  c <- get;;
  let notify := negb (State_eqb (state_ c) Idle) in
  with_env (fun e => (tt, transport_close e));;;
  record EvClose;;;
  modify (fun c => c <| tx_ ::= tx_clear |>);;;
  modify (fun c => c <| rx_len_ := 0 |>);;;
  modify (fun c => c <| ping_outstanding_ := false |>);;;
  modify (fun c => c <| state_ := Idle |>);;;
  modify (fun c => c <| last_error_ := reason |>);;;
  modify (fun c => c <| pending_ := [] |>);;;
  (if clean_session_ c then
     modify (fun c => c <| outbound_ ::= fmap release_slot |>);;;
     modify (fun c => c <| inbound_ids_ := [] |>)
   else ret tt);;;
  modify mark_all_resub;;;
  (if notify then call_if (on_disconnect_ c) (fun h => CbDisconnect h reason) else ret tt);;;
  ret reason.

(** ** Lifecycle *)
(** The part of [connect] that starts over once the options are accepted. *)
Definition connect_start (opts : ConnectOptions) (rl : Z) : M E Error :=
  modify (fun c => c <| tx_ ::= tx_clear |>);;;
  modify (fun c => c <| rx_len_ := 0 |>);;;
  (if opt_clean_session opts then modify reset_session_state else ret tt);;;
  e <- enqueue_sized (packet_size rl) (fun out => encode_connect out opts);;
  if negb (Error_eqb e Ok) then ret e
  else
    modify (fun c => c <| clean_session_ := opt_clean_session opts |>);;;
    modify (fun c => c <| keep_alive_ms_ := u32 (opt_keep_alive_s opts * 1000) |>);;;
    modify (fun c => c <| connack_ := default_ConnackInfo |>);;;
    modify (fun c => c <| last_error_ := Ok |>);;;
    t <- now;;
    modify (fun c => c <| connect_started_ms_ := t |>);;;
    modify (fun c => c <| last_sent_ms_ := t |>);;;
    modify (fun c => c <| last_received_ms_ := t |>);;;
    modify (fun c => c <| ping_outstanding_ := false |>);;;
    modify (fun c => c <| state_ := Connecting |>);;;
    ret Ok.

Definition connect (opts : ConnectOptions) : M E Error :=
  c <- get;;
  if negb (State_eqb (state_ c) Idle) then ret AlreadyConnected
  else if zlen (opt_client_id opts) >? max_client_id_len then ret InvalidArgument
  else if zlen (opt_username opts) >? max_username_len then ret InvalidArgument
  else if zlen (opt_password opts) >? max_password_len then ret InvalidArgument
  else if will_valid (opt_will opts) && negb (is_valid_topic_name (will_topic (opt_will opts)))
  then ret InvalidArgument
  else if empty (opt_client_id opts) && negb (opt_clean_session opts) then ret InvalidArgument
  else
    match connect_remaining_length opts with
    | Err e => ret e
    | Val rl => connect_start opts rl
    end.

Definition disconnect : M E Error :=
  c <- get;;
  match state_ c with
  | Idle => ret NotConnected
  | Connected =>
      e <- enqueue_sized (packet_size 0) (fun out => encode_empty out Disconnect);;
      if Error_eqb e Ok then
        modify (fun c => c <| state_ := Disconnecting |>);;; ret Ok
      else shutdown Ok;;; ret Ok
  | _ => shutdown Ok;;; ret Ok
  end.

Definition abort : M E unit := shutdown TransportClosed;;; ret tt.

(** ** Publish and subscribe. The second component is what [out_packet_id]
    receives. *)
Definition update_slot (i : nat) (f : OutboundSlot -> OutboundSlot) : M E unit :=
  modify (fun c => c <| outbound_ ::= alter f i |>).

(** The slot at index [i]. *)
Definition slot_at (c : Client) (i : nat) : OutboundSlot := default empty_slot (outbound_ c !! i).

(** The part of [publish] that fills the free slot [i] under the fresh
    identifier [id]. *)
Definition publish_slot (i : nat) (topic payload : list Z) (qos : QoS) (retain : bool) (id : Z)
    : M E (Error * option Z) :=
  c <- get;;
  let '(r, packet) := encode_publish (slot_packet (slot_at c i)) topic payload qos retain false id in
  update_slot i (fun s => s <| slot_packet := packet |>);;;
  match r with
  | Err e => ret (if Error_eqb e BufferTooSmall then PayloadTooLarge else e, None)
  | Val n =>
      e <- enqueue (ztake n packet);;
      if negb (Error_eqb e Ok) then ret (e, None)
      else
        update_slot i (fun s => s <| slot_packet_id := id |>);;;
        update_slot i (fun s => s <| slot_packet_len := u16 n |>);;;
        update_slot i (fun s => s <| slot_qos := qos |>);;;
        update_slot i (fun s => s <| slot_phase :=
          if qos =? AtLeastOnce then WaitPuback else WaitPubrec |>);;;
        t <- now;;
        update_slot i (fun s => s <| slot_last_sent_ms := t |>);;;
        ret (Ok, Some id)
  end.

Definition publish (topic payload : list Z) (qos : QoS) (retain : bool) : M E (Error * option Z) :=
  c <- get;;
  if negb (State_eqb (state_ c) Connected) then ret (NotConnected, None)
  else if negb (is_valid_topic_name topic) then ret (InvalidArgument, None)
  else if zlen topic >? max_topic_len then ret (TopicTooLong, None)
  else if qos =? AtMostOnce then
    match publish_remaining_length topic (zlen payload) qos with
    | Err e => ret (e, None)
    | Val rl =>
        e <- enqueue_sized (packet_size rl)
               (fun out => encode_publish out topic payload qos retain false 0);;
        ret (e, None)
    end
  else if max_inflight_out =? 0 then ret (NotSupported, None)
  else
    match free_outbound_slot c with
    | None => ret (NoInflightSlot, None)
    | Some i =>
        let '(id, c) := alloc_packet_id c in
        put c;;;
        if id =? 0 then ret (NoInflightSlot, None)
        else
          publish_slot i topic payload qos retain id
    end.

(** The validation loop of [subscribe]; [None] is "all valid". *)
Fixpoint check_filters (subs : list TopicSubscription) : option Error :=
  match subs with
  | [] => None
  | s :: subs =>
      if negb (is_valid_filter (ts_filter s)) then Some InvalidArgument
      else if zlen (ts_filter s) >? max_topic_len then Some TopicTooLong
      else check_filters subs
  end.

(** How many of the requested filters have no table entry. *)
Definition new_entries (subs : list TopicSubscription) (c : Client) : Z :=
  zlen (List.filter (fun s => match find_subscription (ts_filter s) c with
                              | None => true | Some _ => false end) subs).

(** Enter one requested filter into the table; returns the id of its entry. *)
Definition register_subscription (s : TopicSubscription) (handler : option HandlerId)
    (c : Client) : Z * Client :=
  match find_subscription (ts_filter s) c with
  | Some i =>
      let sid := default 0 (sub_id <$> subscriptions_ c !! i) in
      (sid, update_subscription i (fun e =>
         e <| sub_requested_qos := ts_qos s |> <| sub_handler := handler |>
           <| sub_needs_resub := false |>) c)
  | None =>
      let '(sid, c) := alloc_sub_id c in
      (sid, c <| subscriptions_ ::= fun l =>
         l ++ [mkSubscription (ts_filter s) handler sid (ts_qos s) 0 false] |>)
  end.

Fixpoint register_subscriptions (subs : list TopicSubscription) (handler : option HandlerId)
    (c : Client) : list Z * Client :=
  match subs with
  | [] => ([], c)
  | s :: subs =>
      let '(sid, c) := register_subscription s handler c in
      let '(sids, c) := register_subscriptions subs handler c in
      (sid :: sids, c)
  end.

Definition push_pending (ack : PendingAck) : M E unit :=
  modify (fun c => c <| pending_ ::= fun l => l ++ [ack] |>).

Definition subscribe (subs : list TopicSubscription) (handler : option HandlerId)
    : M E (Error * option Z) :=
  c <- get;;
  if negb (State_eqb (state_ c) Connected) then ret (NotConnected, None)
  else if empty subs || (zlen subs >? max_topics_per_request) then ret (InvalidArgument, None)
  else
    match check_filters subs with
    | Some e => ret (e, None)
    | None =>
        if ack_table_full c then ret (NoPendingAckSlot, None)
        else if zlen (subscriptions_ c) + new_entries subs c >? max_subscriptions
        then ret (NoSubscriptionSlot, None)
        else
          match subscribe_remaining_length subs with
          | Err e => ret (e, None)
          | Val rl =>
              let '(id, c) := alloc_packet_id c in
              put c;;;
              if id =? 0 then ret (NoPendingAckSlot, None)
              else
                e <- enqueue_sized (packet_size rl) (fun out => encode_subscribe out id subs);;
                if negb (Error_eqb e Ok) then ret (e, None)
                else
                  t <- now;;
                  c <- get;;
                  let '(sids, c) := register_subscriptions subs handler c in
                  put c;;;
                  push_pending (mkPendingAck sids t id Suback);;;
                  ret (Ok, Some id)
          end
    end.

Definition unsubscribe (filters : list (list Z)) : M E (Error * option Z) :=
  c <- get;;
  if negb (State_eqb (state_ c) Connected) then ret (NotConnected, None)
  else if empty filters || (zlen filters >? max_topics_per_request) then ret (InvalidArgument, None)
  else if ack_table_full c then ret (NoPendingAckSlot, None)
  else
    match unsubscribe_remaining_length filters with
    | Err e => ret (e, None)
    | Val rl =>
        let '(id, c) := alloc_packet_id c in
        put c;;;
        if id =? 0 then ret (NoPendingAckSlot, None)
        else
          e <- enqueue_sized (packet_size rl) (fun out => encode_unsubscribe out id filters);;
          if negb (Error_eqb e Ok) then ret (e, None)
          else
            t <- now;;
            c <- get;;
            let sids := omap (fun f => i ← find_subscription f c; sub_id <$> subscriptions_ c !! i) filters in
            push_pending (mkPendingAck sids t id Unsuback);;;
            ret (Ok, Some id)
    end.

(** The overloads for one filter. *)
Definition subscribe_one (filter : list Z) (qos : QoS) (handler : option HandlerId) : M E (Error * option Z) :=
  subscribe [mkTopicSubscription filter qos] handler.

Definition unsubscribe_one (filter : list Z) : M E (Error * option Z) := unsubscribe [filter].

(** ** Receive path: packet handlers *)

(** The range-for over the table: [i] is the position, [left] the entries
    before the end that was computed on entry. [None]: a handler ended the
    session. *)
Fixpoint dispatch_loop (left_ i : nat) (m : Message) (handled : bool) : M E (option bool) :=
  match left_ with
  | O => ret (Some handled)
  | S left_ =>
      c <- get;;
      match subscriptions_ c !! i with
      | None => ret (Some handled)
      | Some s =>
          match sub_handler s with
          | None => dispatch_loop left_ (S i) m handled
          | Some h =>
              if topic_matches (sub_filter s) (msg_topic m) then
                callback (CbMessage h m);;;
                c <- get;;
                if negb (State_eqb (state_ c) Connected) then ret None
                else dispatch_loop left_ (S i) m true
              else dispatch_loop left_ (S i) m handled
          end
      end
  end.

Definition dispatch (m : Message) : M E unit :=
  c <- get;;
  r <- dispatch_loop (length (subscriptions_ c)) 0 m false;;
  match r with
  | None => ret tt
  | Some true => ret tt
  | Some false => c <- get;; call_if (on_message_ c) (fun h => CbMessage h m)
  end.

Definition handle_connack (body : list Z) : M E Error :=
  c <- get;;
  if negb (State_eqb (state_ c) AwaitingConnack) then ret ProtocolViolation
  else
    match decode_connack body with
    | Err e => ret e
    | Val info =>
        modify (fun c => c <| connack_ := info |>);;;
        if negb (bool_decide (ci_code info = Accepted)) then ret ConnectionRefused
        else
          modify (fun c => c <| state_ := Connected |>);;;
          modify (fun c => c <| ping_outstanding_ := false |>);;;
          modify (fun c => c <| retransmit_now_ := true |>);;;
          (if negb (ci_session_present info) then modify mark_all_resub else ret tt);;;
          c <- get;;
          call_if (on_connect_ c) (fun h => CbConnect h (connack_ c));;;
          ret Ok
    end.

Definition count_backpressure : M E unit :=
  modify (fun c => c <| tx_backpressure_count_ ::= fun n => u32 (n + 1) |>).

Definition handle_publish (h : FixedHeader) (body : list Z) : M E Error :=
  c <- get;;
  if negb (State_eqb (state_ c) Connected) then ret ProtocolViolation
  else
    match decode_publish h body with
    | Err e => ret e
    | Val m =>
        if msg_qos m =? AtMostOnce then dispatch m;;; ret Ok
        else if msg_qos m =? AtLeastOnce then
          e <- send_ack Puback (msg_packet_id m);;
          if negb (Error_eqb e Ok) then count_backpressure;;; ret Ok
          else dispatch m;;; ret Ok
        else if msg_qos m =? ExactlyOnce then
          if inbound_contains (msg_packet_id m) c then
            e <- send_ack Pubrec (msg_packet_id m);;
            (if negb (Error_eqb e Ok) then count_backpressure else ret tt);;;
            ret Ok
          else if inbound_table_full c then
            modify (fun c => c <| inbound_overflow_count_ ::= fun n => u32 (n + 1) |>);;;
            ret Ok
          else
            e <- send_ack Pubrec (msg_packet_id m);;
            if negb (Error_eqb e Ok) then count_backpressure;;; ret Ok
            else
              modify (fun c => c <| inbound_ids_ ::= fun l => l ++ [msg_packet_id m] |>);;;
              dispatch m;;;
              ret Ok
        else ret ProtocolViolation
    end.

Definition complete_delivery (wait : Phase) (body : list Z) : M E Error :=
  match decode_packet_id body with
  | Err e => ret e
  | Val id =>
      c <- get;;
      match find_outbound id c with
      | None => ret Ok
      | Some i =>
          if negb (Phase_eqb (slot_phase (slot_at c i)) wait) then ret Ok
          else
            update_slot i release_slot;;;
            call_if (on_delivery_ c) (fun h => CbDelivery h id);;;
            ret Ok
      end
  end.

Definition handle_puback (body : list Z) : M E Error := complete_delivery WaitPuback body.

Definition handle_pubcomp (body : list Z) : M E Error := complete_delivery WaitPubcomp body.

(** Queue the slot's packet; only a packet that was queued restarts the
    slot's timer. *)
Definition resend_slot (i : nat) : M E unit :=
  c <- get;;
  e <- enqueue (ztake (slot_packet_len (slot_at c i)) (slot_packet (slot_at c i)));;
  if Error_eqb e Ok then
    t <- now;;
    update_slot i (fun s => s <| slot_last_sent_ms := t |>)
  else count_backpressure.

Definition handle_pubrec (body : list Z) : M E Error :=
  match decode_packet_id body with
  | Err e => ret e
  | Val id =>
      c <- get;;
      match find_outbound id c with
      | None => ret Ok
      | Some i =>
          let slot := slot_at c i in
          match slot_phase slot with
          | WaitPubrec =>
              let '(r, packet) := encode_ack (slot_packet slot) Pubrel id in
              update_slot i (fun s => s <| slot_packet := packet |>);;;
              match r with
              | Err e => ret e
              | Val n =>
                  update_slot i (fun s => s <| slot_packet_len := u16 n |>);;;
                  update_slot i (fun s => s <| slot_phase := WaitPubcomp |>);;;
                  resend_slot i;;;
                  ret Ok
              end
          | WaitPubcomp => resend_slot i;;; ret Ok
          | _ => ret Ok
          end
      end
  end.

Definition handle_pubrel (body : list Z) : M E Error :=
  match decode_packet_id body with
  | Err e => ret e
  | Val id =>
      e <- send_ack Pubcomp id;;
      if negb (Error_eqb e Ok) then count_backpressure;;; ret Ok
      else modify (inbound_remove id);;; ret Ok
  end.

(** Apply the return codes to the subscriptions they answer. *)
Fixpoint apply_return_codes (codes sids : list Z) (c : Client) : Client :=
  match codes, sids with
  | rc :: codes, sid :: sids =>
      let c :=
        if rc =? kSubackFailure then erase_subscription sid c
        else
          match find_by_sub_id sid c with
          | Some i => update_subscription i (fun s =>
              s <| sub_granted_qos := rc |> <| sub_needs_resub := false |>) c
          | None => c
          end in
      apply_return_codes codes sids c
  | _, _ => c
  end.

Definition ack_at (c : Client) (i : nat) : PendingAck :=
  default (mkPendingAck [] 0 0 Reserved) (pending_ c !! i).

Definition handle_suback (body : list Z) : M E Error :=
  match decode_suback body with
  | Err e => ret e
  | Val v =>
      c <- get;;
      match find_pending (sv_packet_id v) Suback c with
      | None => ret Ok
      | Some i =>
          let ack := ack_at c i in
          if negb (zlen (sv_return_codes v) =? zlen (ack_subs ack)) then ret ProtocolViolation
          else
            modify (apply_return_codes (sv_return_codes v) (ack_subs ack));;;
            modify (remove_pending i);;;
            c <- get;;
            call_if (on_suback_ c) (fun h => CbSuback h (sv_packet_id v) (sv_return_codes v));;;
            ret Ok
      end
  end.

Fixpoint erase_subscriptions (sids : list Z) (c : Client) : Client :=
  match sids with
  | [] => c
  | sid :: sids => erase_subscriptions sids (erase_subscription sid c)
  end.

Definition handle_unsuback (body : list Z) : M E Error :=
  match decode_packet_id body with
  | Err e => ret e
  | Val id =>
      c <- get;;
      match find_pending id Unsuback c with
      | None => ret Ok
      | Some i =>
          modify (erase_subscriptions (ack_subs (ack_at c i)));;;
          modify (remove_pending i);;;
          ret Ok
      end
  end.

Definition handle_packet (h : FixedHeader) (body : list Z) : M E Error :=
  match fh_type h with
  | Connack => handle_connack body
  | Publish => handle_publish h body
  | Puback => handle_puback body
  | Pubrec => handle_pubrec body
  | Pubrel => handle_pubrel body
  | Pubcomp => handle_pubcomp body
  | Suback => handle_suback body
  | Unsuback => handle_unsuback body
  | Pingresp =>
      if negb (empty body) then ret MalformedPacket
      else modify (fun c => c <| ping_outstanding_ := false |>);;; ret Ok
  | Connect | Subscribe | Unsubscribe | Pingreq | Disconnect | Reserved => ret ProtocolViolation
  end.

(** ** Draining the receive buffer *)

(** One round of the [for (;;)]: [Some e] returns [e], [None] goes round
    again. *)
Definition drain_round : M E (option Error) :=
  c <- get;;
  if rx_len_ c =? 0 then ret (Some Ok)
  else
    match peek_header (ztake (rx_len_ c) (rx_ c)) with
    | Err e => ret (Some (if Error_eqb e Incomplete then Ok else e))
    | Val p =>
        if peek_total_bytes p >? rx_buffer_size then ret (Some PacketTooLarge)
        else if rx_len_ c <? peek_total_bytes p then ret (Some Ok)
        else
          let body := ztake (fh_remaining_length (peek_hdr p)) (zdrop (peek_header_bytes p) (rx_ c)) in
          record (EvPacket (peek_hdr p) body);;;
          e <- handle_packet (peek_hdr p) body;;
          c <- get;;
          if rx_len_ c <? peek_total_bytes p then
            modify (fun c => c <| rx_len_ := 0 |>);;;
            ret (Some (if negb (Error_eqb e Ok) then e else last_error_ c))
          else
            let leftover := rx_len_ c - peek_total_bytes p in
            (if leftover >? 0 then
               modify (fun c => c <| rx_ ::= fun rx =>
                 splice rx 0 (ztake leftover (zdrop (peek_total_bytes p) rx)) |>)
             else ret tt);;;
            modify (fun c => c <| rx_len_ := leftover |>);;;
            if negb (Error_eqb e Ok) then ret (Some e) else ret None
    end.

Fixpoint drain_rx_loop (fuel : nat) : M E Error :=
  match fuel with
  | O => out_of_fuel
  | S fuel =>
      r <- drain_round;;
      match r with
      | Some e => ret e
      | None => drain_rx_loop fuel
      end
  end.

(** Every round that goes round again consumes a packet, so the bytes held
    bound the rounds. *)
Definition drain_rx : M E Error :=
  c <- get;; drain_rx_loop (S (Z.to_nat (rx_len_ c))).

Definition kMaxRecvRoundsPerStep : nat := 8.

(** The second half of a [pump_rx] round: drain, then decide. *)
Definition after_recv (again : M E Error) : M E Error :=
  e <- drain_rx;;
  if negb (Error_eqb e Ok) then ret e
  else
    c <- get;;
    if State_eqb (state_ c) Connecting then ret Ok
    else if rx_len_ c =? rx_buffer_size then ret PacketTooLarge
    else again.

Fixpoint pump_rx_loop (rounds : nat) : M E Error :=
  match rounds with
  | O => ret Ok
  | S rounds =>
      c <- get;;
      if rx_len_ c <? rx_buffer_size then
        let* (e, bytes) := with_env (transport_recv (rx_buffer_size - rx_len_ c)) in
        if Error_eqb e WouldBlock then drain_rx
        else if negb (Error_eqb e Ok) then ret e
        else if zlen bytes =? 0 then drain_rx
        else
          record (EvRecv bytes);;;
          modify (fun c => c <| rx_ ::= fun rx => splice rx (rx_len_ c) bytes |>);;;
          modify (fun c => c <| rx_len_ ::= fun n => n + zlen bytes |>);;;
          t <- now;;
          modify (fun c => c <| last_received_ms_ := t |>);;;
          after_recv (pump_rx_loop rounds)
      else after_recv (pump_rx_loop rounds)
  end.

Definition pump_rx : M E Error := pump_rx_loop kMaxRecvRoundsPerStep.

(** ** Timers *)
Definition pump_keep_alive : M E Error :=
  c <- get;;
  if keep_alive_ms_ c =? 0 then ret Ok
  else
    t <- now;;
    if ping_outstanding_ c then
      if elapsed_ms t (ping_sent_ms_ c) >? keep_alive_ms_ c then ret KeepAliveTimeout
      else ret Ok
    else
      let threshold := keep_alive_ms_ c - keep_alive_ms_ c / 4 in
      if elapsed_ms t (last_sent_ms_ c) <? threshold then ret Ok
      else
        e <- enqueue_sized (packet_size 0) (fun out => encode_empty out Pingreq);;
        if negb (Error_eqb e Ok) then ret Ok
        else
          modify (fun c => c <| ping_outstanding_ := true |>);;;
          modify (fun c => c <| ping_sent_ms_ := t |>);;;
          ret Ok.

(** The loop over the slots [i .. i + left - 1]. *)
Fixpoint retransmit_loop (left_ i : nat) (forced : bool) (t : Z) : M E unit :=
  match left_ with
  | O => ret tt
  | S left_ =>
      c <- get;;
      let slot := slot_at c i in
      if Phase_eqb (slot_phase slot) Free then retransmit_loop left_ (S i) forced t
      else if negb forced && ((retry_interval_ms =? 0) ||
                (elapsed_ms t (slot_last_sent_ms slot) <? retry_interval_ms))
      then retransmit_loop left_ (S i) forced t
      else
        update_slot i mark_dup;;;
        c <- get;;
        e <- enqueue (ztake (slot_packet_len (slot_at c i)) (slot_packet (slot_at c i)));;
        (if Error_eqb e Ok then update_slot i (fun s => s <| slot_last_sent_ms := t |>) else ret tt);;;
        retransmit_loop left_ (S i) forced t
  end.

Definition pump_retransmit : M E unit :=
  c <- get;;
  let forced := retransmit_now_ c in
  modify (fun c => c <| retransmit_now_ := false |>);;;
  if (retry_interval_ms =? 0) && negb forced then ret tt
  else
    t <- now;;
    retransmit_loop (Z.to_nat max_inflight_out) 0 forced t.

(** The subscriptions of the next batch: the first [room] that need it. *)
Fixpoint resub_batch (room : nat) (l : list Subscription) : list Subscription :=
  match l with
  | [] => []
  | s :: l =>
      if sub_needs_resub s then
        match room with
        | O => []
        | S O => [s]
        | S room => s :: resub_batch room l
        end
      else resub_batch room l
  end.

(** The second loop over the batch's ids. *)
Fixpoint clear_resub (sids : list Z) (c : Client) : Client :=
  match sids with
  | [] => c
  | sid :: sids =>
      let c := match find_by_sub_id sid c with
               | Some i => update_subscription i (fun s => s <| sub_needs_resub := false |>) c
               | None => c
               end in
      clear_resub sids c
  end.

Definition pump_resubscribe : M E unit :=
  c <- get;;
  if ack_table_full c then ret tt
  else
    let entries := resub_batch (Z.to_nat max_topics_per_request) (subscriptions_ c) in
    let batch := (fun s => mkTopicSubscription (sub_filter s) (sub_requested_qos s)) <$> entries in
    let ids := sub_id <$> entries in
    if empty batch then ret tt
    else
      match subscribe_remaining_length batch with
      | Err _ => ret tt
      | Val rl =>
          let '(id, c) := alloc_packet_id c in
          put c;;;
          if id =? 0 then ret tt
          else
            e <- enqueue_sized (packet_size rl) (fun out => encode_subscribe out id batch);;
            if negb (Error_eqb e Ok) then ret tt
            else
              t <- now;;
              modify (clear_resub ids);;;
              push_pending (mkPendingAck ids t id Suback)
      end.

(** ** The pump *)

(** What follows [pump_rx] when it succeeded. *)
Definition step_tail : M E Error :=
  c <- get;;
  match state_ c with
  | Connecting => ret Ok
  | AwaitingConnack =>
      t <- now;;
      if elapsed_ms t (connect_started_ms_ c) >? connect_timeout_ms then shutdown ConnectTimeout
      else ret Ok
  | st =>
      e <- (if State_eqb st Connected then
              e <- pump_keep_alive;;
              if negb (Error_eqb e Ok) then e <- shutdown e;; ret (Some e)
              else pump_resubscribe;;; pump_retransmit;;; ret None
            else ret None);;
      match e with
      | Some e => ret e
      | None =>
          e <- pump_tx;;
          if negb (Error_eqb e Ok) then shutdown e else ret Ok
      end
  end.

(** From the first flush on. *)
Definition step_io : M E Error :=
  e <- pump_tx;;
  if negb (Error_eqb e Ok) then shutdown e
  else
    c <- get;;
    if State_eqb (state_ c) Disconnecting && tx_empty (tx_ c) then shutdown Ok
    else
      e <- pump_rx;;
      if negb (Error_eqb e Ok) then shutdown e
      else step_tail.

Definition step_once : M E Error :=
  c <- get;;
  match state_ c with
  | Idle => ret Ok
  | Connecting =>
      e <- with_env transport_connect;;
      if Error_eqb e WouldBlock then
        t <- now;;
        if elapsed_ms t (connect_started_ms_ c) >? connect_timeout_ms then shutdown ConnectTimeout
        else ret Ok
      else if negb (Error_eqb e Ok) then shutdown e
      else
        record EvOpen;;;
        modify (fun c => c <| state_ := AwaitingConnack |>);;;
        t <- now;;
        modify (fun c => c <| last_sent_ms_ := t |>);;;
        step_io
  | _ => step_io
  end.

Definition step : M E Error :=
  c <- get;;
  if in_step_ c then ret Reentrant
  else
    modify (fun c => c <| in_step_ := true |>);;;
    e <- step_once;;
    modify (fun c => c <| in_step_ := false |>);;;
    ret e.

(** [ms_since_last_receive()]. *)
Definition ms_since_last_receive : M E Z :=
  c <- get;; t <- now;; ret (elapsed_ms t (last_received_ms_ c)).
End client.
