(* ===== verification/Application.v ===== *)
(** * Application: handlers that call the client back

    An application handler is a terminating program that reads the client's
    introspection accessors, acts on its own surroundings and calls the public
    interface, branching on what it reads and on what the calls return. Running
    it ties [Client]'s [callback] parameter: a callback runs the handler, whose
    calls may invoke callbacks in turn, one level deeper. *)
From S2P Require Import Prelude Errors Packet Etl Codec TxQueue Config Transport ClientState.
From S2P Require Import Effects Client.
#[local] Open Scope client_scope.

(** The public interface. *)
Inductive ApiCall :=
  | CallConnect (opts : ConnectOptions)
  | CallDisconnect
  | CallAbort
  | CallPublish (topic payload : list Z) (qos : QoS) (retain : bool)
  | CallSubscribe (subs : list TopicSubscription) (handler : option HandlerId)
  | CallUnsubscribe (filters : list (list Z))
  | CallStep
  | CallOnMessage (h : option HandlerId)
  | CallOnConnect (h : option HandlerId)
  | CallOnDisconnect (h : option HandlerId)
  | CallOnDelivery (h : option HandlerId)
  | CallOnSuback (h : option HandlerId).

(** What the types of the arguments guarantee: bytes in the strings, a [QoS]
    is any [uint8_t], the keep-alive is a [uint16_t], and no object is larger
    than half the address space. *)
Definition call_ok (call : ApiCall) : Prop :=
  match call with
  | CallConnect opts => is_u16 (opt_keep_alive_s opts)
  | CallPublish topic payload qos _ => 0 <= qos /\ zlen payload < 2 ^ 63
  | CallSubscribe subs _ => Forall (fun s => bytes_ok (ts_filter s) /\ 0 <= ts_qos s) subs
  | _ => True
  end.

(** The returned code and what [out_packet_id] received. *)
Definition ApiResult : Type := Error * option Z.

Inductive Handler (E : Type) :=
  | Done
  | Act (f : E -> E) (k : Handler E)
  | Inspect (k : Client -> E -> Handler E)
  | Call (call : ApiCall) (k : ApiResult -> Handler E).
Arguments Done {E}.
Arguments Act {E} f k.
Arguments Inspect {E} k.
Arguments Call {E} call k.

(** Every call a handler can make satisfies [P]. *)
Inductive handler_calls {E} (P : ApiCall -> Prop) : Handler E -> Prop :=
  | hc_done : handler_calls P Done
  | hc_act f k : handler_calls P k -> handler_calls P (Act f k)
  | hc_inspect k : (forall c e, handler_calls P (k c e)) -> handler_calls P (Inspect k)
  | hc_call call k : P call -> (forall r, handler_calls P (k r)) -> handler_calls P (Call call k).

Section application.
Context `{Cfg : Config} `{SZ : SizeT} `{BW : ByteStreamWriter} `{BR : ByteStreamReader}.
Context {E : Type} `{T : Transport E} `{CK : Clock E}.

(** One call of the public interface; [callback] runs what it triggers. *)
Definition api (callback : Callback -> M E unit) (call : ApiCall) : M E ApiResult :=
  match call with
  | CallConnect opts => e <- connect opts;; ret (e, None)
  | CallDisconnect => e <- disconnect callback;; ret (e, None)
  | CallAbort => abort callback;;; ret (Ok, None)
  | CallPublish topic payload qos retain => publish topic payload qos retain
  | CallSubscribe subs handler => subscribe subs handler
  | CallUnsubscribe filters => unsubscribe filters
  | CallStep => e <- step callback;; ret (e, None)
  | CallOnMessage h => modify (fun c => c <| on_message_ := h |>);;; ret (Ok, None)
  | CallOnConnect h => modify (fun c => c <| on_connect_ := h |>);;; ret (Ok, None)
  | CallOnDisconnect h => modify (fun c => c <| on_disconnect_ := h |>);;; ret (Ok, None)
  | CallOnDelivery h => modify (fun c => c <| on_delivery_ := h |>);;; ret (Ok, None)
  | CallOnSuback h => modify (fun c => c <| on_suback_ := h |>);;; ret (Ok, None)
  end.

Fixpoint run_handler (callback : Callback -> M E unit) (p : Handler E) : M E unit :=
  match p with
  | Done => ret tt
  | Act f k => with_env (fun e => (tt, f e));;; run_handler callback k
  | Inspect k => fun s => run_handler callback (k (cl s) (env s)) s
  | Call call k => r <- api callback call;; run_handler callback (k r)
  end.

(** What the application bound to each callable. *)
Context (app : Callback -> Handler E).

(** Run a callback whose handlers may nest [depth] deep. *)
Fixpoint run_callback (depth : nat) (cb : Callback) : M E unit :=
  match depth with
  | O => out_of_fuel
  | S depth =>
      record (EvCall cb);;;
      run_handler (run_callback depth) (app cb)
  end.

(** A call from the application's own loop. *)
Definition call (depth : nat) (c : ApiCall) : M E ApiResult := api (run_callback depth) c.

(** ** Reachable states: an application drives a fresh client through its
    interface, and its surroundings change in between. *)
Inductive reachable : Sys E -> Prop :=
  | reach_init e : reachable (mkSys client_init e [])
  | reach_env s e : reachable s -> reachable (s <| env := e |>)
  | reach_call depth c s r s' :
      reachable s -> call_ok c -> call depth c s = Some (r, s') -> reachable s'.
End application.
