(* ===== verification/ClientTables.v ===== *)
(** * ClientTables: facts about the client's tables and identifiers *)
From S2P Require Import Prelude Errors Packet Codec TxQueue Config Transport ClientState.

(** ** Searches *)
Section find_index.
Context {A : Type} (p : A -> bool).

Lemma find_index_Some n l i :
  find_index p n l = Some i -> (i < n)%nat /\ exists x, l !! i = Some x /\ p x = true.
Proof.
  revert l i; induction n as [|n IH]; intros [|x l] i H; cbn in H; try done.
  destruct (p x) eqn:Ep.
  - injection H as <-. split; [lia|]. by exists x.
  - destruct (find_index p n l) as [j|] eqn:Ef; [|done]. injection H as <-.
    apply IH in Ef as [? (y & ? & ?)]. split; [lia|]. by exists y.
Qed.

Lemma find_index_None n l :
  find_index p n l = None -> forall x, x ∈ take n l -> p x = false.
Proof.
  revert l; induction n as [|n IH]; intros [|x l] H y Hy; cbn in *; try by inversion Hy.
  destruct (p x) eqn:Ep; [done|]. destruct (find_index p n l) eqn:Ef; [done|].
  apply elem_of_cons in Hy as [-> | Hy]; [done | by eapply IH].
Qed.

Lemma find_index_length l i : find_index p (length l) l = Some i -> (i < length l)%nat.
Proof. intros H. by apply find_index_Some in H as [? _]. Qed.
End find_index.

(** ** Identifier allocation *)
Definition id_ok (id : Z) : Prop := 1 <= id <= 65535.

#[export] Instance id_ok_dec id : Decision (id_ok id).
Proof. unfold id_ok. apply _. Defined.

Lemma next_id_mod id : 0 <= id <= 65535 -> next_id id = id mod 65535 + 1.
Proof.
  intros. unfold next_id. case_if; zbool; [by subst|].
  rewrite u16_small by (unfold is_u16; lia). rewrite Z.mod_small; lia.
Qed.

Lemma next_id_ok id : 0 <= id <= 65535 -> id_ok (next_id id).
Proof.
  intros. rewrite next_id_mod by done. unfold id_ok.
  pose proof (Z.mod_pos_bound id 65535). lia.
Qed.

Section alloc.
Context (in_use : Z -> bool).

(** An allocated identifier is non-zero, in range and free. *)
Lemma alloc_loop_ok tries id r next :
  0 <= id <= 65535 -> alloc_loop tries in_use id = (r, next) -> r <> 0 ->
  id_ok r /\ next = r /\ in_use r = false.
Proof.
  revert id; induction tries as [|tries IH]; intros id Hid H Hr; cbn in H.
  - by injection H as <- <-.
  - pose proof (next_id_ok id Hid) as Hn. destruct (in_use (next_id id)) eqn:Eu.
    + apply IH in H; [done | unfold id_ok in Hn; lia | done].
    + injection H as <- <-. done.
Qed.

Lemma alloc_loop_next tries id r next :
  0 <= id <= 65535 -> alloc_loop tries in_use id = (r, next) -> 0 <= next <= 65535.
Proof.
  revert id; induction tries as [|tries IH]; intros id Hid H; cbn in H.
  - by injection H as <- <-.
  - pose proof (next_id_ok id Hid) as Hn. unfold id_ok in Hn. destruct (in_use (next_id id)).
    + apply IH in H; [done | lia].
    + injection H as <- <-. lia.
Qed.

(** A failed allocation tried, and found in use, every identifier up to
    [tries] steps ahead of the counter. *)
Lemma alloc_loop_fail tries id next :
  0 <= id <= 65535 -> alloc_loop tries in_use id = (0, next) ->
  forall k, 0 <= k < Z.of_nat tries -> in_use ((id + k) mod 65535 + 1) = true.
Proof.
  revert id; induction tries as [|tries IH]; intros id Hid H k Hk; cbn in H; [lia|].
  pose proof (next_id_ok id Hid) as Hn. unfold id_ok in Hn.
  destruct (in_use (next_id id)) eqn:Eu.
  - destruct (Z.eq_dec k 0) as [->|].
    + rewrite Z.add_0_r, <- next_id_mod by done. done.
    + replace ((id + k) mod 65535) with ((next_id id + (k - 1)) mod 65535).
      * apply IH; [lia | done | lia].
      * rewrite next_id_mod by done.
        replace (id mod 65535 + 1 + (k - 1)) with (id mod 65535 + k) by lia.
        by rewrite Zplus_mod_idemp_l.
  - injection H as H _. lia.
Qed.

Lemma alloc_loop_full id next :
  0 <= id <= 65535 -> alloc_loop id_tries in_use id = (0, next) ->
  forall v, id_ok v -> in_use v = true.
Proof.
  intros Hid H v Hv. unfold id_ok in Hv.
  pose proof (alloc_loop_fail id_tries id next Hid H ((v - 1 - id) mod 65535)) as Hk.
  rewrite Zplus_mod_idemp_r in Hk.
  replace (id + (v - 1 - id)) with (v - 1) in Hk by lia.
  rewrite (Z.mod_small (v - 1)) in Hk by lia. rewrite Z.sub_add in Hk. apply Hk.
  unfold id_tries. rewrite Z2Nat.id by lia. apply Z.mod_pos_bound. lia.
Qed.
End alloc.

(** 65535 distinct identifiers do not fit in a shorter list. *)
Definition all_ids : list Z := Z.of_nat <$> seq 1 (Z.to_nat 65535).

Lemma all_ids_spec v : id_ok v <-> v ∈ all_ids.
Proof.
  unfold all_ids, id_ok. rewrite list_elem_of_fmap. split.
  - intros Hv. exists (Z.to_nat v). split; [lia|]. apply elem_of_seq. lia.
  - intros (n & -> & Hn). apply elem_of_seq in Hn. lia.
Qed.

Lemma ids_pigeonhole (l : list Z) : (forall v, id_ok v -> v ∈ l) -> 65535 <= zlen l.
Proof.
  intros Hl. assert (Hsub : all_ids ⊆ l) by (intros v Hv; by apply Hl, all_ids_spec).
  assert (Hnd : NoDup all_ids).
  { apply NoDup_fmap_2; [intros ? ? ?; lia | apply NoDup_seq]. }
  assert (Hlen : (length all_ids <= length l)%nat).
  { apply submseteq_length, NoDup_submseteq; [done|]. intros v Hv. by apply Hsub. }
  unfold all_ids in Hlen. rewrite length_fmap, length_seq in Hlen. unfold zlen. lia.
Qed.

(** ** Packet identifiers in use *)
Section ids.
Context `{Cfg : Config}.

Definition slot_busy (s : OutboundSlot) : bool := negb (slot_free s).

Definition slot_ids (l : list OutboundSlot) : list Z := slot_packet_id <$> List.filter slot_busy l.

Definition ids_in_use (c : Client) : list Z :=
  slot_ids (outbound_ c) ++ (ack_packet_id <$> pending_ c).

(** Slots the configuration does not grant stay free. *)
Definition residue_free (l : list OutboundSlot) : Prop :=
  Forall (fun s => slot_free s = true) (drop (Z.to_nat max_inflight_out) l).

Lemma slot_ids_cons s l :
  slot_ids (s :: l) = if slot_busy s then slot_packet_id s :: slot_ids l else slot_ids l.
Proof. unfold slot_ids. cbn. by destruct (slot_busy s). Qed.

Lemma elem_of_slot_ids id l :
  id ∈ slot_ids l <-> exists i s, l !! i = Some s /\ slot_busy s = true /\ slot_packet_id s = id.
Proof.
  unfold slot_ids. rewrite list_elem_of_fmap. split.
  - intros (s & -> & Hs). apply list_elem_of_In, filter_In in Hs as [Hs ?].
    apply list_elem_of_In, list_elem_of_lookup in Hs as [i ?]. by exists i, s.
  - intros (i & s & Hi & ? & <-). exists s. split; [done|].
    apply list_elem_of_In, filter_In. split; [|done].
    apply list_elem_of_In, list_elem_of_lookup. by exists i.
Qed.

(** The identifier a slot keeps from being allocated. *)
Definition slot_id (s : OutboundSlot) : list Z := if slot_busy s then [slot_packet_id s] else [].

Lemma slot_ids_insert l i s s' :
  l !! i = Some s ->
  exists rest, slot_ids l ≡ₚ slot_id s ++ rest /\ slot_ids (<[i := s']> l) ≡ₚ slot_id s' ++ rest.
Proof.
  unfold slot_id. revert i; induction l as [|x l IH]; intros [|i] Hi; cbn in Hi; try done.
  - injection Hi as ->. exists (slot_ids l). cbn [insert list_insert].
    rewrite !slot_ids_cons. by destruct (slot_busy s), (slot_busy s').
  - destruct (IH i Hi) as (rest & H1 & H2).
    exists (if slot_busy x then slot_packet_id x :: rest else rest).
    cbn [insert list_insert]. rewrite !slot_ids_cons. destruct (slot_busy x); [|done].
    rewrite H1, H2. by rewrite <- !Permutation_middle.
Qed.

(** A table of identifiers: none twice, each a valid packet identifier. *)
Definition ids_good (l : list Z) : Prop := NoDup l /\ Forall id_ok l.

#[export] Instance ids_good_proper : Proper ((≡ₚ) ==> iff) ids_good.
Proof. intros l k Hlk. unfold ids_good. by rewrite Hlk. Qed.

Lemma ids_good_app_r l k : ids_good (l ++ k) -> ids_good k.
Proof. intros [Hn Hf]. apply list.NoDup_app in Hn as (_ & _ & ?). by apply Forall_app in Hf as [_ ?]. Qed.

Lemma ids_good_cons x l : id_ok x -> x ∉ l -> ids_good l -> ids_good (x :: l).
Proof. intros ? ? [? ?]. split; by constructor. Qed.

Lemma packet_id_in_use_false id c :
  residue_free (outbound_ c) -> packet_id_in_use id c = false -> id ∉ ids_in_use c.
Proof.
  unfold packet_id_in_use, ids_in_use. intros Hres H. apply orb_false_iff in H as [Ho Hp].
  rewrite elem_of_app. intros [Hin | Hin].
  - apply elem_of_slot_ids in Hin as (i & s & Hi & Hb & Hid).
    destruct (decide (i < Z.to_nat max_inflight_out)%nat) as [Hlt|Hge].
    + rewrite <- not_true_iff_false in Ho. apply Ho, existsb_exists. exists s.
      split; [|by unfold slot_holds, slot_busy, slot_free in *; rewrite Hb, Hid, Z.eqb_refl].
      apply list_elem_of_In, list_elem_of_lookup. exists i. by rewrite lookup_take_lt.
    + unfold residue_free in Hres. rewrite Forall_lookup in Hres.
      specialize (Hres (i - Z.to_nat max_inflight_out)%nat s).
      rewrite lookup_drop in Hres.
      replace (Z.to_nat max_inflight_out + (i - Z.to_nat max_inflight_out))%nat with i in Hres by lia.
      unfold slot_busy in Hb. rewrite Hres in Hb by done. done.
  - apply list_elem_of_fmap in Hin as (a & -> & Ha).
    rewrite <- not_true_iff_false in Hp. apply Hp, existsb_exists. exists a.
    split; [by apply list_elem_of_In | by apply Z.eqb_refl].
Qed.

Lemma packet_id_in_use_true id c : packet_id_in_use id c = true -> id ∈ ids_in_use c.
Proof.
  unfold packet_id_in_use, ids_in_use. intros H. apply orb_true_iff in H as [H|H];
    apply existsb_exists in H as (x & Hx & Heq); apply elem_of_app.
  - left. unfold slot_holds in Heq. zbool.
    apply list_elem_of_In, list_elem_of_lookup in Hx as [i Hi].
    apply elem_of_slot_ids. exists i, x. unfold slot_busy, slot_free.
    apply lookup_take_Some in Hi as [? ?]. split_and!; try done. by apply negb_true_iff.
  - right. zbool. apply list_elem_of_fmap. exists x. split; [done|]. by apply list_elem_of_In.
Qed.

Lemma alloc_packet_id_spec c :
  residue_free (outbound_ c) -> 0 <= next_packet_id_ c <= 65535 ->
  exists n, snd (alloc_packet_id c) = c <| next_packet_id_ := n |> /\ 0 <= n <= 65535 /\
    (fst (alloc_packet_id c) <> 0 ->
       id_ok (fst (alloc_packet_id c)) /\ fst (alloc_packet_id c) ∉ ids_in_use c).
Proof.
  intros Hres Hn. unfold alloc_packet_id.
  destruct (alloc_loop _ _ _) as [id n] eqn:Ea. cbn [fst snd]. exists n.
  split_and!; [done | by eapply alloc_loop_next in Ea as [? ?].. |].
  intros Hid. apply alloc_loop_ok in Ea as (? & _ & ?); [|done..].
  split; [done|]. by apply packet_id_in_use_false.
Qed.

(** Allocation fails only when every identifier is taken, which takes more
    outstanding exchanges than the tables can hold together. *)
Lemma alloc_packet_id_none c id :
  0 <= next_packet_id_ c <= 65535 -> fst (alloc_packet_id c) = 0 -> id_ok id -> id ∈ ids_in_use c.
Proof.
  intros Hn. unfold alloc_packet_id. destruct (alloc_loop _ _ _) as [id' n] eqn:Ea. cbn [fst]. intros ->.
  intros Hid. apply packet_id_in_use_true. by apply (alloc_loop_full (fun id => packet_id_in_use id c) _ n Hn Ea).
Qed.

Lemma alloc_packet_id_total c :
  0 <= next_packet_id_ c <= 65535 -> zlen (ids_in_use c) < 65535 -> fst (alloc_packet_id c) <> 0.
Proof.
  intros Hn Hlen Hz. pose proof (ids_pigeonhole (ids_in_use c)) as Hp. enough (65535 <= zlen (ids_in_use c)) by lia.
  apply Hp. intros v Hv. by apply alloc_packet_id_none.
Qed.
End ids.

(** ** The subscription table *)
Section subscriptions.
Context `{Cfg : Config}.

Definition sub_ids (l : list Subscription) : list Z := sub_id <$> l.

Lemma alloc_sub_id_spec c :
  0 <= next_sub_id_ c <= 65535 -> zlen (subscriptions_ c) < 65535 ->
  exists n, snd (alloc_sub_id c) = c <| next_sub_id_ := n |> /\ 0 <= n <= 65535 /\
    id_ok (fst (alloc_sub_id c)) /\ fst (alloc_sub_id c) ∉ sub_ids (subscriptions_ c).
Proof.
  intros Hn Hlen. unfold alloc_sub_id.
  destruct (alloc_loop _ _ _) as [id n] eqn:Ea. cbn [fst snd]. exists n.
  assert (Hid : id <> 0).
  { intros ->. pose proof (ids_pigeonhole (sub_ids (subscriptions_ c))) as Hp.
    enough (65535 <= zlen (sub_ids (subscriptions_ c))) by (unfold sub_ids in *; rewrite zlen_fmap in *; lia).
    apply Hp. intros v Hv. eapply alloc_loop_full in Ea; [|done..]. unfold find_by_sub_id in Ea.
    destruct (find_index _ _ _) as [i|] eqn:Ef; [|done].
    apply find_index_Some in Ef as (_ & s & Hs & Heq). zbool. subst v.
    apply list_elem_of_fmap_2. by apply list_elem_of_lookup_2 in Hs. }
  split_and!; [done | by eapply alloc_loop_next in Ea as [? ?].. | |];
    apply alloc_loop_ok in Ea as (Hok & _ & Hfree); try done.
  unfold find_by_sub_id in Hfree. destruct (find_index _ _ _) as [i|] eqn:Ef; [done|].
  unfold sub_ids. rewrite list_elem_of_fmap. intros (s & -> & Hs).
  assert (Hf : (sub_id s =? sub_id s) = false); [|by rewrite Z.eqb_refl in Hf].
  eapply find_index_None in Ef; [done|]. by rewrite take_ge by lia.
Qed.

Lemma find_subscription_None f c :
  find_subscription f c = None -> f ∉ (sub_filter <$> subscriptions_ c).
Proof.
  unfold find_subscription. intros Hf. rewrite list_elem_of_fmap. intros (s & -> & Hs).
  eapply find_index_None in Hf; [|by rewrite take_ge by lia].
  by rewrite bool_decide_eq_true_2 in Hf.
Qed.

Lemma find_subscription_Some f c i :
  find_subscription f c = Some i ->
  exists s, subscriptions_ c !! i = Some s /\ sub_filter s = f.
Proof.
  unfold find_subscription. intros Hf. apply find_index_Some in Hf as (_ & s & Hs & Heq).
  exists s. split; [done|]. by apply bool_decide_eq_true in Heq.
Qed.

Lemma erase_sub_sublist sid l : erase_sub sid l `sublist_of` l.
Proof.
  induction l as [|s l IH]; cbn [erase_sub]; [done|].
  case_if; [by apply sublist_cons | by apply sublist_skip].
Qed.
End subscriptions.
