(* ===== verification/ClientInv.v ===== *)
(** * ClientInv: the invariant of the client

    What holds of the client object between any two operations of it, handlers
    included: every index and table within its capacity, the identifiers of
    outstanding exchanges distinct, every stored packet whole, and the bytes
    sent and queued on a connection a sequence of well-formed packets that
    starts with CONNECT. *)
From S2P Require Import Prelude Errors Packet PacketFacts Utf8 Topic Etl Codec CodecFacts TxQueue.
From S2P Require Import Config Transport ClientState ClientTables Effects.

(** Capacities the 16-bit fields of the client can represent. *)
Class ConfigSane (c : Config) : Prop := {
  sane_subscriptions : max_subscriptions <= 65535;
  sane_persisted : max_persisted_msg_size <= 65535;
}.

#[export] Instance DefaultConfig_sane : ConfigSane DefaultConfig.
Proof. by split. Qed.

(** ** Packets *)
Definition connect_packet (o : ConnectOptions) : list Z :=
  wire_packet Connect false AtMostOnce false (connect_body o).

Definition publish_packet (dup : bool) (qos : QoS) (retain : bool) (topic payload : list Z) (id : Z) : list Z :=
  wire_packet Publish dup qos retain (publish_body topic payload qos id).

Definition ack_packet (type : PacketType) (id : Z) : list Z :=
  wire_packet type false AtMostOnce false (be16 id).

Definition subscribe_packet (id : Z) (subs : list TopicSubscription) : list Z :=
  wire_packet Subscribe false AtMostOnce false (subscribe_body id subs).

Definition unsubscribe_packet (id : Z) (filters : list (list Z)) : list Z :=
  wire_packet Unsubscribe false AtMostOnce false (unsubscribe_body id filters).

Definition empty_packet (type : PacketType) : list Z := wire_packet type false AtMostOnce false [].

#[global] Arguments wire_packet : simpl never.

(** A CONNECT the protocol allows. *)
Definition connect_wf (o : ConnectOptions) : Prop :=
  connect_ok o /\ is_u16 (opt_keep_alive_s o) /\ vbi_ok (zlen (connect_body o)) /\
  (will_valid (opt_will o) = true -> is_valid_topic_name (will_topic (opt_will o)) = true) /\
  (opt_client_id o = [] -> opt_clean_session o = true).

(** A PUBLISH the protocol allows. *)
Definition publish_wf (dup : bool) (qos : QoS) (topic payload : list Z) (id : Z) : Prop :=
  is_valid_topic_name topic = true /\ 0 <= qos <= 2 /\ (qos = AtMostOnce -> dup = false) /\
  (qos <> AtMostOnce -> id_ok id) /\ vbi_ok (zlen (publish_body topic payload qos id)).

(** Everything the client may send once it has sent CONNECT. *)
Inductive session_packet : list Z -> Prop :=
  | sp_publish dup qos retain topic payload id :
      publish_wf dup qos topic payload id ->
      session_packet (publish_packet dup qos retain topic payload id)
  | sp_ack type id :
      is_ack_type type = true -> id_ok id -> session_packet (ack_packet type id)
  | sp_subscribe id subs :
      id_ok id -> subs <> [] -> Forall sub_ok subs ->
      Forall (fun s => is_valid_filter (ts_filter s) = true) subs ->
      vbi_ok (zlen (subscribe_body id subs)) -> session_packet (subscribe_packet id subs)
  | sp_unsubscribe id filters :
      id_ok id -> filters <> [] -> Forall filter_ok filters ->
      vbi_ok (zlen (unsubscribe_body id filters)) -> session_packet (unsubscribe_packet id filters)
  | sp_pingreq : session_packet (empty_packet Pingreq)
  | sp_disconnect : session_packet (empty_packet Disconnect).

(** ** The byte stream of a connection *)

(** The bytes the transport accepted since it last connected. *)
Definition stream_event (sent : list Z) (ev : Event) : list Z :=
  match ev with
  | EvOpen => []
  | EvSend bytes => sent ++ bytes
  | _ => sent
  end.

Definition sent_since_open (h : list Event) : list Z := fold_left stream_event h [].
#[global] Arguments sent_since_open : simpl never.

Lemma sent_since_open_snoc h ev : sent_since_open (h ++ [ev]) = stream_event (sent_since_open h) ev.
Proof. unfold sent_since_open. by rewrite fold_left_app. Qed.

(** Sent and queued bytes together are a CONNECT and whole packets after it;
    before the transport is up, the queue holds the CONNECT alone. *)
Definition stream_ok (st : State) (sent queued : list Z) : Prop :=
  match st with
  | Idle => True
  | Connecting => exists o, connect_wf o /\ queued = connect_packet o
  | _ => exists o pkts, connect_wf o /\ Forall session_packet pkts /\
           sent ++ queued = connect_packet o ++ concat pkts
  end.

#[global] Arguments stream_ok : simpl never.

Lemma stream_ok_idle sent queued : stream_ok Idle sent queued.
Proof. done. Qed.

Lemma stream_ok_append st sent queued pkt :
  st <> Connecting -> session_packet pkt ->
  stream_ok st sent queued -> stream_ok st sent (queued ++ pkt).
Proof.
  intros Hst Hp. assert (Hgo : forall o pkts, sent ++ queued = connect_packet o ++ concat pkts ->
    sent ++ queued ++ pkt = connect_packet o ++ concat (pkts ++ [pkt])).
  { intros o pkts Hs. rewrite app_assoc, Hs, concat_app. cbn [concat]. by rewrite app_nil_r, app_assoc. }
  destruct st; unfold stream_ok; try done;
    intros (o & pkts & ? & ? & ?); exists o, (pkts ++ [pkt]);
    (split_and!; [done | apply Forall_app; by repeat constructor | by apply Hgo]).
Qed.

Lemma stream_ok_send st sent queued n :
  st <> Connecting -> stream_ok st sent queued ->
  stream_ok st (sent ++ ztake n queued) (zdrop n queued).
Proof.
  intros Hst. destruct st; unfold stream_ok; try done; by rewrite <- app_assoc, ztake_zdrop.
Qed.

Section invariant.
Context `{Cfg : Config}.

(** ** Outbound slots *)

(** The packet a slot keeps for retransmission. *)
Definition stored (s : OutboundSlot) : list Z := ztake (slot_packet_len s) (slot_packet s).

Definition stores_publish (q : QoS) (s : OutboundSlot) : Prop :=
  slot_qos s = q /\ exists dup retain topic payload,
    publish_wf dup q topic payload (slot_packet_id s) /\
    stored s = publish_packet dup q retain topic payload (slot_packet_id s).

Definition slot_ok (s : OutboundSlot) : Prop :=
  zlen (slot_packet s) = kPersistSize /\
  match slot_phase s with
  | Free => True
  | WaitPuback => stores_publish AtLeastOnce s
  | WaitPubrec => stores_publish ExactlyOnce s
  | WaitPubcomp => stored s = ack_packet Pubrel (slot_packet_id s)
  end.

Definition outbound_ok (l : list OutboundSlot) : Prop :=
  zlen l = kOutSlots /\ Forall slot_ok l /\ residue_free l.

(** ** The other tables *)
Definition rx_ok (rx : list Z) (len : Z) : Prop :=
  zlen rx = rx_buffer_size /\ bytes_ok rx /\ 0 <= len <= rx_buffer_size.

Definition inbound_ok (l : list Z) : Prop := ids_good l /\ zlen l <= max_inflight_in.

Definition entry_ok (s : Subscription) : Prop :=
  bytes_ok (sub_filter s) /\ is_valid_filter (sub_filter s) = true /\
  zlen (sub_filter s) <= max_topic_len /\ 0 <= sub_requested_qos s <= 2.

Definition subscriptions_ok (l : list Subscription) : Prop :=
  zlen l <= max_subscriptions /\ ids_good (sub_ids l) /\ NoDup (sub_filter <$> l) /\
  Forall entry_ok l.

Definition ack_ok (a : PendingAck) : Prop :=
  zlen (ack_subs a) <= max_topics_per_request /\
  (ack_expected a = Suback \/ ack_expected a = Unsuback).

Definition pending_ok (l : list PendingAck) : Prop :=
  zlen l <= max_pending_acks /\ Forall ack_ok l.

Record client_ok (c : Client) : Prop := {
  ok_tx : tx_wf tx_buffer_size (tx_ c);
  ok_rx : rx_ok (rx_ c) (rx_len_ c);
  ok_outbound : outbound_ok (outbound_ c);
  ok_inbound : inbound_ok (inbound_ids_ c);
  ok_subscriptions : subscriptions_ok (subscriptions_ c);
  ok_pending : pending_ok (pending_ c);
  ok_ids : ids_good (ids_in_use c);
  ok_next_packet_id : 0 <= next_packet_id_ c <= 65535;
  ok_next_sub_id : 0 <= next_sub_id_ c <= 65535;
  ok_connecting : state_ c = Connecting -> rx_len_ c = 0;
}.

Definition sys_ok {E} (s : Sys E) : Prop :=
  client_ok (cl s) /\ stream_ok (state_ (cl s)) (sent_since_open (history s)) (tx_peek (tx_ (cl s))).

(** ** What no operation below [step] changes under a running step: the
    receive buffer, which a handler's message views point into. *)
Definition frame (c c' : Client) : Prop :=
  in_step_ c' = in_step_ c /\
  (in_step_ c = true -> rx_ c' = rx_ c /\ (rx_len_ c' = rx_len_ c \/ rx_len_ c' = 0)).

Lemma frame_refl c : frame c c.
Proof. split; [done|]. intros. split; [done|]. by left. Qed.

Lemma frame_trans a b c : frame a b -> frame b c -> frame a c.
Proof.
  unfold frame. intros [H1 H2] [H3 H4]. rewrite H1 in H4. split; [congruence|].
  intros Hs. destruct (H4 Hs) as [-> Hl'], (H2 Hs) as [-> Hl]. split; [done|].
  destruct Hl' as [-> | ->]; [done | by right].
Qed.

(** ** Edits of the tables *)
Section edits.
Context {COK : ConfigOk Cfg}.

Lemma outbound_ok_insert l i s s' :
  outbound_ok l -> l !! i = Some s -> slot_ok s' ->
  ((i < Z.to_nat max_inflight_out)%nat \/ slot_free s' = true) -> outbound_ok (<[i := s']> l).
Proof.
  intros (Hlen & Hok & Hres) Hi Hs' Hfree. unfold outbound_ok. rewrite zlen_insert.
  split_and!; [done | by apply Forall_insert |].
  unfold residue_free in *. destruct (decide (i < Z.to_nat max_inflight_out)%nat).
  - rewrite list_insert_alter. by rewrite drop_alter_lt.
  - destruct Hfree as [|Hf]; [lia|]. rewrite list_insert_alter, drop_alter_ge by lia.
    rewrite <- list_insert_alter. by apply Forall_insert.
Qed.

Lemma outbound_ok_lookup l i s : outbound_ok l -> l !! i = Some s -> slot_ok s.
Proof. intros (_ & Hok & _) Hi. by eapply Forall_lookup_1 in Hok. Qed.

Lemma release_slot_ok s : slot_ok s -> slot_ok (release_slot s).
Proof. unfold slot_ok. intros [? _]. by split. Qed.

Lemma outbound_ok_release l : outbound_ok l -> outbound_ok (release_slot <$> l).
Proof.
  intros (Hlen & Hok & Hres). unfold outbound_ok, residue_free in *. rewrite zlen_fmap.
  split_and!; [done | |].
  - apply Forall_fmap. eapply Forall_impl; [apply release_slot_ok | done].
  - rewrite <- fmap_drop. apply Forall_fmap. apply Forall_true. done.
Qed.

Lemma slot_ids_release l : slot_ids (release_slot <$> l) = [].
Proof.
  induction l as [|s l IH]; [done|]. change (release_slot <$> s :: l) with (release_slot s :: (release_slot <$> l)).
  by rewrite slot_ids_cons.
Qed.

(** Replacing a slot keeps the identifiers good if its new identifier is
    the old one or the slot is given up. *)
Lemma ids_good_insert_slot l i s s' k :
  l !! i = Some s -> slot_id s' = slot_id s \/ slot_id s' = [] ->
  ids_good (slot_ids l ++ k) -> ids_good (slot_ids (<[i := s']> l) ++ k).
Proof.
  intros Hi Hs. destruct (slot_ids_insert l i s s' Hi) as (rest & -> & ->).
  destruct Hs as [-> | ->]; [done|]. rewrite <- app_assoc. cbn [app]. apply ids_good_app_r.
Qed.

(** A free slot takes up a fresh identifier. *)
Lemma ids_good_fill_slot l i s s' id k :
  l !! i = Some s -> slot_free s = true -> slot_id s' = [id] -> id_ok id -> id ∉ slot_ids l ++ k ->
  ids_good (slot_ids l ++ k) -> ids_good (slot_ids (<[i := s']> l) ++ k).
Proof.
  intros Hi Hf Hs' Hid Hnot. destruct (slot_ids_insert l i s s' Hi) as (rest & H1 & H2).
  rewrite Hs' in H2. unfold slot_id, slot_busy in H1. rewrite Hf in H1. cbn [negb app] in *.
  rewrite H1 in Hnot |- *. rewrite H2. by apply ids_good_cons.
Qed.

Lemma subscriptions_ok_alter f i l :
  (forall s, l !! i = Some s -> sub_id (f s) = sub_id s /\ sub_filter (f s) = sub_filter s /\
     (entry_ok s -> entry_ok (f s))) ->
  subscriptions_ok l -> subscriptions_ok (alter f i l).
Proof.
  intros Hf (Hlen & Hid & Hfl & Hok). unfold subscriptions_ok, sub_ids.
  rewrite zlen_alter, !fmap_alter_same by naive_solver.
  split_and!; [done..|]. apply Forall_alter; [done|].
  intros s Hs. by apply Hf.
Qed.

Lemma subscriptions_ok_mark_all l :
  subscriptions_ok l -> subscriptions_ok ((fun s => s <| sub_needs_resub := true |>) <$> l).
Proof.
  intros (Hlen & Hid & Hfl & Hok). unfold subscriptions_ok, sub_ids in *.
  rewrite zlen_fmap, <- !list_fmap_compose. split_and!; [done..|].
  apply Forall_fmap. by eapply Forall_impl.
Qed.

Lemma subscriptions_ok_erase sid l : subscriptions_ok l -> subscriptions_ok (erase_sub sid l).
Proof.
  intros (Hlen & [Hn Hid] & Hfl & Hok). pose proof (erase_sub_sublist sid l) as Hsub.
  pose proof (fmap_sublist sub_id _ _ Hsub). pose proof (fmap_sublist sub_filter _ _ Hsub).
  pose proof (zlen_sublist _ _ Hsub). unfold subscriptions_ok, ids_good, sub_ids in *.
  split_and!; [lia | by eapply sublist_NoDup | by eapply Forall_sublist | by eapply sublist_NoDup
    | by eapply Forall_sublist].
Qed.

Lemma rx_ok_0 rx len : rx_ok rx len -> rx_ok rx 0.
Proof. unfold rx_ok. intros (? & ? & ?). split_and!; [done | done | lia | lia]. Qed.

Lemma inbound_ok_nil : inbound_ok [].
Proof.
  pose proof config_facts. unfold inbound_ok, ids_good. change (zlen []) with 0.
  split_and!; [constructor | constructor | lia].
Qed.

Lemma pending_ok_nil : pending_ok [].
Proof. pose proof config_facts. unfold pending_ok. change (zlen []) with 0. split; [lia | constructor]. Qed.

Lemma ids_good_nil : ids_good [].
Proof. split; constructor. Qed.

Lemma ids_good_no_pending l k : ids_good (slot_ids l ++ k) -> ids_good (slot_ids l ++ []).
Proof. rewrite app_nil_r, Permutation_app_comm. apply ids_good_app_r. Qed.

Lemma ids_good_released l : ids_good (slot_ids (release_slot <$> l) ++ []).
Proof. rewrite slot_ids_release. apply ids_good_nil. Qed.
End edits.

(** ** What a call of the public interface, made under a running step, also
    leaves alone: the entries of the subscription table stay where they are,
    and new ones come after them. *)
Definition entry_key (s : Subscription) : Z * list Z := (sub_id s, sub_filter s).
Definition keys (c : Client) : list (Z * list Z) := entry_key <$> subscriptions_ c.

Definition api_frame (c c' : Client) : Prop :=
  frame c c' /\ (in_step_ c = true -> keys c `prefix_of` keys c').

Lemma api_frame_refl c : api_frame c c.
Proof. split; [apply frame_refl | done]. Qed.

Lemma api_frame_trans a b c : api_frame a b -> api_frame b c -> api_frame a c.
Proof.
  intros [Hab Hk] [Hbc Hk']. split; [by eapply frame_trans|].
  intros Hs. destruct Hab as [Hin _]. etrans; [by apply Hk | apply Hk'; congruence].
Qed.

Lemma keys_mark_all c : keys (mark_all_resub c) = keys c.
Proof. unfold keys, mark_all_resub. cbn. by rewrite <- list_fmap_compose. Qed.
End invariant.

#[export] Hint Resolve frame_refl api_frame_refl : core.

Create HintDb client_ok.
#[export] Hint Resolve stream_ok_idle tx_clear_wf outbound_ok_release subscriptions_ok_mark_all
  subscriptions_ok_erase rx_ok_0 inbound_ok_nil pending_ok_nil ids_good_no_pending
  ids_good_released : client_ok.
