(* ===== verification/ClientQueue.v ===== *)
(** * ClientQueue: what queuing a packet does to the client *)
From S2P Require Import Prelude Errors Packet PacketFacts Utf8 Topic Etl Codec CodecFacts TxQueue.
From S2P Require Import Config Transport ClientState ClientTables Effects Client ClientInv.

(** A test of a known error code or state. *)
Ltac wp_known b :=
  let v := eval cbv in b in first [constr_eq v true | constr_eq v false]; change b with v; cbv iota.

Ltac wp_decide b :=
  lazymatch b with
  | Error_eqb _ _ => wp_known b
  | negb (Error_eqb _ _) => wp_known b
  | State_eqb _ _ => wp_known b
  end.

(** [wp_steps] through the client's own straight-line helpers. *)
Ltac wp_client_step :=
  lazymatch goal with
  | |- wp _ (now) _ _ => unfold now; apply wp_with_env
  | |- wp _ (update_slot _ _) _ _ => apply wp_modify
  | |- wp _ (push_pending _) _ _ => apply wp_modify
  | |- wp _ count_backpressure _ _ => apply wp_modify
  | |- wp _ (if ?b then _ else _) _ _ => wp_decide b
  | |- _ => wp_step
  end.

Ltac wp_run := repeat wp_client_step; cbv beta.

(** The same, with a case for each branch of a test. *)
Ltac wp_walk_step :=
  lazymatch goal with
  | |- wp _ now _ _ => unfold now; apply wp_with_env
  | |- wp _ (update_slot _ _) _ _ => apply wp_modify
  | |- wp _ (push_pending _) _ _ => apply wp_modify
  | |- wp _ count_backpressure _ _ => apply wp_modify
  | |- wp _ (if _ then _ else _) _ _ => case_if
  | |- _ => wp_step
  end; cbv beta.

Ltac wp_walk := repeat wp_walk_step.

Section queue.
Context {Cfg : Config} {COK : ConfigOk Cfg} `{WS : WideSizeT} `{BWO : ByteStreamWriterOk}.
Context {E : Type} (N : Prop).
Implicit Types (c : Client) (e : E) (h : list Event).

(** Queuing bytes: all of them at the back, or none. *)
Lemma wp_enqueue bytes Q c e h :
  tx_wf tx_buffer_size (tx_ c) ->
  (forall q, tx_repr tx_buffer_size q (tx_peek (tx_ c) ++ bytes) ->
     zlen (tx_peek (tx_ c)) + zlen bytes <= tx_buffer_size -> Q Ok (mkSys (c <| tx_ := q |>) e h)) ->
  (forall q, tx_repr tx_buffer_size q (tx_peek (tx_ c)) ->
     tx_buffer_size < zlen (tx_peek (tx_ c)) + zlen bytes -> Q TxQueueFull (mkSys (c <| tx_ := q |>) e h)) ->
  wp N (enqueue bytes) Q (mkSys c e h).
Proof.
  intros Hwf Hok Hfull. unfold enqueue. wp_steps.
  pose proof (tx_reserve_repr tx_buffer_size (zlen bytes) (tx_ c) _ (zlen_nonneg bytes)
    (conj Hwf eq_refl)) as (Hq & Hiff & Hroom).
  destruct (tx_reserve _ _ _) as [room q]. cbn [fst snd] in *. wp_steps.
  destruct room; cbn [negb]; wp_steps.
  - apply Hok; [|by apply Hiff]. apply tx_append_repr; [done | done | by apply Hroom].
  - apply Hfull; [done|]. destruct (Z.lt_ge_cases tx_buffer_size (zlen (tx_peek (tx_ c)) + zlen bytes)) as [|Hle];
      [done|]. by apply Hiff in Hle.
Qed.

Lemma packet_size_wire type dup qos retain body :
  vbi_ok (zlen body) -> packet_size (zlen body) = zlen (wire_packet type dup qos retain body).
Proof.
  intros Hb. rewrite zlen_wire_packet by done. unfold packet_size.
  assert (Hv : vbi_size_c (zlen body) = vbi_size (zlen body)).
  { unfold vbi_size_c, vbi_size. destruct (zlen body >? kMaxRemainingLength) eqn:E0; [|done].
    zbool. unfold vbi_ok in Hb. lia. }
  rewrite Hv. pose proof (vbi_size_range _ Hb). unfold vbi_ok, kMaxRemainingLength in Hb.
  apply size_t_small. lia.
Qed.

Lemma packet_size_empty type : packet_size 0 = zlen (empty_packet type).
Proof. apply (packet_size_wire type false AtMostOnce false []). done. Qed.

Lemma packet_size_ack type id : packet_size 2 = zlen (ack_packet type id).
Proof. apply (packet_size_wire type false AtMostOnce false (be16 id)). apply vbi_ok_2. Qed.

(** Queuing a packet encoded in place. *)
Lemma wp_enqueue_sized size enc pkt Q c e h :
  tx_wf tx_buffer_size (tx_ c) -> encodes enc pkt -> size = zlen pkt ->
  (forall q, tx_repr tx_buffer_size q (tx_peek (tx_ c) ++ pkt) ->
     zlen (tx_peek (tx_ c)) + zlen pkt <= tx_buffer_size -> Q Ok (mkSys (c <| tx_ := q |>) e h)) ->
  (forall q r, tx_repr tx_buffer_size q (tx_peek (tx_ c)) -> r = BufferTooSmall \/ r = TxQueueFull ->
     tx_buffer_size < zlen (tx_peek (tx_ c)) + zlen pkt -> Q r (mkSys (c <| tx_ := q |>) e h)) ->
  wp N (enqueue_sized size enc) Q (mkSys c e h).
Proof.
  intros Hwf Henc -> Hok Hfull. unfold enqueue_sized. pose proof (zlen_nonneg (tx_peek (tx_ c))).
  destruct (zlen pkt >? tx_buffer_size) eqn:Eb; zbool.
  { wp_steps. replace c with (c <| tx_ := tx_ c |>) by by destruct c.
    apply Hfull; [by split | by left | lia]. }
  wp_steps. pose proof (tx_reserve_repr tx_buffer_size (zlen pkt) (tx_ c) _ (zlen_nonneg pkt)
    (conj Hwf eq_refl)) as (Hq & Hiff & Hroom).
  destruct (tx_reserve _ _ _) as [room q]. cbn [fst snd] in *. wp_steps.
  destruct room; cbn [negb].
  - destruct (Henc (ztake (zlen pkt) (tx_write_span tx_buffer_size q))) as [Hfit _].
    specialize (Hroom eq_refl). pose proof (zlen_tx_write_span _ q (proj1 Hq)) as Hs.
    pose proof (zlen_nonneg pkt).
    assert (Hl : zlen (ztake (zlen pkt) (tx_write_span tx_buffer_size q)) = zlen pkt)
      by (apply zlen_ztake; lia).
    rewrite Hfit, zdrop_all, app_nil_r by lia. wp_steps.
    apply Hok; [|by apply Hiff]. by apply tx_append_repr.
  - wp_steps. apply Hfull; [done | by right |].
    destruct (Z.lt_ge_cases tx_buffer_size (zlen (tx_peek (tx_ c)) + zlen pkt)) as [|Hle]; [done|].
    by apply Hiff in Hle.
Qed.
End queue.
