(* ===== verification/ClientSpecs.v ===== *)
(** * ClientSpecs: every operation of the client keeps the invariant

    One lemma per operation of [Client], in the order the operations call each
    other. [N] is what is claimed of a run that does not return: the lemmas
    hold for any [N] the callbacks satisfy, so they show at once that the
    operations keep the invariant and that their own loops end. *)
From S2P Require Import Prelude Errors Packet PacketFacts Utf8 Topic Etl Codec CodecFacts TxQueue.
From S2P Require Import Config Transport ClientState ClientTables Effects Client ClientInv.
From S2P Require Import ClientQueue.
#[local] Open Scope client_scope.

(** Open the invariant of a concrete state into its parts. *)
Ltac open_ok H :=
  let Hc := fresh "Hc" in let Hst := fresh "Hst" in
  destruct H as [Hc Hst]; cbn [cl history] in Hc, Hst;
  destruct Hc as [Htx Hrx Hout Hin Hsubs Hpend Hids Hnpid Hnsid Hconn].

(** A state that differs from one that satisfies the invariant in fields the
    invariant does not read, or reads and is given again. *)
Ltac ok_fields :=
  lazymatch goal with
  | |- sys_ok _ => split; [constructor|]; cbn; try assumption; try discriminate; eauto with client_ok
  | |- client_ok _ => constructor; cbn; try assumption; try discriminate; eauto with client_ok
  end.

Ltac frame_fields :=
  lazymatch goal with
  | |- frame _ _ => split; [reflexivity | cbn; intros; split; [reflexivity | (by left) || (by right)]]
  | |- api_frame _ _ => split; [frame_fields | intros; rewrite ?keys_mark_all; try done]
  end.

(** A clean session starts with an empty table. *)
Definition session_of {Cfg : Config} (opts : ConnectOptions) (c : Client) : Client :=
  if opt_clean_session opts then reset_session_state c else c.

Section specs.
Context {Cfg : Config} {COK : ConfigOk Cfg} {CS : ConfigSane Cfg}.
Context `{WS : WideSizeT} `{BWO : ByteStreamWriterOk} `{BRO : ByteStreamReaderOk}.
Context {E : Type} {T : Transport E} {CK : Clock E} {TOK : TransportOk E}.
Context (N : Prop).
Implicit Types (c : Client) (e : E) (h : list Event).

(** The invariant again, and the receive buffer where it was. *)
Definition keeps (c : Client) (s : Sys E) : Prop := sys_ok s /\ frame c (cl s).

Definition is_state (st : State) (s : Sys E) : Prop := state_ (cl s) = st.

(** ** The transmit queue *)
Lemma sys_ok_same_queue c q e h :
  sys_ok (mkSys c e h) -> tx_repr tx_buffer_size q (tx_peek (tx_ c)) ->
  sys_ok (mkSys (c <| tx_ := q |>) e h).
Proof. intros Hok [Hq Hp]. open_ok Hok. ok_fields. cbn. by rewrite Hp. Qed.

Lemma sys_ok_append c q pkt e h :
  sys_ok (mkSys c e h) -> state_ c <> Connecting -> session_packet pkt ->
  tx_repr tx_buffer_size q (tx_peek (tx_ c) ++ pkt) ->
  sys_ok (mkSys (c <| tx_ := q |>) e h).
Proof.
  intros Hok Hs Hpkt [Hq Hp]. open_ok Hok. ok_fields. rewrite Hp. by apply stream_ok_append.
Qed.

(** Only the queue and the time of the last send change. *)
Definition tx_progress (c c' : Client) : Prop :=
  exists q t, c' = c <| tx_ := q |> <| last_sent_ms_ := t |>.

Lemma pump_tx_loop_wp fuel c e h :
  sys_ok (mkSys c e h) -> state_ c <> Connecting -> tx_pending (tx_ c) < Z.of_nat fuel ->
  wp N (pump_tx_loop fuel) (fun _ s' => sys_ok s' /\ tx_progress c (cl s')) (mkSys c e h).
Proof.
  revert c e h; induction fuel as [|fuel IH]; intros c e h Hok Hs Hf.
  { pose proof Hok as Hok'. open_ok Hok'. unfold tx_wf, tx_pending in *. lia. }
  assert (Hrefl : tx_progress c c) by (exists (tx_ c), (last_sent_ms_ c); by destruct c).
  cbn [pump_tx_loop]. wp_run. destruct (tx_empty (tx_ c)) eqn:Ee; [by wp_run|].
  wp_run. pose proof (transport_send_written (tx_peek (tx_ c)) e) as Hw.
  destruct (transport_send _ e) as [[er written] e'] eqn:Es. cbn [fst snd] in *.
  destruct (Error_eqb er WouldBlock); [by wp_run|].
  destruct (negb (Error_eqb er Ok)); [by wp_run|].
  destruct (written =? 0) eqn:Eq0; zbool; [by wp_run|].
  wp_run. pose proof Hok as Hok'. open_ok Hok'.
  pose proof (tx_consume_repr tx_buffer_size written (tx_ c) _ (proj1 Hw) (conj Htx eq_refl)) as [Hq Hp].
  eapply wp_mono; [apply IH|].
  - ok_fields. rewrite sent_since_open_snoc, Hp. by apply stream_ok_send.
  - done.
  - cbn. rewrite <- (zlen_tx_peek _ _ Hq), Hp, zlen_zdrop by lia.
    rewrite (zlen_tx_peek _ _ Htx). lia.
  - cbn. intros _ s' [? (q & t & Hc)]. split; [done|]. exists q, t. by rewrite Hc.
Qed.

Lemma pump_tx_wp c e h :
  sys_ok (mkSys c e h) -> state_ c <> Connecting ->
  wp N pump_tx (fun _ s' => sys_ok s' /\ tx_progress c (cl s')) (mkSys c e h).
Proof.
  intros Hok Hs. unfold pump_tx. wp_run. apply pump_tx_loop_wp; [done | done |].
  open_ok Hok. unfold tx_wf, tx_pending in *. lia.
Qed.

(** Queue one packet of the session. *)
Definition queues c (_ : Error) (s : Sys E) : Prop := sys_ok s /\ exists q, cl s = c <| tx_ := q |>.

Lemma enqueue_wp pkt c e h :
  sys_ok (mkSys c e h) -> state_ c <> Connecting -> session_packet pkt ->
  wp N (enqueue pkt) (queues c) (mkSys c e h).
Proof.
  intros Hok Hs Hp. apply wp_enqueue; [by open_ok Hok|..]; intros q Hq _; (split; [|by exists q]).
  - by eapply sys_ok_append.
  - by apply sys_ok_same_queue.
Qed.

Lemma enqueue_sized_wp size enc pkt c e h :
  sys_ok (mkSys c e h) -> state_ c <> Connecting -> session_packet pkt ->
  encodes enc pkt -> size = zlen pkt ->
  wp N (enqueue_sized size enc) (queues c) (mkSys c e h).
Proof.
  intros Hok Hs Hp He Hsz. eapply wp_enqueue_sized; [by open_ok Hok | done | done |..].
  - intros q Hq _. split; [by eapply sys_ok_append | by exists q].
  - intros q r Hq _ _. split; [by apply sys_ok_same_queue | by exists q].
Qed.

(** ** End of a session *)
Definition api_keeps (c : Client) (s : Sys E) : Prop := sys_ok s /\ api_frame c (cl s).

Section callbacks.
Context (callback : Callback -> M E unit).

(** All callbacks but the one for the end of a session come from a step. *)
Definition cb_when (cb : Callback) (c : Client) : Prop :=
  match cb with CbDisconnect _ _ => True | _ => in_step_ c = true end.

(** A callback may call the client back. *)
Definition cb_ok (cb : Callback) : Prop :=
  forall s, sys_ok s -> cb_when cb (cl s) -> wp N (callback cb) (fun _ => api_keeps (cl s)) s.

Definition disconnect_cb_ok : Prop := forall hd reason, cb_ok (CbDisconnect hd reason).

Lemma call_if_wp hd invoke c s :
  (forall i, cb_ok (invoke i)) -> (forall i, cb_when (invoke i) (cl s)) -> sys_ok s -> api_frame c (cl s) ->
  wp N (call_if callback hd invoke) (fun _ => api_keeps c) s.
Proof.
  intros Hcb Hwhen Hok Hf. unfold call_if. destruct hd as [i|]; [|by wp_run].
  eapply wp_mono; [by apply Hcb|]. intros _ s' [? ?]. split; [done|]. by eapply api_frame_trans.
Qed.

Lemma shutdown_wp reason c e h :
  disconnect_cb_ok -> sys_ok (mkSys c e h) ->
  wp N (shutdown callback reason) (fun r s' => r = reason /\ api_keeps c s') (mkSys c e h).
Proof.
  intros Hcb Hok. unfold shutdown. wp_run.
  assert (Hgo : forall c' e' h', sys_ok (mkSys c' e' h') -> api_frame c c' ->
    wp N (if negb (State_eqb (state_ c) Idle)
          then call_if callback (on_disconnect_ c) (fun i => CbDisconnect i reason) else ret tt)
      (fun _ s' => wp N (ret reason) (fun r s' => r = reason /\ api_keeps c s') s') (mkSys c' e' h')).
  { intros c' e' h' Hok' Hf. eapply wp_mono with (Q := fun _ => api_keeps c); [|intros _ s' Hk; by wp_run].
    destruct (negb _); [apply call_if_wp; [intros i; apply Hcb | done..] | by wp_run]. }
  open_ok Hok. unfold ids_in_use in Hids.
  destruct (clean_session_ c); wp_run; apply Hgo; (ok_fields || frame_fields).
Qed.

Lemma abort_wp c e h :
  disconnect_cb_ok -> sys_ok (mkSys c e h) ->
  wp N (abort callback) (fun _ => api_keeps c) (mkSys c e h).
Proof.
  intros Hcb Hok. unfold abort. wp_run. eapply wp_mono; [by apply shutdown_wp|].
  intros r s' [_ ?]. by wp_run.
Qed.

Lemma disconnect_wp c e h :
  disconnect_cb_ok -> sys_ok (mkSys c e h) ->
  wp N (disconnect callback) (fun _ => api_keeps c) (mkSys c e h).
Proof.
  intros Hcb Hok. unfold disconnect. wp_run.
  assert (Hdown : forall c' e' h', sys_ok (mkSys c' e' h') -> api_frame c c' ->
    wp N (shutdown callback Ok) (fun _ s' => wp N (ret Ok) (fun _ => api_keeps c) s') (mkSys c' e' h')).
  { intros c' e' h' Hok' Hf. eapply wp_mono; [by apply shutdown_wp|].
    intros r s' (_ & ? & ?). wp_run. split; [done | by eapply api_frame_trans]. }
  destruct (state_ c) eqn:Es; wp_run; try (by apply Hdown); [done|].
  eapply wp_enqueue_sized;
    [by open_ok Hok | apply encode_empty_encodes; by right | apply packet_size_empty | |].
  - intros q Hq _. wp_run. apply (sys_ok_append _ q _ _ _ Hok) in Hq;
      [|congruence | apply sp_disconnect]. split; [|frame_fields].
    open_ok Hq. ok_fields. cbn in Hst. by rewrite Es in Hst.
  - intros q r Hq [-> | ->] _; wp_run; (apply Hdown; [by apply sys_ok_same_queue | frame_fields]).
Qed.
End callbacks.

(** ** Connecting *)

(** The client is idle with nothing queued, after the session reset that a
    clean session asks for. *)
Lemma connect_reset_ok c e h (clean : bool) :
  sys_ok (mkSys c e h) -> state_ c = Idle ->
  let c' := c <| tx_ ::= tx_clear |> <| rx_len_ := 0 |> in
  sys_ok (mkSys (if clean then reset_session_state c' else c') e h).
Proof.
  intros Hok Hs. open_ok Hok. unfold ids_in_use in Hids.
  destruct clean; cbv zeta; ok_fields; try (by rewrite Hs); lia.
Qed.

Lemma connect_reset_frame c (clean : bool) :
  let c' := c <| tx_ ::= tx_clear |> <| rx_len_ := 0 |> in
  api_frame c (if clean then reset_session_state c' else c').
Proof.
  destruct clean; cbv zeta; [|frame_fields]. split; [frame_fields|]. intros _.
  unfold reset_session_state. by rewrite keys_mark_all.
Qed.

Lemma connect_wp opts c e h :
  is_u16 (opt_keep_alive_s opts) -> sys_ok (mkSys c e h) ->
  wp N (connect opts) (fun _ => api_keeps c) (mkSys c e h).
Proof.
  intros Hka Hok. unfold connect. wp_run.
  destruct (State_eqb (state_ c) Idle) eqn:Es; cbn [negb]; [apply bool_decide_eq_true in Es | by wp_run].
  do 3 (case_if; [by wp_run|]).
  destruct (will_valid (opt_will opts) && _) eqn:Ew; [by wp_run|].
  destruct (empty (opt_client_id opts) && _) eqn:Ec; [by wp_run|].
  destruct (connect_remaining_length opts) as [rl|er] eqn:Erl; [|by wp_run].
  pose proof (encode_connect_encodes opts rl Hka Erl) as Henc.
  apply connect_remaining_length_Val in Erl as (Hopts & -> & Hvbi).
  pose proof (connect_reset_ok c e h (opt_clean_session opts) Hok Es) as Hok'.
  pose proof (connect_reset_frame c (opt_clean_session opts)) as Hf'. cbv zeta in Hok', Hf'.
  set (c' := if opt_clean_session opts then _ else _) in Hok', Hf'.
  assert (Hreset : tx_peek (tx_ c') = [] /\ rx_len_ c' = 0) by (by subst c'; destruct (opt_clean_session opts)).
  destruct Hreset as [Hpeek Hlen].
  unfold connect_start. wp_run. eapply wp_mono with (Q := fun _ s => s = mkSys c' e h).
  { subst c'. by destruct (opt_clean_session opts); wp_run. }
  intros _ s' ->. clearbody c'. wp_run.
  eapply wp_enqueue_sized; [by open_ok Hok' | done | by apply packet_size_wire | |].
  - intros q [Hq Hp] _. wp_run. rewrite Hpeek in Hp. cbn [app] in Hp. split.
    + open_ok Hok'. ok_fields. exists opts. split; [|done].
      split_and!; try done; [intros Hw; rewrite Hw in Ew; by apply negb_false_iff|].
      intros Hn. rewrite Hn in Ec. by apply negb_false_iff.
    + eapply api_frame_trans; [done|]. frame_fields.
  - intros q r Hq [-> | ->] _; wp_run; (split; [by apply sys_ok_same_queue|]);
      (eapply api_frame_trans; [done | frame_fields]).
Qed.

(** ** Publishing *)
Lemma sys_ok_next_id c e h n :
  sys_ok (mkSys c e h) -> 0 <= n <= 65535 -> sys_ok (mkSys (c <| next_packet_id_ := n |>) e h).
Proof. intros Hok Hn. open_ok Hok. ok_fields. Qed.

(** What writing a PUBLISH into a span does: it fits and is whole, or an
    error comes back. *)
Lemma encode_publish_cases topic payload qos retain id out :
  is_valid_topic_name topic = true -> 0 <= qos -> zlen payload < 2 ^ 63 -> id_ok id ->
  (exists er packet, encode_publish out topic payload qos retain false id = (Err er, packet) /\
     zlen packet = zlen out /\ er <> Ok) \/
  (let pkt := publish_packet false qos retain topic payload id in
   publish_wf false qos topic payload id /\ zlen pkt <= zlen out /\
   encode_publish out topic payload qos retain false id = (Val (zlen pkt), pkt ++ zdrop (zlen pkt) out)).
Proof.
  intros Htopic Hq Hp Hid. unfold id_ok in Hid.
  destruct (publish_remaining_length topic (zlen payload) qos) as [rl|er] eqn:Erl.
  - destruct (encode_publish_encodes topic payload qos retain false id rl Hq
      ltac:(unfold is_u16; lia) Hp ltac:(lia) ltac:(done) Erl out) as [Hfit Hshort].
    apply (publish_remaining_length_Val _ _ _ id) in Erl as ((_ & _ & Hq2) & Hrl & Hvbi); [|done..].
    destruct (Z.le_gt_cases (zlen (publish_packet false qos retain topic payload id)) (zlen out)) as [Hl|Hl].
    + right. split_and!; [|done | by apply Hfit]. split_and!; try done; try lia. by subst rl.
    + left. destruct (Hshort Hl) as [He Hz]. destruct (encode_publish _ _ _ _ _ _ _) as [r packet].
      cbn [fst snd] in *. subst r. by eexists _, _.
  - left. exists er, out. apply publish_remaining_length_Err in Erl as Her. unfold encode_publish. rewrite Erl.
    rewrite (proj2 (Z.eqb_neq id 0)), andb_false_r, andb_false_r by lia.
    split_and!; [done | done | by destruct Her as [-> | ->]].
Qed.

Lemma outbound_alter_alter c f g i :
  c <| outbound_ ::= alter f i |> <| outbound_ ::= alter g i |> = c <| outbound_ ::= alter (g ∘ f) i |>.
Proof. unfold update_field. cbn. by rewrite list_alter_alter_eq. Qed.

Lemma outbound_tx_comm c f q : c <| outbound_ ::= f |> <| tx_ := q |> = c <| tx_ := q |> <| outbound_ ::= f |>.
Proof. done. Qed.

(** An edit of one slot: it stays whole, and keeps or gives up its
    identifier. *)
Lemma sys_ok_edit_slot c e h i f (s : OutboundSlot) :
  sys_ok (mkSys c e h) -> outbound_ c !! i = Some s -> slot_ok (f s) ->
  (i < Z.to_nat max_inflight_out)%nat \/ slot_free (f s) = true ->
  slot_id (f s) = slot_id s \/ slot_id (f s) = [] ->
  sys_ok (mkSys (c <| outbound_ ::= alter f i |>) e h).
Proof.
  intros Hok Hi Hs' Hmax Hid. open_ok Hok. unfold ids_in_use in Hids.
  ok_fields; rewrite (alter_lookup_insert _ _ _ _ Hi).
  - by eapply outbound_ok_insert.
  - by eapply ids_good_insert_slot.
Qed.

(** A free slot is filled with a packet under a fresh identifier. *)
Lemma sys_ok_fill_slot c e h i f (s : OutboundSlot) id :
  sys_ok (mkSys c e h) -> outbound_ c !! i = Some s -> slot_free s = true ->
  (i < Z.to_nat max_inflight_out)%nat ->
  slot_ok (f s) -> slot_id (f s) = [id] -> id_ok id -> id ∉ ids_in_use c ->
  sys_ok (mkSys (c <| outbound_ ::= alter f i |>) e h).
Proof.
  intros Hok Hi Hf Hmax Hs' Hid Hidok Hfresh. open_ok Hok. unfold ids_in_use in *.
  ok_fields; rewrite (alter_lookup_insert _ _ _ _ Hi).
  - eapply outbound_ok_insert; [done | done | done | by left].
  - by eapply ids_good_fill_slot.
Qed.

(** Scribbling into the packet area of a free slot. *)
Lemma sys_ok_scribble c e h i (s : OutboundSlot) packet :
  sys_ok (mkSys c e h) -> outbound_ c !! i = Some s -> slot_free s = true ->
  zlen packet = zlen (slot_packet s) ->
  sys_ok (mkSys (c <| outbound_ ::= alter (fun s => s <| slot_packet := packet |>) i |>) e h).
Proof.
  intros Hok Hi Hf Hl. pose proof Hf as Hf'. unfold slot_free in Hf'. apply bool_decide_eq_true in Hf'.
  eapply sys_ok_edit_slot; [done | done | | by right | left].
  - open_ok Hok. eapply outbound_ok_lookup in Hout as [Hz _]; [|done].
    unfold slot_ok. cbn. rewrite Hf'. by rewrite Hl.
  - unfold slot_id, slot_busy, slot_free. cbn. by rewrite Hf'.
Qed.

(** The slot [publish] fills. *)
Definition filled_slot (packet : list Z) (id len : Z) (qos : QoS) (t : Z) (s : OutboundSlot) : OutboundSlot :=
  mkOutboundSlot packet id (u16 len) t qos (if qos =? AtLeastOnce then WaitPuback else WaitPubrec).

Lemma filled_slot_ok dup qos retain topic payload id out t (s : OutboundSlot) :
  let pkt := publish_packet dup qos retain topic payload id in
  publish_wf dup qos topic payload id -> qos <> AtMostOnce ->
  zlen pkt <= zlen out -> zlen out = kPersistSize ->
  slot_ok (filled_slot (pkt ++ zdrop (zlen pkt) out) id (zlen pkt) qos t s).
Proof.
  intros pkt Hwf Hq Hl Hout. pose proof (zlen_nonneg pkt). unfold slot_ok, filled_slot. cbn [slot_packet slot_phase].
  rewrite zlen_app, zlen_zdrop by lia. split; [lia|].
  assert (Hst : stores_publish qos (filled_slot (pkt ++ zdrop (zlen pkt) out) id (zlen pkt) qos t s)).
  { split; [done|]. exists dup, retain, topic, payload. split; [done|]. unfold stored, filled_slot.
    cbn [slot_packet slot_packet_len slot_packet_id].
    rewrite u16_small; [apply ztake_app_zlen|]. destruct CS.
    unfold is_u16, kPersistSize, at_least_one in *. case_if_in Hout; lia. }
  destruct Hwf as (_ & Hq2 & _). unfold AtMostOnce, AtLeastOnce, ExactlyOnce in *.
  assert (qos = 1 \/ qos = 2) as [-> | ->] by lia; exact Hst.
Qed.

(** What [publish] does to the queue and to the identifiers in use: all of
    it or nothing. *)
Definition publish_post c h topic payload qos retain (res : Error * option Z) (s : Sys E) : Prop :=
  history s = h /\
  match fst res with
  | Ok => exists id, snd res = (if qos =? AtMostOnce then None else Some id) /\
      tx_peek (tx_ (cl s)) = tx_peek (tx_ c) ++ publish_packet false qos retain topic payload id /\
      if qos =? AtMostOnce then ids_in_use (cl s) = ids_in_use c
      else id_ok id /\ id ∉ ids_in_use c /\ ids_in_use (cl s) ≡ₚ id :: ids_in_use c
  | _ => snd res = None /\ tx_peek (tx_ (cl s)) = tx_peek (tx_ c) /\ ids_in_use (cl s) ≡ₚ ids_in_use c
  end.

Lemma publish_post_error c c' e h topic payload qos retain r :
  r <> Ok -> tx_peek (tx_ c') = tx_peek (tx_ c) -> ids_in_use c' ≡ₚ ids_in_use c ->
  publish_post c h topic payload qos retain (r, None) (mkSys c' e h).
Proof. intros Hr Hp Hi. split; [done|]. cbn. by destruct r. Qed.

(** The identifiers in use after an edit of one slot. *)
Lemma ids_in_use_same c i f (s : OutboundSlot) :
  outbound_ c !! i = Some s -> slot_id (f s) = slot_id s ->
  ids_in_use (c <| outbound_ ::= alter f i |>) ≡ₚ ids_in_use c.
Proof.
  intros Hi Hf. unfold ids_in_use. cbn. rewrite (alter_lookup_insert _ _ _ _ Hi).
  destruct (slot_ids_insert (outbound_ c) i s (f s) Hi) as (rest & -> & ->). by rewrite Hf.
Qed.

Lemma ids_in_use_fill c i f (s : OutboundSlot) id :
  outbound_ c !! i = Some s -> slot_id s = [] -> slot_id (f s) = [id] ->
  ids_in_use (c <| outbound_ ::= alter f i |>) ≡ₚ id :: ids_in_use c.
Proof.
  intros Hi Hs Hf. unfold ids_in_use. cbn. rewrite (alter_lookup_insert _ _ _ _ Hi).
  destruct (slot_ids_insert (outbound_ c) i s (f s) Hi) as (rest & -> & ->). by rewrite Hf, Hs.
Qed.

Lemma publish_qos0 topic payload retain c e h rl :
  zlen payload < 2 ^ 63 -> sys_ok (mkSys c e h) -> state_ c <> Connecting ->
  is_valid_topic_name topic = true -> publish_remaining_length topic (zlen payload) AtMostOnce = Val rl ->
  wp N (enqueue_sized (packet_size rl) (fun out => encode_publish out topic payload AtMostOnce retain false 0))
    (fun r s => api_keeps c s /\ publish_post c h topic payload AtMostOnce retain (r, None) s) (mkSys c e h).
Proof.
  intros Hp Hok Hs Ht Erl.
  pose proof (encode_publish_encodes topic payload AtMostOnce retain false 0 rl ltac:(done) ltac:(done) Hp
    ltac:(done) ltac:(done) Erl) as Henc.
  apply (publish_remaining_length_Val _ _ _ 0) in Erl as ((_ & _ & Hq2) & -> & Hvbi); [|done].
  eapply wp_enqueue_sized; [by open_ok Hok | exact Henc | by apply packet_size_wire | |].
  - intros q Hq _. split; [split; [|frame_fields] |].
    + eapply sys_ok_append; [done | done | | exact Hq]. apply sp_publish. by split_and!.
    + split; [done|]. cbn. exists 0. by destruct Hq.
  - intros q r Hq Hr _. split; [split; [by apply sys_ok_same_queue | frame_fields]|].
    destruct Hq. by apply publish_post_error; [destruct Hr as [-> | ->] | |].
Qed.

Lemma slot_at_Some c i s : outbound_ c !! i = Some s -> slot_at c i = s.
Proof. intros Hi. unfold slot_at. by rewrite Hi. Qed.

Lemma publish_slot_wp i s topic payload qos retain id c n e h :
  0 <= qos -> qos <> AtMostOnce -> zlen payload < 2 ^ 63 -> is_valid_topic_name topic = true ->
  sys_ok (mkSys (c <| next_packet_id_ := n |>) e h) -> state_ c <> Connecting ->
  outbound_ c !! i = Some s -> slot_free s = true -> (i < Z.to_nat max_inflight_out)%nat ->
  id_ok id -> id ∉ ids_in_use c ->
  wp N (publish_slot i topic payload qos retain id)
    (fun r s => api_keeps c s /\ publish_post c h topic payload qos retain r s)
    (mkSys (c <| next_packet_id_ := n |>) e h).
Proof.
  intros Hq Hq0 Hp Et Hok Hnc Hs Hfree Hi Hid Hnot. unfold publish_slot. wp_run.
  erewrite slot_at_Some; [|exact Hs].
  assert (Hpers : zlen (slot_packet s) = kPersistSize)
    by (open_ok Hok; by eapply outbound_ok_lookup in Hout as [? _]).
  assert (Hfid : slot_id s = []) by (unfold slot_id, slot_busy; by rewrite Hfree).
  assert (Hscr : forall packet, slot_id (s <| slot_packet := packet |>) = slot_id s)
    by (intros; unfold slot_id, slot_busy, slot_free in *; cbn; by rewrite Hfree).
  destruct (encode_publish_cases topic payload qos retain id (slot_packet s) Et Hq Hp Hid)
    as [(er & packet & -> & Hlen & Her) | (Hwf & Hl & ->)]; wp_run.
  { split; [split; [by eapply sys_ok_scribble | frame_fields]|].
    apply publish_post_error; [by destruct er | done |].
    etrans; [eapply ids_in_use_same; [exact Hs | apply Hscr] | done]. }
  set (pkt := publish_packet false qos retain topic payload id) in *. pose proof (zlen_nonneg pkt).
  rewrite ztake_app_zlen. apply wp_enqueue; [by open_ok Hok|..]; intros q Hrepr _; wp_run.
  - apply (sys_ok_append _ q pkt _ _) in Hok; [|done | by apply sp_publish | done].
    rewrite outbound_tx_comm, !outbound_alter_alter. split; [split; [|frame_fields]|].
    + eapply (sys_ok_fill_slot _ _ _ i _ s id Hok); try done;
        [by apply (filled_slot_ok false qos retain topic payload id (slot_packet s) _ s)|].
      unfold slot_id, slot_busy, slot_free. cbn. by destruct (qos =? AtLeastOnce).
    + split; [done|]. cbn [fst snd]. exists id. rewrite (proj2 (Z.eqb_neq _ _) Hq0).
      split_and!; [done | by destruct Hrepr | exact Hid | done |].
      etrans; [eapply (ids_in_use_fill _ i _ s id); [exact Hs | exact Hfid |] | done].
      unfold slot_id, slot_busy, slot_free. cbn. by destruct (qos =? AtLeastOnce).
  - rewrite outbound_tx_comm. split; [split; [|frame_fields]|].
    + eapply (sys_ok_scribble (c <| next_packet_id_ := n |> <| tx_ := q |>));
        [by apply sys_ok_same_queue | done | done |]. rewrite zlen_app, zlen_zdrop; lia.
    + apply publish_post_error; [done | by destruct Hrepr |].
      etrans; [eapply ids_in_use_same; [exact Hs | apply Hscr] | done].
Qed.

Lemma publish_spec topic payload qos retain c e h :
  0 <= qos -> zlen payload < 2 ^ 63 -> sys_ok (mkSys c e h) ->
  wp N (publish topic payload qos retain)
    (fun r s => api_keeps c s /\ publish_post c h topic payload qos retain r s) (mkSys c e h).
Proof.
  intros Hq Hp Hok. unfold publish. wp_run.
  assert (Hstop : forall r, r <> Ok ->
    api_keeps c (mkSys c e h) /\ publish_post c h topic payload qos retain (r, None) (mkSys c e h))
    by (intros r Hr; split; [done | by apply publish_post_error]).
  destruct (State_eqb (state_ c) Connected) eqn:Es; cbn [negb];
    [apply bool_decide_eq_true in Es | by wp_run; apply Hstop].
  destruct (is_valid_topic_name topic) eqn:Et; cbn [negb]; [|by wp_run; apply Hstop].
  case_if; [by wp_run; apply Hstop|]. destruct (qos =? AtMostOnce) eqn:Eq0; zbool.
  { subst qos. destruct (publish_remaining_length _ _ _) as [rl|er] eqn:Erl; wp_run.
    - eapply wp_mono; [by eapply publish_qos0; [| | congruence | |] |]. intros r s' Hk. by wp_run.
    - apply Hstop. by apply publish_remaining_length_Err in Erl as [-> | ->]. }
  case_if; [by wp_run; apply Hstop|]. destruct (free_outbound_slot c) as [i|] eqn:Ef; [|by wp_run; apply Hstop].
  apply find_index_Some in Ef as (Hi & s & Hs & Hfree).
  pose proof (alloc_packet_id_spec c ltac:(by open_ok Hok; destruct Hout as (_ & _ & ?)) ltac:(by open_ok Hok))
    as (n & Hc & Hn & Hfresh).
  destruct (alloc_packet_id c) as [id c1]. cbn [fst snd] in *. subst c1. wp_run.
  apply (sys_ok_next_id c e h n) in Hok; [|done]. destruct (id =? 0) eqn:Ei; zbool.
  { wp_run. split; [split; [done | frame_fields] | by apply publish_post_error]. }
  destruct (Hfresh Ei) as [Hid Hnot]. eapply publish_slot_wp; try done. congruence.
Qed.

Lemma publish_wp topic payload qos retain c e h :
  0 <= qos -> zlen payload < 2 ^ 63 -> sys_ok (mkSys c e h) ->
  wp N (publish topic payload qos retain) (fun _ => api_keeps c) (mkSys c e h).
Proof. intros. eapply wp_mono; [by apply publish_spec|]. by intros r s' [? _]. Qed.
End specs.
