(* ===== verification/SubscribeSpecs.v ===== *)
(** * SubscribeSpecs: the subscription table and the acknowledgements awaited *)
From stdpp Require Import sets.
From S2P Require Import Prelude Errors Packet PacketFacts Utf8 Topic Etl Codec CodecFacts TxQueue.
From S2P Require Import Config Transport ClientState ClientTables Effects Client ClientInv.
From S2P Require Import ClientQueue ClientSpecs.
#[local] Open Scope client_scope.

Section table.
Context {Cfg : Config} {COK : ConfigOk Cfg} {CS : ConfigSane Cfg}.
Implicit Types (c : Client).

(** A requested filter [subscribe] has validated. *)
Definition request_ok (s : TopicSubscription) : Prop :=
  bytes_ok (ts_filter s) /\ is_valid_filter (ts_filter s) = true /\
  zlen (ts_filter s) <= max_topic_len /\ 0 <= ts_qos s <= 2.

Lemma check_filters_None subs :
  check_filters subs = None ->
  Forall (fun s => is_valid_filter (ts_filter s) = true /\ zlen (ts_filter s) <= max_topic_len) subs.
Proof.
  induction subs as [|s subs IH]; cbn [check_filters]; [constructor|]. intros H.
  case_if_in H; [done|]. case_if_in H; [done|]. zbool. constructor; [done | by apply IH].
Qed.

Lemma check_filters_Some subs r : check_filters subs = Some r -> r <> Ok.
Proof.
  induction subs as [|s subs IH]; cbn [check_filters]; [done|]. intros H.
  case_if_in H; [by injection H as <-|]. case_if_in H; [by injection H as <- | by apply IH].
Qed.

Lemma keys_filters c c' : keys c `prefix_of` keys c' ->
  forall f, f ∈ (sub_filter <$> subscriptions_ c) -> f ∈ (sub_filter <$> subscriptions_ c').
Proof.
  intros [k Hk] f. apply (f_equal (fmap snd)) in Hk. unfold keys in Hk.
  rewrite fmap_app, <- !list_fmap_compose in Hk. change (snd ∘ entry_key) with sub_filter in Hk.
  rewrite Hk, elem_of_app. by left.
Qed.

Lemma find_subscription_mono c c' f :
  keys c `prefix_of` keys c' -> find_subscription f c' = None -> find_subscription f c = None.
Proof.
  intros Hk Hf. destruct (find_subscription f c) as [i|] eqn:Ef; [|done].
  apply find_subscription_None in Hf. apply find_subscription_Some in Ef as (s & Hs & <-).
  exfalso. apply Hf, (keys_filters c c' Hk), list_elem_of_fmap_2. by eapply list_elem_of_lookup_2.
Qed.

Lemma new_entries_mono c c' subs :
  keys c `prefix_of` keys c' -> new_entries subs c' <= new_entries subs c.
Proof.
  intros Hk. unfold new_entries. induction subs as [|s subs IH]; cbn [List.filter]; [done|].
  pose proof (find_subscription_mono c c' (ts_filter s) Hk) as Hm.
  destruct (find_subscription (ts_filter s) c'), (find_subscription (ts_filter s) c);
    rewrite ?zlen_cons; try lia. by specialize (Hm eq_refl).
Qed.

(** What entering filters changes: the table grows at the end, and the
    counter of entry identifiers moves. *)
Definition registered c c' : Prop :=
  (exists l n, c' = c <| subscriptions_ := l |> <| next_sub_id_ := n |>) /\
  subscriptions_ok (subscriptions_ c') /\ 0 <= next_sub_id_ c' <= 65535 /\
  keys c `prefix_of` keys c'.

Lemma registered_trans a b c : registered a b -> registered b c -> registered a c.
Proof.
  intros ((l & n & ->) & _ & _ & Hk) ((l' & n' & ->) & ? & ? & Hk').
  split_and!; [by exists l', n' | done | lia | lia | by etrans].
Qed.

Lemma subscriptions_ok_push l s :
  subscriptions_ok l -> zlen l < max_subscriptions -> id_ok (sub_id s) -> sub_id s ∉ sub_ids l ->
  sub_filter s ∉ (sub_filter <$> l) -> entry_ok s -> subscriptions_ok (l ++ [s]).
Proof.
  intros (Hlen & Hid & Hf & Hok) Hroom Hs Hnew Hfnew He. unfold subscriptions_ok, sub_ids in *.
  rewrite zlen_app, !fmap_app. change (zlen [s]) with 1. split_and!; [lia | | |].
  - rewrite Permutation_app_comm. by apply ids_good_cons.
  - rewrite Permutation_app_comm. by constructor.
  - apply Forall_app. split; [done | by apply list.Forall_singleton].
Qed.

Lemma register_subscription_ok s handler c :
  request_ok s -> subscriptions_ok (subscriptions_ c) -> 0 <= next_sub_id_ c <= 65535 ->
  zlen (subscriptions_ c) + new_entries [s] c <= max_subscriptions ->
  let c' := snd (register_subscription s handler c) in
  registered c c' /\ zlen (subscriptions_ c') = zlen (subscriptions_ c) + new_entries [s] c.
Proof.
  intros (Hb & Hv & Hl & Hq) Hsubs Hn Hroom. unfold new_entries in *. cbn [List.filter] in *.
  unfold register_subscription. destruct (find_subscription (ts_filter s) c) as [i|] eqn:Ef; cbv zeta.
  - apply find_subscription_Some in Ef as (entry & Hi & Hf). change (zlen []) with 0.
    unfold update_subscription. cbn. rewrite zlen_alter. split; [|lia]. split_and!; try done; try (cbn; lia).
    + by exists (alter (fun e => e <| sub_requested_qos := ts_qos s |> <| sub_handler := handler |>
           <| sub_needs_resub := false |>) i (subscriptions_ c)), (next_sub_id_ c).
    + apply subscriptions_ok_alter; [|done]. intros x Hx. split_and!; [done..|].
      unfold entry_ok. cbn. intros (? & ? & ? & ?). done.
    + unfold keys. cbn. by rewrite fmap_alter_same.
  - change (zlen [s]) with 1 in *.
    assert (Hlt : zlen (subscriptions_ c) < 65535) by (destruct CS; lia).
    pose proof (alloc_sub_id_spec c Hn Hlt) as (n & Hc & Hn' & Hid & Hnew).
    destruct (alloc_sub_id c) as [sid c1]. cbn [fst snd] in *. subst c1. cbn.
    rewrite zlen_app. split; [|done]. split_and!; try (cbn; lia).
    + by exists (subscriptions_ c ++ [mkSubscription (ts_filter s) handler sid (ts_qos s) 0 false]), n.
    + cbn. apply subscriptions_ok_push; first [done | lia | by apply find_subscription_None].
    + unfold keys. cbn. rewrite fmap_app. by apply prefix_app_r.
Qed.

Lemma register_subscriptions_ok subs handler c :
  Forall request_ok subs -> subscriptions_ok (subscriptions_ c) -> 0 <= next_sub_id_ c <= 65535 ->
  zlen (subscriptions_ c) + new_entries subs c <= max_subscriptions ->
  let '(sids, c') := register_subscriptions subs handler c in
  registered c c' /\ zlen sids = zlen subs.
Proof.
  revert c; induction subs as [|s subs IH]; intros c Hreq Hsubs Hn Hroom; cbn [register_subscriptions].
  { split; [|done]. split_and!; try done; try lia. exists (subscriptions_ c), (next_sub_id_ c). by destruct c. }
  apply Forall_cons_iff in Hreq as [Hs Hreq].
  assert (Hsplit : new_entries (s :: subs) c = new_entries [s] c + new_entries subs c).
  { unfold new_entries. cbn [List.filter]. destruct (find_subscription _ c); [done|]. by rewrite !zlen_cons. }
  assert (0 <= new_entries subs c) by apply zlen_nonneg.
  pose proof (register_subscription_ok s handler c Hs Hsubs Hn ltac:(lia)) as [Hr Hz].
  destruct (register_subscription s handler c) as [sid c1]. cbn [snd] in *.
  pose proof Hr as (_ & Hsubs1 & Hn1 & Hk1). pose proof (new_entries_mono c c1 subs Hk1).
  specialize (IH c1 Hreq Hsubs1 Hn1 ltac:(lia)).
  destruct (register_subscriptions subs handler c1) as [sids c2]. destruct IH as [Hr2 Hz2].
  split; [by eapply registered_trans | by rewrite !zlen_cons, Hz2].
Qed.

(** The entry [x] is what a request for [subs] with [handler] made it: it has
    that handler, waits for no renewal, and asks for the QoS of a requested
    filter equal to its own. *)
Definition serves (handler : option HandlerId) (subs : list TopicSubscription) (x : Subscription) : Prop :=
  sub_handler x = handler /\ sub_needs_resub x = false /\
  exists s, s ∈ subs /\ ts_filter s = sub_filter x /\ ts_qos s = sub_requested_qos x.

Lemma serves_mono handler subs subs' x : subs ⊆ subs' -> serves handler subs x -> serves handler subs' x.
Proof. intros Hs (? & ? & s & Hin & ?). split_and!; [done | done |]. exists s. split; [by apply Hs | done]. Qed.

(** The table has an entry [sid] for the filter, as the request made it. *)
Definition has_entry (handler : option HandlerId) (subs : list TopicSubscription) (c : Client)
    (sid : Z) (filter : list Z) : Prop :=
  exists x, x ∈ subscriptions_ c /\ sub_id x = sid /\ sub_filter x = filter /\ serves handler subs x.

Lemma alloc_sub_id_subscriptions c : subscriptions_ (snd (alloc_sub_id c)) = subscriptions_ c.
Proof. unfold alloc_sub_id. by destruct (alloc_loop _ _ _). Qed.

Lemma register_subscription_entry s handler c :
  let '(sid, c') := register_subscription s handler c in has_entry handler [s] c' sid (ts_filter s).
Proof.
  unfold register_subscription, has_entry, serves. destruct (find_subscription _ c) as [i|] eqn:Ef; [|destruct (alloc_sub_id c) as [sid c1]].
  - apply find_subscription_Some in Ef as (x & Hx & Hf). rewrite Hx. eexists. split.
    { eapply (list_elem_of_lookup_2 _ i). cbn. rewrite list_lookup_alter_eq, Hx. reflexivity. }
    cbn. split_and!; try done. exists s. split; [by left | done].
  - eexists. split; [cbn; apply elem_of_app; right; by left|]. cbn. split_and!; try done.
    exists s. split; [by left | done].
Qed.

Lemma register_subscription_keeps s handler subs c sid filter :
  has_entry handler subs c sid filter ->
  has_entry handler (s :: subs) (snd (register_subscription s handler c)) sid filter.
Proof.
  intros (x & Hx & Hid & Hf & Hsv). assert (Hsv' : serves handler (s :: subs) x) by (eapply serves_mono; [|exact Hsv]; set_solver).
  unfold register_subscription. destruct (find_subscription _ c) as [i|] eqn:Ef.
  - apply find_subscription_Some in Ef as (y & Hy & Hfy). apply list_elem_of_lookup in Hx as [j Hj].
    destruct (decide (i = j)) as [<-|Hne].
    + rewrite Hy in Hj. injection Hj as ->. eexists. split.
      { eapply (list_elem_of_lookup_2 _ i). cbn. rewrite list_lookup_alter_eq, Hy. reflexivity. }
      cbn. split_and!; try done. split_and!; try done. exists s. split; [by left | done].
    + exists x. split; [|done]. eapply (list_elem_of_lookup_2 _ j). cbn. by rewrite list_lookup_alter_ne.
  - pose proof (alloc_sub_id_subscriptions c) as Hs. destruct (alloc_sub_id c) as [sid' c1]. cbn [snd] in *.
    exists x. split; [cbn; rewrite Hs; apply elem_of_app; by left | done].
Qed.

Lemma register_subscriptions_keep subs handler subs0 c sid filter :
  has_entry handler subs0 c sid filter ->
  has_entry handler (subs0 ++ subs) (snd (register_subscriptions subs handler c)) sid filter.
Proof.
  revert subs0 c; induction subs as [|s subs IH]; intros subs0 c Hx; cbn [register_subscriptions]; [by rewrite app_nil_r|].
  apply (register_subscription_keeps s) in Hx. destruct (register_subscription s handler c) as [sid' c1].
  cbn [snd] in Hx. apply IH in Hx. destruct (register_subscriptions subs handler c1) as [sids c2].
  destruct Hx as (x & ? & ? & ? & Hsv). exists x. split_and!; try done. eapply serves_mono; [|exact Hsv]. set_solver.
Qed.

Lemma register_subscriptions_entries subs handler c :
  let '(sids, c') := register_subscriptions subs handler c in
  Forall2 (fun s sid => has_entry handler subs c' sid (ts_filter s)) subs sids.
Proof.
  revert c; induction subs as [|s subs IH]; intros c; cbn [register_subscriptions]; [constructor|].
  pose proof (register_subscription_entry s handler c) as Hs. destruct (register_subscription s handler c) as [sid c1].
  apply (register_subscriptions_keep subs) in Hs. specialize (IH c1).
  destruct (register_subscriptions subs handler c1) as [sids c2]. constructor; [done|].
  eapply list.Forall2_impl; [exact IH|]. intros s' sid' (x & ? & ? & ? & Hsv). exists x. split_and!; try done.
  eapply serves_mono; [|exact Hsv]. set_solver.
Qed.
End table.

Section specs.
Context {Cfg : Config} {COK : ConfigOk Cfg} {CS : ConfigSane Cfg}.
Context `{WS : WideSizeT} `{BWO : ByteStreamWriterOk} `{BRO : ByteStreamReaderOk}.
Context {E : Type} {T : Transport E} {CK : Clock E} {TOK : TransportOk E}.
Context (N : Prop).
Implicit Types (c : Client) (e : E) (h : list Event).

Lemma sys_ok_registered c c' e h : sys_ok (mkSys c e h) -> registered c c' -> sys_ok (mkSys c' e h).
Proof. intros Hok ((l & n & ->) & Hs & Hn & _). open_ok Hok. ok_fields. Qed.

(** A new exchange under a fresh identifier. *)
Lemma sys_ok_push_pending c e h ack :
  sys_ok (mkSys c e h) -> ack_table_full c = false -> ack_ok ack ->
  id_ok (ack_packet_id ack) -> ack_packet_id ack ∉ ids_in_use c ->
  sys_ok (mkSys (c <| pending_ ::= fun l => l ++ [ack] |>) e h).
Proof.
  unfold ack_table_full, ids_in_use. intros Hok Hroom Hack Hid Hfresh. zbool.
  open_ok Hok. unfold ids_in_use in Hids. ok_fields.
  - destruct Hpend as [? ?]. unfold pending_ok. rewrite zlen_app. change (zlen [ack]) with 1.
    split; [lia|]. apply Forall_app. split; [done | by apply list.Forall_singleton].
  - rewrite fmap_app, app_assoc, Permutation_app_comm. by apply ids_good_cons.
Qed.

(** The state after an identifier was allocated, for the exchange to come. *)
Lemma alloc_packet_id_ok c e h :
  sys_ok (mkSys c e h) ->
  let '(id, c') := alloc_packet_id c in
  sys_ok (mkSys c' e h) /\ (exists n, c' = c <| next_packet_id_ := n |>) /\
  (id <> 0 -> id_ok id /\ id ∉ ids_in_use c').
Proof.
  intros Hok.
  pose proof (alloc_packet_id_spec c ltac:(by open_ok Hok; destruct Hout as (_ & _ & ?)) ltac:(by open_ok Hok))
    as (n & Hc & Hn & Hfresh).
  destruct (alloc_packet_id c) as [id c1]. cbn [fst snd] in *. subst c1.
  split_and!; [by apply sys_ok_next_id | by exists n | done].
Qed.

Lemma subscribe_packet_ok id subs rl :
  id_ok id -> Forall (fun s => 0 <= ts_qos s) subs ->
  Forall (fun s => is_valid_filter (ts_filter s) = true) subs ->
  subscribe_remaining_length subs = Val rl ->
  session_packet (subscribe_packet id subs) /\ Forall sub_ok subs /\
  encodes (fun out => encode_subscribe out id subs) (subscribe_packet id subs) /\
  packet_size rl = zlen (subscribe_packet id subs).
Proof.
  intros Hid Hq Hf Hrl. unfold id_ok in Hid.
  pose proof (encode_subscribe_encodes id subs rl ltac:(unfold is_u16; lia) ltac:(lia) Hq Hrl) as Henc.
  apply (subscribe_remaining_length_Val _ id) in Hrl as (? & ? & -> & ?).
  split_and!; [by constructor | done | done | by apply packet_size_wire].
Qed.

(** The packet of a request [subscribe] has validated. *)
Lemma subscribe_request_ok id subs rl :
  id_ok id -> Forall (fun s => bytes_ok (ts_filter s) /\ 0 <= ts_qos s) subs ->
  Forall (fun s => is_valid_filter (ts_filter s) = true /\ zlen (ts_filter s) <= max_topic_len) subs ->
  subscribe_remaining_length subs = Val rl ->
  session_packet (subscribe_packet id subs) /\ Forall request_ok subs /\
  encodes (fun out => encode_subscribe out id subs) (subscribe_packet id subs) /\
  packet_size rl = zlen (subscribe_packet id subs).
Proof.
  intros Hid Hargs Hv Hrl. destruct (subscribe_packet_ok id subs rl Hid) as (? & Hsub & ? & ?).
  - eapply Forall_impl; [|exact Hargs]. by intros ? [].
  - eapply Forall_impl; [|exact Hv]. by intros ? [].
  - done.
  - split_and!; try done. rewrite !Forall_forall in *. intros s Hs. specialize (Hargs s Hs) as [? ?].
    specialize (Hv s Hs) as [? ?]. specialize (Hsub s Hs) as (_ & _ & ?). by split_and!.
Qed.

(** What a request leaves behind: on success its packet queued behind what was
    waiting and its exchange recorded under a fresh identifier, which is
    reported; on an error neither, and the table as it was. *)
Definition request_post (c : Client) (h : list Event) (expected : PacketType) (packet : Z -> list Z)
    (recorded : list Z -> Client -> Prop) (res : Error * option Z) (s : Sys E) : Prop :=
  history s = h /\
  match fst res with
  | Ok => exists id sids t, snd res = Some id /\ id_ok id /\ id ∉ ids_in_use c /\
      tx_peek (tx_ (cl s)) = tx_peek (tx_ c) ++ packet id /\
      pending_ (cl s) = pending_ c ++ [mkPendingAck sids t id expected] /\ recorded sids (cl s)
  | _ => snd res = None /\ tx_peek (tx_ (cl s)) = tx_peek (tx_ c) /\ pending_ (cl s) = pending_ c /\
      subscriptions_ (cl s) = subscriptions_ c
  end.

Lemma request_fails c h expected packet recorded n e r :
  r <> Ok -> request_post c h expected packet recorded (r, None) (mkSys (c <| next_packet_id_ := n |>) e h).
Proof. intros Hr. split; [done|]. by destruct r. Qed.

Lemma request_refused c h expected packet recorded e r :
  r <> Ok -> request_post c h expected packet recorded (r, None) (mkSys c e h).
Proof. intros Hr. split; [done|]. by destruct r. Qed.

Lemma request_not_queued c h expected packet recorded n q e r :
  r = BufferTooSmall \/ r = TxQueueFull -> tx_peek q = tx_peek (tx_ c) ->
  request_post c h expected packet recorded (r, None) (mkSys (c <| next_packet_id_ := n |> <| tx_ := q |>) e h).
Proof. intros [-> | ->] Hq; split; [done | by rewrite <- Hq | done | by rewrite <- Hq]. Qed.

Definition subscribe_post (subs : list TopicSubscription) (handler : option HandlerId) (c : Client)
    (h : list Event) : Error * option Z -> Sys E -> Prop :=
  request_post c h Suback (fun id => subscribe_packet id subs) (fun sids c' =>
    keys c `prefix_of` keys c' /\
    Forall2 (fun s sid => has_entry handler subs c' sid (ts_filter s)) subs sids).

Lemma subscribe_spec subs handler c e h :
  Forall (fun s => bytes_ok (ts_filter s) /\ 0 <= ts_qos s) subs -> sys_ok (mkSys c e h) ->
  wp N (subscribe subs handler) (fun r s => api_keeps c s /\ subscribe_post subs handler c h r s) (mkSys c e h).
Proof.
  intros Hargs Hok. unfold subscribe, subscribe_post. wp_run.
  assert (Hrefuse : forall r, r <> Ok -> wp N (ret (r, None)) (fun r s =>
    api_keeps c s /\ subscribe_post subs handler c h r s) (mkSys c e h)).
  { intros r Hr. split; [done | by apply request_refused]. }
  destruct (State_eqb (state_ c) Connected) eqn:Es; cbn [negb]; [apply bool_decide_eq_true in Es | by apply Hrefuse].
  case_if; [by apply Hrefuse|]. destruct (check_filters subs) eqn:Ec; [by eapply Hrefuse, check_filters_Some|].
  apply check_filters_None in Ec. destruct (ack_table_full c) eqn:Ea; [by apply Hrefuse|].
  case_if; [by apply Hrefuse|]. destruct (subscribe_remaining_length subs) as [rl|er] eqn:Erl;
    [|apply subscribe_remaining_length_Err in Erl as ->; by apply Hrefuse].
  pose proof (alloc_packet_id_ok c e h Hok) as Halloc.
  destruct (alloc_packet_id c) as [id c1]. destruct Halloc as (Hok1 & [n ->] & Hid). wp_run.
  case_if; [wp_run; split; [split; [done | frame_fields] | by apply request_fails]|]. zbool.
  destruct Hid as [Hid Hfresh]; [lia|].
  destruct (subscribe_request_ok id subs rl Hid Hargs Ec Erl) as (Hpkt & Hreq & Henc & Hsize).
  wp_run. eapply wp_enqueue_sized; [by open_ok Hok1 | done | done | |].
  - intros q Hrepr _. wp_run. cbn [cl].
    apply (sys_ok_append _ q _ _ _ Hok1) in Hrepr as Hok2; [|cbn; congruence | done].
    set (c2 := c <| next_packet_id_ := n |> <| tx_ := q |>) in *.
    pose proof (register_subscriptions_ok subs handler c2 Hreq ltac:(by open_ok Hok2) ltac:(by open_ok Hok2)
      ltac:(assumption)) as Hr.
    pose proof (register_subscriptions_entries subs handler c2) as Hent.
    destruct (register_subscriptions subs handler c2) as [sids c3]. destruct Hr as [Hr Hz]. wp_run.
    pose proof Hr as ((l & m & ->) & _ & _ & Hk).
    apply (sys_ok_registered _ _ (snd (now_ms e)) h) in Hr; [|exact Hok2]. split; [split|].
    + apply sys_ok_push_pending; try done. split; [cbn; lia | by left].
    + split; [frame_fields | done].
    + split; [done|]. exists id, sids, (fst (now_ms e)). split_and!; try done. by destruct Hrepr.
  - intros q r Hrepr Hr _.
    destruct Hr as [-> | ->]; wp_run; (split; [split; [by apply sys_ok_same_queue | frame_fields]|]);
      (apply request_not_queued; [by auto | by destruct Hrepr]).
Qed.

Lemma subscribe_wp subs handler c e h :
  Forall (fun s => bytes_ok (ts_filter s) /\ 0 <= ts_qos s) subs -> sys_ok (mkSys c e h) ->
  wp N (subscribe subs handler) (fun _ => api_keeps c) (mkSys c e h).
Proof. intros. eapply wp_mono; [by apply subscribe_spec|]. by intros r s []. Qed.

(** The entries an UNSUBSCRIBE names. *)
Definition unsubscribe_post (filters : list (list Z)) (c : Client) (h : list Event) :
    Error * option Z -> Sys E -> Prop :=
  request_post c h Unsuback (fun id => unsubscribe_packet id filters) (fun sids c' =>
    subscriptions_ c' = subscriptions_ c /\
    sids = omap (fun f => i ← find_subscription f c; sub_id <$> subscriptions_ c !! i) filters).

Lemma unsubscribe_spec filters c e h :
  sys_ok (mkSys c e h) ->
  wp N (unsubscribe filters) (fun r s => api_keeps c s /\ unsubscribe_post filters c h r s) (mkSys c e h).
Proof.
  intros Hok. unfold unsubscribe. wp_run.
  assert (Hrefuse : forall r, r <> Ok -> wp N (ret (r, None)) (fun r s =>
    api_keeps c s /\ unsubscribe_post filters c h r s) (mkSys c e h)).
  { intros r Hr. split; [done | by apply request_refused]. }
  destruct (State_eqb (state_ c) Connected) eqn:Es; cbn [negb]; [apply bool_decide_eq_true in Es | by apply Hrefuse].
  case_if; [by apply Hrefuse|]. destruct (ack_table_full c) eqn:Ea; [by apply Hrefuse|].
  destruct (unsubscribe_remaining_length filters) as [rl|er] eqn:Erl;
    [|apply unsubscribe_remaining_length_Err in Erl as ->; by apply Hrefuse].
  pose proof (alloc_packet_id_ok c e h Hok) as Halloc.
  destruct (alloc_packet_id c) as [id c1]. destruct Halloc as (Hok1 & [n ->] & Hid). wp_run.
  case_if; [wp_run; split; [split; [done | frame_fields] | by apply request_fails]|]. zbool.
  destruct Hid as [Hid Hfresh]; [lia|]. pose proof Hid as Hid'. unfold id_ok in Hid'.
  pose proof (encode_unsubscribe_encodes id filters rl ltac:(unfold is_u16; lia) ltac:(lia) Erl) as Henc.
  pose proof (unsubscribe_remaining_length_Val _ id _ Erl) as (Hne & Hall & -> & Hvbi).
  wp_run. eapply wp_enqueue_sized; [by open_ok Hok1 | done | by apply packet_size_wire | |].
  - intros q Hrepr _. wp_run.
    apply (sys_ok_append _ q _ _ _ Hok1) in Hrepr as Hok2; [|cbn; congruence | by constructor].
    split; [split; [|frame_fields]|].
    + apply sys_ok_push_pending; try done. split; [|by right]. cbn [ack_subs]. etrans; [apply zlen_omap | done].
    + split; [done|]. eexists id, _, _. split_and!; try done. by destruct Hrepr.
  - intros q r Hrepr Hr _.
    destruct Hr as [-> | ->]; wp_run; (split; [split; [by apply sys_ok_same_queue | frame_fields]|]);
      (apply request_not_queued; [by auto | by destruct Hrepr]).
Qed.

Lemma unsubscribe_wp filters c e h :
  sys_ok (mkSys c e h) -> wp N (unsubscribe filters) (fun _ => api_keeps c) (mkSys c e h).
Proof. intros. eapply wp_mono; [by apply unsubscribe_spec|]. by intros r s []. Qed.

End specs.
