(* ===== verification/ReceiveSpecs.v ===== *)
(** * ReceiveSpecs: handlers of received packets keep the invariant *)
From S2P Require Import Prelude Errors Packet PacketFacts Utf8 Topic Etl Codec CodecFacts TxQueue.
From S2P Require Import Config Transport ClientState ClientTables Effects Client ClientInv.
From S2P Require Import ClientQueue ClientSpecs SubscribeSpecs.
#[local] Open Scope client_scope.

(** ** What a handler is told *)
Definition message_ok (m : Message) : Prop :=
  msg_topic m <> [] /\ field_ok (msg_topic m) /\ bytes_ok (msg_topic m) /\ bytes_ok (msg_payload m) /\
  0 <= msg_qos m <= 2 /\ (msg_qos m = AtMostOnce -> msg_packet_id m = 0 /\ msg_dup m = false) /\
  (msg_qos m <> AtMostOnce -> id_ok (msg_packet_id m)) /\ zlen (msg_payload m) < 2 ^ 63.

Definition code_ok (rc : Z) : Prop := 0 <= rc <= 2 \/ rc = kSubackFailure.

Definition cb_wf (cb : Callback) : Prop :=
  match cb with
  | CbMessage _ m => message_ok m
  | CbConnect _ info => ci_code info = Accepted
  | CbDisconnect _ _ => True
  | CbDelivery _ id => id_ok id
  | CbSuback _ id codes => id_ok id /\ codes <> [] /\ Forall code_ok codes
  end.

Section slots.
Context {Cfg : Config} {COK : ConfigOk Cfg}.

(** A busy slot holds a whole packet that may go out again. *)
Lemma slot_ok_session s :
  slot_ok s -> slot_busy s = true -> id_ok (slot_packet_id s) -> session_packet (stored s).
Proof.
  unfold slot_ok, slot_busy, slot_free. intros [_ Hs] Hb Hid. destruct (slot_phase s); [done|..].
  - destruct Hs as (_ & dup & retain & topic & payload & Hwf & ->). by constructor.
  - destruct Hs as (_ & dup & retain & topic & payload & Hwf & ->). by constructor.
  - rewrite Hs. by constructor.
Qed.

(** Setting DUP turns a stored PUBLISH into the same PUBLISH with DUP set. *)
Lemma dup_byte dup q retain n :
  q = AtLeastOnce \/ q = ExactlyOnce ->
  let b0 := to_byte (mkFixedHeader Publish dup q retain n) in
  Z.land (Z.shiftr b0 4) 0x0F = PacketType_value Publish /\
  u8 (Z.lor b0 0x08) = to_byte (mkFixedHeader Publish true q retain n).
Proof. intros [-> | ->]; by destruct dup, retain. Qed.

Lemma ztake_cons {A} n (x : A) l : 0 < n -> ztake n (x :: l) = x :: ztake (n - 1) l.
Proof.
  intros. unfold ztake. replace (Z.to_nat n) with (S (Z.to_nat (n - 1))) by lia. done.
Qed.

Lemma mark_dup_stored_publish s dup q retain topic payload id :
  q = AtLeastOnce \/ q = ExactlyOnce ->
  stored s = publish_packet dup q retain topic payload id ->
  stored (mark_dup s) = publish_packet true q retain topic payload id.
Proof.
  intros Hq Hs. unfold publish_packet, wire_packet in *. unfold mark_dup, stored in *.
  destruct (dup_byte dup q retain (zlen (publish_body topic payload q id)) Hq) as [Ht Hb].
  destruct (slot_packet_len s =? 0) eqn:El; zbool.
  { rewrite El in Hs. done. }
  destruct (slot_packet s) as [|b0 rest] eqn:Ep.
  { unfold ztake in Hs. by rewrite take_nil in Hs. }
  destruct (Z.le_gt_cases (slot_packet_len s) 0) as [Hneg|Hpos].
  { unfold ztake in Hs. by replace (Z.to_nat (slot_packet_len s)) with 0%nat in Hs by lia. }
  rewrite ztake_cons in Hs by lia. injection Hs as -> Hrest. rewrite Ht, Z.eqb_refl, Hb.
  cbn [update_field slot_packet slot_packet_len]. by rewrite ztake_cons, Hrest by lia.
Qed.

Lemma mark_dup_fields s :
  slot_packet_id (mark_dup s) = slot_packet_id s /\ slot_qos (mark_dup s) = slot_qos s /\
  slot_phase (mark_dup s) = slot_phase s /\ zlen (slot_packet (mark_dup s)) = zlen (slot_packet s).
Proof.
  unfold mark_dup. case_if; [done|]. destruct (slot_packet s) as [|b0 rest] eqn:Ep; [by rewrite Ep|].
  case_if; cbn; [by rewrite !zlen_cons | by rewrite Ep].
Qed.

Lemma mark_dup_pubrel s id : stored s = ack_packet Pubrel id -> stored (mark_dup s) = ack_packet Pubrel id.
Proof.
  intros Hs. unfold mark_dup. case_if; [done|]. destruct (slot_packet s) as [|b0 rest] eqn:Ep; [done|].
  enough (b0 = 98) as -> by done. unfold stored in Hs. rewrite Ep in Hs.
  destruct (Z.le_gt_cases (slot_packet_len s) 0) as [Hneg|Hpos].
  { unfold ztake in Hs. by replace (Z.to_nat (slot_packet_len s)) with 0%nat in Hs by lia. }
  rewrite ztake_cons in Hs by lia. by injection Hs.
Qed.

Lemma publish_wf_dup dup q topic payload id :
  q <> AtMostOnce -> publish_wf dup q topic payload id -> publish_wf true q topic payload id.
Proof. unfold publish_wf. intros Hq (? & ? & ? & ? & ?). split_and!; try lia; auto; done. Qed.

Lemma mark_dup_ok s : slot_ok s -> slot_ok (mark_dup s).
Proof.
  destruct (mark_dup_fields s) as (Hid & Hq & Hph & Hz). unfold slot_ok. rewrite Hph, Hz.
  intros [Hlen Hs]. split; [done|].
  assert (Hpub : forall q, q = AtLeastOnce \/ q = ExactlyOnce -> stores_publish q s -> stores_publish q (mark_dup s)).
  { intros q Hq' (? & dup & retain & topic & payload & Hwf & Hst). unfold stores_publish. rewrite Hid, Hq.
    split; [done|]. exists true, retain, topic, payload.
    split; [eapply publish_wf_dup; [by destruct Hq' as [-> | ->] | done] | by eapply mark_dup_stored_publish]. }
  destruct (slot_phase s); [done | by auto | by auto |]. rewrite Hid. by apply mark_dup_pubrel.
Qed.
End slots.

Section specs.
Context {Cfg : Config} {COK : ConfigOk Cfg} {CS : ConfigSane Cfg}.
Context `{WS : WideSizeT} `{BWO : ByteStreamWriterOk} `{BRO : ByteStreamReaderOk}.
Context {E : Type} {T : Transport E} {CK : Clock E} {TOK : TransportOk E}.
Context (N : Prop) (callback : Callback -> M E unit).
Context (Hcb : forall cb, cb_wf cb -> cb_ok N callback cb).
Implicit Types (c : Client) (e : E) (h : list Event).

Lemma api_keeps_keeps c (s : Sys E) : api_keeps c s -> keeps c s.
Proof. intros [? [? _]]. by split. Qed.

(** Queue an acknowledgement. *)
Lemma send_ack_wp type id c e h :
  is_ack_type type = true -> id_ok id -> sys_ok (mkSys c e h) -> state_ c <> Connecting ->
  wp N (send_ack type id) (queues c) (mkSys c e h).
Proof.
  intros Ht Hid Hok Hs. unfold send_ack. pose proof Hid as Hid'. unfold id_ok in Hid'.
  eapply enqueue_sized_wp; [done | done | by apply (sp_ack type id) | | apply packet_size_ack].
  apply encode_ack_encodes; [done | unfold is_u16; lia | lia].
Qed.

Lemma frame_in_step c c' : frame c c' -> in_step_ c = true -> in_step_ c' = true.
Proof. intros [? _] ?. congruence. Qed.

Lemma cb_when_step cb c : in_step_ c = true -> cb_when cb c.
Proof. by destruct cb. Qed.

Lemma call_if_keeps hd invoke c (s : Sys E) :
  (forall i, cb_wf (invoke i)) -> in_step_ c = true -> sys_ok s -> frame c (cl s) ->
  wp N (call_if callback hd invoke) (fun _ => keeps c) s.
Proof.
  intros Hwf Hin Hok Hf. eapply wp_mono; [apply (call_if_wp N callback hd invoke (cl s) s); [| |done|done]|].
  - intros i. by apply Hcb.
  - intros i. by apply cb_when_step, (frame_in_step c).
  - intros _ s' [? [? _]]. split; [done | by eapply frame_trans].
Qed.

(** ** Dispatching a message *)
Lemma dispatch_loop_wp left_ i m handled c (s : Sys E) :
  message_ok m -> in_step_ c = true -> sys_ok s -> api_frame c (cl s) ->
  wp N (dispatch_loop callback left_ i m handled) (fun _ => api_keeps c) s.
Proof.
  intros Hm Hin. revert i handled s; induction left_ as [|left_ IH]; intros i handled [c' e h] Hok Hf;
    cbn [dispatch_loop]; [by wp_run|].
  wp_run. destruct (subscriptions_ c' !! i) as [sub|]; [|by wp_run].
  destruct (sub_handler sub) as [hd|]; [|by apply IH].
  destruct (topic_matches _ _); [|by apply IH]. wp_run.
  eapply wp_mono; [apply Hcb; [done | done | by apply cb_when_step, (frame_in_step c c' (proj1 Hf))]|].
  intros _ [c2 e2 h2] [Hok2 Hf2]. wp_run.
  assert (api_frame c c2) by (by eapply api_frame_trans).
  case_if; [by wp_run | by apply IH].
Qed.

Lemma dispatch_wp m c (s : Sys E) :
  message_ok m -> in_step_ c = true -> sys_ok s -> frame c (cl s) ->
  wp N (dispatch callback m) (fun _ => keeps c) s.
Proof.
  intros Hm Hin Hok Hf. destruct s as [c' e h]. unfold dispatch. wp_run.
  eapply wp_mono; [apply (dispatch_loop_wp _ _ _ _ c'); [done | by apply (frame_in_step c) | done | done]|].
  intros r [c2 e2 h2] [Hok2 [Hf2 _]]. cbn [cl] in *.
  assert (frame c c2) by (by eapply frame_trans).
  destruct r as [[]|]; wp_run; [done | by apply call_if_keeps | done].
Qed.

(** ** Session establishment *)
Lemma handle_connack_wp body c e h :
  in_step_ c = true -> sys_ok (mkSys c e h) ->
  wp N (handle_connack callback body) (fun _ => keeps c) (mkSys c e h).
Proof.
  intros Hin_step Hok. unfold handle_connack. wp_run.
  destruct (State_eqb (state_ c) AwaitingConnack) eqn:Es; cbn [negb]; [apply bool_decide_eq_true in Es | by wp_run].
  destruct (decode_connack body) as [info|er]; [|by wp_run]. wp_run.
  open_ok Hok. case_if; zbool.
  { wp_run. split; [ok_fields | frame_fields]. }
  apply bool_decide_eq_true in E0.
  rewrite Es in Hst. destruct (negb (ci_session_present info)); wp_run;
    (eapply wp_mono with (Q := fun _ => keeps c);
      [apply call_if_keeps; [done | done | ok_fields | frame_fields] | intros ? s' Hk; by wp_run]).
Qed.

(** ** Inbound messages *)
Lemma sys_ok_inbound c e h id :
  sys_ok (mkSys c e h) -> inbound_contains id c = false -> inbound_table_full c = false -> id_ok id ->
  sys_ok (mkSys (c <| inbound_ids_ ::= fun l => l ++ [id] |>) e h).
Proof.
  unfold inbound_contains, inbound_table_full. intros Hok Hnew Hroom Hid. open_ok Hok. zbool. ok_fields.
  destruct Hin as [Hg Hl]. unfold inbound_ok. rewrite zlen_app. change (zlen [id]) with 1. split; [|lia].
  rewrite Permutation_app_comm. apply ids_good_cons; [done | | done].
  intros Hel. apply list_elem_of_In in Hel. rewrite <- not_true_iff_false in Hnew. apply Hnew, existsb_exists.
  exists id. by rewrite Z.eqb_refl.
Qed.

Lemma remove_first_sublist id l : remove_first id l `sublist_of` l.
Proof.
  induction l as [|v l IH]; cbn [remove_first]; [done|].
  case_if; [by apply sublist_cons | by apply sublist_skip].
Qed.

Lemma inbound_ok_remove id l : inbound_ok l -> inbound_ok (remove_first id l).
Proof.
  intros [[? ?] ?]. pose proof (remove_first_sublist id l) as Hs. pose proof (zlen_sublist _ _ Hs).
  split; [split; [by eapply sublist_NoDup | by eapply Forall_sublist] | lia].
Qed.

Lemma decode_publish_message (h : FixedHeader) body m :
  bytes_ok body -> 0 <= fh_qos h <= 2 -> zlen body < 2 ^ 63 -> decode_publish h body = Val m -> message_ok m.
Proof.
  intros Hb Hq Hl Hd. apply decode_publish_sound in Hd as
    (Hbody & Hne & Hf & Hqos & _ & Hdup & Hid & H0' & H1'); [|done].
  assert (Hparts : bytes_ok (msg_topic m) /\ bytes_ok (msg_payload m) /\ zlen (msg_payload m) <= zlen body).
  { rewrite Hbody in *. unfold publish_body, wire_string in *. rewrite !bytes_ok_app in Hb. rewrite !zlen_app.
    pose proof (zlen_nonneg (msg_topic m)). pose proof (zlen_nonneg (be16 (zlen (msg_topic m)))).
    pose proof (zlen_nonneg (wire_opt (negb (fh_qos h =? AtMostOnce)) (be16 (msg_packet_id m)))).
    destruct Hb as ((_ & ?) & _ & ?). split_and!; [done | done | lia]. }
  destruct Hparts as (? & ? & ?). unfold message_ok, id_ok, is_u16 in *. rewrite Hqos, Hdup.
  split_and!; try done; try lia. intros Hz. by apply H0' in Hz as [? ?].
Qed.

Lemma dispatch_keeps m c (s : Sys E) :
  message_ok m -> in_step_ c = true -> sys_ok s -> frame c (cl s) ->
  wp N (dispatch callback m) (fun _ s' => wp N (ret Ok) (fun _ => keeps c) s') s.
Proof. intros. eapply wp_mono; [by apply dispatch_wp|]. intros ? s' Hk. by wp_run. Qed.

Lemma handle_publish_wp (h : FixedHeader) body c e hist :
  bytes_ok body -> 0 <= fh_qos h <= 2 -> zlen body < 2 ^ 63 ->
  in_step_ c = true -> sys_ok (mkSys c e hist) ->
  wp N (handle_publish callback h body) (fun _ => keeps c) (mkSys c e hist).
Proof.
  intros Hb Hq Hl Hin_step Hok. unfold handle_publish. wp_run.
  destruct (State_eqb (state_ c) Connected) eqn:Es; cbn [negb]; [apply bool_decide_eq_true in Es | by wp_run].
  destruct (decode_publish h body) as [m|er] eqn:Ed; [|by wp_run].
  pose proof (decode_publish_message h body m Hb Hq Hl Ed) as Hm.
  assert (Hid : msg_qos m <> AtMostOnce -> id_ok (msg_packet_id m)) by apply Hm.
  assert (Hack : forall type, is_ack_type type = true -> msg_qos m <> AtMostOnce ->
    wp N (send_ack type (msg_packet_id m)) (queues c) (mkSys c e hist)).
  { intros type Ht Hne. apply send_ack_wp; [done | by apply Hid | done | congruence]. }
  destruct (msg_qos m =? AtMostOnce) eqn:Eq0; zbool; [wp_run; by apply dispatch_keeps|].
  destruct (msg_qos m =? AtLeastOnce) eqn:Eq1; zbool.
  { wp_run. eapply wp_mono; [by apply Hack|]. intros r [c' e' h'] [Hok' [q Hc]]. cbn [cl] in Hc. subst c'.
    destruct (negb (Error_eqb r Ok)); wp_run; [|apply dispatch_keeps; [done | done | done | frame_fields]].
    split; [|frame_fields]. open_ok Hok'. ok_fields. }
  destruct (msg_qos m =? ExactlyOnce) eqn:Eq2; zbool; [|by wp_run].
  destruct (inbound_contains _ c) eqn:Ein.
  { wp_run. eapply wp_mono; [by apply Hack|]. intros r [c' e' h'] [Hok' [q Hc]]. cbn [cl] in Hc. subst c'.
    destruct (negb (Error_eqb r Ok)); wp_run; (split; [|frame_fields]); [|done]. open_ok Hok'. ok_fields. }
  destruct (inbound_table_full c) eqn:Efull.
  { wp_run. split; [|frame_fields]. open_ok Hok. ok_fields. }
  wp_run. eapply wp_mono; [by apply Hack|]. intros r [c' e' h'] [Hok' [q Hc]]. cbn [cl] in Hc. subst c'.
  destruct (negb (Error_eqb r Ok)); wp_run.
  { split; [|frame_fields]. open_ok Hok'. ok_fields. }
  apply dispatch_keeps; [done | done | | frame_fields]. apply sys_ok_inbound; [done | done | done | by apply Hid].
Qed.

(** ** Outbound exchanges *)
Lemma find_outbound_Some id c i :
  find_outbound id c = Some i ->
  exists s, outbound_ c !! i = Some s /\ slot_at c i = s /\ slot_busy s = true /\
    slot_packet_id s = id /\ (i < Z.to_nat max_inflight_out)%nat.
Proof.
  intros Hf. apply find_index_Some in Hf as (Hi & s & Hs & Hh). unfold slot_holds in Hh. zbool.
  exists s. split_and!; try done; [unfold slot_at; by rewrite Hs|].
  unfold slot_busy, slot_free. by apply negb_true_iff.
Qed.

Lemma slot_id_ok c i s :
  ids_good (ids_in_use c) -> outbound_ c !! i = Some s -> slot_busy s = true -> id_ok (slot_packet_id s).
Proof.
  intros [_ Hall] Hi Hb. rewrite Forall_forall in Hall. apply Hall. unfold ids_in_use.
  apply list_elem_of_In, elem_of_app. left. apply elem_of_slot_ids. by exists i, s.
Qed.

Lemma sys_ok_backpressure c e h :
  sys_ok (mkSys c e h) -> sys_ok (mkSys (c <| tx_backpressure_count_ ::= fun n => u32 (n + 1) |>) e h).
Proof. intros Hok. open_ok Hok. ok_fields. Qed.

Lemma sys_ok_touch_slot c e h i s t :
  sys_ok (mkSys c e h) -> outbound_ c !! i = Some s ->
  (i < Z.to_nat max_inflight_out)%nat ->
  sys_ok (mkSys (c <| outbound_ ::= alter (fun s => s <| slot_last_sent_ms := t |>) i |>) e h).
Proof.
  intros Hok Hi Hmax. eapply sys_ok_edit_slot; [done | done | | by left | by left].
  open_ok Hok. by apply (outbound_ok_lookup _ _ _ Hout Hi).
Qed.

Lemma complete_delivery_wp wait body c e h :
  bytes_ok body -> in_step_ c = true -> sys_ok (mkSys c e h) ->
  wp N (complete_delivery callback wait body) (fun _ => keeps c) (mkSys c e h).
Proof.
  intros Hb Hin_step Hok. unfold complete_delivery. destruct (decode_packet_id body) as [id|er] eqn:Ed; [|by wp_run].
  apply decode_packet_id_sound in Ed as (_ & Hid & Hne); [|done]. wp_run.
  destruct (find_outbound id c) as [i|] eqn:Ef; [|by wp_run].
  apply find_outbound_Some in Ef as (s & Hs & -> & Hbusy & Hsid & Hmax).
  case_if; [by wp_run|]. wp_run.
  eapply wp_mono with (Q := fun _ => keeps c); [|intros ? s' Hk; by wp_run].
  apply call_if_keeps; [intros hd; cbn; unfold id_ok, is_u16 in *; lia | done | | frame_fields].
  eapply sys_ok_edit_slot; [done | done | | by right | by right].
  apply release_slot_ok. open_ok Hok. by eapply outbound_ok_lookup.
Qed.

Lemma resend_slot_wp i c e h s :
  sys_ok (mkSys c e h) -> state_ c <> Connecting -> outbound_ c !! i = Some s ->
  slot_busy s = true -> (i < Z.to_nat max_inflight_out)%nat ->
  wp N (resend_slot i) (fun _ => keeps c) (mkSys c e h).
Proof.
  intros Hok Hst Hi Hb Hmax. unfold resend_slot. wp_run. rewrite (slot_at_Some _ _ _ Hi).
  assert (Hpkt : session_packet (stored s)).
  { open_ok Hok. apply slot_ok_session; [by eapply outbound_ok_lookup | done | by eapply slot_id_ok]. }
  eapply wp_mono; [by apply enqueue_wp|]. intros r [c' e' h'] [Hok' [q Hc]]. cbn [cl] in Hc. subst c'.
  destruct (Error_eqb r Ok); wp_run; (split; [|frame_fields]).
  - by eapply (sys_ok_touch_slot (c <| tx_ := q |>)).
  - by apply sys_ok_backpressure.
Qed.

Lemma keeps_trans c c' (s : Sys E) : frame c c' -> keeps c' s -> keeps c s.
Proof. intros Hf [? ?]. split; [done | by eapply frame_trans]. Qed.

(** The slot after PUBREC: the PUBREL in place of the PUBLISH. *)
Definition pubrel_slot (packet : list Z) (n : Z) (s : OutboundSlot) : OutboundSlot :=
  s <| slot_packet := packet |> <| slot_packet_len := u16 n |> <| slot_phase := WaitPubcomp |>.

Lemma zlen_ack_packet type id : zlen (ack_packet type id) = 4.
Proof. unfold ack_packet. rewrite zlen_wire_packet by apply vbi_ok_2. done. Qed.

Lemma pubrel_slot_ok s id :
  slot_ok s -> slot_packet_id s = id -> 4 <= kPersistSize ->
  slot_ok (pubrel_slot (ack_packet Pubrel id ++ zdrop 4 (slot_packet s)) 4 s).
Proof.
  intros [Hz _] Hid Hroom. unfold slot_ok, pubrel_slot, stored. cbn [update_field slot_packet slot_phase slot_packet_len slot_packet_id].
  rewrite zlen_app, zlen_ack_packet, zlen_zdrop by lia. split; [lia|].
  rewrite u16_small by (unfold is_u16; lia). rewrite <- (zlen_ack_packet Pubrel id), ztake_app_zlen.
  by rewrite Hid.
Qed.

Lemma persist_room (i : nat) : (i < Z.to_nat max_inflight_out)%nat -> 8 <= kPersistSize.
Proof. intros Hi. pose proof config_facts. unfold kPersistSize, at_least_one. case_if; zbool; lia. Qed.

Lemma handle_pubrec_wp body c e h :
  bytes_ok body -> sys_ok (mkSys c e h) -> state_ c <> Connecting ->
  wp N (handle_pubrec body) (fun _ => keeps c) (mkSys c e h).
Proof.
  intros Hb Hok Hst. unfold handle_pubrec. destruct (decode_packet_id body) as [id|er] eqn:Ed; [|by wp_run].
  apply decode_packet_id_sound in Ed as (_ & Hid & Hne); [|done]. wp_run.
  destruct (find_outbound id c) as [i|] eqn:Ef; [|by wp_run].
  apply find_outbound_Some in Ef as (s & Hs & -> & Hbusy & Hsid & Hmax).
  assert (Hresend : forall c' s', sys_ok (mkSys c' e h) -> frame c c' -> state_ c' = state_ c ->
    outbound_ c' !! i = Some s' -> slot_busy s' = true ->
    wp N (resend_slot i) (fun _ s'' => wp N (ret Ok) (fun _ => keeps c) s'') (mkSys c' e h)).
  { intros c' s' Hok' Hf Hst' Hs' Hb'.
    eapply wp_mono; [eapply resend_slot_wp; [done | congruence | done | done | done]|].
    intros ? s'' Hk. wp_run. by eapply keeps_trans. }
  destruct (slot_phase s) eqn:Eph; [by wp_run | by wp_run | | wp_run; by eapply Hresend].
  assert (Hok_slot : slot_ok s) by (open_ok Hok; by eapply outbound_ok_lookup).
  pose proof (persist_room i Hmax) as Hroom.
  destruct (encode_ack_encodes Pubrel id eq_refl Hid Hne (slot_packet s)) as [Henc _].
  change (wire_packet Pubrel false AtMostOnce false (be16 id)) with (ack_packet Pubrel id) in Henc.
  rewrite zlen_ack_packet in Henc. destruct Hok_slot as [Hz Hph]. rewrite Henc by lia.
  wp_run. rewrite !outbound_alter_alter.
  eapply (Hresend _ (pubrel_slot (ack_packet Pubrel id ++ zdrop 4 (slot_packet s)) 4 s));
    [| frame_fields | done | cbn; by rewrite list_lookup_alter_eq, Hs | done].
  eapply sys_ok_edit_slot; [done | done | | by left | left].
  - by apply pubrel_slot_ok; [| |lia].
  - unfold slot_id in *. by rewrite Hbusy.
Qed.

Lemma handle_pubrel_wp body c e h :
  bytes_ok body -> sys_ok (mkSys c e h) -> state_ c <> Connecting ->
  wp N (handle_pubrel body) (fun _ => keeps c) (mkSys c e h).
Proof.
  intros Hb Hok Hst. unfold handle_pubrel. destruct (decode_packet_id body) as [id|er] eqn:Ed; [|by wp_run].
  apply decode_packet_id_sound in Ed as (_ & Hid & Hne); [|done]. wp_run.
  eapply wp_mono; [apply send_ack_wp; [done | unfold id_ok, is_u16 in *; lia | done | done]|].
  intros r [c' e' h'] [Hok' [q Hc]]. cbn [cl] in Hc. subst c'.
  destruct (negb (Error_eqb r Ok)); wp_run; (split; [|frame_fields]).
  - by apply sys_ok_backpressure.
  - open_ok Hok'. ok_fields. by apply inbound_ok_remove.
Qed.

(** ** Subscription acknowledgements *)
Definition subs_edit c c' : Prop :=
  exists l, c' = c <| subscriptions_ := l |> /\ (subscriptions_ok (subscriptions_ c) -> subscriptions_ok l).

Lemma subs_edit_refl c : subs_edit c c.
Proof. exists (subscriptions_ c). split; [by destruct c | done]. Qed.

Lemma subs_edit_trans a b c : subs_edit a b -> subs_edit b c -> subs_edit a c.
Proof. intros (l & -> & Hl) (l' & -> & Hl'). exists l'. split; [done|]. intros H'. by apply Hl', Hl. Qed.

Lemma subs_edit_erase sid c : subs_edit c (erase_subscription sid c).
Proof. exists (erase_sub sid (subscriptions_ c)). split; [done | apply subscriptions_ok_erase]. Qed.

Lemma subs_edit_update i f c :
  (forall s, sub_id (f s) = sub_id s /\ sub_filter (f s) = sub_filter s /\ (entry_ok s -> entry_ok (f s))) ->
  subs_edit c (update_subscription i f c).
Proof.
  intros Hf. exists (alter f i (subscriptions_ c)). split; [done|].
  apply subscriptions_ok_alter. intros s _. apply Hf.
Qed.

Lemma apply_return_codes_edit codes sids c : subs_edit c (apply_return_codes codes sids c).
Proof.
  revert sids c; induction codes as [|rc codes IH]; intros [|sid sids] c; cbn [apply_return_codes];
    try apply subs_edit_refl.
  eapply subs_edit_trans; [|apply IH]. case_if; [apply subs_edit_erase|].
  destruct (find_by_sub_id sid c); [by apply subs_edit_update | apply subs_edit_refl].
Qed.

Lemma erase_subscriptions_edit sids c : subs_edit c (erase_subscriptions sids c).
Proof.
  revert c; induction sids as [|sid sids IH]; intros c; cbn [erase_subscriptions]; [apply subs_edit_refl|].
  eapply subs_edit_trans; [apply subs_edit_erase | apply IH].
Qed.

Lemma sys_ok_subs_edit c c' e h : sys_ok (mkSys c e h) -> subs_edit c c' -> sys_ok (mkSys c' e h).
Proof. intros Hok (l & -> & Hl). open_ok Hok. ok_fields. Qed.

Lemma delete_sublist {A} i (l : list A) : take i l ++ drop (S i) l `sublist_of` l.
Proof.
  rewrite <- (take_drop i l) at 3. apply sublist_app; [done|].
  replace (S i) with (i + 1)%nat by lia. rewrite <- drop_drop. apply sublist_drop.
Qed.

Lemma sys_ok_remove_pending i c e h : sys_ok (mkSys c e h) -> sys_ok (mkSys (remove_pending i c) e h).
Proof.
  intros Hok. open_ok Hok. pose proof (delete_sublist i (pending_ c)) as Hs. unfold ids_in_use in Hids.
  ok_fields.
  - destruct Hpend. pose proof (zlen_sublist _ _ Hs). split; [lia | by eapply Forall_sublist].
  - destruct Hids as [Hn Ha]. apply (fmap_sublist ack_packet_id) in Hs.
    assert (Hs' : slot_ids (outbound_ c) ++ (ack_packet_id <$> take i (pending_ c) ++ drop (S i) (pending_ c))
      `sublist_of` slot_ids (outbound_ c) ++ (ack_packet_id <$> pending_ c)) by (by apply sublist_app).
    split; [by eapply sublist_NoDup | by eapply Forall_sublist].
Qed.

Lemma handle_suback_wp body c e h :
  bytes_ok body -> in_step_ c = true -> sys_ok (mkSys c e h) ->
  wp N (handle_suback callback body) (fun _ => keeps c) (mkSys c e h).
Proof.
  intros Hb Hin_step Hok. unfold handle_suback. destruct (decode_suback body) as [v|er] eqn:Ed; [|by wp_run].
  apply decode_suback_sound in Ed as (_ & Hid & Hne & Hcodes & Hall); [|done]. wp_run.
  destruct (find_pending _ _ c) as [i|]; [|by wp_run]. case_if; [by wp_run|]. wp_run.
  set (c' := apply_return_codes _ _ c). pose proof (apply_return_codes_edit _ _ c : subs_edit c c') as Hed.
  eapply wp_mono with (Q := fun _ => keeps c); [|intros ? s' Hk; by wp_run].
  apply call_if_keeps.
  - intros hd. cbn. split_and!; [unfold id_ok, is_u16 in *; lia.. | done | done].
  - done.
  - apply sys_ok_remove_pending. by eapply sys_ok_subs_edit.
  - destruct Hed as (l & -> & _). frame_fields.
Qed.

Lemma handle_unsuback_wp body c e h :
  sys_ok (mkSys c e h) -> wp N (handle_unsuback body) (fun _ => keeps c) (mkSys c e h).
Proof.
  intros Hok. unfold handle_unsuback. destruct (decode_packet_id body) as [id|er] eqn:Ed; [|by wp_run]. wp_run.
  destruct (find_pending _ _ c) as [i|]; [|by wp_run]. wp_run.
  pose proof (erase_subscriptions_edit (ack_subs (ack_at c i)) c) as Hed. split.
  - apply sys_ok_remove_pending. by eapply sys_ok_subs_edit.
  - destruct Hed as (l & -> & _). frame_fields.
Qed.

Lemma handle_packet_wp (h : FixedHeader) body c e hist :
  bytes_ok body -> 0 <= fh_qos h <= 2 -> zlen body < 2 ^ 63 ->
  in_step_ c = true -> sys_ok (mkSys c e hist) -> state_ c <> Connecting ->
  wp N (handle_packet callback h body) (fun _ => keeps c) (mkSys c e hist).
Proof.
  intros Hb Hq Hl Hin_step Hok Hst. unfold handle_packet. destruct (fh_type h); try by wp_run.
  - by apply handle_connack_wp.
  - by apply handle_publish_wp.
  - by apply complete_delivery_wp.
  - by apply handle_pubrec_wp.
  - by apply handle_pubrel_wp.
  - by apply complete_delivery_wp.
  - by apply handle_suback_wp.
  - by apply handle_unsuback_wp.
  - destruct (negb (empty body)); wp_run; [done|]. split; [|frame_fields]. open_ok Hok. ok_fields.
Qed.
End specs.
