(* ===== verification/SessionSpecs.v ===== *)
(** * SessionSpecs: sending stored packets again *)
From S2P Require Import Prelude Errors Packet PacketFacts Utf8 Topic Etl Codec CodecFacts TxQueue.
From S2P Require Import Config Transport ClientState ClientTables Effects Client.
From S2P Require Import ClientInv ClientQueue ClientSpecs ReceiveSpecs.
#[local] Open Scope client_scope.

Section specs.
Context {Cfg : Config} {COK : ConfigOk Cfg} {CS : ConfigSane Cfg}.
Context `{WS : WideSizeT} `{BWO : ByteStreamWriterOk} `{BRO : ByteStreamReaderOk}.
Context {E : Type} {T : Transport E} {CK : Clock E} {TOK : TransportOk E}.
Implicit Types (c : Client) (e : E) (h : list Event).

(** Two slots that hold the same packet of the same exchange; the timers may
    differ. *)
Definition same_exchange (s s' : OutboundSlot) : Prop :=
  slot_phase s' = slot_phase s /\ slot_packet_id s' = slot_packet_id s /\ stored s' = stored s.

Lemma resend_slot_post i s c e h :
  tx_wf tx_buffer_size (tx_ c) -> outbound_ c !! i = Some s ->
  wp False (resend_slot i) (fun _ s' =>
    history s' = h /\ ids_in_use (cl s') ≡ₚ ids_in_use c /\
    (exists slot, outbound_ (cl s') !! i = Some slot /\ same_exchange s slot) /\
    tx_peek (tx_ (cl s')) = tx_peek (tx_ c) ++
      (if zlen (tx_peek (tx_ c)) + zlen (stored s) <=? tx_buffer_size then stored s else [])) (mkSys c e h).
Proof.
  intros Htx Hs. unfold resend_slot. wp_run. rewrite (slot_at_Some _ _ _ Hs). fold (stored s).
  apply wp_enqueue; [done|..]; intros q [_ Hq] Hfit; wp_run; cbn; rewrite Hq.
  - rewrite (proj2 (Z.leb_le _ _) Hfit). split_and!; [done | | | done].
    + etrans; [eapply (ids_in_use_same _ i); [exact Hs | done] | done].
    + rewrite list_lookup_alter_eq, Hs. by eexists.
  - rewrite (proj2 (Z.leb_gt _ _) Hfit), app_nil_r. split_and!; [done | done | by exists s | done].
Qed.

(** What a slot contributes to a retransmission. *)
Definition resend (s : OutboundSlot) : list Z := if slot_busy s then stored (mark_dup s) else [].

(** What it should be: nothing from a free slot, the PUBLISH that was stored
    with the DUP flag set, or the PUBREL. *)
Definition resend_of (s : OutboundSlot) (pkt : list Z) : Prop :=
  match slot_phase s with
  | Free => pkt = []
  | WaitPubcomp => pkt = ack_packet Pubrel (slot_packet_id s)
  | _ => exists dup retain topic payload,
      stored s = publish_packet dup (slot_qos s) retain topic payload (slot_packet_id s) /\
      pkt = publish_packet true (slot_qos s) retain topic payload (slot_packet_id s)
  end.

Lemma resend_ok s : slot_ok s -> resend_of s (resend s).
Proof.
  intros [_ Hs]. unfold resend_of, resend, slot_busy, slot_free.
  destruct (slot_phase s); cbn; [done | | | by apply mark_dup_pubrel];
    destruct Hs as [-> (dup & retain & topic & payload & Hwf & Hs)]; exists dup, retain, topic, payload;
    (split; [done|]); (eapply mark_dup_stored_publish; [|exact Hs]; by auto).
Qed.

(** The retransmission of the slots [i .. i + n - 1], in order. *)
Definition resends (c : Client) (i n : nat) : list Z := concat ((fun j => resend (slot_at c j)) <$> seq i n).

Lemma resends_later c c' i n :
  (forall j, j <> i -> outbound_ c' !! j = outbound_ c !! j) -> resends c' (S i) n = resends c (S i) n.
Proof.
  intros Hsame. unfold resends. f_equal. apply list_fmap_ext. intros k j Hj. apply lookup_seq in Hj as [-> _].
  unfold slot_at. by rewrite Hsame by lia.
Qed.

(** The table after the slots [i .. i + n - 1] were sent again at [t]. *)
Definition resent (t : Z) (s : OutboundSlot) : OutboundSlot :=
  if slot_busy s then (mark_dup s) <| slot_last_sent_ms := t |> else s.

Definition resent_from (t : Z) (i n : nat) (l : list OutboundSlot) : list OutboundSlot :=
  imap (fun j s => if bool_decide (i <= j < i + n)%nat then resent t s else s) l.

Lemma resent_from_0 t i l : resent_from t i 0 l = l.
Proof.
  apply list_eq. intros j. unfold resent_from. rewrite list_lookup_imap. destruct (l !! j); [|done]. cbn.
  by rewrite bool_decide_false by lia.
Qed.

Lemma resent_from_S t i n l : resent_from t i (S n) l = resent_from t (S i) n (alter (resent t) i l).
Proof.
  apply list_eq. intros j. unfold resent_from. rewrite !list_lookup_imap. destruct (decide (j = i)) as [->|Hne].
  - rewrite list_lookup_alter_eq. destruct (l !! i); [|done]. cbn. by rewrite bool_decide_true, bool_decide_false by lia.
  - rewrite list_lookup_alter_ne by done. destruct (l !! j); [|done]. cbn.
    f_equal. assert (Hiff : (i <= j < i + S n <-> S i <= j < S i + n)%nat) by lia. by rewrite (bool_decide_ext _ _ Hiff).
Qed.

Lemma slot_phase_resent t i n l : slot_phase <$> resent_from t i n l = slot_phase <$> l.
Proof.
  apply list_eq. intros j. unfold resent_from. rewrite !list_lookup_fmap, list_lookup_imap. destruct (l !! j) as [s|]; [|done].
  cbn. unfold resent. case_bool_decide; [|done]. destruct (slot_busy s); [|done]. destruct (mark_dup_fields s) as (_ & _ & Hp & _). cbn. by rewrite Hp.
Qed.

Lemma slot_id_resent t i n l : slot_packet_id <$> resent_from t i n l = slot_packet_id <$> l.
Proof.
  apply list_eq. intros j. unfold resent_from. rewrite !list_lookup_fmap, list_lookup_imap. destruct (l !! j) as [s|]; [|done].
  cbn. unfold resent. case_bool_decide; [|done]. destruct (slot_busy s); [|done]. destruct (mark_dup_fields s) as (Hi & _). cbn. by rewrite Hi.
Qed.

Lemma retransmit_loop_forced t left_ i c e h :
  tx_wf tx_buffer_size (tx_ c) ->
  zlen (tx_peek (tx_ c)) + zlen (resends c i left_) <= tx_buffer_size ->
  wp False (retransmit_loop left_ i true t) (fun _ s => exists q,
    s = mkSys (c <| tx_ := q |> <| outbound_ := resent_from t i left_ (outbound_ c) |>) e h /\
    tx_repr tx_buffer_size q (tx_peek (tx_ c) ++ resends c i left_)) (mkSys c e h).
Proof.
  revert i c e h; induction left_ as [|left_ IH]; intros i c e h Htx Hfit; cbn [retransmit_loop].
  { wp_run. exists (tx_ c). rewrite resent_from_0, app_nil_r. by destruct c. }
  change (resends c i (S left_)) with (resend (slot_at c i) ++ resends c (S i) left_) in *.
  set (s := slot_at c i) in *. wp_run. fold s. unfold resend at 1, slot_busy, slot_free.
  unfold resend at 1, slot_busy, slot_free in Hfit. rewrite resent_from_S.
  destruct (Phase_eqb (slot_phase s) Free) eqn:Eph; cbn [negb andb] in *.
  { assert (Ha : alter (resent t) i (outbound_ c) = outbound_ c).
    { destruct (outbound_ c !! i) as [s0|] eqn:Hs0.
      - rewrite (alter_lookup_insert _ _ _ _ Hs0). apply list_insert_id. rewrite Hs0. f_equal.
        subst s. rewrite (slot_at_Some _ _ _ Hs0) in Eph. unfold resent, slot_busy, slot_free. by rewrite Eph.
      - apply list_eq. intros j. destruct (decide (j = i)) as [->|]; [by rewrite list_lookup_alter_eq, Hs0 | by rewrite list_lookup_alter_ne]. }
    rewrite Ha. by apply IH. }
  assert (Hs : outbound_ c !! i = Some s).
  { subst s. unfold slot_at in *. by destruct (outbound_ c !! i). }
  wp_run. erewrite slot_at_Some by (cbn; by rewrite list_lookup_alter_eq, Hs). fold (stored (mark_dup s)).
  rewrite zlen_app in Hfit. pose proof (zlen_nonneg (resends c (S i) left_)).
  apply wp_enqueue; [done| |cbn; intros; lia].
  intros q [Hq Hp] _. wp_run. cbn in Hp.
  rewrite outbound_tx_comm, outbound_alter_alter.
  set (f := (fun s0 : OutboundSlot => s0 <| slot_last_sent_ms := t |>) ∘ mark_dup).
  assert (Hf : alter f i (outbound_ c) = alter (resent t) i (outbound_ c)).
  { rewrite !(alter_lookup_insert _ _ _ _ Hs). f_equal. unfold resent, slot_busy, slot_free. by rewrite Eph. }
  assert (Hlater : resends (c <| tx_ := q |> <| outbound_ ::= alter f i |>) (S i) left_ = resends c (S i) left_).
  { apply resends_later. intros j Hj. cbn. by rewrite list_lookup_alter_ne by congruence. }
  eapply wp_mono; [apply IH; [done|]; rewrite Hlater; cbn; rewrite Hp, zlen_app; lia|].
  intros _ s' (q' & -> & Hq'). exists q'. rewrite Hlater in Hq'. cbn in Hq' |- *. rewrite Hf. split; [done|].
  by rewrite Hp, <- app_assoc in Hq'.
Qed.
End specs.
