(* ===== verification/StepSpecs.v ===== *)
(** * StepSpecs: the pump and the public interface keep the invariant *)
From S2P Require Import Prelude Errors Packet PacketFacts Utf8 Topic TopicFacts Etl Codec.
From S2P Require Import CodecFacts TxQueue Config Transport ClientState ClientTables Effects.
From S2P Require Import Client ClientInv ClientQueue ClientSpecs SubscribeSpecs ReceiveSpecs.
#[local] Open Scope client_scope.

Section specs.
Context {Cfg : Config} {COK : ConfigOk Cfg} {CS : ConfigSane Cfg}.
Context `{WS : WideSizeT} `{BWO : ByteStreamWriterOk} `{BRO : ByteStreamReaderOk}.
Context {E : Type} {T : Transport E} {CK : Clock E} {TOK : TransportOk E}.
Context (N : Prop) (callback : Callback -> M E unit).
Context (Hcb : forall cb, cb_wf cb -> cb_ok N callback cb).
Implicit Types (c : Client) (e : E) (h : list Event).

(** The invariant while [step] runs. *)
Definition stepping (s : Sys E) : Prop := sys_ok s /\ in_step_ (cl s) = true.

Lemma stepping_keeps c (s : Sys E) : in_step_ c = true -> keeps c s -> stepping s.
Proof. intros Hs [? [Hf _]]. split; [done | congruence]. Qed.

Lemma stepping_shutdown reason c e h :
  stepping (mkSys c e h) ->
  wp N (shutdown callback reason) (fun r s' => r = reason /\ stepping s') (mkSys c e h).
Proof.
  intros [Hok Hs]. eapply wp_mono; [apply shutdown_wp; [|done]|].
  - intros hd r. by apply Hcb.
  - intros r s' (-> & ? & [Hf _]). split; [done|]. split; [done|]. destruct Hf as [Hf _]. cbn in Hs. congruence.
Qed.

Lemma rx_ok_splice rx len i xs len' :
  rx_ok rx len -> 0 <= i -> i + zlen xs <= rx_buffer_size -> bytes_ok xs -> 0 <= len' <= rx_buffer_size ->
  rx_ok (splice rx i xs) len'.
Proof.
  intros (Hz & Hb & Hl) Hi Hx Hxs Hl'. unfold rx_ok. rewrite zlen_splice by lia. split_and!; try lia.
  unfold splice. rewrite !bytes_ok_app. split_and!; [by apply bytes_ok_take | done | by apply bytes_ok_drop].
Qed.

(** Another round starts from less buffered data. *)
Definition drained c (r : option Error) (s : Sys E) : Prop :=
  stepping s /\ (r = None -> rx_len_ (cl s) < rx_len_ c /\ state_ (cl s) <> Connecting).

Lemma drained_stop c r (s : Sys E) : stepping s -> drained c (Some r) s.
Proof. by split. Qed.

(** Dropping a consumed packet from the front of the receive buffer. *)
Lemma stepping_consume c e h total :
  stepping (mkSys c e h) -> 0 < total <= rx_len_ c ->
  let leftover := rx_len_ c - total in
  let c' := if leftover >? 0
            then c <| rx_ ::= fun rx => splice rx 0 (ztake leftover (zdrop total rx)) |> else c in
  stepping (mkSys (c' <| rx_len_ := leftover |>) e h).
Proof.
  intros [Hok Hs] Ht. cbv zeta. pose proof config_facts. open_ok Hok.
  pose proof Hrx as (Hz & Hb & Hl).
  assert (Hcon : state_ c = Connecting -> rx_len_ c - total = 0) by (intros Hc; apply Hconn in Hc; lia).
  case_if; zbool; (split; [ok_fields | done]).
  - eapply rx_ok_splice; [done | lia | | by apply bytes_ok_take, bytes_ok_drop | lia].
    rewrite zlen_ztake; [lia|]. rewrite zlen_zdrop; lia.
  - unfold rx_ok. split_and!; [done | done | lia | lia].
Qed.

Lemma sys_ok_packet hd body c e h : sys_ok (mkSys c e h) -> sys_ok (mkSys c e (h ++ [EvPacket hd body])).
Proof. intros [Hc Hst]. split; [done|]. cbn [cl history] in *. by rewrite sent_since_open_snoc. Qed.

Lemma drain_round_wp c e h :
  stepping (mkSys c e h) -> state_ c <> Connecting ->
  wp N (drain_round callback) (drained c) (mkSys c e h).
Proof.
  intros Hstep Hst. pose proof Hstep as [Hok Hs]. cbn [cl] in Hs. unfold drain_round. wp_run.
  case_if; [by wp_run; apply drained_stop|]. zbool.
  assert (Hrx : rx_ok (rx_ c) (rx_len_ c)) by (by open_ok Hok). destruct Hrx as (Hz & Hb & Hl).
  pose proof config_facts as (Hsize & _).
  destruct (peek_header _) as [p|er] eqn:Ep; [|by wp_run; apply drained_stop].
  apply peek_header_sound in Ep as (Hvbi & Hhdr & Hhb & Htot & _); [|by apply bytes_ok_take].
  do 2 (case_if; [by wp_run; apply drained_stop|]). zbool. wp_run.
  apply header_ok_qos in Hhdr as Hq. cbn [fh_qos] in Hq.
  pose proof (vbi_size_range _ Hvbi). unfold vbi_ok, kMaxRemainingLength in Hvbi.
  set (body := ztake _ _). assert (Hbody : bytes_ok body) by (by apply bytes_ok_take, bytes_ok_drop).
  assert (Hlen : zlen body < 2 ^ 63)
    by (subst body; rewrite zlen_ztake; [lia | rewrite zlen_zdrop; lia]).
  eapply wp_mono; [apply handle_packet_wp; try done; by apply sys_ok_packet|].
  intros r [c' e' h'] [Hok' [Hs' Hframe]]. cbn [cl] in *. destruct (Hframe Hs) as [_ Hlen']. wp_run.
  rewrite Hs in Hs'. destruct (rx_len_ c' <? peek_total_bytes p) eqn:Elt; wp_run; zbool.
  { apply drained_stop. split; [|done]. open_ok Hok'. ok_fields. }
  pose proof (stepping_consume c' e' h' (peek_total_bytes p) (conj Hok' Hs') ltac:(lia)) as Hfin.
  cbv zeta in Hfin.
  assert (Hst' : state_ c' <> Connecting) by (clear Hst; intros Hc; open_ok Hok'; apply Hconn in Hc; lia).
  destruct (rx_len_ c' - peek_total_bytes p >? 0); wp_run;
    (destruct (negb (Error_eqb r Ok)); wp_run; (split; [exact Hfin|]); [done | intros _; cbn; split; [lia | done]]).
Qed.

Lemma drain_rx_loop_wp fuel c e h :
  stepping (mkSys c e h) -> state_ c <> Connecting -> rx_len_ c < Z.of_nat fuel ->
  wp N (drain_rx_loop callback fuel) (fun _ => stepping) (mkSys c e h).
Proof.
  revert c e h; induction fuel as [|fuel IH]; intros c e h Hok Hs Hf; cbn [drain_rx_loop].
  { destruct Hok as [Hok _]. open_ok Hok. destruct Hrx as (_ & _ & ?). lia. }
  wp_run. eapply wp_mono; [by apply drain_round_wp|].
  intros r [c' e' h'] [Hok' Hr]. destruct r as [r|]; [by wp_run|].
  destruct (Hr eq_refl). apply IH; [done | done |]. cbn [cl] in *. lia.
Qed.

Lemma drain_rx_wp c e h :
  stepping (mkSys c e h) -> state_ c <> Connecting ->
  wp N (drain_rx callback) (fun _ => stepping) (mkSys c e h).
Proof.
  intros Hok Hs. unfold drain_rx. wp_run. apply drain_rx_loop_wp; [done | done |].
  destruct Hok as [Hok _]. open_ok Hok. destruct Hrx as (_ & _ & ?). lia.
Qed.

Lemma after_recv_wp again c e h :
  stepping (mkSys c e h) -> state_ c <> Connecting ->
  (forall c e h, stepping (mkSys c e h) -> state_ c <> Connecting ->
     wp N again (fun _ => stepping) (mkSys c e h)) ->
  wp N (after_recv callback again) (fun _ => stepping) (mkSys c e h).
Proof.
  intros Hok Hs Hagain. unfold after_recv. wp_run. eapply wp_mono; [by apply drain_rx_wp|].
  intros r [c' e' h'] Hok'. case_if; [by wp_run|]. wp_run.
  destruct (State_eqb (state_ c') Connecting) eqn:Es; [by wp_run|]. apply bool_decide_eq_false in Es.
  case_if; [by wp_run|]. by apply Hagain.
Qed.

(** Bytes arrive behind those held. *)
Lemma stepping_recv bytes t c e e' h :
  stepping (mkSys c e h) -> state_ c <> Connecting -> bytes_ok bytes -> rx_len_ c + zlen bytes <= rx_buffer_size ->
  stepping (mkSys (c <| rx_ ::= fun rx => splice rx (rx_len_ c) bytes |> <| rx_len_ ::= fun n => n + zlen bytes |>
    <| last_received_ms_ := t |>) e' (h ++ [EvRecv bytes])).
Proof.
  intros [Hok Hs'] Hs Hbytes Hroom. split; [|done]. open_ok Hok. pose proof Hrx as (_ & _ & ?). pose proof (zlen_nonneg bytes).
  ok_fields.
  - eapply rx_ok_splice; [done | lia | lia | done | lia].
  - done.
  - by rewrite sent_since_open_snoc.
Qed.

Lemma pump_rx_loop_wp rounds c e h :
  stepping (mkSys c e h) -> state_ c <> Connecting ->
  wp N (pump_rx_loop callback rounds) (fun _ => stepping) (mkSys c e h).
Proof.
  revert c e h; induction rounds as [|rounds IH]; intros c e h Hok Hs; cbn [pump_rx_loop]; [by wp_run|].
  wp_run. case_if; [|by apply after_recv_wp]. zbool. wp_run.
  assert (Hpos : 0 <= rx_buffer_size - rx_len_ c) by lia.
  pose proof (transport_recv_room (rx_buffer_size - rx_len_ c) e Hpos) as Hroom.
  pose proof (transport_recv_bytes (rx_buffer_size - rx_len_ c) e) as Hbytes.
  destruct (transport_recv _ e) as [[er bytes] e']. cbn [fst snd] in *.
  case_if; [by apply drain_rx_wp|]. case_if; [by wp_run|]. case_if; [by apply drain_rx_wp|]. wp_run.
  apply after_recv_wp; [| done | apply IH]. eapply stepping_recv; [exact Hok | done | done | lia].
Qed.

Lemma pump_rx_wp c e h :
  stepping (mkSys c e h) -> state_ c <> Connecting ->
  wp N (pump_rx callback) (fun _ => stepping) (mkSys c e h).
Proof. apply pump_rx_loop_wp. Qed.

(** ** Timers *)

(** A connected client, with the receive buffer as it was. *)
Definition tends c (s : Sys E) : Prop := sys_ok s /\ frame c (cl s) /\ state_ (cl s) = state_ c.

Lemma pump_keep_alive_wp c e h :
  sys_ok (mkSys c e h) -> state_ c <> Connecting ->
  wp N pump_keep_alive (fun _ => tends c) (mkSys c e h).
Proof.
  intros Hok Hs. unfold pump_keep_alive. wp_run. case_if; [by wp_run|]. wp_run.
  destruct (ping_outstanding_ c); [by case_if; wp_run|]. case_if; [by wp_run|]. wp_run.
  eapply wp_mono; [eapply enqueue_sized_wp; [exact Hok | done | exact sp_pingreq | | apply packet_size_empty]|].
  - apply encode_empty_encodes. by left.
  - intros r [c' e' h'] [Hok' [q Hc]]. cbn [cl] in Hc. subst c'.
    case_if; wp_run; (split; [|split; [frame_fields | done]]); [done|]. open_ok Hok'. ok_fields.
Qed.

Lemma retransmit_loop_wp left_ i forced t c e h :
  (i + left_ <= Z.to_nat max_inflight_out)%nat -> sys_ok (mkSys c e h) -> state_ c <> Connecting ->
  wp N (retransmit_loop left_ i forced t) (fun _ => tends c) (mkSys c e h).
Proof.
  revert i c e h; induction left_ as [|left_ IH]; intros i c e h Hi Hok Hs; cbn [retransmit_loop]; [by wp_run|].
  assert (Hnext : forall c' e' h', sys_ok (mkSys c' e' h') -> frame c c' -> state_ c' = state_ c ->
    wp N (retransmit_loop left_ (S i) forced t) (fun _ => tends c) (mkSys c' e' h')).
  { intros c' e' h' Hok' Hf Hst. eapply wp_mono; [apply IH; [lia | done | congruence]|].
    intros _ s' (? & ? & ?). split_and!; [done | by eapply frame_trans | congruence]. }
  wp_run. destruct (outbound_ c !! i) as [s|] eqn:Ei.
  2: { apply lookup_ge_None in Ei. open_ok Hok. destruct Hout as (Hl & _).
       unfold kOutSlots, at_least_one, zlen in Hl. pose proof config_facts. case_if_in Hl; zbool; lia. }
  rewrite (slot_at_Some _ _ _ Ei). destruct (Phase_eqb (slot_phase s) Free) eqn:Eph; [by apply Hnext|]. case_if; [by apply Hnext|]. wp_run.
  assert (Hb : slot_busy (mark_dup s) = true).
  { unfold slot_busy, slot_free. destruct (mark_dup_fields s) as (_ & _ & -> & _). by rewrite Eph. }
  assert (Hslot : slot_ok (mark_dup s)) by (open_ok Hok; by eapply mark_dup_ok, outbound_ok_lookup).
  assert (Hok1 : sys_ok (mkSys (c <| outbound_ ::= alter mark_dup i |>) e h)).
  { eapply sys_ok_edit_slot; [done | done | done | left; lia | left].
    unfold slot_id. rewrite Hb. destruct (mark_dup_fields s) as (-> & _).
    unfold slot_busy, slot_free. by rewrite Eph. }
  set (c1 := c <| outbound_ ::= alter mark_dup i |>) in *.
  assert (Ei1 : outbound_ c1 !! i = Some (mark_dup s)) by (subst c1; cbn; by rewrite list_lookup_alter_eq, Ei).
  rewrite (slot_at_Some _ _ _ Ei1).
  eapply wp_mono; [apply enqueue_wp; [exact Hok1 | done|]|].
  { apply slot_ok_session; [done | done |]. open_ok Hok1. by eapply slot_id_ok. }
  intros r [c' e' h'] [Hok' [q Hc]]. cbn [cl] in Hc. subst c'.
  destruct (Error_eqb r Ok); wp_run; (apply Hnext; [|frame_fields | done]); [|done].
  eapply (sys_ok_touch_slot (c1 <| tx_ := q |>)); [done | exact Ei1 | lia].
Qed.

Lemma pump_retransmit_wp c e h :
  sys_ok (mkSys c e h) -> state_ c <> Connecting ->
  wp N pump_retransmit (fun _ => tends c) (mkSys c e h).
Proof.
  intros Hok Hs. unfold pump_retransmit. wp_run.
  assert (Hok' : forall e', sys_ok (mkSys (c <| retransmit_now_ := false |>) e' h))
    by (intros; open_ok Hok; ok_fields).
  case_if; [wp_run; by split_and!; [apply Hok' | frame_fields | done]|]. wp_run.
  eapply wp_mono; [apply retransmit_loop_wp; [lia | apply Hok' | done]|].
  intros _ s' (? & Hf & ?). split_and!; [done | | done]. eapply frame_trans; [|done]. frame_fields.
Qed.

Lemma resub_batch_sublist room l : resub_batch room l `sublist_of` l.
Proof.
  revert room; induction l as [|s l IH]; intros room; cbn [resub_batch]; [done|].
  case_if; [|by apply sublist_cons]. destruct room as [|[|room]]; [apply sublist_nil_l | |by apply sublist_skip].
  apply sublist_skip, sublist_nil_l.
Qed.

Lemma resub_batch_length room l : (length (resub_batch room l) <= room)%nat.
Proof.
  revert room; induction l as [|s l IH]; intros room; cbn [resub_batch length]; [lia|].
  case_if; [|apply IH]. destruct room as [|[|room]]; cbn [length]; [lia | lia |].
  specialize (IH (S room)). lia.
Qed.

Lemma clear_resub_edit sids c : subs_edit c (clear_resub sids c).
Proof.
  revert c; induction sids as [|sid sids IH]; intros c; cbn [clear_resub]; [apply subs_edit_refl|].
  eapply subs_edit_trans; [|apply IH].
  destruct (find_by_sub_id sid c); [by apply subs_edit_update | apply subs_edit_refl].
Qed.

Lemma batch_args_ok room l :
  Forall entry_ok l ->
  let batch := (fun s => mkTopicSubscription (sub_filter s) (sub_requested_qos s)) <$> resub_batch room l in
  Forall (fun s => 0 <= ts_qos s) batch /\ Forall (fun s => is_valid_filter (ts_filter s) = true) batch.
Proof.
  intros Hl. cbv zeta. pose proof (Forall_sublist _ _ _ (resub_batch_sublist room l) Hl) as Hb.
  split; apply Forall_fmap; (eapply Forall_impl; [|exact Hb]); intros s (_ & ? & _ & ?); cbn; [lia | done].
Qed.

Lemma pump_resubscribe_wp c e h :
  sys_ok (mkSys c e h) -> state_ c <> Connecting ->
  wp N pump_resubscribe (fun _ => tends c) (mkSys c e h).
Proof.
  intros Hok Hs. unfold pump_resubscribe. wp_run. destruct (ack_table_full c) eqn:Ea; [by wp_run|].
  set (entries := resub_batch _ _).
  assert (Hlen : zlen entries <= max_topics_per_request).
  { subst entries. pose proof config_facts. unfold zlen.
    pose proof (resub_batch_length (Z.to_nat max_topics_per_request) (subscriptions_ c)). lia. }
  pose proof (batch_args_ok (Z.to_nat max_topics_per_request) (subscriptions_ c)
    ltac:(open_ok Hok; by destruct Hsubs as (_ & _ & _ & ?))) as [Hq Hf]. fold entries in Hq, Hf.
  set (batch := _ <$> entries) in *. case_if; [by wp_run|].
  destruct (subscribe_remaining_length batch) as [rl|] eqn:Erl; [|by wp_run].
  pose proof (alloc_packet_id_ok c e h Hok) as Halloc.
  destruct (alloc_packet_id c) as [id c1]. destruct Halloc as (Hok1 & [n ->] & Hid). wp_run.
  case_if; [wp_run; by split_and!; [| frame_fields |]|]. zbool. destruct Hid as [Hid Hfresh]; [lia|].
  destruct (subscribe_packet_ok id batch rl Hid Hq Hf Erl) as (Hpkt & _ & Henc & Hsize). wp_run.
  eapply wp_enqueue_sized; [by open_ok Hok1 | done | done | |].
  - intros q Hrepr _. wp_run.
    apply (sys_ok_append _ q _ _ _ Hok1) in Hrepr as Hok2; [|done | done].
    destruct (clear_resub_edit (sub_id <$> entries) (c <| next_packet_id_ := n |> <| tx_ := q |>))
      as (l & Hc & Hl). rewrite Hc.
    apply (sys_ok_subs_edit _ (c <| next_packet_id_ := n |> <| tx_ := q |> <| subscriptions_ := l |>)
      (snd (now_ms e)) h) in Hok2; [|by exists l].
    split_and!; [|frame_fields | done]. apply sys_ok_push_pending; try done.
    split; [|by left]. cbn. by rewrite zlen_fmap.
  - intros q r Hq' [-> | ->] _; wp_run; (split_and!; [by apply sys_ok_same_queue | frame_fields | done]).
Qed.

(** ** The step *)
Lemma stepping_pump_tx c e h :
  stepping (mkSys c e h) -> state_ c <> Connecting ->
  wp N pump_tx (fun _ s => stepping s /\ state_ (cl s) = state_ c) (mkSys c e h).
Proof.
  intros [Hok Hin] Hs. eapply wp_mono; [by apply pump_tx_wp|].
  intros _ [c' e' h'] [Hok' (q & t & Hc)]. cbn [cl] in Hc. by subst c'.
Qed.

Lemma tends_stepping c (s : Sys E) : in_step_ c = true -> tends c s -> stepping s /\ state_ (cl s) = state_ c.
Proof. intros Hin (Hok & [Hf _] & Hs). split; [|done]. split; [done | congruence]. Qed.

Lemma flush_wp c e h :
  stepping (mkSys c e h) -> state_ c <> Connecting ->
  wp N pump_tx (fun r s => wp N (if negb (Error_eqb r Ok) then shutdown callback r else ret Ok)
    (fun _ => stepping) s) (mkSys c e h).
Proof.
  intros Hok Hs. eapply wp_mono; [by apply stepping_pump_tx|].
  intros r [c' e' h'] [Hok' _]. case_if; [|by wp_run].
  eapply wp_mono; [by apply stepping_shutdown|]. by intros ? ? [_ ?].
Qed.

Lemma step_tail_wp c e h :
  stepping (mkSys c e h) -> wp N (step_tail callback) (fun _ => stepping) (mkSys c e h).
Proof.
  intros Hok. unfold step_tail. wp_run.
  assert (Hdown : forall r c e h, stepping (mkSys c e h) ->
    wp N (shutdown callback r) (fun _ => stepping) (mkSys c e h)).
  { intros r c' e' h' Hok'. eapply wp_mono; [by apply stepping_shutdown|]. by intros ? ? [_ ?]. }
  destruct (state_ c) eqn:Es; wp_run;
    [apply flush_wp; [done | congruence] | done | case_if; [by apply Hdown | by wp_run] | |
     apply flush_wp; [done | congruence]].
  destruct Hok as [Hok Hin]. cbn in Hin.
  eapply wp_mono; [apply pump_keep_alive_wp; [done | congruence]|].
  intros r [c1 e1 h1] Ht. pose proof (tends_stepping _ _ Hin Ht) as [Hok1 Hs1]. cbn [cl] in Hs1.
  case_if.
  { wp_run. eapply wp_mono; [by apply stepping_shutdown|]. intros r' s' [_ ?]. by wp_run. }
  wp_run. destruct Hok1 as [Hok1 Hin1]. cbn in Hin1.
  eapply wp_mono; [apply pump_resubscribe_wp; [done | congruence]|]. intros _ [c2 e2 h2] Ht2.
  pose proof (tends_stepping _ _ Hin1 Ht2) as [[Hok2 Hin2] Hs2]. cbn [cl] in Hin2, Hs2. wp_run.
  eapply wp_mono; [apply pump_retransmit_wp; [done | congruence]|]. intros _ [c3 e3 h3] Ht3.
  pose proof (tends_stepping _ _ Hin2 Ht3) as [Hok3 Hs3]. cbn [cl] in Hs3. wp_run.
  apply flush_wp; [done | congruence].
Qed.

Lemma step_io_wp c e h :
  stepping (mkSys c e h) -> state_ c <> Connecting ->
  wp N (step_io callback) (fun _ => stepping) (mkSys c e h).
Proof.
  intros Hok Hs. unfold step_io. wp_run. eapply wp_mono; [by apply stepping_pump_tx|].
  assert (Hdown : forall r c e h, stepping (mkSys c e h) ->
    wp N (shutdown callback r) (fun _ => stepping) (mkSys c e h)).
  { intros r c' e' h' Hok'. eapply wp_mono; [by apply stepping_shutdown|]. by intros ? ? [_ ?]. }
  intros r [c1 e1 h1] [Hok1 Hs1]. cbn [cl] in Hs1. case_if; [by apply Hdown|]. wp_run.
  case_if; [by apply Hdown|]. wp_run. eapply wp_mono; [apply pump_rx_wp; [done | congruence]|].
  intros r2 [c2 e2 h2] Hok2. case_if; [by apply Hdown | by apply step_tail_wp].
Qed.

(** The transport is up. *)
Lemma sys_ok_open t c e e' h :
  sys_ok (mkSys c e h) -> state_ c = Connecting ->
  sys_ok (mkSys (c <| state_ := AwaitingConnack |> <| last_sent_ms_ := t |>) e' (h ++ [EvOpen])) /\ rx_len_ c = 0 /\
  exists o, connect_wf o /\ tx_peek (tx_ c) = connect_packet o.
Proof.
  intros Hok Hs. open_ok Hok. rewrite Hs in Hst. destruct Hst as (o & Ho & Hq). split; [|split; [by apply Hconn | by exists o]].
  ok_fields. rewrite sent_since_open_snoc. exists o, []. cbn [stream_event app concat]. rewrite app_nil_r.
  by split_and!; [| constructor |].
Qed.

Lemma step_once_wp c e h :
  stepping (mkSys c e h) -> wp N (step_once callback) (fun _ => stepping) (mkSys c e h).
Proof.
  intros Hok. unfold step_once. wp_run. destruct (state_ c) eqn:Es; [by wp_run | |
    apply step_io_wp; [done | congruence]..].
  wp_run. assert (Hdown : forall r e, wp N (shutdown callback r) (fun _ => stepping) (mkSys c e h)).
  { intros r e'. eapply wp_mono; [by apply stepping_shutdown|]. by intros ? ? [_ ?]. }
  destruct (transport_connect e) as [r e']. cbn [fst snd].
  case_if; [wp_run; case_if; [by apply Hdown | by wp_run]|]. case_if; [by apply Hdown|]. wp_run.
  apply step_io_wp; [|done]. destruct Hok as [Hok Hs]. split; [|done]. by apply (sys_ok_open _ c e).
Qed.

Lemma step_wp c e h :
  sys_ok (mkSys c e h) -> wp N (step callback) (fun _ => api_keeps c) (mkSys c e h).
Proof.
  intros Hok. unfold step. wp_run. destruct (in_step_ c) eqn:Ein; [by wp_run|]. wp_run.
  eapply wp_mono; [apply step_once_wp; split; [open_ok Hok; ok_fields | done]|].
  intros r [c' e' h'] [Hok' Hs']. wp_run. split; [open_ok Hok'; ok_fields|].
  split; [split; [by rewrite Ein|]|]; intros; congruence.
Qed.
End specs.
