(* ===== verification/AppSpecs.v ===== *)
(** * AppSpecs: applications that call the client back

    The invariant of [ClientInv] holds in every state an application can bring
    the client to, whatever its handlers call; and calls return, for every
    application whose handler for the end of a session does not itself end
    sessions or pump. *)
From S2P Require Import Prelude Errors Packet PacketFacts Utf8 Topic Etl Codec CodecFacts TxQueue.
From S2P Require Import Config Transport ClientState ClientTables Effects Client Application.
From S2P Require Import ClientInv ClientQueue ClientSpecs SubscribeSpecs ReceiveSpecs StepSpecs.
#[local] Open Scope client_scope.

(** Calls that invoke no callback. *)
Definition quiet (call : ApiCall) : Prop :=
  call_ok call /\ match call with CallDisconnect | CallAbort | CallStep => False | _ => True end.

Section app.
Context {Cfg : Config} {COK : ConfigOk Cfg} {CS : ConfigSane Cfg}.
Context `{WS : WideSizeT} `{BWO : ByteStreamWriterOk} `{BRO : ByteStreamReaderOk}.
Context {E : Type} {T : Transport E} {CK : Clock E} {TOK : TransportOk E}.
Implicit Types (c : Client) (e : E) (h : list Event).

Section calls.
Context (N : Prop) (callback : Callback -> M E unit).

Lemma wp_result (m : M E Error) c s :
  wp N m (fun _ => api_keeps c) s -> wp N (e <- m;; ret ((e, None) : ApiResult)) (fun _ => api_keeps c) s.
Proof. intros Hm. wp_run. eapply wp_mono; [done|]. intros ? s' Hk. by wp_run. Qed.

Lemma set_handler_wp f c e h :
  sys_ok (mkSys c e h) ->
  (sys_ok (mkSys c e h) -> api_keeps c (mkSys (f c) e h)) ->
  wp N (modify f;;; ret ((Ok, None) : ApiResult)) (fun _ => api_keeps c) (mkSys c e h).
Proof. intros Hok Hf. wp_run. by apply Hf. Qed.

Lemma api_quiet_wp call (s : Sys E) :
  quiet call -> sys_ok s -> wp N (api callback call) (fun _ => api_keeps (cl s)) s.
Proof.
  intros [Hok Hq] Hsys. destruct s as [c e h]. cbn [cl].
  destruct call; try done; cbn [api call_ok] in *;
    try (apply set_handler_wp; [done|]; intros Hs; split; [open_ok Hs; ok_fields | frame_fields]).
  - apply wp_result. by apply connect_wp.
  - destruct Hok. by apply publish_wp.
  - by apply subscribe_wp.
  - by apply unsubscribe_wp.
Qed.

(** A call is fine if whatever it may invoke is. *)
Lemma api_wp call (s : Sys E) :
  call_ok call -> sys_ok s -> disconnect_cb_ok N callback ->
  (call = CallStep -> in_step_ (cl s) = true \/ forall cb, cb_wf cb -> cb_ok N callback cb) ->
  wp N (api callback call) (fun _ => api_keeps (cl s)) s.
Proof.
  intros Hok Hsys Hdis Hstep. destruct call; try (by apply api_quiet_wp); destruct s as [c e h]; cbn [api cl].
  - apply wp_result. by apply disconnect_wp.
  - wp_run. eapply wp_mono; [by apply abort_wp|]. intros ? s' Hk. by wp_run.
  - apply wp_result. destruct (Hstep eq_refl) as [Hin|Hcb]; [|by apply step_wp].
    unfold step. cbn in Hin. wp_run. rewrite Hin. by wp_run.
Qed.

(** A handler keeps the invariant if every call it makes does. *)
Lemma run_handler_wp (P : ApiCall -> Prop) (I : Client -> Prop) p c (s : Sys E) :
  (forall call s, P call -> sys_ok s -> I (cl s) -> wp N (api callback call) (fun _ => api_keeps (cl s)) s) ->
  (forall c c', api_frame c c' -> I c -> I c') ->
  handler_calls P p -> sys_ok s -> I (cl s) -> api_frame c (cl s) ->
  wp N (run_handler callback p) (fun _ => api_keeps c) s.
Proof.
  intros Hcall HI Hp. revert s. induction Hp as [|f k Hk IH|k Hk IH|call k HP Hk IH];
    intros [c' e h] Hok Hinv Hf; cbn [run_handler].
  - by wp_run.
  - wp_run. by apply IH.
  - by apply (IH c' e (mkSys c' e h)).
  - wp_run. eapply wp_mono; [by apply Hcall|]. intros r s' [Hok' Hf'].
    apply IH; [done | by eapply HI | by eapply api_frame_trans].
Qed.
End calls.

Context (app : Callback -> Handler E).

Lemma sys_ok_call cb c e h : sys_ok (mkSys c e h) -> sys_ok (mkSys c e (h ++ [EvCall cb])).
Proof. intros Hok. open_ok Hok. ok_fields. by rewrite sent_since_open_snoc. Qed.

Lemma disconnect_ok_all N (callback : Callback -> M E unit) :
  (forall cb, cb_wf cb -> cb_ok N callback cb) -> disconnect_cb_ok N callback.
Proof. intros Hcb hd reason. by apply Hcb. Qed.

(** ** The invariant, whatever the handlers do *)
Definition app_ok : Prop := forall cb, cb_wf cb -> handler_calls call_ok (app cb).

Lemma run_callback_ok depth : app_ok -> forall cb, cb_wf cb -> cb_ok True (run_callback app depth) cb.
Proof.
  intros Happ. induction depth as [|depth IH]; intros cb Hcb [c e h] Hok Hwhen; [done|].
  cbn [run_callback]. wp_run. apply run_handler_wp with (P := call_ok) (I := fun _ => True);
    [| done | by apply Happ | by apply sys_ok_call | done | done].
  intros call s Hc Hs _. apply api_wp; [done | done | by apply disconnect_ok_all | by right].
Qed.

Lemma call_keeps depth call (s : Sys E) :
  app_ok -> call_ok call -> sys_ok s -> wp True (Application.call app depth call) (fun _ => api_keeps (cl s)) s.
Proof.
  intros Happ Hc Hok. pose proof (run_callback_ok depth Happ) as Hcb.
  apply api_wp; [done | done | by apply disconnect_ok_all | by right].
Qed.

Lemma client_init_ok e : sys_ok (mkSys client_init e []).
Proof.
  pose proof config_facts as (? & ? & ? & ? & ? & ? & ? & ? & ? & ? & _).
  assert (Hslot : slot_ok empty_slot).
  { split; [|done]. cbn. unfold kPersistSize, at_least_one. rewrite zlen_replicate. case_if; zbool; lia. }
  split; [|done]. constructor; cbn [cl client_init tx_ rx_ rx_len_ outbound_ inbound_ids_ subscriptions_
    pending_ next_packet_id_ next_sub_id_ state_]; [| | | | | | | lia | lia | done].
  - apply tx_init_wf. lia.
  - unfold rx_ok. rewrite zlen_replicate. split_and!; [lia | | lia | lia].
    apply Forall_replicate. unfold is_u8. lia.
  - unfold outbound_ok, residue_free. rewrite zlen_replicate. split_and!; [| by apply Forall_replicate |].
    + unfold kOutSlots, at_least_one. case_if; zbool; lia.
    + apply Forall_drop. by apply Forall_replicate.
  - apply inbound_ok_nil.
  - unfold subscriptions_ok. change (zlen []) with 0.
    split_and!; [lia | apply ids_good_nil | constructor | constructor].
  - apply pending_ok_nil.
  - unfold ids_in_use. cbn [client_init outbound_ pending_]. rewrite app_nil_r.
    replace (slot_ids _) with (@nil Z); [apply ids_good_nil|].
    induction (Z.to_nat kOutSlots) as [|n IH]; [done|]. by rewrite replicate_S, slot_ids_cons.
Qed.

(** ** Calls return *)

(** The handler for the end of a session ends no session and does not pump. *)
Definition calm : Prop := forall hd reason, handler_calls quiet (app (CbDisconnect hd reason)).

Lemma calm_disconnect N depth : calm -> disconnect_cb_ok N (run_callback app (S depth)).
Proof.
  intros Hcalm hd reason [c e h] Hok _. cbn [run_callback]. wp_run.
  apply run_handler_wp with (P := quiet) (I := fun _ => True);
    [| done | by apply Hcalm | by apply sys_ok_call | done | done].
  intros call s Hc Hs _. by apply api_quiet_wp.
Qed.

Lemma calm_callback N depth cb :
  app_ok -> calm -> cb_wf cb -> cb_ok N (run_callback app (S (S depth))) cb.
Proof.
  intros Happ Hcalm Hcb.
  assert (Hgo : match cb with CbDisconnect _ _ => True | _ => cb_ok N (run_callback app (S (S depth))) cb end);
    [|destruct cb; try done; by apply (calm_disconnect N (S depth))].
  assert (Hstep : forall s, sys_ok s -> in_step_ (cl s) = true ->
    wp N (run_callback app (S (S depth)) cb) (fun _ => api_keeps (cl s)) s).
  { intros [c e h] Hok Hin. cbn [cl] in Hin.
    change (run_callback app (S (S depth)) cb) with
      (record (EvCall cb);;; run_handler (run_callback app (S depth)) (app cb)). wp_run.
    apply run_handler_wp with (P := call_ok) (I := fun c => in_step_ c = true);
      [| | by apply Happ | by apply sys_ok_call | done | done].
    - intros call s Hc Hs Hi. apply api_wp; [done | done | by apply calm_disconnect | by left].
    - intros c1 c2 [[? _] _] ?. congruence. }
  destruct cb; try done; intros s Hok Hwhen; by apply Hstep.
Qed.

(** A bound of two on the nesting is enough. *)
Lemma call_returns depth call (s : Sys E) :
  app_ok -> calm -> call_ok call -> sys_ok s ->
  wp False (Application.call app (S (S depth)) call) (fun _ => api_keeps (cl s)) s.
Proof.
  intros Happ Hcalm Hc Hok.
  apply api_wp; [done | done | by apply calm_disconnect | right; intros cb Hcb; by apply calm_callback].
Qed.

Lemma reachable_sys_ok s : app_ok -> reachable app s -> sys_ok s.
Proof.
  intros Happ. induction 1 as [e|s e Hr IH|depth call s r s' Hr IH Hc Hrun].
  - apply client_init_ok.
  - exact IH.
  - pose proof (call_keeps depth call s Happ Hc IH) as Hk. unfold wp in Hk. rewrite Hrun in Hk. by destruct Hk.
Qed.
End app.
