(* ===== verification/ClientPersist.v ===== *)
(** * ClientPersist: messages of a persistent session

    A QoS 1 or 2 message that [publish] accepted is not lost. While no session
    is asked to be clean, whatever the application, its handlers, the transport
    and the peer do, across any number of connections, its slot goes on carrying
    it, until the application is told that it was delivered. The same holds of a
    clean session, up to its end. *)
From S2P Require Import Prelude Errors Packet PacketFacts Utf8 Topic Etl Codec CodecFacts TxQueue.
From S2P Require Import Config Transport ClientState ClientTables Effects Client Application.
From S2P Require Import ClientInv ClientQueue ClientSpecs ReceiveSpecs.
#[local] Open Scope client_scope.

(** ** What is kept *)

(** The message a slot is for. *)
Record Parcel := mkParcel {
  parcel_id : Z; parcel_qos : QoS; parcel_retain : bool; parcel_topic : list Z; parcel_payload : list Z;
}.

(** The slot holds the PUBLISH, with or without DUP, or, for QoS 2 and once the
    peer has it, the exchange that remains. *)
Definition carries (p : Parcel) (s : OutboundSlot) : Prop :=
  slot_packet_id s = parcel_id p /\ 4 <= zlen (slot_packet s) /\
  match slot_phase s with
  | Free => False
  | WaitPuback | WaitPubrec =>
      parcel_qos p = (if Phase_eqb (slot_phase s) WaitPuback then AtLeastOnce else ExactlyOnce) /\
      exists dup, stored s = publish_packet dup (parcel_qos p) (parcel_retain p) (parcel_topic p) (parcel_payload p) (parcel_id p)
  | WaitPubcomp => parcel_qos p = ExactlyOnce /\ stored s = ack_packet Pubrel (parcel_id p)
  end.

Definition carried (p : Parcel) (c : Client) : Prop := exists i s, outbound_ c !! i = Some s /\ carries p s.

(** The application was told. *)
Definition told (p : Parcel) (h : list Event) : Prop := exists hd, In (EvCall (CbDelivery hd (parcel_id p))) h.

(** The handler for deliveries stays set; [across] connections, none asks for a
    clean session, and otherwise no other connection is asked for. *)
Definition carries_on (across : bool) (call : ApiCall) : Prop :=
  match call with
  | CallConnect opts => across = true /\ opt_clean_session opts = false
  | CallOnDelivery h => is_Some h
  | _ => True
  end.

Definition persistent : ApiCall -> Prop := carries_on true.

Section slots.
Context (p : Parcel).

Lemma carries_not_free s : carries p s -> slot_free s = false.
Proof. intros (_ & _ & Hs). unfold slot_free, Phase_eqb. by destruct (slot_phase s). Qed.

Lemma carries_dup s : carries p s -> carries p (mark_dup s).
Proof.
  intros (Hid & Hlen & Hs). destruct (mark_dup_fields s) as (Hid' & _ & Hph & Hz). unfold carries.
  rewrite Hid', Hph, Hz. split; [done|]. split; [done|]. destruct (slot_phase s); [done| | |].
  - destruct Hs as (Hq & dup & Hs). split; [done|]. exists true. eapply mark_dup_stored_publish; [by left | done].
  - destruct Hs as (Hq & dup & Hs). split; [done|]. exists true. eapply mark_dup_stored_publish; [by right | done].
  - destruct Hs as (Hq & Hs). split; [done|]. by apply mark_dup_pubrel.
Qed.

Lemma carries_sent s t : carries p s -> carries p (s <| slot_last_sent_ms := t |>).
Proof. done. Qed.

(** An edit of one slot that keeps what it carries. *)
Lemma carried_alter f (i : nat) (l : list OutboundSlot) :
  (forall s, l !! i = Some s -> carries p s -> carries p (f s)) ->
  (exists i s, l !! i = Some s /\ carries p s) -> exists j s, alter f i l !! j = Some s /\ carries p s.
Proof.
  intros Hf (j & s & Hj & Hs). destruct (decide (i = j)) as [->|Hne].
  - exists j, (f s). split; [by rewrite list_lookup_alter_eq, Hj | by apply Hf].
  - exists j, s. split; [by rewrite list_lookup_alter_ne | done].
Qed.
End slots.

(** The tables that are none of its business. *)
Definition same_session (c c' : Client) : Prop :=
  outbound_ c' = outbound_ c /\ clean_session_ c' = clean_session_ c /\ on_delivery_ c' = on_delivery_ c /\
  (state_ c = Idle -> state_ c' = Idle).

Section tables.
Context `{Cfg : Config}.

Lemma same_refl c : same_session c c.
Proof. done. Qed.

Lemma same_trans a b c : same_session a b -> same_session b c -> same_session a c.
Proof. unfold same_session. intros (-> & -> & -> & ?) (-> & -> & -> & ?). split_and!; auto. Qed.

Lemma same_alloc_packet c : same_session c (snd (alloc_packet_id c)).
Proof. unfold alloc_packet_id. by destruct (alloc_loop _ _ _). Qed.

Lemma same_register s handler c : same_session c (snd (register_subscription s handler c)).
Proof.
  unfold register_subscription. destruct (find_subscription _ _); [done|].
  unfold alloc_sub_id. by destruct (alloc_loop _ _ _).
Qed.

Lemma same_register_all subs handler : forall c, same_session c (snd (register_subscriptions subs handler c)).
Proof.
  induction subs as [|s subs IH]; intros c; cbn; [done|].
  pose proof (same_register s handler c) as H1. destruct (register_subscription s handler c) as [sid c1]. cbn [snd] in H1.
  specialize (IH c1). destruct (register_subscriptions subs handler c1) as [sids c2]. cbn [snd] in *.
  by eapply same_trans.
Qed.

Lemma same_apply codes : forall sids c, same_session c (apply_return_codes codes sids c).
Proof.
  induction codes as [|rc codes IH]; intros [|sid sids] c; cbn; try done.
  eapply same_trans; [|apply IH]. case_if; [done|]. by destruct (find_by_sub_id _ _).
Qed.

Lemma same_erase_all sids : forall c, same_session c (erase_subscriptions sids c).
Proof. induction sids as [|sid sids IH]; intros c; cbn; [done|]. eapply same_trans; [|apply IH]. done. Qed.

Lemma same_clear sids : forall c, same_session c (clear_resub sids c).
Proof.
  induction sids as [|sid sids IH]; intros c; cbn; [done|]. eapply same_trans; [|apply IH]. by destruct (find_by_sub_id _ _).
Qed.
End tables.

#[export] Hint Resolve same_refl same_alloc_packet same_register_all same_apply same_erase_all same_clear : persist.

(** ** The operations *)
Section operations.
Context {Cfg : Config} `{WS : WideSizeT} `{BWO : ByteStreamWriterOk} `{BRO : ByteStreamReaderOk}.
Context {E : Type} {T : Transport E} {CK : Clock E}.
Context (across : bool) (p : Parcel) (Hp : id_ok (parcel_id p)) (h0 : list Event).
Implicit Types (c : Client) (e : E) (h : list Event).

(** Since [h0]: still carried, or told, or the clean session is over. *)
Record safe c h : Prop := {
  safe_persistent : across = true -> clean_session_ c = false;
  safe_tells : is_Some (on_delivery_ c);
  safe_since : exists h', h = h0 ++ h' /\ (carried p c \/ told p h' \/ across = false /\ state_ c = Idle);
}.

Definition safe_sys (s : Sys E) : Prop := safe (cl s) (history s).

Definition op_safe {A} (m : M E A) : Prop := forall c e h, safe c h -> wp True m (fun _ => safe_sys) (mkSys c e h).

Lemma told_snoc h ev : told p h -> told p (h ++ [ev]).
Proof. intros [hd Hin]. exists hd. apply in_or_app. by left. Qed.

Lemma safe_event c h ev : safe c h -> safe c (h ++ [ev]).
Proof.
  intros [Hc Ht (h' & -> & Hs)]. split; [done | done|]. exists (h' ++ [ev]).
  split; [by rewrite app_assoc|]. destruct Hs as [Hs|[Hs|Hs]]; [by left | right; left; by apply told_snoc | by right; right].
Qed.

Lemma safe_same c c' h : safe c h -> same_session c c' -> safe c' h.
Proof.
  intros [Hc Ht (h' & -> & Hs)] (Ho & Hc' & Ht' & Hi). split; [by rewrite Hc' | by rewrite Ht'|]. exists h'.
  split; [done|]. unfold carried in *. rewrite Ho. destruct Hs as [?|[?|[? ?]]]; auto.
Qed.

Lemma safe_slot c h f i :
  (forall s, outbound_ c !! i = Some s -> carries p s -> carries p (f s)) -> safe c h ->
  safe (c <| outbound_ ::= alter f i |>) h.
Proof.
  intros Hf [Hc Ht (h' & -> & Hs)]. split; [done | done|]. exists h'. split; [done|].
  destruct Hs as [Hs|Hs]; [left; by apply carried_alter | by right].
Qed.

(** A change of slot [i] only, which carries the parcel on if it did. *)
Lemma safe_at c c' h i :
  safe c h ->
  (forall s, outbound_ c !! i = Some s -> carries p s -> exists s', outbound_ c' !! i = Some s' /\ carries p s') ->
  (forall j, j <> i -> outbound_ c' !! j = outbound_ c !! j) ->
  clean_session_ c' = clean_session_ c -> on_delivery_ c' = on_delivery_ c -> (state_ c = Idle -> state_ c' = Idle) -> safe c' h.
Proof.
  intros [Hc Ht (h' & -> & Hs)] Hi Hj Hc' Ht' Hst. split; [by rewrite Hc' | by rewrite Ht'|]. exists h'. split; [done|].
  destruct Hs as [(k & s & Hk & Hs)|[Hs|[? ?]]]; [left | auto | auto]. destruct (decide (k = i)) as [->|Hne].
  - destruct (Hi s Hk Hs) as (s' & ? & ?). by exists i, s'.
  - exists k, s. split; [by rewrite Hj | done].
Qed.

(** The end of a clean session. *)
Lemma safe_over c c' h :
  safe c h -> clean_session_ c = true -> on_delivery_ c' = on_delivery_ c -> state_ c' = Idle -> safe c' h.
Proof.
  intros [Hc Ht (h' & -> & Hs)] Hcl Ht' Hi.
  assert (Ha : across = false) by (destruct across; [by rewrite Hc in Hcl | done]).
  split; [by rewrite Ha | by rewrite Ht'|]. exists h'. auto.
Qed.

(** The state before was not [Idle]. *)
Ltac not_idle := let Hi := fresh "Hi" in intros Hi; rewrite Hi in *.

(** Finish: nothing that matters changed. *)
Ltac safe_done :=
  unfold safe_sys; cbn [cl history];
  repeat match goal with |- safe _ (_ ++ [_]) => apply safe_event end;
  first [assumption | eapply safe_same; [eassumption | repeat split; first [done | by not_idle]]].

Ltac s_call L :=
  let c := fresh "c" in let e := fresh "e" in let h := fresh "h" in let H := fresh "Hs" in
  eapply wp_mono; [apply L; safe_done | intros ? [c e h] H; unfold safe_sys in H; cbn [cl history] in H].

Lemma enqueue_safe bytes : op_safe (enqueue bytes).
Proof. intros c e h Hs. unfold enqueue. wp_walk. destruct (tx_reserve _ _ _). wp_walk; safe_done. Qed.

Lemma enqueue_sized_state size enc c e h :
  safe c h -> wp True (enqueue_sized size enc) (fun _ s => safe_sys s /\ state_ (cl s) = state_ c) (mkSys c e h).
Proof.
  intros Hs. unfold enqueue_sized. wp_walk; [split; [safe_done | done]|]. destruct (tx_reserve _ _ _).
  wp_walk; [split; [safe_done | done]|]. destruct (enc _) as [[n|er] out]; wp_walk; (split; [safe_done | done]).
Qed.

Lemma enqueue_sized_safe size enc : op_safe (enqueue_sized size enc).
Proof. intros c e h Hs. eapply wp_mono; [by apply enqueue_sized_state|]. by intros ? s [? _]. Qed.

Lemma pump_tx_loop_safe fuel : op_safe (pump_tx_loop fuel).
Proof.
  induction fuel as [|fuel IH]; intros c e h Hs; [done|]. cbn [pump_tx_loop]. wp_walk; [safe_done|].
  destruct (transport_send _ e) as [[er written] e']. cbn [fst snd]. wp_walk; try safe_done. s_call IH. done.
Qed.

Lemma pump_tx_safe : op_safe pump_tx.
Proof. intros c e h Hs. unfold pump_tx. wp_walk. by apply pump_tx_loop_safe. Qed.

Lemma send_ack_safe type id : op_safe (send_ack type id).
Proof. apply enqueue_sized_safe. Qed.

(** A callback counts from its invocation on. *)
Definition cb_safe (callback : Callback -> M E unit) (cb : Callback) : Prop :=
  forall c e h, safe c (h ++ [EvCall cb]) -> wp True (callback cb) (fun _ => safe_sys) (mkSys c e h).

Context (callback : Callback -> M E unit) (Hcb : forall cb, cb_safe callback cb).

Lemma callback_safe cb : op_safe (callback cb).
Proof. intros c e h Hs. by apply Hcb, safe_event. Qed.

Lemma call_if_safe hd invoke : op_safe (call_if callback hd invoke).
Proof. intros c e h Hs. destruct hd; cbn; [by apply callback_safe | by wp_walk]. Qed.

Lemma shutdown_safe reason : op_safe (shutdown callback reason).
Proof.
  intros c e h Hs. pose proof (safe_persistent _ _ Hs) as Hc. unfold shutdown. wp_walk.
  - eapply wp_mono; [apply call_if_safe, safe_event; by eapply safe_over|]. intros ? [c' e' h'] Hs'. by wp_walk.
  - apply safe_event. by eapply safe_over.
  - s_call call_if_safe. wp_walk. safe_done.
  - safe_done.
Qed.

(** ** Lifecycle *)
Lemma connect_safe opts : across = true -> opt_clean_session opts = false -> op_safe (connect opts).
Proof.
  intros Ha Ho c e h Hs. unfold connect. wp_walk; try safe_done.
  destruct (connect_remaining_length opts); [|wp_walk; safe_done]. unfold connect_start. rewrite Ho. wp_walk.
  s_call enqueue_sized_safe. wp_walk; [safe_done|]. destruct Hs0 as [Hc0 Ht0 (h' & Hh & Hs0)].
  split; [done | done|]. exists h'. split; [done|]. destruct Hs0 as [?|[?|[? _]]]; [by left | by right; left | congruence].
Qed.

Lemma disconnect_safe : op_safe (disconnect callback).
Proof.
  intros c e h Hs. unfold disconnect. wp_walk. destruct (state_ c) eqn:Hst0; wp_walk; try safe_done.
  all: try (s_call shutdown_safe; wp_walk; safe_done).
  eapply wp_mono; [by apply enqueue_sized_state|]. intros r [c1 e1 h1] [Hs1 Hst]. cbn [cl] in Hst.
  wp_walk; [|s_call shutdown_safe; wp_walk; safe_done]. eapply safe_same; [exact Hs1|]. split_and!; try done. cbn. congruence.
Qed.

Lemma abort_safe : op_safe (abort callback).
Proof. intros c e h Hs. unfold abort. wp_walk. s_call shutdown_safe. wp_walk. safe_done. Qed.

(** ** Publish and subscribe *)
(** Only slot [i] changed, which carries something else. *)
Ltac elsewhere i :=
  eapply (safe_at _ _ _ i); [eassumption | | | done | done | done];
  [ let s := fresh "s" in intros s ? ?; exfalso;
    match goal with H : forall s, _ -> ~ carries _ s |- _ => eapply H; eassumption end
  | let j := fresh "j" in intros j ?; cbn; rewrite ?list_lookup_alter_ne by done; done ].

Lemma publish_slot_safe i topic payload qos retain id c e h :
  safe c h -> (forall s, outbound_ c !! i = Some s -> ~ carries p s) ->
  wp True (publish_slot i topic payload qos retain id) (fun _ => safe_sys) (mkSys c e h).
Proof.
  intros Hs Hno. unfold publish_slot. wp_walk. destruct (encode_publish _ _ _ _ _ _ _) as [[n|er] packet]; wp_walk.
  - unfold enqueue. wp_walk. destruct (tx_reserve _ _ _). wp_walk; unfold safe_sys; cbn [cl history]; elsewhere i.
  - unfold safe_sys. cbn [cl history]. elsewhere i.
Qed.

Lemma publish_safe topic payload qos retain : op_safe (publish topic payload qos retain).
Proof.
  intros c e h Hs. unfold publish. wp_walk; try safe_done.
  - destruct (publish_remaining_length _ _ _); wp_walk; [|safe_done]. s_call enqueue_sized_safe. wp_walk. safe_done.
  - destruct (free_outbound_slot c) as [i|] eqn:Ef; [|wp_walk; safe_done].
    apply find_index_Some in Ef as (_ & s & Hi & Hfree). pose proof (same_alloc_packet c) as Ha.
    destruct (alloc_packet_id c) as [id c1]. cbn [snd] in Ha.
    assert (Hs1 : safe c1 h) by (by eapply safe_same). wp_walk; [safe_done|].
    apply publish_slot_safe; [done|]. destruct Ha as (-> & _). intros s' Hs' Hcs. rewrite Hi in Hs'.
    injection Hs' as <-. apply carries_not_free in Hcs. congruence.
Qed.

Lemma subscribe_safe subs handler : op_safe (subscribe subs handler).
Proof.
  intros c e h Hs. unfold subscribe. wp_walk; try safe_done. destruct (check_filters subs); wp_walk; try safe_done.
  destruct (subscribe_remaining_length subs); wp_walk; [|safe_done].
  pose proof (same_alloc_packet c) as Ha. destruct (alloc_packet_id c) as [id c1]. cbn [snd] in Ha.
  assert (Hs1 : safe c1 h) by (by eapply safe_same). wp_walk; [safe_done|].
  s_call enqueue_sized_safe. wp_walk; [safe_done|].
  pose proof (same_register_all subs handler c0) as Hr. destruct (register_subscriptions subs handler c0) as [sids c2].
  cbn [snd] in Hr. assert (Hs2 : safe c2 h1) by (by eapply safe_same). wp_walk. safe_done.
Qed.

Lemma unsubscribe_safe filters : op_safe (unsubscribe filters).
Proof.
  intros c e h Hs. unfold unsubscribe. wp_walk; try safe_done.
  destruct (unsubscribe_remaining_length filters); wp_walk; [|safe_done].
  pose proof (same_alloc_packet c) as Ha. destruct (alloc_packet_id c) as [id c1]. cbn [snd] in Ha.
  assert (Hs1 : safe c1 h) by (by eapply safe_same). wp_walk; [safe_done|].
  s_call enqueue_sized_safe. wp_walk; safe_done.
Qed.

(** ** Receiving *)
Lemma dispatch_loop_safe left_ : forall i m handled, op_safe (dispatch_loop callback left_ i m handled).
Proof.
  induction left_ as [|left_ IH]; intros i m handled c e h Hs; cbn [dispatch_loop]; wp_walk; [safe_done|].
  destruct (subscriptions_ c !! i) as [s|]; wp_walk; [|safe_done]. destruct (sub_handler s); [|by apply IH].
  wp_walk; [|by apply IH]. s_call callback_safe. wp_walk; [safe_done | by apply IH].
Qed.

Lemma dispatch_safe m : op_safe (dispatch callback m).
Proof.
  intros c e h Hs. unfold dispatch. wp_walk. s_call dispatch_loop_safe.
  destruct a as [[|]|]; wp_walk; try safe_done. s_call call_if_safe. done.
Qed.

Lemma handle_connack_safe body : op_safe (handle_connack callback body).
Proof.
  intros c e h Hs. unfold handle_connack. wp_walk; [safe_done|]. destruct (decode_connack body); wp_walk; try safe_done.
  all: s_call call_if_safe; wp_walk; safe_done.
Qed.

Lemma handle_publish_safe hd body : op_safe (handle_publish callback hd body).
Proof.
  intros c e h Hs. unfold handle_publish. wp_walk; [safe_done|]. destruct (decode_publish hd body) as [m|]; wp_walk; try safe_done.
  all: try (s_call dispatch_safe; wp_walk; safe_done).
  all: s_call send_ack_safe; wp_walk; try safe_done; s_call dispatch_safe; wp_walk; safe_done.
Qed.

(** The slot found by an identifier that is not the parcel's carries something
    else. *)
Lemma found_elsewhere id c i :
  find_outbound id c = Some i -> id <> parcel_id p -> forall s, outbound_ c !! i = Some s -> ~ carries p s.
Proof.
  intros Hf Hne s Hi (Hid & _). apply find_index_Some in Hf as (_ & s' & Hi' & Hh). rewrite Hi in Hi'.
  injection Hi' as <-. unfold slot_holds in Hh. zbool. congruence.
Qed.

(** The slot is released before the application is told, in one go. *)
Lemma complete_delivery_safe wait body : op_safe (complete_delivery callback wait body).
Proof.
  intros c e h Hs. unfold complete_delivery. destruct (decode_packet_id body) as [id|]; wp_walk; try safe_done.
  destruct (find_outbound id c) as [i|] eqn:Ef; wp_walk; try safe_done.
  pose proof Hs as [Hc [hd Ht] (h' & Hh & _)]. rewrite Ht. cbn [call_if].
  eapply wp_mono; [apply Hcb|intros ? [c' e' h''] Hs'; wp_walk; exact Hs'].
  destruct (decide (id = parcel_id p)) as [->|Hne].
  - split; [done | cbn; by rewrite Ht|]. exists (h' ++ [EvCall (CbDelivery hd (parcel_id p))]).
    split; [by rewrite Hh, app_assoc|]. right. left. exists hd. apply in_or_app. right. by left.
  - apply safe_event. pose proof (found_elsewhere id c i Ef Hne). elsewhere i.
Qed.

Lemma resend_slot_safe i : op_safe (resend_slot i).
Proof.
  intros c e h Hs. unfold resend_slot. wp_walk. s_call enqueue_safe. wp_walk; [|safe_done].
  apply safe_slot; [|done]. intros s _. apply carries_sent.
Qed.

(** PUBREC on the slot that carries the parcel. *)
Lemma pubrec_carries s :
  carries p s -> slot_phase s = WaitPubrec ->
  let pkt := ack_packet Pubrel (parcel_id p) in
  encode_ack (slot_packet s) Pubrel (parcel_id p) = (Val (zlen pkt), pkt ++ zdrop (zlen pkt) (slot_packet s)) /\
  carries p (s <| slot_packet := pkt ++ zdrop (zlen pkt) (slot_packet s) |> <| slot_packet_len := u16 (zlen pkt) |>
               <| slot_phase := WaitPubcomp |>).
Proof.
  intros (Hid & Hlen & Hs) Hph pkt. rewrite Hph in Hs. destruct Hs as [Hq _]. pose proof Hp as Hid'. unfold id_ok in Hid'.
  assert (Hz : zlen pkt = 4) by apply zlen_ack_packet.
  destruct (encode_ack_encodes Pubrel (parcel_id p) ltac:(done) ltac:(unfold is_u16; lia) ltac:(lia) (slot_packet s)) as [He _].
  change (wire_packet Pubrel false AtMostOnce false (be16 (parcel_id p))) with pkt in He. split; [apply He; lia|].
  split; [done|]. cbn [slot_packet slot_phase update_field]. cbn. split.
  - rewrite zlen_app, zlen_zdrop by lia. lia.
  - split; [done|]. unfold stored. cbn. rewrite Hz, <- Hz. rewrite u16_small by (rewrite Hz; unfold is_u16; lia).
    apply ztake_app_zlen.
Qed.

Lemma handle_pubrec_safe body : op_safe (handle_pubrec body).
Proof.
  intros c e h Hs. unfold handle_pubrec. destruct (decode_packet_id body) as [id|]; wp_walk; try safe_done.
  destruct (find_outbound id c) as [i|] eqn:Ef; wp_walk; try safe_done.
  destruct (slot_phase (slot_at c i)) eqn:Eph; wp_walk; try safe_done; [|s_call resend_slot_safe; wp_walk; safe_done].
  pose proof Ef as Ef'. apply find_index_Some in Ef' as (_ & s & Hi & Hh). rewrite (slot_at_Some c i s Hi) in *.
  assert (Hid : carries p s -> id = parcel_id p).
  { intros (Hid & _). unfold slot_holds in Hh. zbool. congruence. }
  assert (Henc := pubrec_carries s). cbv zeta in Henc.
  destruct (encode_ack (slot_packet s) Pubrel id) as [[n|er] packet] eqn:Ee; wp_walk.
  - eapply wp_mono; [apply resend_slot_safe | intros ? [c' e' h'] Hs'; wp_walk; exact Hs'].
    eapply (safe_at c _ h i); [done | | | done | done | done].
    + intros s' Hs' Hcs. rewrite Hi in Hs'. injection Hs' as <-. rewrite (Hid Hcs) in Ee.
      destruct (Henc Hcs Eph) as [He Hc']. rewrite He in Ee. injection Ee as <- <-.
      eexists. split; [|exact Hc']. cbn. by rewrite !list_lookup_alter_eq, Hi.
    + intros j Hj. cbn. by rewrite !list_lookup_alter_ne.
  - eapply (safe_at c _ h i); [done | | | done | done | done].
    + intros s' Hs' Hcs. rewrite Hi in Hs'. injection Hs' as <-. rewrite (Hid Hcs) in Ee.
      destruct (Henc Hcs Eph) as [He _]. congruence.
    + intros j Hj. cbn. by rewrite list_lookup_alter_ne.
Qed.

Lemma handle_pubrel_safe body : op_safe (handle_pubrel body).
Proof.
  intros c e h Hs. unfold handle_pubrel. destruct (decode_packet_id body) as [id|]; wp_walk; try safe_done.
  s_call send_ack_safe. wp_walk; safe_done.
Qed.

Lemma handle_suback_safe body : op_safe (handle_suback callback body).
Proof.
  intros c e h Hs. unfold handle_suback. destruct (decode_suback body) as [v|]; wp_walk; try safe_done.
  destruct (find_pending _ _ c) as [i|]; wp_walk; try safe_done.
  eapply wp_mono; [apply call_if_safe|intros ? [c' e' h'] Hs'; wp_walk; exact Hs'].
  eapply safe_same; [done|]. apply same_trans with (apply_return_codes (sv_return_codes v) (ack_subs (ack_at c i)) c);
    [apply same_apply | done].
Qed.

Lemma handle_unsuback_safe body : op_safe (handle_unsuback body).
Proof.
  intros c e h Hs. unfold handle_unsuback. destruct (decode_packet_id body) as [id|]; wp_walk; try safe_done.
  destruct (find_pending _ _ c) as [i|]; wp_walk; try safe_done. unfold safe_sys. cbn [cl history].
  eapply safe_same; [done|]. apply same_trans with (erase_subscriptions (ack_subs (ack_at c i)) c);
    [apply same_erase_all | done].
Qed.

Lemma handle_packet_safe hd body : op_safe (handle_packet callback hd body).
Proof.
  unfold handle_packet. destruct (fh_type hd);
    try (by apply handle_connack_safe || apply handle_publish_safe || apply complete_delivery_safe ||
         apply handle_pubrec_safe || apply handle_pubrel_safe || apply handle_suback_safe || apply handle_unsuback_safe);
    intros c e h Hs; wp_walk; safe_done.
Qed.

Lemma drain_round_safe : op_safe (drain_round callback).
Proof.
  intros c e h Hs. unfold drain_round. wp_walk; [safe_done|]. destruct (peek_header _) as [pk|]; wp_walk; try safe_done.
  s_call handle_packet_safe. wp_walk; safe_done.
Qed.

Lemma drain_rx_loop_safe fuel : op_safe (drain_rx_loop callback fuel).
Proof.
  induction fuel as [|fuel IH]; intros c e h Hs; [done|]. cbn [drain_rx_loop]. wp_walk. s_call drain_round_safe.
  destruct a; wp_walk; [safe_done | by apply IH].
Qed.

Lemma drain_rx_safe : op_safe (drain_rx callback).
Proof. intros c e h Hs. unfold drain_rx. wp_walk. by apply drain_rx_loop_safe. Qed.

Lemma after_recv_safe again : op_safe again -> op_safe (after_recv callback again).
Proof. intros Ha c e h Hs. unfold after_recv. wp_walk. s_call drain_rx_safe. wp_walk; try safe_done. by apply Ha. Qed.

Lemma pump_rx_loop_safe rounds : op_safe (pump_rx_loop callback rounds).
Proof.
  induction rounds as [|rounds IH]; intros c e h Hs; cbn [pump_rx_loop]; wp_walk; [safe_done | |by apply after_recv_safe].
  destruct (transport_recv _ e) as [[er got] e']. cbn [fst snd].
  wp_walk; try safe_done; try (by apply drain_rx_safe). apply after_recv_safe; [done | safe_done].
Qed.

(** ** Timers *)
Lemma pump_keep_alive_safe : op_safe pump_keep_alive.
Proof. intros c e h Hs. unfold pump_keep_alive. wp_walk; try safe_done. s_call enqueue_sized_safe. wp_walk; safe_done. Qed.

Lemma retransmit_loop_safe left_ : forall i forced t, op_safe (retransmit_loop left_ i forced t).
Proof.
  induction left_ as [|left_ IH]; intros i forced t c e h Hs; cbn [retransmit_loop]; wp_walk; try safe_done; try (by apply IH).
  assert (Hs1 : safe (c <| outbound_ ::= alter mark_dup i |>) h) by (apply safe_slot; [intros s _; apply carries_dup | done]).
  s_call enqueue_safe. wp_walk; apply IH; [|done]. apply safe_slot; [intros s _; apply carries_sent | done].
Qed.

Lemma pump_retransmit_safe : op_safe pump_retransmit.
Proof. intros c e h Hs. unfold pump_retransmit. wp_walk; [safe_done|]. apply retransmit_loop_safe. safe_done. Qed.

Lemma pump_resubscribe_safe : op_safe pump_resubscribe.
Proof.
  intros c e h Hs. unfold pump_resubscribe. wp_walk; try safe_done. destruct (subscribe_remaining_length _); wp_walk; [|safe_done].
  pose proof (same_alloc_packet c) as Ha. destruct (alloc_packet_id c) as [id c1]. cbn [snd] in Ha.
  assert (Hs1 : safe c1 h) by (by eapply safe_same). wp_walk; [safe_done|].
  s_call enqueue_sized_safe. wp_walk; [safe_done|]. unfold safe_sys. cbn [cl history].
  eapply safe_same; [exact Hs0|]. eapply same_trans; [apply same_clear | done].
Qed.

(** ** The pump *)
Lemma flush_safe : op_safe (e <- pump_tx;; if negb (Error_eqb e Ok) then shutdown callback e else ret Ok).
Proof. intros c e h Hs. wp_walk. s_call pump_tx_safe. wp_walk; [by apply shutdown_safe | safe_done]. Qed.

Lemma step_tail_safe : op_safe (step_tail callback).
Proof.
  assert (Hmain : forall b : bool, op_safe (
    e <- (if b then
            e <- pump_keep_alive;;
            if negb (Error_eqb e Ok) then e <- shutdown callback e;; ret (Some e)
            else pump_resubscribe;;; pump_retransmit;;; ret None
          else ret None);;
    match e with
    | Some e => ret e
    | None => e <- pump_tx;; if negb (Error_eqb e Ok) then shutdown callback e else ret Ok
    end)).
  { intros b c e h Hs. apply wp_bind. destruct b; [|apply wp_ret; by apply flush_safe]. apply wp_bind.
    s_call pump_keep_alive_safe. wp_walk_step; apply wp_bind.
    - s_call shutdown_safe. wp_walk. safe_done.
    - s_call pump_resubscribe_safe. apply wp_bind. s_call pump_retransmit_safe. apply wp_ret. by apply flush_safe. }
  intros c e h Hs. unfold step_tail. apply wp_bind, wp_get. cbn [cl].
  destruct (state_ c); try (by apply Hmain); wp_walk; try safe_done. apply shutdown_safe. safe_done.
Qed.

Lemma step_io_safe : op_safe (step_io callback).
Proof.
  intros c e h Hs. unfold step_io. wp_walk. s_call pump_tx_safe. wp_walk; try (by apply shutdown_safe).
  s_call pump_rx_loop_safe. wp_walk; [by apply shutdown_safe | by apply step_tail_safe].
Qed.

Lemma step_safe : op_safe (step callback).
Proof.
  assert (Honce : op_safe (step_once callback)).
  { intros c e h Hs. unfold step_once. wp_walk. destruct (state_ c) eqn:Hst; try (by apply step_io_safe); [wp_walk; safe_done|].
    apply wp_bind, wp_with_env. destruct (transport_connect e) as [er e']. cbn [fst snd].
    wp_walk; try safe_done; try (apply shutdown_safe; safe_done). apply step_io_safe. safe_done. }
  intros c e h Hs. unfold step. wp_walk; [safe_done|]. s_call Honce. wp_walk. safe_done.
Qed.

Lemma api_safe call : carries_on across call -> op_safe (api callback call).
Proof.
  intros Hok c e h Hs. destruct call; cbn [api carries_on] in *; wp_walk; try safe_done.
  - destruct Hok as [Ha Ho]. s_call (connect_safe opts Ha Ho). wp_walk. safe_done.
  - s_call disconnect_safe. wp_walk. safe_done.
  - s_call abort_safe. wp_walk. safe_done.
  - by apply publish_safe.
  - by apply subscribe_safe.
  - by apply unsubscribe_safe.
  - s_call step_safe. wp_walk. safe_done.
  - destruct Hs as [Hc Ht Hsn]. by split.
Qed.
End operations.

(** ** Runs *)
Section runs.
Context {Cfg : Config} `{WS : WideSizeT} `{BWO : ByteStreamWriterOk} `{BRO : ByteStreamReaderOk}.
Context {E : Type} {T : Transport E} {CK : Clock E}.
Context (across : bool) (app : Callback -> Handler E).

(** What an application goes on to do that asks for no clean session, or for no
    connection, and what happens around it. *)
Inductive continues (s : Sys E) : Sys E -> Prop :=
  | continues_here : continues s s
  | continues_env s' e : continues s s' -> continues s (s' <| env := e |>)
  | continues_call depth c s' r s'' :
      continues s s' -> carries_on across c -> call app depth c s' = Some (r, s'') -> continues s s''.

Context (p : Parcel) (Hp : id_ok (parcel_id p)) (Happ : forall cb, handler_calls (carries_on across) (app cb)).

Lemma run_handler_safe h0 callback prog :
  (forall cb, cb_safe across p h0 callback cb) -> handler_calls (carries_on across) prog -> op_safe (E := E) across p h0 (run_handler callback prog).
Proof.
  intros Hcb Hprog. induction Hprog as [|f k Hk IH|k Hk IH|call k Hc Hk IH]; intros c e h Hs; cbn [run_handler].
  - done.
  - apply wp_bind, wp_with_env. by apply IH.
  - by apply (IH c e).
  - apply wp_bind. eapply wp_mono; [by apply api_safe|]. intros r [c' e' h'] Hs'. by apply IH.
Qed.

Lemma run_callback_safe h0 depth : forall cb, cb_safe across p h0 (run_callback app depth) cb.
Proof.
  induction depth as [|depth IH]; intros cb c e h Hs; [done|]. cbn [run_callback]. apply wp_bind, wp_record.
  by apply run_handler_safe.
Qed.

Lemma continues_safe h0 s s' : continues s s' -> safe_sys across p h0 s -> safe_sys across p h0 s'.
Proof.
  intros Hr Hs. induction Hr as [|s' e Hr IH|depth c s' r s'' Hr IH Hc Hrun]; [done | done |].
  destruct s' as [c' e' h']. pose proof (api_safe across p Hp h0 _ (run_callback_safe h0 depth) c Hc c' e' h' IH) as Hw.
  unfold wp in Hw. unfold call in Hrun. by rewrite Hrun in Hw.
Qed.
End runs.

(** ** What [publish] accepts *)
Section accepted.
Context {Cfg : Config} {COK : ConfigOk Cfg} {CS : ConfigSane Cfg}.
Context `{WS : WideSizeT} `{BWO : ByteStreamWriterOk} `{BRO : ByteStreamReaderOk}.
Context {E : Type} {T : Transport E} {CK : Clock E}.

(** The outcome of an accepted message: it is carried under the reported
    identifier, and nothing else that matters changed. *)
Definition accepted topic payload qos retain (c : Client) (h : list Event) (r : Error * option Z) (s : Sys E) : Prop :=
  forall id, r = (Ok, Some id) ->
  id_ok id /\ carried (mkParcel id qos retain topic payload) (cl s) /\ history s = h /\
  clean_session_ (cl s) = clean_session_ c /\ on_delivery_ (cl s) = on_delivery_ c.

(** A slot that was filled carries the message. *)
Lemma filled_carries topic payload qos retain id t (s : OutboundSlot) :
  let pkt := publish_packet false qos retain topic payload id in
  publish_wf false qos topic payload id -> qos <> AtMostOnce -> zlen pkt <= zlen (slot_packet s) ->
  zlen (slot_packet s) = kPersistSize -> 8 <= kPersistSize ->
  carries (mkParcel id qos retain topic payload)
    (filled_slot (pkt ++ zdrop (zlen pkt) (slot_packet s)) id (zlen pkt) qos t s).
Proof.
  intros pkt Hwf Hq Hl Hk H8. pose proof (zlen_nonneg pkt).
  destruct (filled_slot_ok false qos retain topic payload id (slot_packet s) t s Hwf Hq Hl Hk) as [Hz _].
  split; [done|]. split; [fold pkt in Hz; lia|].
  assert (Hst : stored (filled_slot (pkt ++ zdrop (zlen pkt) (slot_packet s)) id (zlen pkt) qos t s) = pkt).
  { unfold stored, filled_slot. cbn [slot_packet slot_packet_len]. rewrite u16_small; [apply ztake_app_zlen|].
    destruct CS. unfold is_u16, kPersistSize, at_least_one in *. case_if_in Hk; lia. }
  destruct Hwf as (_ & Hq2 & _). unfold AtMostOnce, AtLeastOnce, ExactlyOnce in *.
  assert (qos = 1 \/ qos = 2) as [-> | ->] by lia; (split; [done|]; exists false; exact Hst).
Qed.

Lemma publish_slot_accepts i s topic payload qos retain id c e h :
  0 <= qos -> qos <> AtMostOnce -> zlen payload < 2 ^ 63 -> is_valid_topic_name topic = true -> id_ok id ->
  outbound_ c !! i = Some s -> zlen (slot_packet s) = kPersistSize -> 8 <= kPersistSize ->
  wp True (publish_slot i topic payload qos retain id) (accepted topic payload qos retain c h) (mkSys c e h).
Proof.
  intros Hq Hq0 Hp Et Hid Hi Hk H8. unfold publish_slot. apply wp_bind, wp_get. cbn [cl].
  rewrite (slot_at_Some c i s Hi).
  destruct (encode_publish_cases topic payload qos retain id (slot_packet s) Et Hq Hp Hid)
    as [(er & packet & -> & _ & Her) | (Hwf & Hl & ->)]; unfold update_slot; wp_steps.
  { by intros id' [=]. }
  unfold enqueue, now. wp_steps. cbn [cl]. destruct (tx_reserve _ _ _) as [[] q]; cbn [negb]; wp_steps; cbn [cl];
    [|by intros id' [= ?]]. change (negb (Error_eqb Ok Ok)) with false. cbv iota. wp_steps.
  intros id' [= <-]. split; [done|]. split; [|done].
  eexists i, _. split; [cbn; rewrite !list_lookup_alter_eq, Hi; reflexivity|].
  by apply (filled_carries topic payload qos retain id _ s).
Qed.

Lemma publish_accepts topic payload qos retain c e h :
  0 <= qos -> zlen payload < 2 ^ 63 -> sys_ok (mkSys c e h) ->
  wp True (publish topic payload qos retain) (accepted topic payload qos retain c h) (mkSys c e h).
Proof.
  intros Hq Hp Hok. unfold publish. apply wp_bind, wp_get. cbn [cl].
  case_if; [by intros ? [=]|]. destruct (is_valid_topic_name topic) eqn:Et; cbn [negb]; [|by intros ? [=]].
  case_if; [by intros ? [=]|]. destruct (qos =? AtMostOnce) eqn:Eq0; zbool.
  { destruct (publish_remaining_length _ _ _); [|by intros ? [=]]. apply wp_bind. unfold wp at 1.
    destruct (enqueue_sized _ _ _) as [[er s]|]; [by intros ? [=] | done]. }
  destruct (max_inflight_out =? 0) eqn:Em; [by intros ? [=]|]. zbool.
  destruct (free_outbound_slot c) as [i|] eqn:Ef; [|by intros ? [=]].
  apply find_index_Some in Ef as (_ & s & Hi & _).
  pose proof (alloc_packet_id_spec c ltac:(by open_ok Hok; destruct Hout as (_ & _ & ?)) ltac:(by open_ok Hok))
    as (n & Hc & _ & Hfresh).
  destruct (alloc_packet_id c) as [id c1]. cbn [fst snd] in *. subst c1.
  apply wp_bind. unfold put. apply wp_modify. destruct (id =? 0) eqn:Ei; [by intros ? [=]|]. zbool.
  destruct (Hfresh Ei) as [Hid _].
  assert (Hk : zlen (slot_packet s) = kPersistSize) by (open_ok Hok; by eapply outbound_ok_lookup in Hout as [? _]).
  pose proof config_facts as (_ & _ & _ & _ & H8 & _).
  eapply wp_mono; [apply (publish_slot_accepts i s); try done|].
  - unfold kPersistSize, at_least_one. case_if; zbool; lia.
  - done.
Qed.
End accepted.
