(* ===== verification/ClientTrace.v ===== *)
(** * ClientTrace: from the bytes received to the callbacks

    What the history of a client says about the peer's side of a connection.
    The bytes received are cut into packets in order, none skipped and none
    taken twice; every callback but the one for the end of a session is caused by
    the packet handled last; and in a persistent session a QoS 2 message is handed
    over once until its PUBREL. One invariant, [traced], is carried through every
    operation of the client, its handlers included. *)
From stdpp Require Import sets.
From S2P Require Import Prelude Errors Packet PacketFacts Etl Codec CodecFacts TxQueue.
From S2P Require Import Config Transport ClientState ClientTables Effects Client Application.
From S2P Require Import ClientInv ClientQueue StepSpecs.
#[local] Open Scope client_scope.

(** ** Reading the history *)

(** The bytes of a packet that was framed. *)
Definition packet_bytes (hd : FixedHeader) (body : list Z) : list Z :=
  to_byte hd :: vbi_wire (zlen body) ++ body.

(** What the transport produced since it was last opened or closed. *)
Definition received_event (bytes : list Z) (ev : Event) : list Z :=
  match ev with
  | EvOpen | EvClose => []
  | EvRecv got => bytes ++ got
  | _ => bytes
  end.

Definition received (h : list Event) : list Z := fold_left received_event h [].

(** The packets handled since then. *)
Definition handled_event (l : list (list Z)) (ev : Event) : list (list Z) :=
  match ev with
  | EvOpen | EvClose => []
  | EvPacket hd body => l ++ [packet_bytes hd body]
  | _ => l
  end.

Definition handled (h : list Event) : list (list Z) := fold_left handled_event h [].

(** The packet handled last. *)
Definition Framed : Type := FixedHeader * list Z.

Definition last_packet_event (p : option Framed) (ev : Event) : option Framed :=
  match ev with EvPacket hd body => Some (hd, body) | _ => p end.

Definition last_packet (h : list Event) : option Framed := fold_left last_packet_event h None.

(** The identifiers of the QoS 2 messages handed to the application for which no
    PUBREL was handled since. *)
Definition unreleased_event (ids : list Z) (ev : Event) : list Z :=
  match ev with
  | EvCall (CbMessage _ m) => if msg_qos m =? ExactlyOnce then msg_packet_id m :: ids else ids
  | EvPacket hd body =>
      if PacketType_eqb (fh_type hd) Pubrel then
        match decode_packet_id body with
        | Val id => List.filter (fun i => negb (i =? id)) ids
        | Err _ => ids
        end
      else ids
  | _ => ids
  end.

Definition unreleased (h : list Event) : list Z := fold_left unreleased_event h [].

(** The same, before the packet handled last. *)
Definition earlier_event (r : list Z * list Z) (ev : Event) : list Z * list Z :=
  (unreleased_event (fst r) ev, match ev with EvPacket _ _ => fst r | _ => snd r end).

Definition earlier (h : list Event) : list Z := snd (fold_left earlier_event h ([], [])).

#[global] Arguments received : simpl never.
#[global] Arguments handled : simpl never.
#[global] Arguments last_packet : simpl never.
#[global] Arguments unreleased : simpl never.
#[global] Arguments earlier : simpl never.

Section snoc.
Implicit Types (h : list Event) (ev : Event).

Lemma received_snoc h ev : received (h ++ [ev]) = received_event (received h) ev.
Proof. unfold received. by rewrite fold_left_app. Qed.

Lemma handled_snoc h ev : handled (h ++ [ev]) = handled_event (handled h) ev.
Proof. unfold handled. by rewrite fold_left_app. Qed.

Lemma last_packet_snoc h ev : last_packet (h ++ [ev]) = last_packet_event (last_packet h) ev.
Proof. unfold last_packet. by rewrite fold_left_app. Qed.

Lemma unreleased_snoc h ev : unreleased (h ++ [ev]) = unreleased_event (unreleased h) ev.
Proof. unfold unreleased. by rewrite fold_left_app. Qed.

Lemma earlier_fold h : forall r, fst (fold_left earlier_event h r) = fold_left unreleased_event h (fst r).
Proof. induction h as [|ev h IH]; intros r; [done|]. cbn [fold_left]. by rewrite IH. Qed.

Lemma earlier_snoc h ev :
  earlier (h ++ [ev]) = match ev with EvPacket _ _ => unreleased h | _ => earlier h end.
Proof. unfold earlier, unreleased. rewrite fold_left_app. cbn. destruct ev; try done. by rewrite earlier_fold. Qed.
End snoc.

(** A condition on each event and what came before it. *)
Definition each_event (P : list Event -> Event -> Prop) (h : list Event) : Prop :=
  forall h1 ev, h1 ++ [ev] `prefix_of` h -> P h1 ev.

Lemma each_event_nil P : each_event P [].
Proof. intros h1 ev [k Hk]. by destruct h1. Qed.

Lemma each_event_snoc P h ev : each_event P h -> P h ev -> each_event P (h ++ [ev]).
Proof.
  intros Hh Hev h1 ev1 [k Hk]. destruct k as [|x k] using rev_ind.
  - rewrite app_nil_r in Hk. apply app_inj_2 in Hk as [-> [= ->]]; done.
  - rewrite app_assoc in Hk. apply app_inj_2 in Hk as [-> _]; [|done]. apply Hh. by exists k.
Qed.

(** An update that leaves alone what the invariant is about. *)
Definition trace_same (c c' : Client) : Prop :=
  in_step_ c' = in_step_ c /\ rx_ c' = rx_ c /\ rx_len_ c' = rx_len_ c /\
  inbound_ids_ c' = inbound_ids_ c /\ clean_session_ c' = clean_session_ c /\
  (state_ c' = state_ c \/ state_ c <> Idle /\ state_ c <> Connecting /\ state_ c' <> Connecting).

Ltac trace_fields := unfold trace_same; cbn; split_and!; by auto.

Section trace.
Context {Cfg : Config} `{WS : WideSizeT} `{BW : ByteStreamWriter} `{BR : ByteStreamReader}.

(** The packet is the cause of the callback. *)
Definition caused (p : option Framed) (cb : Callback) : Prop :=
  match cb with
  | CbMessage _ m => exists hd body, p = Some (hd, body) /\ fh_type hd = Publish /\ decode_publish hd body = Val m
  | CbConnect _ info => exists hd body, p = Some (hd, body) /\ fh_type hd = Connack /\
      decode_connack body = Val info /\ ci_code info = Accepted
  | CbDelivery _ id => exists hd body, p = Some (hd, body) /\ (fh_type hd = Puback \/ fh_type hd = Pubcomp) /\
      decode_packet_id body = Val id
  | CbSuback _ id codes => exists hd body, p = Some (hd, body) /\ fh_type hd = Suback /\
      exists v, decode_suback body = Val v /\ id = sv_packet_id v /\ codes = sv_return_codes v
  | CbDisconnect _ _ => True
  end.

(** Every callback so far. *)
Definition all_caused (h : list Event) : Prop :=
  each_event (fun h1 ev => match ev with EvCall cb => caused (last_packet h1) cb | _ => True end) h.

(** No QoS 2 message was handed over that had been handed over before its packet
    came, with no PUBREL in between. *)
Definition all_once (h : list Event) : Prop :=
  each_event (fun h1 ev => match ev with
    | EvCall (CbMessage _ m) => msg_qos m = ExactlyOnce -> msg_packet_id m ∉ earlier h1
    | _ => True end) h.

(** ** The invariant *)

(** The receive buffer's contents. *)
Definition held (c : Client) : list Z := ztake (rx_len_ c) (rx_ c).

(** There is a connection. *)
Definition up (st : State) : Prop := st <> Idle /\ st <> Connecting.

(** What is fixed while a packet is handled: how many bytes of the buffer it
    is, the packet, the identifiers unreleased when it came, and identifiers that
    have been recorded for it. *)
Record Handling := mkHandling {
  hg_bytes : Z;
  hg_packet : option Framed;
  hg_earlier : list Z;
  hg_recorded : list Z;
}.

(** [None]: no step is running. *)
Definition taken (x : option Handling) : Z := match x with Some y => hg_bytes y | None => 0 end.
Definition recorded (x : option Handling) : list Z := match x with Some y => hg_recorded y | None => [] end.

(** Whether a session is persistent is a parameter: [pers] is what the
    application keeps to. *)
Context (pers : Prop).

Record once_ok (ids : list Z) c h : Prop := {
  once_clean : clean_session_ c = true -> state_ c = Idle /\ unreleased h = [] /\ ids = [];
  once_unreleased : unreleased h ⊆ inbound_ids_ c;
  once_recorded : ids ⊆ inbound_ids_ c;
  once_all : all_once h;
}.

Record traced (x : option Handling) c h : Prop := {
  tr_step : in_step_ c = match x with Some _ => true | None => false end;
  tr_mark : forall y, x = Some y -> last_packet h = hg_packet y /\ earlier h = hg_earlier y;
  tr_rx : rx_ok (rx_ c) (rx_len_ c);
  tr_connecting : state_ c = Connecting -> rx_len_ c = 0;
  tr_stream : up (state_ c) ->
    received h = concat (handled h) ++ zdrop (taken x) (held c);
  tr_caused : all_caused h;
  tr_once : pers -> once_ok (recorded x) c h;
}.

Lemma trace_same_refl c : trace_same c c.
Proof. trace_fields. Qed.

Lemma trace_same_trans a b c : trace_same a b -> trace_same b c -> trace_same a c.
Proof.
  intros (A1 & A2 & A3 & A4 & A5 & A6) (B1 & B2 & B3 & B4 & B5 & B6). unfold trace_same.
  split_and!; try congruence. destruct A6 as [<-|(? & ? & ?)], B6 as [->|(? & ? & ?)]; auto.
Qed.

Lemma traced_same x c c' h : traced x c h -> trace_same c c' -> traced x c' h.
Proof.
  intros [Hs Hm Hrx Hc Hr Hca Ho] (E1 & E2 & E3 & E4 & E5 & E6).
  split; rewrite ?E1, ?E2, ?E3; try done.
  - destruct E6 as [->|(_ & _ & ?)]; done.
  - unfold held. rewrite E2, E3. intros Hup. apply Hr. destruct E6 as [<-|(? & ? & _)]; done.
  - intros Hp. destruct (Ho Hp) as [Hcl Hu Hre Ha]. split; rewrite ?E4, ?E5; try done.
    intros Ht. destruct (Hcl Ht) as (Hi & ? & ?). split; [|done]. destruct E6 as [->|(? & _)]; done.
Qed.

(** Events that say nothing of packets. *)
Definition quiet (ev : Event) : Prop := match ev with EvSend _ => True | _ => False end.

Lemma traced_quiet x c h ev : quiet ev -> traced x c h -> traced x c (h ++ [ev]).
Proof.
  intros Hq [Hs Hm Hrx Hc Hr Hca Ho]. destruct ev; try done.
  split; rewrite ?received_snoc, ?handled_snoc; try done.
  - intros y Hy. rewrite last_packet_snoc, earlier_snoc. by apply Hm.
  - by apply each_event_snoc.
  - intros Hp. destruct (Ho Hp) as [Hcl Hu Hre Ha]. split; rewrite ?unreleased_snoc; try done.
    by apply each_event_snoc.
Qed.

(** A callback counts from its invocation on. *)
Lemma traced_call x c h cb :
  traced x c h -> caused (last_packet h) cb ->
  (pers -> forall hd m, cb = CbMessage hd m -> msg_qos m = ExactlyOnce ->
     msg_packet_id m ∉ earlier h /\ msg_packet_id m ∈ recorded x) ->
  traced x c (h ++ [EvCall cb]).
Proof.
  intros [Hs Hm Hrx Hc Hr Hca Ho] Hcause Honce.
  split; rewrite ?received_snoc, ?handled_snoc; try done.
  - intros y Hy. rewrite last_packet_snoc, earlier_snoc. by apply Hm.
  - by apply each_event_snoc.
  - intros Hp. specialize (Honce Hp). destruct (Ho Hp) as [Hcl Hu Hre Ha].
    assert (Hu' : unreleased (h ++ [EvCall cb]) = unreleased h \/
      exists id, unreleased (h ++ [EvCall cb]) = id :: unreleased h /\
        id ∈ recorded x).
    { rewrite unreleased_snoc. destruct cb as [hd m| | | |]; try (by left). cbn. case_if; [|by left]. zbool.
      right. exists (msg_packet_id m). split; [done|]. by apply (Honce hd m). }
    split.
    + intros Ht. destruct (Hcl Ht) as (Hi & Hn & Hrec). split; [done|]. split; [|done].
      destruct Hu' as [->|(id & _ & Hin)]; [done|]. rewrite Hrec in Hin. by apply not_elem_of_nil in Hin.
    + destruct Hu' as [->|(id & -> & Hin)]; [done|]. set_solver.
    + done.
    + apply each_event_snoc; [done|]. destruct cb as [hd m| | | |]; try done. intros Hq. by apply (Honce hd m).
Qed.

(** The end of a connection. *)
Lemma traced_close x c c' h :
  traced x c h -> in_step_ c' = in_step_ c -> rx_ c' = rx_ c -> rx_len_ c' = 0 -> state_ c' = Idle ->
  clean_session_ c' = clean_session_ c -> inbound_ids_ c' = (if clean_session_ c then [] else inbound_ids_ c) ->
  traced x c' (h ++ [EvClose]).
Proof.
  intros [Hs Hm Hrx Hc Hr Hca Ho] E1 E2 E3 E4 E5 E6.
  split; rewrite ?E1, ?E2, ?E3, ?E4; try done.
  - intros y Hy. rewrite last_packet_snoc, earlier_snoc. by apply Hm.
  - by eapply rx_ok_0.
  - by intros [? _].
  - by apply each_event_snoc.
  - intros Hp. destruct (Ho Hp) as [Hcl Hu Hre Ha]. split; rewrite ?E4, ?E5, ?E6, ?unreleased_snoc; cbn [unreleased_event].
    + intros Ht. destruct (Hcl Ht) as (_ & ? & ?). done.
    + destruct (clean_session_ c); [|done]. destruct (Hcl eq_refl) as (_ & -> & _). done.
    + destruct (clean_session_ c); [|done]. destruct (Hcl eq_refl) as (_ & _ & ->). done.
    + by apply each_event_snoc.
Qed.

(** A connection starts: nothing has been received on it. *)
Lemma traced_open y c h :
  traced (Some y) c h -> state_ c = Connecting ->
  traced (Some y) (c <| state_ := AwaitingConnack |>) (h ++ [EvOpen]).
Proof.
  intros [Hs Hm Hrx Hc Hr Hca Ho] Hst. specialize (Hc Hst).
  split; rewrite ?received_snoc, ?handled_snoc; try done.
  - intros z Hz. rewrite last_packet_snoc, earlier_snoc. by apply Hm.
  - intros _. unfold held. cbn. rewrite Hc, ztake_0. unfold zdrop. by rewrite drop_nil.
  - by apply each_event_snoc.
  - intros Hp. destruct (Ho Hp) as [Hcl Hu Hre Ha]. split; rewrite ?unreleased_snoc; try done.
    + intros Ht. destruct (Hcl Ht) as (Hi & _). congruence.
    + by apply each_event_snoc.
Qed.

Lemma ztake_splice {A} (l xs : list A) i :
  0 <= i <= zlen l -> ztake (i + zlen xs) (splice l i xs) = ztake i l ++ xs.
Proof.
  intros Hi. unfold splice. pose proof (zlen_ztake i l Hi) as Hz. pose proof (zlen_nonneg xs).
  rewrite <- Hz at 1. rewrite ztake_app_add by done. by rewrite ztake_app_zlen.
Qed.

(** Bytes arrive behind those held. *)
Lemma traced_recv y c h got :
  traced (Some y) c h -> hg_bytes y = 0 -> state_ c <> Connecting -> bytes_ok got ->
  rx_len_ c + zlen got <= rx_buffer_size ->
  traced (Some y) (c <| rx_ ::= fun rx => splice rx (rx_len_ c) got |> <| rx_len_ ::= fun n => n + zlen got |>)
    (h ++ [EvRecv got]).
Proof.
  intros [Hs Hm Hrx Hc Hr Hca Ho] Hk Hst Hb Hroom. pose proof Hrx as (Hz & _ & Hl). pose proof (zlen_nonneg got).
  split; rewrite ?received_snoc, ?handled_snoc; try done.
  - intros z Hz'. rewrite last_packet_snoc, earlier_snoc. by apply Hm.
  - cbn. eapply rx_ok_splice; [done | lia | lia | done | lia].
  - intros Hup. cbn in Hup, Hr |- *. rewrite (Hr Hup), Hk, !zdrop_0. unfold held. cbn.
    by rewrite <- app_assoc, ztake_splice by lia.
  - by apply each_event_snoc.
  - intros Hp. destruct (Ho Hp) as [Hcl Hu Hre Ha]. split; rewrite ?unreleased_snoc; try done.
    by apply each_event_snoc.
Qed.

(** ** A packet at the front of the buffer *)
Definition framed_body (c : Client) (p : PacketPeek) : list Z :=
  ztake (fh_remaining_length (peek_hdr p)) (zdrop (peek_header_bytes p) (rx_ c)).

Lemma held_packet c p :
  rx_ok (rx_ c) (rx_len_ c) -> peek_header (held c) = Val p -> peek_total_bytes p <= rx_len_ c ->
  held c = packet_bytes (peek_hdr p) (framed_body c p) ++ zdrop (peek_total_bytes p) (held c) /\
  0 < peek_total_bytes p.
Proof.
  intros (Hz & Hb & Hl) Hp Hle. unfold held in *.
  apply peek_header_sound in Hp as (Hv & _ & Hhb & Ht & Hi); [|by apply bytes_ok_take].
  pose proof (vbi_size_range _ Hv). unfold vbi_ok, kMaxRemainingLength in Hv.
  set (rl := fh_remaining_length (peek_hdr p)) in *. set (hb := peek_header_bytes p) in *.
  set (inp := ztake (rx_len_ c) (rx_ c)) in *.
  assert (Hinp : zlen inp = rx_len_ c) by (subst inp; rewrite zlen_ztake; lia).
  assert (Hbody : framed_body c p = ztake rl (zdrop hb inp)).
  { unfold framed_body. fold rl hb. rewrite <- (ztake_zdrop (rx_len_ c) (rx_ c)) at 1. fold inp.
    rewrite zdrop_app_le by lia. rewrite ztake_app_le; [done|]. rewrite zlen_zdrop; lia. }
  assert (Hlen : zlen (framed_body c p) = rl) by (rewrite Hbody, zlen_ztake; [lia | rewrite zlen_zdrop; lia]).
  split; [|lia]. rewrite Hi at 1. unfold packet_bytes. rewrite Hlen. cbn [app]. f_equal. rewrite <- app_assoc. f_equal.
  rewrite Ht, <- zdrop_zdrop by lia. rewrite Hbody. by rewrite ztake_zdrop.
Qed.

Lemma traced_packet y c h p :
  traced (Some y) c h -> hg_bytes y = 0 -> peek_header (held c) = Val p -> peek_total_bytes p <= rx_len_ c ->
  traced (Some (mkHandling (peek_total_bytes p) (Some (peek_hdr p, framed_body c p)) (unreleased h) [])) c
    (h ++ [EvPacket (peek_hdr p) (framed_body c p)]).
Proof.
  intros [Hs Hm Hrx Hc Hr Hca Ho] Hk Hp Hle. destruct (held_packet c p Hrx Hp Hle) as [Hheld _].
  split; rewrite ?received_snoc, ?handled_snoc; try done.
  - intros z [= <-]. by rewrite last_packet_snoc, earlier_snoc.
  - intros Hup. cbn in Hr |- *. rewrite (Hr Hup), Hk, zdrop_0, concat_app. cbn [concat]. rewrite app_nil_r, <- app_assoc.
    by rewrite <- Hheld.
  - by apply each_event_snoc.
  - intros Hps. destruct (Ho Hps) as [Hcl Hu Hre Ha].
    assert (Hsub : unreleased (h ++ [EvPacket (peek_hdr p) (framed_body c p)]) ⊆ unreleased h).
    { rewrite unreleased_snoc. cbn. case_if; [|done]. destruct (decode_packet_id _) as [id|]; [|done].
      intros z. rewrite !list_elem_of_In. by intros [? _]%filter_In. }
    split; [|set_solver|set_solver|by apply each_event_snoc].
    intros Ht. destruct (Hcl Ht) as (? & Hn & _). split_and!; [done | | done]. rewrite Hn in Hsub.
    by apply list_nil_subseteq in Hsub.
Qed.

(** The packet is dropped from the buffer, or the buffer was emptied by the end
    of the session. *)
Definition finished (y : Handling) : Handling := mkHandling 0 (hg_packet y) (hg_earlier y) [].

Lemma traced_rx y c c' h :
  traced (Some y) c h -> rx_ok (rx_ c') (rx_len_ c') -> (rx_len_ c = 0 -> rx_len_ c' = 0) ->
  held c' = zdrop (hg_bytes y) (held c) ->
  in_step_ c' = in_step_ c -> state_ c' = state_ c -> clean_session_ c' = clean_session_ c ->
  inbound_ids_ c' = inbound_ids_ c -> traced (Some (finished y)) c' h.
Proof.
  intros [Hs Hm Hrx Hc Hr Hca Ho] Hrx' H0 Hheld E1 E2 E3 E4. split; rewrite ?E1, ?E2; try done.
  - intros z [= <-]. by apply (Hm y).
  - intros Hst. apply H0. by apply Hc.
  - intros Hup. rewrite (Hr Hup). cbn. by rewrite Hheld, zdrop_0.
  - intros Hp. destruct (Ho Hp) as [Hcl Hu Hre Ha]. split; rewrite ?E2, ?E3, ?E4; try done; [|set_solver].
    intros Ht. by destruct (Hcl Ht) as (? & ? & _).
Qed.

Lemma traced_emptied y c h :
  traced (Some y) c h -> 0 <= rx_len_ c < hg_bytes y -> traced (Some (finished y)) (c <| rx_len_ := 0 |>) h.
Proof.
  intros Ht Hlt. pose proof (tr_rx _ _ _ Ht) as Hrx. eapply traced_rx; [done | | | | done..].
  - by eapply rx_ok_0.
  - done.
  - unfold held. cbn. rewrite ztake_0, zdrop_all; [done|]. destruct Hrx as (? & _ & ?). rewrite zlen_ztake; lia.
Qed.

(** The client after its buffer lost its first [k] bytes. *)
Definition consumed (k : Z) c : Client :=
  let leftover := rx_len_ c - k in
  let c' := if leftover >? 0
            then c <| rx_ ::= fun rx => splice rx 0 (ztake leftover (zdrop k rx)) |> else c in
  c' <| rx_len_ := leftover |>.

Lemma held_consumed k c :
  rx_ok (rx_ c) (rx_len_ c) -> 0 < k <= rx_len_ c ->
  held (consumed k c) = zdrop k (held c) /\ rx_ok (rx_ (consumed k c)) (rx_len_ (consumed k c)).
Proof.
  intros (Hz & Hb & Hl) Hle. unfold consumed. cbv zeta.
  set (left_ := rx_len_ c - k). assert (Hlen : zlen (ztake left_ (zdrop k (rx_ c))) = left_).
  { rewrite zlen_ztake; [lia|]. rewrite zlen_zdrop; lia. }
  assert (Hheld : zdrop k (held c) = ztake left_ (zdrop k (rx_ c))).
  { unfold held. rewrite <- (ztake_zdrop k (rx_ c)) at 1. replace (rx_len_ c) with (k + left_) by lia.
    rewrite <- (zlen_ztake k (rx_ c)) at 2 by lia. rewrite ztake_app_add by lia.
    rewrite <- (zlen_ztake k (rx_ c)) at 1 by lia. by rewrite zdrop_app_zlen. }
  rewrite Hheld. case_if; zbool; (split; [unfold held; cbn | cbn]).
  - rewrite <- Hlen at 1. apply (ztake_splice (rx_ c) (ztake left_ (zdrop k (rx_ c))) 0). lia.
  - eapply rx_ok_splice; [done | lia | lia | by apply bytes_ok_take, bytes_ok_drop | lia].
  - by replace left_ with 0 by lia.
  - unfold rx_ok. split_and!; [done | done | lia | lia].
Qed.

Lemma traced_consumed y c h :
  traced (Some y) c h -> 0 < hg_bytes y <= rx_len_ c -> traced (Some (finished y)) (consumed (hg_bytes y) c) h.
Proof.
  intros Ht Hle. destruct (held_consumed (hg_bytes y) c (tr_rx _ _ _ Ht) Hle) as [Hh Hrx].
  eapply traced_rx; [done | done | | done | ..]; unfold consumed; cbv zeta; case_if; try done; cbn; lia.
Qed.

(** ** Edits of the tables *)
Lemma trace_same_alloc c : trace_same c (snd (alloc_packet_id c)).
Proof. unfold alloc_packet_id. destruct (alloc_loop _ _ _). trace_fields. Qed.

Lemma trace_same_register subs handler : forall c, trace_same c (snd (register_subscriptions subs handler c)).
Proof.
  induction subs as [|s subs IH]; intros c; cbn; [apply trace_same_refl|].
  assert (H1 : trace_same c (snd (register_subscription s handler c))).
  { unfold register_subscription. destruct (find_subscription _ _); [trace_fields|].
    unfold alloc_sub_id. destruct (alloc_loop _ _ _). trace_fields. }
  destruct (register_subscription s handler c) as [sid c1]. specialize (IH c1). cbn [snd] in H1.
  destruct (register_subscriptions subs handler c1) as [sids c2]. by eapply trace_same_trans.
Qed.

Lemma trace_same_apply codes : forall sids c, trace_same c (apply_return_codes codes sids c).
Proof.
  induction codes as [|rc codes IH]; intros [|sid sids] c; cbn; try apply trace_same_refl.
  eapply trace_same_trans; [|apply IH]. case_if; [trace_fields|].
  destruct (find_by_sub_id _ _); trace_fields.
Qed.

Lemma trace_same_erase sids : forall c, trace_same c (erase_subscriptions sids c).
Proof.
  induction sids as [|sid sids IH]; intros c; cbn; [apply trace_same_refl|].
  eapply trace_same_trans; [|apply IH]. trace_fields.
Qed.

Lemma trace_same_clear sids : forall c, trace_same c (clear_resub sids c).
Proof.
  induction sids as [|sid sids IH]; intros c; cbn; [apply trace_same_refl|].
  eapply trace_same_trans; [|apply IH]. destruct (find_by_sub_id _ _); trace_fields.
Qed.
End trace.
