(* ===== verification/TraceSpecs.v ===== *)
(** * TraceSpecs: every operation keeps the invariant of the history *)
From stdpp Require Import sets.
From S2P Require Import Prelude Errors Packet PacketFacts Etl Codec CodecFacts TxQueue.
From S2P Require Import Config Transport ClientState ClientTables Effects Client Application.
From S2P Require Import ClientInv ClientQueue StepSpecs ClientTrace.
#[local] Open Scope client_scope.

(** What an application that keeps its session may call. *)
Definition keeps_session (call : ApiCall) : Prop :=
  match call with CallConnect opts => opt_clean_session opts = false | _ => True end.

Section operations.
Context {Cfg : Config} `{WS : WideSizeT} `{BW : ByteStreamWriter} `{BR : ByteStreamReader}.
Context {E : Type} {T : Transport E} {CK : Clock E} {TOK : TransportOk E}.
Context (pers : Prop).
Implicit Types (c : Client) (e : E) (h : list Event) (x : option Handling).

Notation tracing x := (fun (_ : _) (s : Sys E) => traced pers x (cl s) (history s)).

Definition op_traced {A} (m : M E A) : Prop :=
  forall x c e h, traced pers x c h -> wp True m (tracing x) (mkSys c e h).

(** Finish: nothing that matters changed. *)
Ltac traced_done :=
  cbn [cl history];
  repeat match goal with |- traced _ _ _ (_ ++ [EvSend _]) => apply traced_quiet; [exact I|] end;
  first [assumption | eapply traced_same; [eassumption | unfold trace_same; cbn; split_and!; auto; fail]].

Ltac t_call L :=
  let c := fresh "c" in let e := fresh "e" in let h := fresh "h" in let H := fresh "Ht" in
  eapply wp_mono; [apply L; traced_done | intros ? [c e h] H; cbn [cl history] in H].

(** Queuing changes nothing but the queue. *)
Definition only_tx {A} c e h (_ : A) (s : Sys E) : Prop := exists q, s = mkSys (c <| tx_ := q |>) e h.

Lemma enqueue_only_tx bytes c e h : wp True (enqueue bytes) (only_tx c e h) (mkSys c e h).
Proof. unfold enqueue. wp_walk. destruct (tx_reserve _ _ _). wp_walk; by eexists. Qed.

Lemma enqueue_sized_only_tx size enc c e h : wp True (enqueue_sized size enc) (only_tx c e h) (mkSys c e h).
Proof.
  unfold enqueue_sized. wp_walk; [exists (tx_ c); by destruct c|]. destruct (tx_reserve _ _ _).
  wp_walk; [by eexists|]. destruct (enc _) as [[n|er] out]; wp_walk; by eexists.
Qed.

Lemma only_tx_traced {A} (m : M E A) : (forall c e h, wp True m (only_tx c e h) (mkSys c e h)) -> op_traced m.
Proof. intros Hm x c e h Ht. eapply wp_mono; [apply Hm|]. intros ? s [q ->]. traced_done. Qed.

Lemma enqueue_traced bytes : op_traced (enqueue bytes).
Proof. apply only_tx_traced, enqueue_only_tx. Qed.

Lemma enqueue_sized_traced size enc : op_traced (enqueue_sized size enc).
Proof. apply only_tx_traced, enqueue_sized_only_tx. Qed.

Lemma pump_tx_state x c e h :
  traced pers x c h ->
  wp True pump_tx (fun _ s => traced pers x (cl s) (history s) /\ state_ (cl s) = state_ c) (mkSys c e h).
Proof.
  assert (Hloop : forall fuel c e h, traced pers x c h ->
    wp True (pump_tx_loop fuel) (fun _ s => traced pers x (cl s) (history s) /\ state_ (cl s) = state_ c) (mkSys c e h)).
  { clear c e h. induction fuel as [|fuel IH]; intros c e h Ht; [done|]. cbn [pump_tx_loop]. wp_walk; [done|].
    destruct (transport_send _ e) as [[er written] e']. cbn [fst snd]. wp_walk; try done.
    eapply wp_mono; [apply IH; traced_done | done]. }
  intros Ht. unfold pump_tx. wp_walk. by apply Hloop.
Qed.

Lemma pump_tx_traced : op_traced pump_tx.
Proof. intros x c e h Ht. eapply wp_mono; [by apply pump_tx_state|]. by intros ? s [? _]. Qed.

Lemma send_ack_traced type id : op_traced (send_ack type id).
Proof. apply enqueue_sized_traced. Qed.

(** A callback counts from its invocation on. *)
Definition cb_traced (callback : Callback -> M E unit) (cb : Callback) : Prop :=
  forall x c e h, traced pers x c (h ++ [EvCall cb]) -> wp True (callback cb) (tracing x) (mkSys c e h).

Context (callback : Callback -> M E unit) (Hcb : forall cb, cb_traced callback cb).

Lemma call_disconnect_traced hd reason : op_traced (call_if callback hd (fun hd => CbDisconnect hd reason)).
Proof.
  intros x c e h Ht. unfold call_if. destruct hd; [|by wp_walk].
  apply Hcb, traced_call; [exact Ht | done | by intros _ ? ? [=]].
Qed.

Lemma shutdown_traced reason : op_traced (shutdown callback reason).
Proof.
  intros x c e h Ht. unfold shutdown. wp_walk; cbn [cl history];
    try (eapply wp_mono; [apply call_disconnect_traced | intros ? [c' e' h'] Ht'; wp_walk; exact Ht']);
    (eapply traced_close; [exact Ht | done | done | done | done | done |]); cbn; by rewrite E0.
Qed.

(** ** Lifecycle *)

(** Starting over from [Idle] empties the buffer. *)
Lemma traced_restart x c c' h :
  traced pers x c h -> state_ c = Idle -> in_step_ c' = in_step_ c -> rx_ c' = rx_ c -> rx_len_ c' = 0 ->
  (pers -> inbound_ids_ c' = inbound_ids_ c /\
     (clean_session_ c' = false \/ clean_session_ c' = clean_session_ c /\ state_ c' = Idle)) ->
  ~ up (state_ c') -> traced pers x c' h.
Proof.
  intros [Hs Hm Hrx Hc Hr Hca Ho] Hi E1 E2 E3 E4 E5. split; rewrite ?E1, ?E2, ?E3; try done.
  - by eapply rx_ok_0.
  - intros Hp. destruct (E4 Hp) as [Ein Ecl]. destruct (Ho Hp) as [Hcl Hu Hre Ha].
    split; rewrite ?Ein; try done. intros Ht. destruct Ecl as [?|[? ->]]; [congruence|].
    split; [done|]. apply Hcl. congruence.
Qed.

Lemma connect_traced opts : (pers -> opt_clean_session opts = false) -> op_traced (connect opts).
Proof.
  intros Ho x c e h Ht. unfold connect. wp_walk; try traced_done.
  destruct (connect_remaining_length opts); [|wp_walk; traced_done].
  assert (Hi : state_ c = Idle) by (destruct (state_ c); done).
  unfold connect_start. wp_walk; (eapply wp_mono; [apply enqueue_sized_only_tx|]); intros r s [q ->]; wp_walk;
    cbn [cl history]; (eapply traced_restart; [exact Ht | exact Hi | done | done | done | |]); cbn;
    try (intros Hp; specialize (Ho Hp); split; [done || congruence | first [by right | left; congruence]]);
    unfold up; naive_solver.
Qed.

Lemma disconnect_traced : op_traced (disconnect callback).
Proof.
  intros x c e h Ht. unfold disconnect. wp_walk. destruct (state_ c) eqn:Es; wp_walk; try traced_done.
  all: try (t_call shutdown_traced; wp_walk; traced_done).
  eapply wp_mono; [apply enqueue_sized_only_tx|]. intros r s [q ->]. wp_walk.
  - cbn [cl history]. eapply traced_same; [exact Ht|]. unfold trace_same. cbn. rewrite Es. split_and!; auto.
  - t_call shutdown_traced. wp_walk. traced_done.
Qed.

Lemma abort_traced : op_traced (abort callback).
Proof. intros x c e h Ht. unfold abort. wp_walk. t_call shutdown_traced. wp_walk. traced_done. Qed.

(** ** Publish and subscribe *)
Lemma publish_slot_traced i topic payload qos retain id : op_traced (publish_slot i topic payload qos retain id).
Proof.
  intros x c e h Ht. unfold publish_slot. wp_walk.
  destruct (encode_publish _ _ _ _ _ _ _) as [[n|er] packet]; wp_walk; [|traced_done].
  t_call enqueue_traced. wp_walk; traced_done.
Qed.

Lemma publish_traced topic payload qos retain : op_traced (publish topic payload qos retain).
Proof.
  intros x c e h Ht. unfold publish. wp_walk; try traced_done.
  - destruct (publish_remaining_length _ _ _); wp_walk; [|traced_done]. t_call enqueue_sized_traced. wp_walk. traced_done.
  - destruct (free_outbound_slot c) as [i|]; [|wp_walk; traced_done].
    pose proof (trace_same_alloc c) as Ha. destruct (alloc_packet_id c) as [id c1]. cbn [snd] in Ha.
    pose proof (traced_same _ _ _ _ _ Ht Ha) as Ht1. wp_walk; [traced_done | by apply publish_slot_traced].
Qed.

Lemma subscribe_traced subs handler : op_traced (subscribe subs handler).
Proof.
  intros x c e h Ht. unfold subscribe. wp_walk; try traced_done. destruct (check_filters subs); wp_walk; try traced_done.
  destruct (subscribe_remaining_length subs); wp_walk; [|traced_done].
  pose proof (trace_same_alloc c) as Ha. destruct (alloc_packet_id c) as [id c1]. cbn [snd] in Ha.
  pose proof (traced_same _ _ _ _ _ Ht Ha) as Ht1. wp_walk; [traced_done|].
  t_call enqueue_sized_traced. wp_walk; [traced_done|].
  pose proof (trace_same_register subs handler c0) as Hr. destruct (register_subscriptions subs handler c0) as [sids c2].
  cbn [snd] in Hr. pose proof (traced_same _ _ _ _ _ Ht0 Hr) as Ht2. wp_walk. traced_done.
Qed.

Lemma unsubscribe_traced filters : op_traced (unsubscribe filters).
Proof.
  intros x c e h Ht. unfold unsubscribe. wp_walk; try traced_done.
  destruct (unsubscribe_remaining_length filters); wp_walk; [|traced_done].
  pose proof (trace_same_alloc c) as Ha. destruct (alloc_packet_id c) as [id c1]. cbn [snd] in Ha.
  pose proof (traced_same _ _ _ _ _ Ht Ha) as Ht1. wp_walk; [traced_done|].
  t_call enqueue_sized_traced. wp_walk; traced_done.
Qed.

(** ** Packet handlers *)
Lemma callback_traced y cb c e h :
  traced pers (Some y) c h -> caused (hg_packet y) cb ->
  (pers -> forall hd m, cb = CbMessage hd m -> msg_qos m = ExactlyOnce ->
     msg_packet_id m ∉ hg_earlier y /\ msg_packet_id m ∈ hg_recorded y) ->
  wp True (callback cb) (tracing (Some y)) (mkSys c e h).
Proof.
  intros Ht Hcause Honce. destruct (tr_mark _ _ _ _ Ht y eq_refl) as [Hl He].
  apply Hcb, traced_call; [exact Ht | by rewrite Hl | by rewrite He].
Qed.

Lemma call_if_traced y hd invoke c e h :
  traced pers (Some y) c h -> (forall hd, caused (hg_packet y) (invoke hd)) ->
  (pers -> forall hd hd' m, invoke hd = CbMessage hd' m -> msg_qos m = ExactlyOnce ->
     msg_packet_id m ∉ hg_earlier y /\ msg_packet_id m ∈ hg_recorded y) ->
  wp True (call_if callback hd invoke) (tracing (Some y)) (mkSys c e h).
Proof.
  intros Ht Hcause Honce. unfold call_if. destruct hd as [hd|]; [|by wp_walk]. apply callback_traced; auto.
  intros Hp hd' m. by apply Honce.
Qed.

(** The message in hand. *)
Definition in_hand (y : Handling) (m : Message) : Prop :=
  (exists hd body, hg_packet y = Some (hd, body) /\ fh_type hd = Publish /\ decode_publish hd body = Val m) /\
  (pers -> msg_qos m = ExactlyOnce -> msg_packet_id m ∉ hg_earlier y /\ msg_packet_id m ∈ hg_recorded y).

Lemma dispatch_loop_traced y m left_ : in_hand y m -> forall i handled c e h,
  traced pers (Some y) c h -> wp True (dispatch_loop callback left_ i m handled) (tracing (Some y)) (mkSys c e h).
Proof.
  intros [Hm Ho]. induction left_ as [|left_ IH]; intros i handled c e h Ht; cbn [dispatch_loop]; wp_walk; [traced_done|].
  destruct (subscriptions_ c !! i) as [s|]; wp_walk; [|traced_done]. destruct (sub_handler s) as [hd|]; [|by apply IH].
  wp_walk; [|by apply IH]. eapply wp_mono; [apply (callback_traced y); [done | done | by intros Hp ? ? [= <- <-]; apply Ho]|].
  intros ? [c' e' h'] Ht'. wp_walk; [traced_done | by apply IH].
Qed.

Lemma dispatch_traced y m c e h :
  in_hand y m -> traced pers (Some y) c h -> wp True (dispatch callback m) (tracing (Some y)) (mkSys c e h).
Proof.
  intros Hm Ht. unfold dispatch. wp_walk. eapply wp_mono; [by apply (dispatch_loop_traced y)|].
  intros r [c' e' h'] Ht'. destruct r as [[|]|]; wp_walk; try traced_done. destruct Hm as [Hc Ho].
  apply call_if_traced; [done | done |]. by intros Hp ? ? ? [= <- <-]; apply Ho.
Qed.

(** A packet whose handling starts. *)
Record entering (y : Handling) (hd : FixedHeader) (body : list Z) c h : Prop := {
  ent_packet : hg_packet y = Some (hd, body);
  ent_recorded : hg_recorded y = [];
  ent_earlier : pers -> hg_earlier y ⊆ inbound_ids_ c;
  ent_released : pers -> forall id, fh_type hd = Pubrel -> decode_packet_id body = Val id -> id ∉ unreleased h;
}.

(** Other identifiers are recorded for the packet. *)
Lemma traced_recorded y ids c c' h :
  traced pers (Some y) c h -> in_step_ c' = in_step_ c -> rx_ c' = rx_ c -> rx_len_ c' = rx_len_ c ->
  state_ c' = state_ c -> clean_session_ c' = clean_session_ c ->
  (pers -> (clean_session_ c = true -> ids = []) /\ unreleased h ⊆ inbound_ids_ c' /\ ids ⊆ inbound_ids_ c') ->
  traced pers (Some (mkHandling (hg_bytes y) (hg_packet y) (hg_earlier y) ids)) c' h.
Proof.
  intros [Hs Hm Hrx Hc Hr Hca Ho] E1 E2 E3 E4 E5 Hi. split; rewrite ?E1, ?E2, ?E3, ?E4; try done.
  - intros z [= <-]. by apply (Hm y).
  - intros Hup. unfold held. rewrite E2, E3. by apply Hr.
  - intros Hp. destruct (Hi Hp) as (Hcl' & ? & ?). destruct (Ho Hp) as [Hcl Hu Hre Ha]. split; rewrite ?E4, ?E5; try done.
    intros Ht. destruct (Hcl Ht) as (? & ? & _). auto.
Qed.

Lemma elem_of_remove_first id z l : z ∈ l -> z <> id -> z ∈ remove_first id l.
Proof.
  induction l as [|v l IH]; [done|]. intros Hz Hne. cbn. case_if; zbool; [set_solver|].
  apply elem_of_cons in Hz as [->|Hz]; [by left | right; by apply IH].
Qed.

Lemma inbound_contains_false id c : inbound_contains id c = false -> id ∉ inbound_ids_ c.
Proof.
  intros Hf Hin. apply list_elem_of_In in Hin. unfold inbound_contains in Hf.
  assert (Ht : existsb (fun v => v =? id) (inbound_ids_ c) = true); [|congruence].
  apply existsb_exists. exists id. split; [done | apply Z.eqb_refl].
Qed.

(** A new QoS 2 message, once its identifier is recorded. *)
Lemma new_message_traced y hd body m c q e h :
  traced pers (Some y) c h -> entering y hd body c h -> fh_type hd = Publish -> decode_publish hd body = Val m ->
  state_ c = Connected -> inbound_contains (msg_packet_id m) c = false ->
  wp True (dispatch callback m;;; ret Ok) (tracing (Some y))
    (mkSys (c <| tx_ := q |> <| inbound_ids_ ::= fun l => l ++ [msg_packet_id m] |>) e h).
Proof.
  intros Ht [Hp Hrec Hea _] Hty Ed Hst Hnew. apply inbound_contains_false in Hnew. apply wp_bind.
  set (y' := mkHandling (hg_bytes y) (hg_packet y) (hg_earlier y) [msg_packet_id m]).
  eapply wp_mono; [apply (dispatch_traced y')|].
  - split; [by exists hd, body|]. intros Hps _. specialize (Hea Hps). split; [|by left]. intros Hin. by apply Hnew, Hea.
  - eapply traced_recorded; [exact Ht | done | done | done | done | done |]. intros Hps.
    destruct (tr_once _ _ _ _ Ht Hps) as [Hcl Hu _ _]. cbn. split; [|set_solver].
    intros Ht'. destruct (Hcl Ht') as [? _]. congruence.
  - intros ? [c' e' h'] Ht'. wp_walk. cbn [cl history] in *.
    assert (Hy : y = mkHandling (hg_bytes y') (hg_packet y') (hg_earlier y') []) by (destruct y; cbn in *; by rewrite Hrec).
    rewrite Hy. apply (traced_recorded y' [] c' c' h'); try done. intros Hps.
    destruct (tr_once _ _ _ _ Ht' Hps) as [_ Hu _ _]. split; [done|]. split; [done | set_solver].
Qed.

Lemma handle_publish_traced y hd body c e h :
  traced pers (Some y) c h -> entering y hd body c h -> fh_type hd = Publish ->
  wp True (handle_publish callback hd body) (tracing (Some y)) (mkSys c e h).
Proof.
  intros Ht Hent Hty. unfold handle_publish. wp_walk; [traced_done|].
  assert (Hst : state_ c = Connected) by (destruct (state_ c); done).
  destruct (decode_publish hd body) as [m|] eqn:Ed; wp_walk; try traced_done.
  all: assert (Hin : msg_qos m <> ExactlyOnce -> in_hand y m)
    by (intros Hq; split; [exists hd, body; split; [apply Hent | done] | done]).
  - zbool. eapply wp_mono; [apply (dispatch_traced y); [|done]|intros ? [c' e' h'] Ht'; wp_walk; exact Ht'].
    apply Hin. unfold AtMostOnce, ExactlyOnce in *. lia.
  - zbool. t_call send_ack_traced. wp_walk; [traced_done|].
    eapply wp_mono; [apply (dispatch_traced y); [|done]|intros ? [c' e' h'] Ht'; wp_walk; exact Ht'].
    apply Hin. unfold AtLeastOnce, ExactlyOnce in *. lia.
  - t_call send_ack_traced. wp_walk; traced_done.
  - unfold send_ack. eapply wp_mono; [apply enqueue_sized_only_tx|]. intros r s [q ->].
    wp_walk_step; [wp_walk; traced_done|]. apply wp_bind, wp_modify. by eapply new_message_traced.
Qed.

Lemma handle_connack_traced y hd body c e h :
  traced pers (Some y) c h -> entering y hd body c h -> fh_type hd = Connack ->
  wp True (handle_connack callback body) (tracing (Some y)) (mkSys c e h).
Proof.
  intros Ht [Hp _ _ _] Hty. unfold handle_connack. wp_walk; [traced_done|].
  assert (Hst : state_ c = AwaitingConnack) by (destruct (state_ c); done).
  destruct (decode_connack body) as [info|] eqn:Ed; wp_walk; try traced_done.
  all: (eapply wp_mono; [eapply call_if_traced|intros ? [c' e' h'] Ht'; wp_walk; exact Ht']).
  all: try (eapply traced_same; [exact Ht|]; unfold trace_same; cbn; rewrite Hst; split_and!; by auto).
  all: try (by intros _ ? ? ? [=]).
  all: intros hd'; exists hd, body; cbn; zbool; split_and!; try done; by apply bool_decide_eq_true in E1.
Qed.

Lemma complete_delivery_traced y hd body wait c e h :
  traced pers (Some y) c h -> entering y hd body c h -> fh_type hd = Puback \/ fh_type hd = Pubcomp ->
  wp True (complete_delivery callback wait body) (tracing (Some y)) (mkSys c e h).
Proof.
  intros Ht [Hp _ _ _] Hty. unfold complete_delivery. destruct (decode_packet_id body) as [id|] eqn:Ed; wp_walk; try traced_done.
  destruct (find_outbound id c); wp_walk; try traced_done.
  eapply wp_mono; [eapply call_if_traced; [traced_done | | by intros _ ? ? ? [=]]|intros ? [c' e' h'] Ht'; wp_walk; exact Ht'].
  intros hd'. by exists hd, body.
Qed.

Lemma resend_slot_traced i : op_traced (resend_slot i).
Proof. intros x c e h Ht. unfold resend_slot. wp_walk. t_call enqueue_traced. wp_walk; traced_done. Qed.

Lemma handle_pubrec_traced body : op_traced (handle_pubrec body).
Proof.
  intros x c e h Ht. unfold handle_pubrec. destruct (decode_packet_id body); wp_walk; try traced_done.
  destruct (find_outbound _ c) as [i|]; wp_walk; try traced_done.
  destruct (slot_phase _); wp_walk; try traced_done; [|t_call resend_slot_traced; wp_walk; traced_done].
  destruct (encode_ack _ _ _) as [[n|er] packet]; wp_walk; [|traced_done]. t_call resend_slot_traced. wp_walk. traced_done.
Qed.

Lemma handle_pubrel_traced y hd body c e h :
  traced pers (Some y) c h -> entering y hd body c h -> fh_type hd = Pubrel ->
  wp True (handle_pubrel body) (tracing (Some y)) (mkSys c e h).
Proof.
  intros Ht [_ Hrec _ Hrel] Hty. unfold handle_pubrel. destruct (decode_packet_id body) as [id|] eqn:Ed; wp_walk; try traced_done.
  unfold send_ack. eapply wp_mono; [apply enqueue_sized_only_tx|]. intros r s [q ->]. wp_walk; [traced_done|].
  cbn [cl history]. replace y with (mkHandling (hg_bytes y) (hg_packet y) (hg_earlier y) []) by (destruct y; cbn in *; by rewrite Hrec).
  eapply traced_recorded; [exact Ht | done | done | done | done | done |]. intros Hps. split; [done|]. split; [|set_solver].
  destruct (tr_once _ _ _ _ Ht Hps) as [_ Hu _ _]. specialize (Hrel Hps id Hty eq_refl). cbn.
  intros z Hz. apply elem_of_remove_first; [by apply Hu|]. congruence.
Qed.

Lemma handle_suback_traced y hd body c e h :
  traced pers (Some y) c h -> entering y hd body c h -> fh_type hd = Suback ->
  wp True (handle_suback callback body) (tracing (Some y)) (mkSys c e h).
Proof.
  intros Ht [Hp _ _ _] Hty. unfold handle_suback. destruct (decode_suback body) as [v|] eqn:Ed; wp_walk; try traced_done.
  destruct (find_pending _ _ c) as [i|]; wp_walk; try traced_done.
  eapply wp_mono; [eapply call_if_traced; [| | by intros _ ? ? ? [=]]|intros ? [c' e' h'] Ht'; wp_walk; exact Ht'].
  - eapply traced_same; [exact (traced_same _ _ _ _ _ Ht (trace_same_apply (sv_return_codes v) (ack_subs (ack_at c i)) c))|].
    trace_fields.
  - intros hd'. exists hd, body. split; [done|]. split; [done|]. by exists v.
Qed.

Lemma handle_unsuback_traced body : op_traced (handle_unsuback body).
Proof.
  intros x c e h Ht. unfold handle_unsuback. destruct (decode_packet_id body); wp_walk; try traced_done.
  destruct (find_pending _ _ c) as [i|]; wp_walk; try traced_done. cbn [cl history].
  eapply traced_same; [exact (traced_same _ _ _ _ _ Ht (trace_same_erase (ack_subs (ack_at c i)) c))|]. trace_fields.
Qed.

Lemma handle_packet_traced y hd body c e h :
  traced pers (Some y) c h -> entering y hd body c h ->
  wp True (handle_packet callback hd body) (tracing (Some y)) (mkSys c e h).
Proof.
  intros Ht Hent. unfold handle_packet. destruct (fh_type hd) eqn:Ety; try (wp_walk; traced_done).
  - by eapply handle_connack_traced.
  - by eapply handle_publish_traced.
  - eapply complete_delivery_traced; [done | done | by left].
  - by apply handle_pubrec_traced.
  - by eapply handle_pubrel_traced.
  - eapply complete_delivery_traced; [done | done | by right].
  - by eapply handle_suback_traced.
  - by apply handle_unsuback_traced.
Qed.

(** ** Receiving *)

(** While a step runs and no packet is in hand. *)
Definition between c h : Prop := exists y, hg_bytes y = 0 /\ traced pers (Some y) c h.

Definition op_between {A} (m : M E A) : Prop :=
  forall c e h, between c h -> wp True m (fun _ s => between (cl s) (history s)) (mkSys c e h).

Lemma traced_between {A} (m : M E A) : op_traced m -> op_between m.
Proof. intros Hm c e h (y & Hy & Ht). eapply wp_mono; [by apply Hm|]. intros ? s Hs. by exists y. Qed.

Lemma entering_packet p c h :
  rx_ok (rx_ c) (rx_len_ c) -> (pers -> unreleased h ⊆ inbound_ids_ c) ->
  entering (mkHandling (peek_total_bytes p) (Some (peek_hdr p, framed_body c p)) (unreleased h) [])
    (peek_hdr p) (framed_body c p) c (h ++ [EvPacket (peek_hdr p) (framed_body c p)]).
Proof.
  intros Hrx Hu. split; cbn; try done. intros _ id Hty Hd. rewrite unreleased_snoc. cbn. rewrite Hty, Hd.
  change (PacketType_eqb Pubrel Pubrel) with true. cbv iota. rewrite list_elem_of_In. intros [_ Hn]%filter_In.
  by rewrite Z.eqb_refl in Hn.
Qed.

Lemma drain_round_between : op_between (drain_round callback).
Proof.
  intros c e h (y & Hy & Ht). unfold drain_round. wp_walk; [by exists y|].
  fold (held c). destruct (peek_header (held c)) as [p|] eqn:Ep; wp_walk; try (by exists y). zbool.
  fold (framed_body c p). pose proof (tr_rx _ _ _ _ Ht) as Hrx.
  destruct (held_packet c p Hrx Ep ltac:(lia)) as [_ Hpos].
  pose proof (traced_packet _ _ _ _ _ Ht Hy Ep ltac:(lia)) as Ht1.
  set (y1 := mkHandling _ _ _ _) in Ht1.
  eapply wp_mono; [apply (handle_packet_traced y1); [exact Ht1|]|].
  { apply entering_packet; [done|]. intros Hp. apply (tr_once _ _ _ _ Ht Hp). }
  intros r [c' e' h'] Ht'. cbn [cl history] in Ht'. pose proof (tr_rx _ _ _ _ Ht') as (_ & _ & Hl').
  apply wp_bind, wp_get. cbn [cl]. destruct (rx_len_ c' <? peek_total_bytes p) eqn:Elt; zbool.
  { wp_walk. exists (finished y1). split; [done|]. cbn [cl history]. apply traced_emptied; [done | cbn; lia]. }
  pose proof (traced_consumed pers y1 c' h' Ht' ltac:(cbn; lia)) as Hfin.
  unfold consumed in Hfin. cbv zeta in Hfin. cbn [hg_bytes y1] in Hfin.
  destruct (rx_len_ c' - peek_total_bytes p >? 0); wp_walk; (exists (finished y1)); done.
Qed.

Lemma drain_rx_between : op_between (drain_rx callback).
Proof.
  assert (Hloop : forall fuel, op_between (drain_rx_loop callback fuel)).
  { induction fuel as [|fuel IH]; intros c e h Hb; [done|]. cbn [drain_rx_loop]. apply wp_bind.
    eapply wp_mono; [by apply drain_round_between|]. intros r [c' e' h'] Hb'. destruct r; [by wp_walk | by apply IH]. }
  intros c e h Hb. unfold drain_rx. wp_walk. by apply Hloop.
Qed.

Lemma pump_rx_between rounds : forall c e h, between c h -> state_ c <> Connecting ->
  wp True (pump_rx_loop callback rounds) (fun _ s => between (cl s) (history s)) (mkSys c e h).
Proof.
  induction rounds as [|rounds IH]; intros c e h Hb Hst; cbn [pump_rx_loop]; [by wp_walk|].
  assert (Hafter : forall c e h, between c h ->
    wp True (after_recv callback (pump_rx_loop callback rounds)) (fun _ s => between (cl s) (history s)) (mkSys c e h)).
  { intros c1 e1 h1 Hb1. unfold after_recv. apply wp_bind. eapply wp_mono; [by apply drain_rx_between|].
    intros r [c' e' h'] Hb'. wp_walk; try done. apply IH; [done|]. intros Hc. cbn [cl] in *. by rewrite Hc in *. }
  apply wp_bind, wp_get. cbn [cl]. case_if; [|by apply Hafter]. zbool. apply wp_bind, wp_with_env.
  pose proof (transport_recv_room (rx_buffer_size - rx_len_ c) e) as Hroom.
  pose proof (transport_recv_bytes (rx_buffer_size - rx_len_ c) e) as Hbytes.
  destruct (transport_recv _ e) as [[er got] e']. cbn [fst snd] in *.
  wp_walk; try done; try (by apply drain_rx_between). apply Hafter.
  destruct Hb as (y & Hy & Ht). exists y. split; [done|].
  eapply traced_same; [by apply (traced_recv pers y c h got Ht Hy Hst Hbytes); lia|]. trace_fields.
Qed.

(** ** Timers *)
Lemma pump_keep_alive_traced : op_traced pump_keep_alive.
Proof. intros x c e h Ht. unfold pump_keep_alive. wp_walk; try traced_done. t_call enqueue_sized_traced. wp_walk; traced_done. Qed.

Lemma pump_retransmit_traced : op_traced pump_retransmit.
Proof.
  assert (Hloop : forall left_ i forced t, op_traced (retransmit_loop left_ i forced t)).
  { induction left_ as [|left_ IH]; intros i forced t x c e h Ht; cbn [retransmit_loop]; wp_walk; try traced_done; try (by apply IH).
    t_call enqueue_traced. wp_walk; apply IH; traced_done. }
  intros x c e h Ht. unfold pump_retransmit. wp_walk; [traced_done|]. apply Hloop. traced_done.
Qed.

Lemma pump_resubscribe_traced : op_traced pump_resubscribe.
Proof.
  intros x c e h Ht. unfold pump_resubscribe. wp_walk; try traced_done. destruct (subscribe_remaining_length _); wp_walk; [|traced_done].
  pose proof (trace_same_alloc c) as Ha. destruct (alloc_packet_id c) as [id c1]. cbn [snd] in Ha.
  pose proof (traced_same _ _ _ _ _ Ht Ha) as Ht1. wp_walk; [traced_done|].
  t_call enqueue_sized_traced. wp_walk; [traced_done|]. cbn [cl history]. set (sids := sub_id <$> _).
  eapply traced_same; [exact (traced_same _ _ _ _ _ Ht0 (trace_same_clear sids c0))|]. trace_fields.
Qed.

(** ** The pump *)
Lemma step_tail_traced : op_traced (step_tail callback).
Proof.
  assert (Hflush : op_traced (e <- pump_tx;; if negb (Error_eqb e Ok) then shutdown callback e else ret Ok)).
  { intros x c e h Ht. wp_walk. t_call pump_tx_traced. wp_walk; [by apply shutdown_traced | traced_done]. }
  intros x c e h Ht. unfold step_tail. apply wp_bind, wp_get. cbn [cl].
  destruct (state_ c); try (wp_walk; first [traced_done | apply shutdown_traced; traced_done]);
    apply wp_bind; cbn [State_eqb]; try (apply wp_ret; by apply Hflush).
  change (State_eqb Connected Connected) with true. cbv iota. apply wp_bind. t_call pump_keep_alive_traced.
  wp_walk_step; apply wp_bind; [t_call shutdown_traced; wp_walk; traced_done|].
  t_call pump_resubscribe_traced. apply wp_bind. t_call pump_retransmit_traced. apply wp_ret. by apply Hflush.
Qed.

Lemma step_io_between c e h : between c h -> state_ c <> Connecting ->
  wp True (step_io callback) (fun _ s => between (cl s) (history s)) (mkSys c e h).
Proof.
  intros (y & Hy & Ht) Hst. unfold step_io. apply wp_bind. eapply wp_mono; [by apply pump_tx_state|].
  intros r [c' e' h'] [Ht' Hst']. cbn [cl history] in *. assert (Hb' : between c' h') by (by exists y).
  wp_walk; try (by apply (traced_between _ (shutdown_traced _))).
  eapply wp_mono; [apply pump_rx_between; [done | congruence]|]. intros r' [c2 e2 h2] Hb2.
  wp_walk; [by apply (traced_between _ (shutdown_traced _)) | by apply (traced_between _ step_tail_traced)].
Qed.

Lemma step_once_between : op_between (step_once callback).
Proof.
  intros c e h Hb. unfold step_once. wp_walk. cbn [cl].
  destruct (state_ c) eqn:Est; try (by apply step_io_between; [|congruence]); [by wp_walk|].
  apply wp_bind, wp_with_env. destruct (transport_connect e) as [er e']. cbn [fst snd].
  wp_walk; try done; try (by apply (traced_between _ (shutdown_traced _))).
  destruct Hb as (y & Hy & Ht). apply step_io_between; [|done]. exists y. split; [done|].
  eapply traced_same; [exact (traced_open _ _ _ _ Ht Est)|]. trace_fields.
Qed.

(** Under a running step, [step] refuses; otherwise no packet is in hand. *)
Lemma step_traced : op_traced (step callback).
Proof.
  intros x c e h Ht. unfold step. wp_walk; [traced_done|].
  destruct x as [y|]; [pose proof (tr_step _ _ _ _ Ht); cbn in *; congruence|].
  eapply wp_mono; [apply step_once_between|].
  - exists (mkHandling 0 (last_packet h) (earlier h) []). split; [done|]. destruct Ht as [Hs Hm Hrx Hc Hr Hca Ho].
    split; try done; [by intros y [= <-]|]. intros Hp. by destruct (Ho Hp).
  - intros r [c' e' h'] (y & Hy & Ht'). cbn [cl history] in Ht'. wp_walk. destruct Ht' as [Hs Hm Hrx Hc Hr Hca Ho].
    split; try done; cbn [cl history].
    + intros Hup. specialize (Hr Hup). cbn in Hr. by rewrite Hy in Hr.
    + intros Hp. destruct (Ho Hp) as [Hcl Hu Hre Ha]. split; try done; [|set_solver].
      intros Ht'. by destruct (Hcl Ht') as (? & ? & _).
Qed.

Lemma api_traced call : (pers -> keeps_session call) -> op_traced (api callback call).
Proof.
  intros Hok x c e h Ht. destruct call; cbn [api keeps_session] in *; wp_walk; try traced_done.
  - t_call (connect_traced opts Hok). wp_walk. traced_done.
  - t_call disconnect_traced. wp_walk. traced_done.
  - t_call abort_traced. wp_walk. traced_done.
  - by apply publish_traced.
  - by apply subscribe_traced.
  - by apply unsubscribe_traced.
  - t_call step_traced. wp_walk. traced_done.
Qed.
End operations.

(** ** Runs *)
Section runs.
Context {Cfg : Config} {COK : ConfigOk Cfg} `{WS : WideSizeT} `{BW : ByteStreamWriter} `{BR : ByteStreamReader}.
Context {E : Type} {T : Transport E} {CK : Clock E} {TOK : TransportOk E}.
Context (pers : Prop) (app : Callback -> Handler E) (Happ : pers -> forall cb, handler_calls keeps_session (app cb)).

(** The states of an application that asks for no clean session. *)
Inductive kept_reachable : Sys E -> Prop :=
  | kept_init e : kept_reachable (mkSys client_init e [])
  | kept_env s e : kept_reachable s -> kept_reachable (s <| env := e |>)
  | kept_call depth c s r s' :
      kept_reachable s -> keeps_session c -> call app depth c s = Some (r, s') -> kept_reachable s'.

Lemma run_handler_traced callback prog :
  (forall cb, cb_traced pers callback cb) -> (pers -> handler_calls keeps_session prog) ->
  op_traced (E := E) pers (run_handler callback prog).
Proof.
  intros Hcb. induction prog as [|f k IH|k IH|call k IH]; intros Hprog x c e h Ht; cbn [run_handler].
  - done.
  - apply wp_bind, wp_with_env. apply IH; [|done]. intros Hp. by specialize (Hprog Hp); inversion Hprog.
  - apply (IH c e); [|done]. intros Hp. by specialize (Hprog Hp); inversion Hprog.
  - apply wp_bind. eapply wp_mono; [apply api_traced; [done | | exact Ht]|].
    + intros Hp. by specialize (Hprog Hp); inversion Hprog.
    + intros r [c' e' h'] Ht'. apply IH; [|done]. intros Hp. by specialize (Hprog Hp); inversion Hprog.
Qed.

Lemma run_callback_traced depth : forall cb, cb_traced pers (run_callback app depth) cb.
Proof.
  induction depth as [|depth IH]; intros cb x c e h Ht; [done|]. cbn [run_callback]. apply wp_bind, wp_record.
  apply run_handler_traced; [done | by intros Hp; apply Happ | done].
Qed.

Lemma call_traced depth call s r s' :
  (pers -> keeps_session call) -> traced pers None (cl s) (history s) -> Application.call app depth call s = Some (r, s') ->
  traced pers None (cl s') (history s').
Proof.
  intros Hc Ht Hrun. destruct s as [c e h].
  pose proof (api_traced pers _ (run_callback_traced depth) call Hc None c e h Ht) as Hw.
  unfold wp in Hw. unfold Application.call in Hrun. by rewrite Hrun in Hw.
Qed.

Lemma traced_init : traced pers None client_init [].
Proof.
  pose proof config_facts. split; cbn; try done.
  - unfold rx_ok. rewrite zlen_replicate. split_and!; [lia | | lia | lia]. by apply Forall_replicate.
  - by apply each_event_nil.
  - intros Hp. split; cbn; try done. by apply each_event_nil.
Qed.

Lemma kept_traced s : kept_reachable s -> traced pers None (cl s) (history s).
Proof.
  induction 1 as [|s e Hr IH|depth c s r s' Hr IH Hc Hrun]; [apply traced_init | exact IH | by eapply call_traced].
Qed.
End runs.

(** Any application. *)
Lemma reachable_traced {Cfg : Config} {COK : ConfigOk Cfg} `{WS : WideSizeT} `{BW : ByteStreamWriter} `{BR : ByteStreamReader}
    {E : Type} {T : Transport E} {CK : Clock E} {TOK : TransportOk E} (app : Callback -> Handler E) s :
  reachable app s -> traced False None (cl s) (history s).
Proof.
  induction 1 as [|s e Hr IH|depth c s r s' Hr IH Hc Hrun]; [by apply traced_init | exact IH|].
  by eapply (call_traced False app).
Qed.
