(* ===== verification/ClientDevice.v ===== *)
(** * ClientDevice: the client and its transport as one system

    What the client keeps of its surroundings and of the types of its members,
    whatever the application's handlers do: a property [P] that the transport's
    methods preserve ([TransportKeeps]) holds throughout; in [Idle] the
    transport is closed; and the members stay within their C++ types. *)
From S2P Require Import Prelude Errors Packet PacketFacts Utf8 Topic Etl Codec CodecFacts TxQueue.
From S2P Require Import Config Transport ClientState ClientTables Effects Client Application.
From S2P Require Import ClientQueue.
#[local] Open Scope client_scope.

(** ** The widths of the members *)
Definition slot_widths (s : OutboundSlot) : Prop :=
  is_u16 (slot_packet_id s) /\ is_u16 (slot_packet_len s) /\ is_u32 (slot_last_sent_ms s) /\ is_u8 (slot_qos s).

Record widths (c : Client) : Prop := {
  w_rx : bytes_ok (rx_ c);
  w_slots : Forall slot_widths (outbound_ c);
  w_granted : Forall (fun s => is_u8 (sub_granted_qos s)) (subscriptions_ c);
  w_pending : Forall (fun a => is_u32 (ack_sent_ms a)) (pending_ c);
  w_keep_alive : is_u32 (keep_alive_ms_ c);
  w_last_sent : is_u32 (last_sent_ms_ c);
  w_last_received : is_u32 (last_received_ms_ c);
  w_ping_sent : is_u32 (ping_sent_ms_ c);
  w_connect_started : is_u32 (connect_started_ms_ c);
  w_overflow : is_u32 (inbound_overflow_count_ c);
  w_backpressure : is_u32 (tx_backpressure_count_ c);
}.

Section widths.
Context `{Cfg : Config}.

Lemma slots_alter f i l :
  (forall s, slot_widths s -> slot_widths (f s)) -> Forall slot_widths l -> Forall slot_widths (alter f i l).
Proof. intros Hf Hl. apply Forall_alter; [done|]. intros s Hs _. apply Hf. by eapply Forall_lookup_1. Qed.

Lemma release_widths s : slot_widths s -> slot_widths (release_slot s).
Proof. intros (? & ? & ? & ?). unfold slot_widths, is_u16. cbn. split_and!; try done; lia. Qed.

Lemma mark_dup_widths s : slot_widths s -> slot_widths (mark_dup s).
Proof. intros Hs. unfold mark_dup. case_if; [done|]. case_match; [done|]. by case_if. Qed.

Lemma slots_release l : Forall slot_widths l -> Forall slot_widths (release_slot <$> l).
Proof. intros Hl. apply Forall_fmap. eapply Forall_impl; [|exact Hl]. apply release_widths. Qed.

Lemma granted_mark l :
  Forall (fun s => is_u8 (sub_granted_qos s)) l ->
  Forall (fun s => is_u8 (sub_granted_qos s)) ((fun s => s <| sub_needs_resub := true |>) <$> l).
Proof. intros Hl. apply Forall_fmap. by eapply Forall_impl; [|exact Hl]. Qed.

Lemma granted_alter f i l :
  (forall s, is_u8 (sub_granted_qos s) -> is_u8 (sub_granted_qos (f s))) ->
  Forall (fun s => is_u8 (sub_granted_qos s)) l -> Forall (fun s => is_u8 (sub_granted_qos s)) (alter f i l).
Proof.
  intros Hf Hl. apply Forall_alter; [done|]. intros s Hs _. apply Hf.
  by eapply (Forall_lookup_1 (fun s => is_u8 (sub_granted_qos s))).
Qed.

Lemma granted_erase sid l :
  Forall (fun s => is_u8 (sub_granted_qos s)) l -> Forall (fun s => is_u8 (sub_granted_qos s)) (erase_sub sid l).
Proof. apply Forall_sublist, erase_sub_sublist. Qed.

Lemma pending_remove i (l : list PendingAck) (Q : PendingAck -> Prop) :
  Forall Q l -> Forall Q (take i l ++ drop (S i) l).
Proof. intros. apply Forall_app. split; [by apply Forall_take | by apply Forall_drop]. Qed.

Lemma bytes_ok_splice rx i xs : bytes_ok rx -> bytes_ok xs -> bytes_ok (splice rx i xs).
Proof.
  intros Hr Hx. unfold splice. rewrite !bytes_ok_app.
  split; [by apply bytes_ok_take|]. split; [done | by apply bytes_ok_drop].
Qed.
End widths.

Create HintDb widths.
#[export] Hint Resolve slots_release granted_mark granted_erase pending_remove bytes_ok_splice bytes_ok_take
  bytes_ok_drop u32_range clock_u32 release_widths mark_dup_widths : widths.

(** The bodies of the operations on tables keep the widths. *)
Section tables.
Context `{Cfg : Config}.

(** [c'] differs from [c] in tables whose widths are kept, and not in its
    state. *)
Definition table_step (c c' : Client) : Prop := (widths c -> widths c') /\ state_ c' = state_ c.

Lemma table_step_refl c : table_step c c.
Proof. done. Qed.

Lemma table_step_trans a b c : table_step a b -> table_step b c -> table_step a c.
Proof. intros [? ?] [? ?]. split; [auto | congruence]. Qed.

Ltac w_fields := intros []; constructor; cbn; eauto with widths.

Lemma alloc_loop_u16 tries in_use id r next : alloc_loop tries in_use id = (r, next) -> is_u16 r.
Proof.
  revert id; induction tries as [|tries IH]; intros id; cbn; [intros [= <- _]; unfold is_u16; lia|].
  case_if; [apply IH|]. intros [= <- _]. unfold next_id. case_if; [unfold is_u16; lia | apply u16_range].
Qed.

Lemma alloc_packet_step c id c' : alloc_packet_id c = (id, c') -> is_u16 id /\ table_step c c'.
Proof.
  unfold alloc_packet_id. destruct (alloc_loop _ _ _) eqn:Ea. intros [= <- <-].
  split; [by eapply alloc_loop_u16|]. split; [w_fields | done].
Qed.

Lemma alloc_sub_step c id c' : alloc_sub_id c = (id, c') -> table_step c c'.
Proof.
  unfold alloc_sub_id. destruct (alloc_loop _ _ _). intros [= _ <-]. split; [w_fields | done].
Qed.

Lemma update_subscription_step i f c :
  (forall s, is_u8 (sub_granted_qos s) -> is_u8 (sub_granted_qos (f s))) -> table_step c (update_subscription i f c).
Proof. intros Hf. split; [w_fields; by apply granted_alter | done]. Qed.

Lemma erase_subscription_step sid c : table_step c (erase_subscription sid c).
Proof. split; [w_fields | done]. Qed.

Lemma register_step s handler c sid c' : register_subscription s handler c = (sid, c') -> table_step c c'.
Proof.
  unfold register_subscription. destruct (find_subscription _ _) as [i|].
  - intros [= _ <-]. by apply update_subscription_step.
  - destruct (alloc_sub_id c) as [sid' c1] eqn:Ea. apply alloc_sub_step in Ea. intros [= _ <-].
    eapply table_step_trans; [done|]. split; [w_fields | done].
    apply Forall_app. split; [done|]. by repeat constructor.
Qed.

Lemma register_all_step subs handler c sids c' : register_subscriptions subs handler c = (sids, c') -> table_step c c'.
Proof.
  revert c sids c'; induction subs as [|s subs IH]; intros c sids c'; cbn; [by intros [= _ <-]|].
  destruct (register_subscription s handler c) as [sid c1] eqn:E1.
  destruct (register_subscriptions subs handler c1) as [sids' c2] eqn:E2. intros [= _ <-].
  eapply table_step_trans; [by eapply register_step | by eapply IH].
Qed.

Lemma apply_codes_step codes : forall sids c, bytes_ok codes -> table_step c (apply_return_codes codes sids c).
Proof.
  induction codes as [|rc codes IH]; intros sids c Hc; [done|]. destruct sids as [|sid sids]; [done|].
  apply bytes_ok_cons in Hc as [Hrc Hc]. cbn. eapply table_step_trans; [|by apply IH].
  case_if; [apply erase_subscription_step|]. destruct (find_by_sub_id _ _); [|done]. by apply update_subscription_step.
Qed.

Lemma erase_all_step sids : forall c, table_step c (erase_subscriptions sids c).
Proof.
  induction sids as [|sid sids IH]; intros c; [done|]. cbn.
  eapply table_step_trans; [apply erase_subscription_step | apply IH].
Qed.

Lemma clear_resub_step sids : forall c, table_step c (clear_resub sids c).
Proof.
  induction sids as [|sid sids IH]; intros c; [done|]. cbn. eapply table_step_trans; [|apply IH].
  destruct (find_by_sub_id _ _); [|done]. by apply update_subscription_step.
Qed.

Lemma reset_session_step c : table_step c (reset_session_state c).
Proof. split; [w_fields | done]. Qed.

Lemma remove_pending_step i c : table_step c (remove_pending i c).
Proof. split; [w_fields | done]. Qed.

Lemma mark_all_step c : table_step c (mark_all_resub c).
Proof. split; [w_fields | done]. Qed.
End tables.

#[export] Hint Resolve table_step_refl update_subscription_step erase_subscription_step apply_codes_step
  erase_all_step clear_resub_step reset_session_step remove_pending_step mark_all_step : widths.

(** What the application keeps of its own, [J], relates its surroundings to the
    history: the transport's methods leave it alone, and so does everything
    recorded but callbacks. *)
Class HistoryKeeps {E : Type} `{Transport E} `{Clock E} (J : E -> list Event -> Prop) : Prop := {
  history_connect e h : J e h -> J (snd (transport_connect e)) h;
  history_send data e h : J e h -> J (snd (transport_send data e)) h;
  history_recv n e h : J e h -> J (snd (transport_recv n e)) h;
  history_close e h : J e h -> J (transport_close e) h;
  history_now e h : J e h -> J (snd (now_ms e)) h;
  history_event e h ev : match ev with EvCall _ => False | _ => True end -> J e h -> J e (h ++ [ev]);
}.

(** ** The operations *)
Section device.
Context `{Cfg : Config} `{SZ : SizeT} `{BW : ByteStreamWriter} `{BR : ByteStreamReader}.
Context {E : Type} {T : Transport E} {CK : Clock E} {TOK : TransportOk E}.
Context (P closed : E -> Prop) {TK : TransportKeeps P closed}.
Context (J : E -> list Event -> Prop) {HK : HistoryKeeps J}.
Implicit Types (c : Client) (e : E) (h : list Event).

Record kept c e h : Prop := {
  kept_device : P e;
  kept_idle : state_ c = Idle -> closed e;
  kept_widths : widths c;
  kept_history : J e h;
}.

Definition kept_sys (s : Sys E) : Prop := kept (cl s) (env s) (history s).

(** The operation keeps it. *)
Definition op_keeps {A} (m : M E A) : Prop :=
  forall c e h, kept c e h -> wp True m (fun _ => kept_sys) (mkSys c e h).

Lemma kept_now c e h : kept c e h -> kept c (snd (now_ms e)) h.
Proof.
  intros [Hp Hi Hw Hj]. split; [by apply keeps_now | intros; apply closed_now; auto | done | by apply history_now].
Qed.

Lemma kept_send data c e h : kept c e h -> kept c (snd (transport_send data e)) h.
Proof.
  intros [Hp Hi Hw Hj]. split; [by apply keeps_send | intros; apply closed_send; auto | done | by apply history_send].
Qed.

Lemma kept_recv n c e h : kept c e h -> kept c (snd (transport_recv n e)) h.
Proof.
  intros [Hp Hi Hw Hj]. split; [by apply keeps_recv | intros; apply closed_recv; auto | done | by apply history_recv].
Qed.

Lemma kept_event ev c e h : kept c e h -> match ev with EvCall _ => False | _ => True end -> kept c e (h ++ [ev]).
Proof. intros [Hp Hi Hw Hj] Hev. split; [done | done | done | by apply history_event]. Qed.

Lemma kept_step c c' e h : kept c e h -> table_step c c' -> kept c' e h.
Proof. intros [Hp Hi Hw Hj] [Hw' Hs]. split; [done | rewrite Hs; auto | auto | done]. Qed.

(** An update of members of the right width; if it leaves the state, [Idle]
    does not arise. *)
Lemma kept_update c c' e h :
  kept c e h -> (state_ c' = Idle -> state_ c = Idle) -> (widths c -> widths c') -> kept c' e h.
Proof. intros [Hp Hi Hw Hj] Hs Hw'. split; auto. Qed.

Ltac w_fields := intros []; constructor; cbn; eauto with widths.

(** Finish: the members changed one by one from a state that was kept. *)
Ltac kept_done :=
  unfold kept_sys; cbn [cl env history];
  repeat match goal with
  | |- kept _ (snd (now_ms _)) _ => apply kept_now
  | |- kept _ (snd (transport_send _ _)) _ => apply kept_send
  | |- kept _ (snd (transport_recv _ _)) _ => apply kept_recv
  | |- kept _ _ (_ ++ [_]) => apply kept_event; [|exact I]
  end;
  first
    [ assumption
    | eapply kept_update; [eassumption | cbn; (done || congruence) | w_fields] ].

(** Call an operation that keeps it. *)
Ltac k_call L :=
  let c := fresh "c" in let e := fresh "e" in let h := fresh "h" in let H := fresh "Hk" in
  eapply wp_mono; [apply L; kept_done | intros ? [c e h] H; unfold kept_sys in H; cbn [cl env history] in H].

Lemma enqueue_keeps bytes : op_keeps (enqueue bytes).
Proof.
  intros c e h Hk. unfold enqueue. wp_walk. destruct (tx_reserve _ _ _) as [room q]. wp_walk; kept_done.
Qed.

Lemma enqueue_sized_keeps size enc : op_keeps (enqueue_sized size enc).
Proof.
  intros c e h Hk. unfold enqueue_sized. wp_walk; [kept_done|]. destruct (tx_reserve _ _ _) as [room q].
  wp_walk; [kept_done|]. destruct (enc _) as [[n|er] out]; wp_walk; kept_done.
Qed.

Lemma pump_tx_loop_keeps fuel : op_keeps (pump_tx_loop fuel).
Proof.
  induction fuel as [|fuel IH]; intros c e h Hk; [done|]. cbn [pump_tx_loop]. wp_walk; [kept_done|].
  pose proof (kept_send (tx_peek (tx_ c)) c e h Hk). pose proof (transport_send_written (tx_peek (tx_ c)) e).
  destruct (transport_send _ e) as [[er written] e']. cbn [fst snd] in *.
  wp_walk; try kept_done. k_call IH. done.
Qed.

Lemma pump_tx_keeps : op_keeps pump_tx.
Proof. intros c e h Hk. unfold pump_tx. wp_walk. by apply pump_tx_loop_keeps. Qed.

Lemma send_ack_keeps type id : op_keeps (send_ack type id).
Proof. apply enqueue_sized_keeps. Qed.

Context (callback : Callback -> M E unit) (Hcb : forall cb, op_keeps (callback cb)).

Lemma call_if_device hd invoke : op_keeps (call_if callback hd invoke).
Proof. intros c e h Hk. destruct hd; cbn; [by apply Hcb | by wp_walk]. Qed.

(** The transport can be closed, as it can after a [connect] that failed. *)
Definition closable c e h : Prop :=
  P (transport_close e) /\ closed (transport_close e) /\ widths c /\ J e h.

Lemma kept_closable c e h : kept c e h -> closable c e h.
Proof. intros [Hp _ Hw Hj]. destruct (keeps_close e Hp). by split_and!. Qed.

Lemma shutdown_closable reason c e h :
  closable c e h -> wp True (shutdown callback reason) (fun _ => kept_sys) (mkSys c e h).
Proof.
  intros (Hp & Hcl & Hw & Hj). unfold shutdown. wp_walk; cbn [fst snd].
  1,3: eapply wp_mono; [apply call_if_device | intros ? [c' e' h'] Hk; by wp_walk].
  all: split; [done | done | destruct Hw; constructor; cbn; eauto with widths|].
  all: apply history_event; [done | by apply history_close].
Qed.

Lemma shutdown_keeps reason : op_keeps (shutdown callback reason).
Proof. intros c e h Hk. by apply shutdown_closable, kept_closable. Qed.

(** ** Lifecycle *)
Lemma connect_keeps opts : op_keeps (connect opts).
Proof.
  intros c e h Hk. unfold connect. wp_walk; try kept_done.
  destruct (connect_remaining_length opts) as [rl|er]; [|wp_walk; kept_done].
  unfold connect_start. wp_walk.
  1: k_call enqueue_sized_keeps; wp_walk; kept_done.
  k_call enqueue_sized_keeps. wp_walk; kept_done.
Qed.

Lemma disconnect_keeps : op_keeps (disconnect callback).
Proof.
  intros c e h Hk. unfold disconnect. wp_walk. destruct (state_ c) eqn:Es; wp_walk; try kept_done.
  all: try (k_call shutdown_keeps; wp_walk; kept_done).
  k_call enqueue_sized_keeps. wp_walk; [kept_done|]. k_call shutdown_keeps. wp_walk. kept_done.
Qed.

Lemma abort_keeps : op_keeps (abort callback).
Proof. intros c e h Hk. unfold abort. wp_walk. k_call shutdown_keeps. wp_walk. kept_done. Qed.

(** ** Publish and subscribe *)

(** An edit of one slot. *)
Lemma kept_slot i f c e h :
  kept c e h -> (forall s, slot_widths s -> slot_widths (f s)) -> kept (c <| outbound_ ::= alter f i |>) e h.
Proof.
  intros Hk Hf. eapply kept_update; [done | done |]. intros []; constructor; cbn; try done. by apply slots_alter.
Qed.

Lemma encode_publish_qos out topic payload qos retain dup id n packet :
  encode_publish out topic payload qos retain dup id = (Val n, packet) -> qos <= 2.
Proof.
  destruct (Z.le_gt_cases qos 2) as [|Hq]; [done|]. unfold encode_publish, publish_remaining_length, valid_qos.
  rewrite (proj2 (Z.leb_gt _ _) Hq). cbn [negb].
  destruct (_ && _); [done|]. destruct (_ && _); [done|]. by destruct (empty topic || _).
Qed.

Ltac kept_slots := repeat (apply kept_slot; [|intros ? (? & ? & ? & ?); (split; [|split; [|split]]); cbn; eauto using u16_range with widths]).

Lemma publish_slot_keeps i topic payload qos retain id :
  0 <= qos -> is_u16 id -> op_keeps (publish_slot i topic payload qos retain id).
Proof.
  intros Hq Hid c e h Hk. unfold publish_slot. wp_walk. destruct (encode_publish _ _ _ _ _ _ _) as [[n|er] packet] eqn:Ee.
  - wp_walk. eapply wp_mono; [apply enqueue_keeps; by kept_slots|]. intros er [c' e' h'] Hk'. unfold kept_sys in Hk'.
    cbn [cl env history] in Hk'. apply encode_publish_qos in Ee.
    wp_walk; [kept_done|]. unfold kept_sys. cbn [cl env history]. kept_slots; [by apply kept_now|].
    unfold is_u8. lia.
  - wp_walk. unfold kept_sys. cbn [cl env history]. by kept_slots.
Qed.

Lemma publish_keeps topic payload qos retain : 0 <= qos -> op_keeps (publish topic payload qos retain).
Proof.
  intros Hq c e h Hk. unfold publish. wp_walk; try kept_done.
  - destruct (publish_remaining_length _ _ _); wp_walk; [|kept_done]. k_call enqueue_sized_keeps. wp_walk. kept_done.
  - destruct (free_outbound_slot c) as [i|]; wp_walk; [|kept_done].
    destruct (alloc_packet_id c) as [id c1] eqn:Ea. apply alloc_packet_step in Ea as [Hid Ea].
    wp_walk; [|apply publish_slot_keeps; [done | done |]]; by eapply kept_step.
Qed.

Lemma push_pending_kept sids id type c e h :
  kept c e h ->
  kept (c <| pending_ ::= fun l => l ++ [mkPendingAck sids (fst (now_ms e)) id type] |>) (snd (now_ms e)) h.
Proof.
  intros Hk%kept_now. eapply kept_update; [done | done |]. intros []; constructor; cbn; try done.
  apply Forall_app. split; [done|]. apply list.Forall_singleton. cbn. apply clock_u32.
Qed.

Lemma subscribe_keeps subs handler : op_keeps (subscribe subs handler).
Proof.
  intros c e h Hk. unfold subscribe. wp_walk; try kept_done.
  destruct (check_filters subs); wp_walk; try kept_done.
  destruct (subscribe_remaining_length subs); wp_walk; [|kept_done].
  destruct (alloc_packet_id c) as [id c1] eqn:Ea. apply alloc_packet_step in Ea as [_ Ea].
  assert (Hk1 : kept c1 e h) by (by eapply kept_step). wp_walk; [kept_done|].
  k_call enqueue_sized_keeps. wp_walk; [kept_done|].
  destruct (register_subscriptions subs handler c0) as [sids c2] eqn:Er. apply register_all_step in Er.
  wp_walk. apply push_pending_kept. by eapply kept_step.
Qed.

Lemma unsubscribe_keeps filters : op_keeps (unsubscribe filters).
Proof.
  intros c e h Hk. unfold unsubscribe. wp_walk; try kept_done.
  destruct (unsubscribe_remaining_length filters); wp_walk; [|kept_done].
  destruct (alloc_packet_id c) as [id c1] eqn:Ea. apply alloc_packet_step in Ea as [_ Ea].
  assert (Hk1 : kept c1 e h) by (by eapply kept_step). wp_walk; [kept_done|].
  k_call enqueue_sized_keeps. wp_walk; [kept_done|]. by apply push_pending_kept.
Qed.

(** ** Packet handlers *)
Lemma dispatch_loop_keeps left_ : forall i m handled, op_keeps (dispatch_loop callback left_ i m handled).
Proof.
  induction left_ as [|left_ IH]; intros i m handled c e h Hk; cbn [dispatch_loop]; wp_walk; [kept_done|].
  destruct (subscriptions_ c !! i) as [s|]; wp_walk; [|kept_done].
  destruct (sub_handler s); [|by apply IH]. wp_walk; [|by apply IH].
  k_call Hcb. wp_walk; [kept_done | by apply IH].
Qed.

Lemma dispatch_device m : op_keeps (dispatch callback m).
Proof.
  intros c e h Hk. unfold dispatch. wp_walk. eapply wp_mono; [by apply dispatch_loop_keeps|].
  intros r [c' e' h'] Hk'. unfold kept_sys in Hk'. cbn [cl env history] in Hk'. destruct r as [[|]|]; wp_walk; try kept_done.
  by apply call_if_device.
Qed.

Lemma handle_connack_keeps body : op_keeps (handle_connack callback body).
Proof.
  intros c e h Hk. unfold handle_connack. wp_walk; [kept_done|].
  destruct (decode_connack body); wp_walk; try kept_done.
  all: k_call call_if_device; wp_walk; kept_done.
Qed.

Lemma handle_publish_keeps hd body : op_keeps (handle_publish callback hd body).
Proof.
  intros c e h Hk. unfold handle_publish. wp_walk; [kept_done|].
  destruct (decode_publish hd body) as [m|]; wp_walk; try kept_done.
  all: try (k_call dispatch_device; wp_walk; kept_done).
  all: k_call send_ack_keeps; wp_walk; try kept_done; k_call dispatch_device; wp_walk; kept_done.
Qed.

Lemma complete_delivery_keeps wait body : op_keeps (complete_delivery callback wait body).
Proof.
  intros c e h Hk. unfold complete_delivery. destruct (decode_packet_id body) as [id|]; wp_walk; try kept_done.
  destruct (find_outbound id c) as [i|]; wp_walk; try kept_done.
  eapply wp_mono; [apply call_if_device, kept_slot; auto with widths|].
  intros ? [c' e' h'] Hk'. wp_walk. kept_done.
Qed.

Lemma resend_slot_keeps i : op_keeps (resend_slot i).
Proof.
  intros c e h Hk. unfold resend_slot. wp_walk. k_call enqueue_keeps. wp_walk; [|kept_done].
  unfold kept_sys. cbn [cl env history]. kept_slots. by apply kept_now.
Qed.

Lemma handle_pubrec_keeps body : op_keeps (handle_pubrec body).
Proof.
  intros c e h Hk. unfold handle_pubrec. destruct (decode_packet_id body) as [id|]; wp_walk; try kept_done.
  destruct (find_outbound id c) as [i|]; wp_walk; try kept_done.
  destruct (slot_phase _); wp_walk; try kept_done.
  - destruct (encode_ack _ _ _) as [[n|er] packet]; wp_walk.
    + eapply wp_mono; [apply resend_slot_keeps; by kept_slots|]. intros ? [c' e' h'] Hk'. wp_walk. kept_done.
    + unfold kept_sys. cbn [cl env history]. by kept_slots.
  - k_call resend_slot_keeps. wp_walk. kept_done.
Qed.

Lemma handle_pubrel_keeps body : op_keeps (handle_pubrel body).
Proof.
  intros c e h Hk. unfold handle_pubrel. destruct (decode_packet_id body) as [id|]; wp_walk; try kept_done.
  k_call send_ack_keeps. wp_walk; kept_done.
Qed.

Lemma decode_suback_bytes body v : bytes_ok body -> decode_suback body = Val v -> bytes_ok (sv_return_codes v).
Proof.
  intros Hb. unfold decode_suback. destruct body as [|b0 [|b1 codes]]; try done.
  rewrite !bytes_ok_cons in Hb. destruct Hb as (_ & _ & Hc).
  destruct (_ <? 3); [done|]. destruct (_ =? 0); [done|]. destruct (existsb _ _); [done|]. by intros [= <-].
Qed.

Lemma handle_suback_keeps body : bytes_ok body -> op_keeps (handle_suback callback body).
Proof.
  intros Hb c e h Hk. unfold handle_suback. destruct (decode_suback body) as [v|] eqn:Ed; wp_walk; try kept_done.
  apply decode_suback_bytes in Ed; [|done].
  destruct (find_pending _ _ c) as [i|]; wp_walk; try kept_done.
  eapply wp_mono; [apply call_if_device|intros ? [c' e' h'] Hk'; wp_walk; kept_done].
  eapply kept_step; [|apply remove_pending_step]. eapply kept_step; [done|]. by apply apply_codes_step.
Qed.

Lemma handle_unsuback_keeps body : op_keeps (handle_unsuback body).
Proof.
  intros c e h Hk. unfold handle_unsuback. destruct (decode_packet_id body) as [id|]; wp_walk; try kept_done.
  destruct (find_pending _ _ c) as [i|]; wp_walk; try kept_done.
  eapply kept_step; [|apply remove_pending_step]. eapply kept_step; [done|]. apply erase_all_step.
Qed.

Lemma handle_packet_keeps hd body : bytes_ok body -> op_keeps (handle_packet callback hd body).
Proof.
  intros Hb. unfold handle_packet. destruct (fh_type hd);
    try (by apply handle_connack_keeps || apply handle_publish_keeps || apply complete_delivery_keeps ||
         apply handle_pubrec_keeps || apply handle_pubrel_keeps || apply handle_unsuback_keeps);
    try (by apply handle_suback_keeps); intros c e h Hk; wp_walk; kept_done.
Qed.

(** ** Receiving *)
Lemma drain_round_keeps : op_keeps (drain_round callback).
Proof.
  intros c e h Hk. unfold drain_round. wp_walk; [kept_done|].
  destruct (peek_header _) as [p|]; wp_walk; try kept_done.
  eapply wp_mono; [apply handle_packet_keeps; [|kept_done]|].
  { apply bytes_ok_take, bytes_ok_drop, (w_rx _ (kept_widths _ _ _ Hk)). }
  intros r [c' e' h'] Hk'. unfold kept_sys in Hk'. cbn [cl env history] in Hk'. wp_walk; kept_done.
Qed.

Lemma drain_rx_loop_keeps fuel : op_keeps (drain_rx_loop callback fuel).
Proof.
  induction fuel as [|fuel IH]; intros c e h Hk; [done|]. cbn [drain_rx_loop]. wp_walk.
  eapply wp_mono; [by apply drain_round_keeps|]. intros r [c' e' h'] Hk'. destruct r; wp_walk; [kept_done | by apply IH].
Qed.

Lemma drain_rx_keeps : op_keeps (drain_rx callback).
Proof. intros c e h Hk. unfold drain_rx. wp_walk. by apply drain_rx_loop_keeps. Qed.

Lemma after_recv_keeps again : op_keeps again -> op_keeps (after_recv callback again).
Proof.
  intros Ha c e h Hk. unfold after_recv. wp_walk. k_call drain_rx_keeps. wp_walk; try kept_done. by apply Ha.
Qed.

Lemma pump_rx_loop_keeps rounds : op_keeps (pump_rx_loop callback rounds).
Proof.
  induction rounds as [|rounds IH]; intros c e h Hk; cbn [pump_rx_loop]; wp_walk; [kept_done | |by apply after_recv_keeps].
  pose proof (kept_recv (rx_buffer_size - rx_len_ c) c e h Hk).
  pose proof (transport_recv_bytes (rx_buffer_size - rx_len_ c) e).
  destruct (transport_recv _ e) as [[er got] e']. cbn [fst snd] in *.
  wp_walk; try kept_done; try (by apply drain_rx_keeps). apply after_recv_keeps; [done | kept_done].
Qed.

(** ** Timers *)
Lemma pump_keep_alive_keeps : op_keeps pump_keep_alive.
Proof.
  intros c e h Hk. unfold pump_keep_alive. wp_walk; try kept_done.
  pose proof (clock_u32 e). k_call enqueue_sized_keeps. wp_walk; kept_done.
Qed.

Lemma retransmit_loop_keeps left_ : forall i forced t, is_u32 t -> op_keeps (retransmit_loop left_ i forced t).
Proof.
  induction left_ as [|left_ IH]; intros i forced t Ht c e h Hk; cbn [retransmit_loop]; wp_walk; try kept_done;
    try (by apply IH).
  assert (Hk1 : kept (c <| outbound_ ::= alter mark_dup i |>) e h) by (apply kept_slot; auto with widths).
  k_call enqueue_keeps. wp_walk; apply IH; try done. by kept_slots.
Qed.

Lemma pump_retransmit_keeps : op_keeps pump_retransmit.
Proof.
  intros c e h Hk. unfold pump_retransmit. wp_walk; [kept_done|].
  apply retransmit_loop_keeps; [apply clock_u32 | kept_done].
Qed.

Lemma pump_resubscribe_keeps : op_keeps pump_resubscribe.
Proof.
  intros c e h Hk. unfold pump_resubscribe. wp_walk; try kept_done.
  destruct (subscribe_remaining_length _); wp_walk; [|kept_done].
  destruct (alloc_packet_id c) as [id c1] eqn:Ea. apply alloc_packet_step in Ea as [_ Ea].
  assert (Hk1 : kept c1 e h) by (by eapply kept_step). wp_walk; [kept_done|].
  k_call enqueue_sized_keeps. wp_walk; [kept_done|]. apply push_pending_kept.
  eapply kept_step; [done | apply clear_resub_step].
Qed.

(** ** The pump *)
Lemma step_tail_keeps : op_keeps (step_tail callback).
Proof.
  assert (Hflush : op_keeps (e <- pump_tx;; if negb (Error_eqb e Ok) then shutdown callback e else ret Ok)).
  { intros c e h Hk. wp_walk. k_call pump_tx_keeps. wp_walk; [by apply shutdown_keeps | kept_done]. }
  assert (Hmain : forall b : bool, op_keeps (
    e <- (if b then
            e <- pump_keep_alive;;
            if negb (Error_eqb e Ok) then e <- shutdown callback e;; ret (Some e)
            else pump_resubscribe;;; pump_retransmit;;; ret None
          else ret None);;
    match e with
    | Some e => ret e
    | None => e <- pump_tx;; if negb (Error_eqb e Ok) then shutdown callback e else ret Ok
    end)).
  { intros b c e h Hk. apply wp_bind. destruct b; [|apply wp_ret; by apply Hflush]. apply wp_bind.
    k_call pump_keep_alive_keeps. wp_walk_step; apply wp_bind.
    - k_call shutdown_keeps. wp_walk. kept_done.
    - k_call pump_resubscribe_keeps. apply wp_bind. k_call pump_retransmit_keeps. apply wp_ret. by apply Hflush. }
  intros c e h Hk. unfold step_tail. apply wp_bind, wp_get. cbn [cl].
  destruct (state_ c); try (by apply Hmain); wp_walk; try kept_done. apply shutdown_keeps. kept_done.
Qed.

Lemma step_io_keeps : op_keeps (step_io callback).
Proof.
  intros c e h Hk. unfold step_io. wp_walk. k_call pump_tx_keeps. wp_walk; try (by apply shutdown_keeps).
  k_call pump_rx_loop_keeps. wp_walk; [by apply shutdown_keeps | by apply step_tail_keeps].
Qed.

(** A [connect] that fails is followed by [close]; one that does not leaves the
    object in order. *)
Lemma step_once_keeps : op_keeps (step_once callback).
Proof.
  intros c e h Hk. unfold step_once. wp_walk. destruct (state_ c) eqn:Es; try (by apply step_io_keeps); [wp_walk; kept_done|].
  pose proof Hk as [Hp _ Hw Hj]. pose proof (history_connect e h Hj) as Hj'. pose proof (keeps_connect e Hp) as Hc. pose proof (keeps_failed e Hp) as Hf.
  pose proof (transport_connect_codes e) as Hcode. apply wp_bind, wp_with_env.
  destruct (transport_connect e) as [er e']. cbn [fst snd] in *.
  assert (Hk' : er <> TransportFailure -> kept c e' h).
  { intros Hne. split; [by apply Hc | congruence | done | done]. }
  destruct (decide (er = TransportFailure)) as [->|Hne].
  - wp_walk; try done. apply shutdown_closable. destruct (Hf eq_refl). by split_and!.
  - specialize (Hk' Hne). wp_walk; try kept_done; try (apply shutdown_keeps; kept_done).
    apply step_io_keeps. kept_done.
Qed.

Lemma step_keeps : op_keeps (step callback).
Proof.
  intros c e h Hk. unfold step. wp_walk; [kept_done|]. k_call step_once_keeps. wp_walk. kept_done.
Qed.

Lemma api_keeps_device call : call_ok call -> op_keeps (api callback call).
Proof.
  intros Hok c e h Hk. destruct call; cbn [api call_ok] in *; wp_walk; try kept_done.
  - k_call connect_keeps. wp_walk. kept_done.
  - k_call disconnect_keeps. wp_walk. kept_done.
  - k_call abort_keeps. wp_walk. kept_done.
  - destruct Hok. by apply publish_keeps.
  - by apply subscribe_keeps.
  - by apply unsubscribe_keeps.
  - k_call step_keeps. wp_walk. kept_done.
Qed.
End device.

(** ** Applications *)
Section applications.
Context `{Cfg : Config} `{SZ : SizeT} `{BW : ByteStreamWriter} `{BR : ByteStreamReader}.
Context {E : Type} {T : Transport E} {CK : Clock E} {TOK : TransportOk E}.
Context (P closed : E -> Prop) {TK : TransportKeeps P closed}.
Context (J : E -> list Event -> Prop) {HK : HistoryKeeps J}.

(** What the world and the application do to the surroundings other than
    through the client: [outside e e']. *)
Context (outside : E -> E -> Prop) (app : Callback -> Handler E).

(** The states of a client that has its transport to itself: it starts with
    one that [starts] describes, and in between only [outside] changes it. *)
Inductive runs (starts : E -> Prop) : Sys E -> Prop :=
  | run_init e : starts e -> runs starts (mkSys client_init e [])
  | run_outside s e : runs starts s -> outside (env s) e -> runs starts (s <| env := e |>)
  | run_call depth c s r s' :
      runs starts s -> call_ok c -> call app depth c s = Some (r, s') -> runs starts s'.

Lemma runs_reachable starts s : runs starts s -> reachable app s.
Proof.
  induction 1 as [e He|s e Hr IH Ho|depth c s r s' Hr IH Hc Hrun];
    [apply reach_init | by apply reach_env | by eapply reach_call].
Qed.

Definition outside_keeps : Prop := forall e e' h,
  outside e e' -> P e -> J e h -> P e' /\ (closed e -> closed e') /\ J e' h.

Lemma kept_outside c e e' h : outside_keeps -> outside e e' -> kept P closed J c e h -> kept P closed J c e' h.
Proof.
  intros Hout Ho [Hp Hi Hw Hj]. destruct (Hout e e' h Ho Hp Hj) as (Hp' & Hc' & Hj'). split; auto.
Qed.

Lemma client_init_widths : widths client_init.
Proof.
  constructor; cbn; try (unfold is_u32; lia); try constructor.
  - apply Forall_replicate. unfold is_u8. lia.
  - apply Forall_replicate. unfold slot_widths, is_u16, is_u32, is_u8. cbn. unfold AtMostOnce. lia.
Qed.

Lemma runs_kept starts s :
  outside_keeps -> (forall depth cb, op_keeps P closed J (run_callback app depth cb)) ->
  (forall e, starts e -> P e /\ closed e /\ J e []) -> runs starts s -> kept_sys P closed J s.
Proof.
  intros Hout Hcb Hst. induction 1 as [e He|s e Hr IH Ho|depth c s r s' Hr IH Hc Hrun].
  - destruct (Hst e He) as (? & ? & ?). split; [done | done | apply client_init_widths | done].
  - by eapply kept_outside.
  - destruct s as [c0 e0 h0].
    pose proof (api_keeps_device P closed J _ (Hcb depth) c Hc c0 e0 h0 IH) as Hw.
    unfold wp in Hw. unfold call in Hrun. by rewrite Hrun in Hw.
Qed.

(** *** Handlers that call the client, where callbacks are nothing to [J] *)

(** A handler's own actions are [outside]. *)
Inductive handler_acts (Q : ApiCall -> Prop) : Handler E -> Prop :=
  | ha_done : handler_acts Q Done
  | ha_act f k : (forall e, outside e (f e)) -> handler_acts Q k -> handler_acts Q (Act f k)
  | ha_inspect k : (forall c e, handler_acts Q (k c e)) -> handler_acts Q (Inspect k)
  | ha_call call k : Q call -> (forall r, handler_acts Q (k r)) -> handler_acts Q (Call call k).

Definition app_acts : Prop := forall cb, handler_acts call_ok (app cb).

Lemma run_handler_keeps callback p :
  outside_keeps -> (forall cb, op_keeps P closed J (callback cb)) -> handler_acts call_ok p ->
  op_keeps P closed J (run_handler callback p).
Proof.
  intros Hout Hcb Hp. induction Hp as [|f k Hf Hk IH|k Hk IH|call k Hc Hk IH]; intros c e h Hkept; cbn [run_handler].
  - done.
  - apply wp_bind, wp_with_env. apply IH. eapply kept_outside; [done | apply Hf | done].
  - by apply (IH c e).
  - apply wp_bind. eapply wp_mono; [by apply api_keeps_device|]. intros r [c' e' h'] Hk'. by apply IH.
Qed.

Lemma run_callback_keeps :
  outside_keeps -> app_acts -> (forall cb e h, J e h -> J e (h ++ [EvCall cb])) ->
  forall depth cb, op_keeps P closed J (run_callback app depth cb).
Proof.
  intros Hout Happ Hj. induction depth as [|depth IH]; intros cb c e h Hk; [done|]. cbn [run_callback].
  apply wp_bind, wp_record. apply run_handler_keeps; [done | done | apply Happ |].
  destruct Hk as [? ? ? ?]. split; auto.
Qed.

(** *** Handlers that only write the application's own variables *)
Lemma run_action_keeps (f : Callback -> E -> E) :
  (forall cb, app cb = Act (f cb) Done) ->
  (forall cb e, P e -> P (f cb e) /\ (closed e -> closed (f cb e))) ->
  (forall cb e h, J e h -> J (f cb e) (h ++ [EvCall cb])) ->
  forall depth cb, op_keeps P closed J (run_callback app depth cb).
Proof.
  intros Happ Hf Hj depth cb c e h [Hp Hi Hw Hh]. destruct depth as [|depth]; [done|]. cbn [run_callback].
  rewrite Happ. cbn [run_handler]. apply wp_bind, wp_record, wp_bind, wp_with_env, wp_ret. cbn [fst snd].
  destruct (Hf cb e Hp) as [Hp' Hc']. split; cbn [cl env history]; auto.
Qed.
End applications.

(** Nothing to keep of the history. *)
#[export] Instance history_free {E : Type} `{Transport E} `{Clock E} : HistoryKeeps (fun (_ : E) (_ : list Event) => True).
Proof. by split. Qed.

(** Nothing to keep of the transport. *)
#[export] Instance transport_free {E : Type} `{Transport E} `{Clock E} : TransportKeeps (fun _ : E => True) (fun _ => True).
Proof. by split. Qed.

(** Every reachable state is one of a run in which anything may happen to the
    surroundings, so the members keep their types in all of them. *)
Section reachable.
Context `{Cfg : Config} `{SZ : SizeT} `{BW : ByteStreamWriter} `{BR : ByteStreamReader}.
Context {E : Type} {T : Transport E} {CK : Clock E} {TOK : TransportOk E}.
Notation anything := (fun _ _ : E => True).

Lemma reachable_runs app s : reachable app s -> runs anything app (fun _ => True) s.
Proof.
  induction 1 as [e|s e Hr IH|depth c s r s' Hr IH Hc Hrun];
    [by apply run_init | by apply run_outside | by eapply run_call].
Qed.

Lemma calls_act Q (p : Handler E) : handler_calls Q p -> handler_acts anything Q p.
Proof. induction 1; by constructor. Qed.

Lemma reachable_widths (app : Callback -> Handler E) s :
  (forall cb, handler_calls call_ok (app cb)) -> reachable app s -> widths (cl s).
Proof.
  intros Happ Hr. assert (Hout : outside_keeps (fun _ : E => True) (fun _ => True) (fun _ _ => True) anything) by done.
  assert (Hacts : app_acts anything app) by (intros cb; apply calls_act, Happ).
  refine (kept_widths _ _ _ _ _ _
    (runs_kept _ _ _ anything app (fun _ => True) s Hout _ (fun _ _ => conj I (conj I I)) (reachable_runs app s Hr))).
  by apply (run_callback_keeps _ _ _ anything app Hout).
Qed.
End reachable.
