(* ===== verification/CLib.v ===== *)
(** * CLib: what the example programs use of the C library

    Character strings are lists of character codes; a C string is what stands
    before the first NUL. Decimal numbers as [printf] writes and [atoi] reads
    them, and the truncation of [snprintf]. *)
From Stdlib Require Import String Ascii.
From S2P Require Import Prelude.

(** ** Characters and C strings *)
Definition chr_nul : Z := 0.
Definition chr_zero : Z := 48.
Definition chr_nine : Z := 57.
Definition chr_minus : Z := 45.
Definition chr_plus_sign : Z := 43.

Definition is_digit (c : Z) : bool := (chr_zero <=? c) && (c <=? chr_nine).

(** [isspace] in the "C" locale. *)
Definition is_space (c : Z) : bool := (c =? 32) || ((9 <=? c) && (c <=? 13)).

(** The string that starts at a character array. *)
Fixpoint c_str (text : list Z) : list Z :=
  match text with
  | [] => []
  | c :: text => if c =? chr_nul then [] else c :: c_str text
  end.

(** A string literal. *)
Definition text (s : string) : list Z := (fun a => Z.of_N (N_of_ascii a)) <$> list_ascii_of_string s.

(** [snprintf(buffer, size, "%s", text)]: what the buffer then holds. *)
Definition snprintf_fits (size : Z) (text : list Z) : list Z := ztake (size - 1) (c_str text).

(** ** Decimal numbers *)
Definition dec_value (digits : list Z) : Z :=
  fold_left (fun v c => v * 10 + (c - chr_zero)) digits 0.

Fixpoint digits_loop (rounds : nat) (n : Z) (acc : list Z) : list Z :=
  match rounds with
  | O => acc
  | S rounds =>
      let acc := chr_zero + n mod 10 :: acc in
      if n <? 10 then acc else digits_loop rounds (n / 10) acc
  end.

(** ["%u"]: a division by ten at least halves a number, so its binary length
    bounds the rounds. *)
Definition digits_of (n : Z) : list Z := digits_loop (S (Z.to_nat (Z.log2 n))) n [].

#[global] Arguments digits_of : simpl never.

(** ["%d"]. *)
Definition decimal (n : Z) : list Z :=
  if n <? 0 then chr_minus :: digits_of (- n) else digits_of n.

(** [atoi]: blanks, a sign, digits; the rest is ignored. A value outside [int]
    is undefined in C; it is the exact value here. *)
Fixpoint skip_spaces (s : list Z) : list Z :=
  match s with
  | c :: s' => if is_space c then skip_spaces s' else s
  | [] => []
  end.

Fixpoint leading_digits (s : list Z) : list Z :=
  match s with
  | c :: s => if is_digit c then c :: leading_digits s else []
  | [] => []
  end.

Definition atoi (text : list Z) : Z :=
  match skip_spaces (c_str text) with
  | c :: s =>
      if c =? chr_minus then - dec_value (leading_digits s)
      else if c =? chr_plus_sign then dec_value (leading_digits s)
      else dec_value (leading_digits (c :: s))
  | [] => 0
  end.

(** [argv[i]], if [argc > i]. *)
Definition arg (argv : list (list Z)) (i : nat) : option (list Z) := argv !! i.

(** ** Their laws *)
Lemma c_str_no_nul s : Forall (fun c => c <> chr_nul) (c_str s).
Proof. induction s as [|c s IH]; cbn; [constructor|]. case_if; zbool; by constructor. Qed.

Lemma c_str_id s : Forall (fun c => c <> chr_nul) s -> c_str s = s.
Proof.
  induction 1 as [|c s Hc Hs IH]; cbn; [done|].
  case_if; zbool; [done|]. by rewrite IH.
Qed.

(** Strings are bytes. *)
Lemma c_str_bytes s : bytes_ok s -> bytes_ok (c_str s).
Proof.
  induction s as [|c s IH]; cbn; [done|]. rewrite bytes_ok_cons. intros [Hc Hs]. case_if; [constructor|].
  apply bytes_ok_cons. auto.
Qed.

Lemma text_bytes s : bytes_ok (text s).
Proof.
  apply Forall_fmap, Forall_true. intros a. unfold is_u8. cbn. pose proof (N_ascii_bounded a). lia.
Qed.

(** The text of an argument copied into a buffer, or what the buffer held. *)
Lemma arg_text_bytes argv i size s :
  Forall bytes_ok argv -> bytes_ok (from_option (snprintf_fits size) (text s) (arg argv i)).
Proof.
  intros Hargs. destruct (arg argv i) as [a|] eqn:Ea; cbn; [|apply text_bytes].
  apply bytes_ok_take, c_str_bytes. by eapply (Forall_lookup_1 _ _ _ _ Hargs).
Qed.

Lemma fold_value_app v k ds :
  fold_left (fun v c => v * 10 + (c - chr_zero)) ds (v + k * 10) =
  fold_left (fun v c => v * 10 + (c - chr_zero)) ds v + k * 10 ^ (1 + zlen ds).
Proof.
  revert v k; induction ds as [|c ds IH]; intros v k.
  - change (zlen []) with 0. cbn [fold_left]. lia.
  - cbn [fold_left]. replace ((v + k * 10) * 10 + (c - chr_zero)) with
      ((v * 10 + (c - chr_zero)) + (k * 10) * 10) by lia.
    rewrite IH, zlen_cons. pose proof (zlen_nonneg ds).
    rewrite (Z.pow_add_r 10 1 (1 + zlen ds)) by lia. lia.
Qed.

Lemma dec_value_cons c ds : dec_value (c :: ds) = (c - chr_zero) * 10 ^ zlen ds + dec_value ds.
Proof.
  unfold dec_value. destruct ds as [|d ds]; [change (zlen []) with 0; cbn [fold_left]; lia|].
  cbn [fold_left]. replace ((0 * 10 + (c - chr_zero)) * 10 + (d - chr_zero)) with
    ((0 * 10 + (d - chr_zero)) + (c - chr_zero) * 10) by lia.
  rewrite fold_value_app, zlen_cons. lia.
Qed.

Lemma dec_value_snoc ds c : dec_value (ds ++ [c]) = dec_value ds * 10 + (c - chr_zero).
Proof. unfold dec_value. by rewrite fold_left_app. Qed.

Lemma dec_value_nonneg ds : Forall (fun c => is_digit c = true) ds -> 0 <= dec_value ds.
Proof.
  induction 1 as [|c ds Hc Hds IH]; [done|]. rewrite dec_value_cons.
  unfold is_digit, chr_zero in *. zbool. pose proof (zlen_nonneg ds).
  assert (0 <= 10 ^ zlen ds) by (apply Z.pow_nonneg; lia). nia.
Qed.

(** The digits of the rounds left, put before those already found. *)
Lemma digits_loop_value rounds n acc :
  0 <= n < 2 ^ Z.of_nat rounds ->
  dec_value (digits_loop rounds n acc) = n * 10 ^ zlen acc + dec_value acc.
Proof.
  revert n acc; induction rounds as [|rounds IH]; intros n acc Hn.
  - change (2 ^ Z.of_nat 0) with 1 in Hn. cbn [digits_loop]. replace n with 0 by lia. lia.
  - cbn [digits_loop]. pose proof (zlen_nonneg acc).
    rewrite Nat2Z.inj_succ, Z.pow_succ_r in Hn by lia.
    case_if; zbool.
    + rewrite dec_value_cons, Z.mod_small by lia. lia.
    + rewrite IH by (split; [apply Z.div_pos; lia | apply Z.div_lt_upper_bound; lia]).
      rewrite zlen_cons, dec_value_cons, Z.pow_add_r by lia.
      pose proof (Z.div_mod n 10). nia.
Qed.

Lemma digits_loop_digits rounds n acc :
  0 <= n -> Forall (fun c => is_digit c = true) acc ->
  Forall (fun c => is_digit c = true) (digits_loop rounds n acc).
Proof.
  revert n acc; induction rounds as [|rounds IH]; intros n acc Hn Hacc; [done|].
  pose proof (Z.mod_pos_bound n 10). assert (Hd : is_digit (chr_zero + n mod 10) = true).
  { unfold is_digit, chr_zero, chr_nine. apply andb_true_intro. split; apply Z.leb_le; lia. }
  cbn [digits_loop]. case_if; [by constructor|]. apply IH; [apply Z.div_pos; lia | by constructor].
Qed.

Lemma digits_of_value n : 0 <= n -> dec_value (digits_of n) = n.
Proof.
  intros Hn. unfold digits_of. rewrite digits_loop_value; [change (zlen []) with 0; cbn; lia|].
  split; [done|]. rewrite Nat2Z.inj_succ, Z2Nat.id by apply Z.log2_nonneg.
  destruct (decide (n = 0)) as [->|]; [done|]. apply Z.log2_spec. lia.
Qed.

Lemma digits_of_digits n : 0 <= n -> Forall (fun c => is_digit c = true) (digits_of n).
Proof. intros. by apply digits_loop_digits. Qed.

Lemma digit_not_special c :
  is_digit c = true -> c <> chr_nul /\ is_space c = false /\ c <> chr_minus /\ c <> chr_plus_sign.
Proof.
  unfold is_digit, is_space, chr_zero, chr_nine, chr_nul, chr_minus, chr_plus_sign. intros. zbool.
  split_and!; [lia | | lia | lia].
  apply orb_false_intro; [apply Z.eqb_neq; lia|]. apply andb_false_iff. right. apply Z.leb_gt. lia.
Qed.

Lemma leading_digits_all s : Forall (fun c => is_digit c = true) s -> leading_digits s = s.
Proof. induction 1 as [|c s Hc Hs IH]; cbn; [done|]. by rewrite Hc, IH. Qed.

(** What ["%d"] writes of a number that is not negative, [atoi] reads back. *)
Lemma atoi_digits_of n : 0 <= n -> atoi (digits_of n) = n.
Proof.
  intros Hn. pose proof (digits_of_digits n Hn) as Hd. unfold atoi.
  rewrite c_str_id by (eapply Forall_impl; [|exact Hd]; intros c Hc; by apply digit_not_special).
  rewrite <- (digits_of_value n Hn) at 2. destruct Hd as [|c s Hc Hs]; [done|].
  destruct (digit_not_special c Hc) as (_ & Hsp & Hm & Hp). cbn [skip_spaces]. rewrite Hsp.
  apply Z.eqb_neq in Hm, Hp. rewrite Hm, Hp.
  by rewrite leading_digits_all by (by constructor).
Qed.

Lemma decimal_digit n : 0 <= n < 10 -> decimal n = [chr_zero + n].
Proof.
  intros. unfold decimal. case_if; zbool; [lia|]. unfold digits_of. cbn [digits_loop].
  case_if; zbool; [|lia]. by rewrite Z.mod_small by lia.
Qed.
