(* ===== verification/Ipv4.v ===== *)
(** * Ipv4: dotted-quad addresses (examples/ipv4.hpp)

    The parser as the source writes it, one character at a time over the octet
    under construction, and its meaning: four fields of one to three digits, of
    value at most 255, between dots. *)
From S2P Require Import Prelude CLib.

Record Ipv4 := mkIpv4 { octets : list Z }.

#[export] Instance eta_Ipv4 : Eta Ipv4 := fun r => mkIpv4 (octets r).

#[export] Instance Ipv4_eq_dec : EqDecision Ipv4.
Proof. solve_decision. Defined.

(** [Ipv4()] and [Ipv4(a, b, c, d)]. *)
Definition Ipv4_zero : Ipv4 := mkIpv4 [0; 0; 0; 0].
Definition Ipv4_of (a b c d : Z) : Ipv4 := mkIpv4 [a; b; c; d].

Definition octet_at (a : Ipv4) (i : nat) : Z := default 0 (octets a !! i).

Definition to_uint32 (a : Ipv4) : Z :=
  Z.lor (Z.lor (Z.lor (u32 (Z.shiftl (octet_at a 0) 24)) (u32 (Z.shiftl (octet_at a 1) 16)))
    (u32 (Z.shiftl (octet_at a 2) 8))) (octet_at a 3).

Definition chr_dot : Z := 46.

(** A field that ends, at a dot or at the NUL, is stored; [None] is
    [return false]. *)
Definition field_end (result : Ipv4) (value digits octet : Z) : option (Ipv4 * Z) :=
  if (digits =? 0) || (octet >=? 4) then None
  else Some (result <| octets ::= <[Z.to_nat octet := u8 value]> |>, octet + 1).

(** The [for (;; ++p)] over the text, up to its NUL; [None] is [return false],
    otherwise the octets stored and their number. *)
Fixpoint parse_loop (p : list Z) (result : Ipv4) (value digits octet : Z) : option (Ipv4 * Z) :=
  match p with
  | [] => field_end result value digits octet
  | c :: p =>
      if (c >=? chr_zero) && (c <=? chr_nine) then
        if digits =? 3 then None
        else
          let value := u32 (u32 (value * 10) + (c - chr_zero)) in
          if value >? 255 then None else parse_loop p result value (digits + 1) octet
      else if (c =? chr_dot) || (c =? chr_nul) then
        match field_end result value digits octet with
        | None => None
        | Some (result, octet) =>
            if c =? chr_nul then Some (result, octet) else parse_loop p result 0 0 octet
        end
      else None
  end.

(** [parse_ipv4(text, out)]: the result and [out] after; [None] is a null
    pointer. *)
Definition parse_ipv4 (text : option (list Z)) (out : Ipv4) : bool * Ipv4 :=
  match text with
  | None => (false, out)
  | Some text =>
      match parse_loop text Ipv4_zero 0 0 0 with
      | None => (false, out)
      | Some (result, octet) => if negb (octet =? 4) then (false, out) else (true, result)
      end
  end.

Definition ipv4 (text : option (list Z)) : Ipv4 :=
  let '(parsed, result) := parse_ipv4 text Ipv4_zero in
  if parsed then result else Ipv4_zero.

(** ** What the text means *)
Fixpoint fields (s : list Z) : list (list Z) :=
  match s with
  | [] => [[]]
  | c :: s =>
      if c =? chr_dot then [] :: fields s
      else match fields s with f :: fs => (c :: f) :: fs | [] => [[c]] end
  end.

(** The octet a field spells. *)
Definition field_value (f : list Z) : option Z :=
  if (1 <=? zlen f) && (zlen f <=? 3) && forallb is_digit f && (dec_value f <=? 255)
  then Some (dec_value f) else None.

Definition address_of (s : list Z) : option Ipv4 :=
  vs ← mapM field_value (fields s);
  if zlen vs =? 4 then Some (mkIpv4 vs) else None.

(** An address of four octets, and the text that spells it. *)
Definition ipv4_ok (a : Ipv4) : Prop := zlen (octets a) = 4 /\ bytes_ok (octets a).

Definition dotted (a : Ipv4) : list Z :=
  digits_of (octet_at a 0) ++ [chr_dot] ++ digits_of (octet_at a 1) ++ [chr_dot] ++
  digits_of (octet_at a 2) ++ [chr_dot] ++ digits_of (octet_at a 3).

(** ** The parser decides it *)
Lemma fields_nonempty s : fields s <> [].
Proof. destruct s as [|c s]; cbn; [done|]. case_if; [done|]. by destruct (fields s). Qed.

(** Characters that are no dots belong to the first field. *)
Lemma fields_app cur s :
  Forall (fun c => c <> chr_dot) cur ->
  fields (cur ++ s) = match fields s with f :: fs => (cur ++ f) :: fs | [] => [cur] end.
Proof.
  pose proof (fields_nonempty s).
  induction 1 as [|c cur Hc Hcur IH]; [cbn; by destruct (fields s)|].
  cbn [app fields]. apply Z.eqb_neq in Hc. rewrite Hc, IH. by destruct (fields s).
Qed.

Lemma is_digit_cmp c : (c >=? chr_zero) && (c <=? chr_nine) = is_digit c.
Proof. unfold is_digit. by rewrite Z.geb_leb. Qed.

Lemma digit_range c : is_digit c = true -> 0 <= c - chr_zero <= 9.
Proof. unfold is_digit, chr_zero, chr_nine. intros. zbool. lia. Qed.

Lemma digit_no_dot c : is_digit c = true -> c <> chr_dot.
Proof. unfold is_digit, chr_zero, chr_dot. intros. zbool. lia. Qed.

(** The field under construction: the digits read so far. *)
Definition partial (cur : list Z) : Prop :=
  Forall (fun c => is_digit c = true) cur /\ zlen cur <= 3 /\ dec_value cur <= 255.

Lemma partial_no_dot cur : partial cur -> Forall (fun c => c <> chr_dot) cur.
Proof. intros (Hd & _). eapply Forall_impl; [|exact Hd]. apply digit_no_dot. Qed.

Lemma partial_step cur c :
  partial cur -> is_digit c = true ->
  u32 (u32 (dec_value cur * 10) + (c - chr_zero)) = dec_value (cur ++ [c]).
Proof.
  intros (Hd & _ & Hv) Hc. pose proof (dec_value_nonneg cur Hd). apply digit_range in Hc.
  rewrite dec_value_snoc. rewrite !u32_small; unfold is_u32; [done | | ]; rewrite ?u32_small; unfold is_u32; lia.
Qed.

(** Longer digit strings mean no smaller numbers. *)
Lemma dec_value_app_ge cur s :
  Forall (fun c => is_digit c = true) (cur ++ s) -> dec_value cur <= dec_value (cur ++ s).
Proof.
  induction s as [|c s IH] using rev_ind; [rewrite app_nil_r; lia|].
  rewrite app_assoc, Forall_app. intros [Hd Hc]. apply Forall_cons_iff in Hc as [Hc _].
  specialize (IH Hd). apply digit_range in Hc. rewrite dec_value_snoc.
  pose proof (dec_value_nonneg _ Hd). lia.
Qed.

Lemma field_value_partial f : partial f -> f <> [] -> field_value f = Some (dec_value f).
Proof.
  intros (Hd & Hl & Hv) Hne. unfold field_value.
  assert (1 <= zlen f). { destruct f; [done|]. rewrite zlen_cons. pose proof (zlen_nonneg f). lia. }
  replace (forallb is_digit f) with true.
  2: { symmetry. apply forallb_forall. intros x Hx. by eapply List.Forall_forall in Hd. }
  rewrite !(proj2 (Z.leb_le _ _)) by lia. done.
Qed.

(** A prefix that is already bad spoils the field. *)
Lemma field_value_bad cur s :
  ~ partial cur -> field_value (cur ++ s) = None.
Proof.
  intros Hbad. unfold field_value. destruct (_ && _) eqn:E; [|done]. exfalso. apply Hbad. zbool.
  rewrite forallb_forall in *. assert (Hd : Forall (fun c => is_digit c = true) (cur ++ s)) by (by apply List.Forall_forall).
  pose proof (dec_value_app_ge cur s Hd). apply Forall_app in Hd as [Hd _].
  rewrite zlen_app in *. pose proof (zlen_nonneg s). split_and!; [done | lia | lia].
Qed.

(** The octets stored so far, the others still zero. *)
Definition filled (done : list Z) (result : Ipv4) : Prop :=
  zlen done <= 4 /\ octets result = done ++ replicate (4 - length done) 0.

Lemma field_end_spec cur done result :
  partial cur -> filled done result ->
  match field_end result (dec_value cur) (zlen cur) (zlen done) with
  | Some (result, n) =>
      field_value cur = Some (dec_value cur) /\ n = zlen (done ++ [dec_value cur]) /\
      filled (done ++ [dec_value cur]) result
  | None => field_value cur = None \/ zlen done = 4
  end.
Proof.
  intros Hp [Hl Hr]. pose proof Hp as (Hd & _ & Hv). pose proof (dec_value_nonneg cur Hd). unfold field_end.
  destruct ((zlen cur =? 0) || (zlen done >=? 4)) eqn:E.
  - apply orb_prop in E as [E|E]; zbool; [left | right; lia].
    apply zlen_0_nil in E as ->. done.
  - zbool. assert (Hne : cur <> []) by (by intros ->).
    unfold filled. rewrite zlen_app. change (zlen [dec_value cur]) with 1.
    split_and!; [by apply field_value_partial | lia | lia |]. cbn. rewrite Hr, u8_small by (unfold is_u8; lia).
    unfold zlen in *. rewrite Nat2Z.id, insert_app_r_alt, Nat.sub_diag, length_app by lia. cbn [length].
    rewrite <- app_assoc. replace (4 - length done)%nat with (S (4 - (length done + 1))) by lia.
    done.
Qed.

(** What the loop finds from the middle of a field on: the fields left, if
    they are all octets and there is room for them. *)
Definition loop_outcome (done : list Z) (rest : list (list Z)) (r : option (Ipv4 * Z)) : Prop :=
  match r, mapM field_value rest with
  | Some (result, n), Some vs => n = zlen (done ++ vs) /\ filled (done ++ vs) result
  | Some _, None => False
  | None, Some vs => 4 < zlen (done ++ vs)
  | None, None => True
  end.

Lemma loop_outcome_bad done f rest : field_value f = None -> loop_outcome done (f :: rest) None.
Proof. intros Hf. unfold loop_outcome. cbn. by rewrite Hf. Qed.

Lemma loop_outcome_full done f rest : zlen done = 4 -> loop_outcome done (f :: rest) None.
Proof.
  intros Hl. unfold loop_outcome. destruct (mapM _ _) as [vs|] eqn:E; [|done].
  apply mapM_Some in E. apply Forall2_length in E. cbn in E. rewrite zlen_app. unfold zlen in *. lia.
Qed.

Lemma loop_outcome_next done f v rest r :
  field_value f = Some v -> loop_outcome (done ++ [v]) rest r -> loop_outcome done (f :: rest) r.
Proof.
  intros Hf Hr. unfold loop_outcome in *. cbn. rewrite Hf. cbn.
  destruct (mapM field_value rest) as [vs|]; cbn; [|done].
  by rewrite <- app_assoc in Hr.
Qed.

Lemma fields_partial cur : partial cur -> fields cur = [cur].
Proof.
  intros Hp. rewrite <- (app_nil_r cur) at 1. rewrite fields_app by (by apply partial_no_dot).
  cbn. by rewrite app_nil_r.
Qed.

Lemma field_end_outcome cur done result :
  partial cur -> filled done result ->
  loop_outcome done [cur] (field_end result (dec_value cur) (zlen cur) (zlen done)).
Proof.
  intros Hp Hf. pose proof (field_end_spec cur done result Hp Hf) as He.
  destruct (field_end _ _ _ _) as [[result' n]|].
  - destruct He as (Hv & Hn & Hf'). eapply loop_outcome_next; [done|].
    unfold loop_outcome. cbn. by rewrite app_nil_r.
  - destruct He; [by apply loop_outcome_bad | by apply loop_outcome_full].
Qed.

Lemma partial_nil : partial [].
Proof. split; [apply Forall_nil_2 | done]. Qed.

Lemma parse_loop_spec p : forall cur done result,
  partial cur -> filled done result ->
  loop_outcome done (fields (cur ++ c_str p)) (parse_loop p result (dec_value cur) (zlen cur) (zlen done)).
Proof.
  induction p as [|c p IH]; intros cur done result Hp Hf; cbn [parse_loop c_str].
  { rewrite app_nil_r, fields_partial by done. by apply field_end_outcome. }
  rewrite is_digit_cmp. pose proof (partial_no_dot cur Hp) as Hnd. destruct (is_digit c) eqn:Ed.
  - destruct (digit_not_special c Ed) as (Hnul & _). apply Z.eqb_neq in Hnul. rewrite Hnul.
    change (c :: c_str p) with ([c] ++ c_str p). rewrite app_assoc, partial_step by done.
    assert (Hbad : ~ partial (cur ++ [c]) -> loop_outcome done (fields ((cur ++ [c]) ++ c_str p)) None).
    { intros Hb. rewrite fields_app; [|apply Forall_app; split; [done|]; by repeat constructor; apply digit_no_dot].
      pose proof (fields_nonempty (c_str p)). destruct (fields (c_str p)) as [|f fs]; [done|].
      apply loop_outcome_bad. by apply field_value_bad. }
    assert (Hl : zlen (cur ++ [c]) = zlen cur + 1) by (rewrite zlen_app; done).
    case_if; zbool; [apply Hbad; intros (_ & ? & _); lia|].
    case_if; zbool; [apply Hbad; intros (_ & _ & ?); lia|].
    rewrite <- Hl. apply IH; [|done]. destruct Hp as (? & ? & ?).
    split_and!; [apply Forall_app; by repeat constructor | lia | lia].
  - destruct (c =? chr_nul) eqn:En; zbool.
    + subst c. rewrite app_nil_r, fields_partial by done. cbn [orb].
      rewrite orb_true_r. pose proof (field_end_outcome cur done result Hp Hf) as Ho.
      by destruct (field_end _ _ _ _) as [[? ?]|].
    + rewrite orb_false_r. rewrite fields_app by done. cbn [fields].
      destruct (c =? chr_dot) eqn:Edot; zbool.
      * rewrite app_nil_r. pose proof (field_end_spec cur done result Hp Hf) as He.
        destruct (field_end _ _ _ _) as [[result' n]|].
        -- destruct He as (Hv & -> & Hf'). eapply loop_outcome_next; [done|].
           exact (IH [] (done ++ [dec_value cur]) result' partial_nil Hf').
        -- destruct He; [by apply loop_outcome_bad | by apply loop_outcome_full].
      * pose proof (fields_nonempty (c_str p)). destruct (fields (c_str p)) as [|f fs]; [done|].
        change (c :: f) with ([c] ++ f). rewrite app_assoc. apply loop_outcome_bad, field_value_bad.
        intros (Hd & _). apply Forall_app in Hd as [_ Hd]. apply Forall_cons_iff in Hd as [Hd _]. congruence.
Qed.

(** [parse_ipv4] accepts exactly the texts of four octets between dots, and
    stores them; otherwise it leaves [out] alone. *)
Lemma parse_ipv4_spec text out :
  parse_ipv4 (Some text) out =
  match address_of (c_str text) with Some a => (true, a) | None => (false, out) end.
Proof.
  assert (Hf : filled [] Ipv4_zero) by done.
  pose proof (parse_loop_spec text [] [] Ipv4_zero partial_nil Hf) as Hl.
  unfold parse_ipv4, address_of, loop_outcome in *. cbn [app] in Hl.
  change (dec_value []) with 0 in Hl. change (zlen (@nil Z)) with 0 in Hl.
  destruct (parse_loop _ _ _ _ _) as [[[os] n]|], (mapM field_value _) as [vs|]; try done; cbn in *.
  - destruct Hl as (-> & Hle & Hos). cbn in Hos. destruct (zlen vs =? 4) eqn:E; [|done]. zbool.
    rewrite Hos. unfold zlen in E. replace (4 - length vs)%nat with 0%nat by lia. cbn. by rewrite app_nil_r.
  - destruct (zlen vs =? 4) eqn:E; [|done]. zbool. lia.
Qed.

(** ** Addresses and their texts *)
Lemma field_value_byte f v : field_value f = Some v -> is_u8 v.
Proof.
  unfold field_value. destruct (_ && _) eqn:E; [|done]. intros [= <-]. zbool. rewrite forallb_forall in *.
  pose proof (dec_value_nonneg f). unfold is_u8. split; [|lia]. apply dec_value_nonneg. by apply List.Forall_forall.
Qed.

Lemma address_of_ok s a : address_of s = Some a -> ipv4_ok a.
Proof.
  unfold address_of. destruct (mapM field_value (fields s)) as [vs|] eqn:Em; [|done]. cbn.
  destruct (zlen vs =? 4) eqn:El; [|done]. intros [= <-]. zbool. split; [done|].
  eapply mapM_Some_1, Forall2_Forall_r in Em; [exact Em|].
  apply Forall_true. intros f v Hv. by apply field_value_byte in Hv.
Qed.

Lemma parse_ipv4_ok text out out' : parse_ipv4 text out = (true, out') -> ipv4_ok out'.
Proof.
  destruct text as [text|]; [|done]. rewrite parse_ipv4_spec.
  destruct (address_of _) eqn:E; [|done]. intros [= <-]. by eapply address_of_ok.
Qed.

Lemma ipv4_is_ok text : ipv4_ok (ipv4 text).
Proof.
  unfold ipv4. destruct (parse_ipv4 text Ipv4_zero) as [b a] eqn:E. destruct b.
  - by apply parse_ipv4_ok in E.
  - split; [done|]. unfold bytes_ok, is_u8. by_decide.
Qed.

Lemma octet_digits b :
  is_u8 b -> partial (digits_of b) /\ digits_of b <> [] /\ dec_value (digits_of b) = b.
Proof.
  intros Hb. assert (Hn : 0 <= b) by (unfold is_u8 in Hb; lia).
  assert (H : (zlen (digits_of b) <=? 3) && negb (zlen (digits_of b) =? 0) = true).
  { revert b Hb Hn. intros b Hb _. revert b Hb.
    apply (all_bytes_spec (fun b => (zlen (digits_of b) <=? 3) && negb (zlen (digits_of b) =? 0))). by vm_compute. }
  zbool. pose proof (digits_of_value b Hn) as Hv. split_and!; [|intros E; by rewrite E in *|done].
  split_and!; [by apply digits_of_digits | done |]. unfold is_u8 in Hb. lia.
Qed.

Lemma fields_dotted f s : partial f -> fields (f ++ [chr_dot] ++ s) = f :: fields s.
Proof.
  intros Hp. rewrite fields_app by (by apply partial_no_dot). cbn. by rewrite app_nil_r.
Qed.

Lemma address_of_dotted a : ipv4_ok a -> address_of (dotted a) = Some a.
Proof.
  intros [Hl Hb]. destruct a as [os]. cbn in *.
  destruct os as [|a [|b [|c [|d [|? ?]]]]]; try done; unfold zlen in Hl; cbn in Hl; try lia.
  unfold bytes_ok in Hb. rewrite !Forall_cons_iff in Hb. destruct Hb as (Ha & Hb & Hc & Hd & _).
  apply octet_digits in Ha as (Pa & Na & Va), Hb as (Pb & Nb & Vb), Hc as (Pc & Nc & Vc), Hd as (Pd & Nd & Vd).
  unfold address_of. change (dotted (mkIpv4 [a; b; c; d])) with
    (digits_of a ++ [chr_dot] ++ digits_of b ++ [chr_dot] ++ digits_of c ++ [chr_dot] ++ digits_of d).
  rewrite !fields_dotted, fields_partial by done. cbn.
  rewrite !field_value_partial by done. cbn. by rewrite Va, Vb, Vc, Vd.
Qed.

Lemma dotted_no_nul a : ipv4_ok a -> c_str (dotted a) = dotted a.
Proof.
  intros [Hl Hb]. apply c_str_id.
  assert (Hd : forall i, Forall (fun c => c <> chr_nul) (digits_of (octet_at a i))).
  { intros i. assert (Ho : 0 <= octet_at a i).
    { unfold octet_at. destruct (octets a !! i) as [x|] eqn:E; cbn; [|lia].
      eapply Forall_lookup_1 in E; [|exact Hb]. unfold is_u8 in E. lia. }
    eapply Forall_impl; [|exact (digits_of_digits _ Ho)]. intros c Hc. by apply digit_not_special. }
  unfold dotted. rewrite !Forall_app. by repeat (split || constructor).
Qed.

(** The octets in order are the value's bytes, most significant first. *)
Lemma to_uint32_value a b c d :
  is_u8 a -> is_u8 b -> is_u8 c -> is_u8 d ->
  to_uint32 (Ipv4_of a b c d) = ((a * 256 + b) * 256 + c) * 256 + d.
Proof.
  unfold is_u8. intros. unfold to_uint32.
  change (octet_at (Ipv4_of a b c d) 0) with a. change (octet_at (Ipv4_of a b c d) 1) with b.
  change (octet_at (Ipv4_of a b c d) 2) with c. change (octet_at (Ipv4_of a b c d) 3) with d.
  assert (Hs : forall x n, 0 <= x < 256 -> 0 <= n <= 24 -> u32 (Z.shiftl x n) = Z.shiftl x n).
  { intros x n Hx Hn. apply u32_small. unfold is_u32. rewrite Z.shiftl_mul_pow2 by lia.
    assert (0 < 2 ^ n) by (apply Z.pow_pos_nonneg; lia).
    assert (2 ^ n <= 2 ^ 24) by (apply Z.pow_le_mono_r; lia). nia. }
  rewrite !Hs by lia. rewrite <- !Z.lor_assoc.
  rewrite (lor_shiftl_add c d 8) by lia.
  rewrite (lor_shiftl_add b (c * 2 ^ 8 + d) 16) by lia.
  rewrite (lor_shiftl_add a _ 24) by lia. lia.
Qed.
