(* ===== verification/Platform.v ===== *)
(** * Platform: an object and the operating system it calls

    The transports under examples/ are objects that call an operating system.
    Their member functions are programs of a state monad over the object, the
    system behind the calls (any type, with the calls as a type class over it),
    and the trace of the calls that touch a resource. The monitors at the end
    read a trace: which resources are held after it, whether a call was made on
    a descriptor that is not held, and whether a call could have blocked. *)
From S2P Require Import Prelude Errors Transport.

(** Calls of the TLS library. *)
Inductive TlsCall :=
  | TlsCaParse                     (* certificates were added to the chain *)
  | TlsNetConnect                  (* a connection was made, which may wait *)
  | TlsSslSetup                    (* the session's buffers were allocated *)
  | TlsSslFree
  | TlsHandshake
  | TlsVerified (ok : bool)        (* the outcome of the peer's verification *)
  | TlsData                        (* application data or a close notification *)
  | TlsNetFree.

Inductive OsEvent :=
  | OsSocket (fd : Z)              (* a socket was created *)
  | OsNonblock (fd : Z)            (* it was set non-blocking *)
  | OsQuery (fd : Z)               (* an option was read or written *)
  | OsIo (fd : Z)                  (* connect, send or recv: waits, on a blocking socket *)
  | OsWait (fd timeout_ms : Z)     (* poll or select *)
  | OsIdle (fd : Z)                (* the same, where the application asks to wait *)
  | OsClose (fd : Z)
  | OsResolve                      (* getaddrinfo; on success its list is held *)
  | OsAddrList
  | OsFreeAddr
  | OsStartup                      (* WSAStartup succeeded *)
  | OsCleanup
  | OsTls (c : TlsCall)
  | OsUndefined.                   (* undefined behaviour *)

(** An object of type [O] over a system [W]. *)
Record Obj (O W : Type) := mkObj {
  self : O;
  os : W;
  trace : list OsEvent;
}.
Arguments mkObj {O W} _ _ _.
Arguments self {O W} _.
Arguments os {O W} _.
Arguments trace {O W} _.

#[export] Instance eta_Obj {O W} : Eta (Obj O W) := fun r => mkObj (self r) (os r) (trace r).

Definition IO (O W A : Type) : Type := Obj O W -> A * Obj O W.

Section io.
Context {O W : Type}.

Definition io_ret {A} (a : A) : IO O W A := fun s => (a, s).
Definition io_bind {A B} (m : IO O W A) (k : A -> IO O W B) : IO O W B :=
  fun s => let '(a, s) := m s in k a s.

Definition this : IO O W O := fun s => (self s, s).
Definition set_this (f : O -> O) : IO O W unit := fun s => (tt, s <| self ::= f |>).
Definition note (ev : OsEvent) : IO O W unit := fun s => (tt, s <| trace ::= fun tr => tr ++ [ev] |>).
Definition sys {A} (f : W -> A * W) : IO O W A := fun s => let '(a, w) := f (os s) in (a, s <| os := w |>).
End io.

Declare Scope io_scope.
Delimit Scope io_scope with io.
Notation "x <- m ;; k" := (io_bind m (fun x => k))
  (at level 100, m at next level, right associativity) : io_scope.
Notation "'let*' p ':=' m 'in' k" := (io_bind m (fun x => match x with p => k end))
  (at level 10, p pattern, m at level 100, k at level 200) : io_scope.
Notation "m ;;; k" := (io_bind m (fun _ => k))
  (at level 100, right associativity) : io_scope.

(** ** Postconditions *)
Section post.
Context {O W : Type}.

(** Running [m] from [s] ends with a result and an object that satisfy [Q]. *)
Definition post {A} (m : IO O W A) (Q : A -> Obj O W -> Prop) (s : Obj O W) : Prop :=
  Q (fst (m s)) (snd (m s)).

Lemma post_bind {A B} (m : IO O W A) (k : A -> IO O W B) Q s :
  post m (fun a => post (k a) Q) s -> post (io_bind m k) Q s.
Proof. unfold post, io_bind. by destruct (m s). Qed.

Lemma post_mono {A} (m : IO O W A) (Q Q' : A -> Obj O W -> Prop) s :
  post m Q s -> (forall a s', Q a s' -> Q' a s') -> post m Q' s.
Proof. unfold post. auto. Qed.

Lemma post_ret {A} (a : A) (Q : A -> Obj O W -> Prop) s : Q a s -> post (io_ret a) Q s.
Proof. done. Qed.

Lemma post_this (Q : O -> Obj O W -> Prop) o w tr : Q o (mkObj o w tr) -> post this Q (mkObj o w tr).
Proof. done. Qed.

Lemma post_set_this f (Q : unit -> Obj O W -> Prop) o w tr :
  Q tt (mkObj (f o) w tr) -> post (set_this f) Q (mkObj o w tr).
Proof. done. Qed.

Lemma post_note ev (Q : unit -> Obj O W -> Prop) o w tr :
  Q tt (mkObj o w (tr ++ [ev])) -> post (note ev) Q (mkObj o w tr).
Proof. done. Qed.

Lemma post_sys {A} (f : W -> A * W) (Q : A -> Obj O W -> Prop) o w tr :
  (forall a w', f w = (a, w') -> Q a (mkObj o w' tr)) -> post (sys f) Q (mkObj o w tr).
Proof. intros HQ. unfold post, sys. cbn. destruct (f w) as [a w'] eqn:E. by apply HQ. Qed.
End post.

(** Run the primitive at the head of a program. *)
Ltac io_step :=
  lazymatch goal with
  | |- post (io_bind _ _) _ _ => apply post_bind
  | |- post (io_ret _) _ _ => apply post_ret
  | |- post this _ _ => apply post_this
  | |- post (set_this _) _ _ => apply post_set_this; cbn [update_field]
  | |- post (note _) _ _ => apply post_note
  | |- post (sys _) _ _ => let a := fresh "r" in let w := fresh "w" in let H := fresh "Hsys" in
      apply post_sys; intros a w H
  | |- post (if _ then _ else _) _ _ => case_if
  end; cbv beta.

Ltac io_steps := repeat io_step.

(** ** Monitors *)
Definition accepts {St} (step : St -> OsEvent -> option St) (s : St) (tr : list OsEvent) : option St :=
  fold_left (fun s ev => s ← s; step s ev) tr (Some s).

Lemma accepts_snoc {St} (step : St -> OsEvent -> option St) s tr ev :
  accepts step s (tr ++ [ev]) = s ← accepts step s tr; step s ev.
Proof. unfold accepts. by rewrite fold_left_app. Qed.

(** The resources an object holds: a descriptor, the list [getaddrinfo]
    allocated, a use of Winsock. *)
Record Held := mkHeld { held_fd : option Z; held_list : bool; held_winsock : bool }.

#[export] Instance Held_eq_dec : EqDecision Held.
Proof. solve_decision. Defined.

Definition nothing_held : Held := mkHeld None false false.

Definition holds (h : Held) (fd : Z) : bool := bool_decide (held_fd h = Some fd).

(** Nothing is opened twice, every call is on the descriptor that is held, and
    what is given back was held. [None] is a trace that breaks this. *)
Definition hold_step (h : Held) (ev : OsEvent) : option Held :=
  match ev with
  | OsSocket fd => if bool_decide (held_fd h = None) then Some (mkHeld (Some fd) (held_list h) (held_winsock h)) else None
  | OsNonblock fd | OsQuery fd | OsIo fd | OsWait fd _ | OsIdle fd => if holds h fd then Some h else None
  | OsClose fd => if holds h fd then Some (mkHeld None (held_list h) (held_winsock h)) else None
  | OsResolve | OsTls _ => Some h
  | OsAddrList => if held_list h then None else Some (mkHeld (held_fd h) true (held_winsock h))
  | OsFreeAddr => if held_list h then Some (mkHeld (held_fd h) false (held_winsock h)) else None
  | OsStartup => if held_winsock h then None else Some (mkHeld (held_fd h) (held_list h) true)
  | OsCleanup =>
      if held_winsock h && bool_decide (held_fd h = None) then Some (mkHeld (held_fd h) (held_list h) false) else None
  | OsUndefined => None
  end.

Definition held_after (tr : list OsEvent) : option Held := accepts hold_step nothing_held tr.

(** The non-blocking descriptor. [None] is a trace with a call that can wait:
    on a socket that is not non-blocking, with a time-out, or for a name
    server. *)
Definition prompt_step (nb : option Z) (ev : OsEvent) : option (option Z) :=
  match ev with
  | OsNonblock fd => Some (Some fd)
  | OsSocket _ | OsClose _ => Some None
  | OsIo fd => if bool_decide (nb = Some fd) then Some nb else None
  | OsWait _ timeout_ms => if timeout_ms =? 0 then Some nb else None
  | OsResolve | OsTls TlsNetConnect => None
  | _ => Some nb
  end.

Definition prompt_after (tr : list OsEvent) : option (option Z) := accepts prompt_step None tr.

Lemma held_after_snoc tr ev : held_after (tr ++ [ev]) = h ← held_after tr; hold_step h ev.
Proof. apply accepts_snoc. Qed.

Lemma prompt_after_snoc tr ev : prompt_after (tr ++ [ev]) = nb ← prompt_after tr; prompt_step nb ev.
Proof. apply accepts_snoc. Qed.

#[global] Arguments held_after : simpl never.
#[global] Arguments prompt_after : simpl never.

Lemma holds_self fd l w : holds (mkHeld (Some fd) l w) fd = true.
Proof. by apply bool_decide_eq_true. Qed.

(** The monitors along a trace that grew by the calls of a program. *)
Ltac run_monitors :=
  rewrite ?held_after_snoc, ?prompt_after_snoc;
  repeat match goal with
  | H : held_after ?tr = _ |- context [held_after ?tr] => rewrite H
  | H : prompt_after ?tr = _ |- context [prompt_after ?tr] => rewrite H
  end;
  repeat first
    [ progress cbn [mbind option_bind hold_step prompt_step nothing_held held_fd held_list held_winsock
        update_field andb]
    | rewrite holds_self
    | rewrite bool_decide_true by done ];
  eauto.

(** ** Objects that hold a socket *)
Class Holder (O : Type) := {
  sock_of : O -> option Z;
  usable : O -> bool;      (* what [is_connected()] returns *)
  started : O -> bool;     (* a use of Winsock *)
}.

Section holder.
Context {O W : Type} `{HO : Holder O}.
Implicit Types (o : O) (tr : list OsEvent) (s : Obj O W).

Definition held_by o : Held := mkHeld (sock_of o) false (started o).

(** The trace so far leaves the object with its socket, if it has one, and with
    nothing else, and no call was made on anything it did not hold. *)
Record holder_ok o tr : Prop := {
  holder_held : held_after tr = Some (held_by o);
  holder_usable : usable o = true -> is_Some (sock_of o);
}.

(** Its socket is non-blocking, and no call so far could wait. *)
Definition holder_prompt o tr : Prop := prompt_after tr = Some (sock_of o).

Definition holder_closed o : Prop := sock_of o = None /\ usable o = false.

(** [s] is the object [o] after at most one call on its socket. *)
Definition one_call o tr s : Prop :=
  self s = o /\ (trace s = tr \/ exists fd ev, sock_of o = Some fd /\ trace s = tr ++ [ev] /\
    (ev = OsIo fd \/ ev = OsIdle fd)).

Lemma one_call_ok o tr s : one_call o tr s -> holder_ok o tr -> holder_ok (self s) (trace s).
Proof.
  destruct s as [o' w tr']. intros [Ho Htr] [Hh Hu]. cbn in *. subst o'.
  destruct Htr as [-> | (fd & ev & Hfd & -> & Hev)]; [done|]. split; [|done].
  unfold held_by in *. rewrite Hfd in *. by destruct Hev as [-> | ->]; run_monitors.
Qed.

Lemma one_call_prompt o tr s : one_call o tr s -> holder_prompt o tr -> holder_prompt (self s) (trace s).
Proof.
  destruct s as [o' w tr']. unfold holder_prompt. intros [Ho Htr] Hp. cbn in *. subst o'.
  destruct Htr as [-> | (fd & ev & Hfd & -> & Hev)]; [done|].
  rewrite Hfd in *. by destruct Hev as [-> | ->]; run_monitors.
Qed.

Lemma one_call_closed o tr s : one_call o tr s -> holder_closed o -> holder_closed (self s).
Proof. by intros [-> _]. Qed.

(** The state of the object agrees with the code [connect] returned. *)
Definition connect_result (e : Error) o : Prop :=
  match e with
  | Ok => usable o = true
  | WouldBlock => is_Some (sock_of o) /\ usable o = false
  | TransportFailure => holder_closed o
  | _ => False
  end.

(** The codes of the interface. *)
Lemma connect_result_codes e o : connect_result e o -> In e [Ok; WouldBlock; TransportFailure].
Proof. destruct e; cbn; auto; done. Qed.
End holder.

(** ** The contract of the interface, as postconditions *)
Section contract.
Context {O W : Type}.
Implicit Types s : Obj O W.

(** The code and [written]: nothing is written unless the code is [Ok]. *)
Definition sends (data : list Z) (r : Error * Z) s : Prop :=
  In (fst r) [Ok; WouldBlock; TransportClosed; TransportFailure] /\ 0 <= snd r <= zlen data /\
  (fst r <> Ok -> snd r = 0).

(** The code and the bytes read: none unless the code is [Ok]. *)
Definition receives (n : Z) (r : Error * list Z) s : Prop :=
  In (fst r) [Ok; WouldBlock; TransportClosed; TransportFailure] /\ (0 <= n -> zlen (snd r) <= n) /\
  bytes_ok (snd r) /\ (fst r <> Ok -> snd r = []).

Lemma sends_some data n s : 0 <= n <= zlen data -> sends data (Ok, n) s.
Proof. intros. split_and!; cbn; auto; try lia. done. Qed.

Lemma sends_nothing data e s : In e [WouldBlock; TransportClosed; TransportFailure] -> sends data (e, 0) s.
Proof. intros. pose proof (zlen_nonneg data). split; [by right|]. cbn. split; [lia | done]. Qed.

Lemma receives_some n got s : (0 <= n -> zlen got <= n) -> bytes_ok got -> receives n (Ok, got) s.
Proof. intros. by split_and!; cbn; auto. Qed.

Lemma receives_nothing n e s : In e [WouldBlock; TransportClosed; TransportFailure] -> receives n (e, []) s.
Proof. intros. split; [by right|]. cbn. split; [done|]. split; [constructor | done]. Qed.

Lemma posts_transport_ok `{T : Transport (Obj O W)} `{CK : Clock (Obj O W)} :
  (forall s, post transport_connect (fun e _ => In e [Ok; WouldBlock; TransportFailure]) s) ->
  (forall data s, post (transport_send data) (sends data) s) ->
  (forall n s, post (transport_recv n) (receives n) s) ->
  (forall s, is_u32 (fst (now_ms s))) -> TransportOk (Obj O W).
Proof.
  intros Hc Hs Hr Hn. split; intros.
  - apply Hc.
  - apply (Hs data env).
  - apply (Hs data env).
  - apply (Hr n env).
  - by apply (Hr n env).
  - apply (Hr n env).
  - apply Hn.
Qed.
End contract.
