(* ===== verification/LinkSpec.v ===== *)
(** * LinkSpec: what a transport promises, as an abstract machine

    transport.hpp describes a byte stream that is down, opening or up. The
    machine below says which results each method may return in each state and
    where it leads. An implementation refines it if its methods simulate the
    machine's steps; then every sequence of calls returns what the machine
    allows. *)
From S2P Require Import Prelude Errors Transport Platform.

Inductive LinkState := Down | Opening | Up | Failed.

#[export] Instance LinkState_eq_dec : EqDecision LinkState.
Proof. solve_decision. Defined.

Inductive LinkOp := LConnect | LSend (data : list Z) | LRecv (n : Z) | LClose.

#[export] Instance LinkOp_eq_dec : EqDecision LinkOp.
Proof. solve_decision. Defined.

Inductive LinkResult :=
  | RConnect (e : Error) (connected : bool)
  | RSend (e : Error) (written : Z)
  | RRecv (e : Error) (got : list Z)
  | RClose (connected : bool).

Definition up (l : LinkState) : bool := match l with Up => true | _ => false end.

(** Codes of a transfer that moved nothing. *)
Definition moved_nothing (e : Error) : Prop := In e [WouldBlock; TransportClosed; TransportFailure].

(** A link that is up stays up, or goes down where the transfer said so. *)
Definition transfer_step (l : LinkState) (e : Error) (l' : LinkState) : Prop :=
  match l with
  | Up => l' = Up \/ l' = Down /\ (e = TransportClosed \/ e = TransportFailure)
  | _ => e = TransportClosed /\ l' = l
  end.

(** [failed] is the state a failed [connect] leads to: [Down] where another
    attempt can follow at once, [Failed] where [close] has to come first. *)
Inductive link_step (failed : LinkState) : LinkState -> LinkOp -> LinkResult -> LinkState -> Prop :=
  | link_up l : link_step failed l LConnect (RConnect Ok true) Up
  | link_opening l : l <> Up -> link_step failed l LConnect (RConnect WouldBlock false) Opening
  | link_fails l : l <> Up -> link_step failed l LConnect (RConnect TransportFailure false) failed
  | link_sends l data n l' :
      0 <= n <= zlen data -> transfer_step l Ok l' -> link_step failed l (LSend data) (RSend Ok n) l'
  | link_sends_not l data e l' :
      moved_nothing e -> transfer_step l e l' -> link_step failed l (LSend data) (RSend e 0) l'
  | link_receives l n got l' :
      (0 <= n -> zlen got <= n) -> bytes_ok got -> transfer_step l Ok l' ->
      link_step failed l (LRecv n) (RRecv Ok got) l'
  | link_receives_not l n e l' :
      moved_nothing e -> transfer_step l e l' -> link_step failed l (LRecv n) (RRecv e []) l'
  | link_closes l : link_step failed l LClose (RClose false) Down.

(** What a sequence of calls may return. Nothing is said from a [connect] in
    [Failed] on. *)
Inductive link_run (failed : LinkState) : LinkState -> list LinkOp -> list LinkResult -> Prop :=
  | link_done l : link_run failed l [] []
  | link_next l op r l' ops rs :
      link_step failed l op r l' -> link_run failed l' ops rs -> link_run failed l (op :: ops) (r :: rs)
  | link_unspecified ops rs : link_run failed Failed (LConnect :: ops) rs.

Section refinement.
Context {E : Type} `{T : Transport E}.

Definition link_do (op : LinkOp) (e : E) : LinkResult * E :=
  match op with
  | LConnect => let '(c, e) := transport_connect e in (RConnect c (transport_is_connected e), e)
  | LSend data => let '(c, n, e) := transport_send data e in (RSend c n, e)
  | LRecv n => let '(c, got, e) := transport_recv n e in (RRecv c got, e)
  | LClose => let e := transport_close e in (RClose (transport_is_connected e), e)
  end.

Fixpoint link_results (ops : list LinkOp) (e : E) : list LinkResult :=
  match ops with
  | [] => []
  | op :: ops => let '(r, e) := link_do op e in r :: link_results ops e
  end.

(** The simulation relation [R] carries every call over. *)
Definition simulates (failed : LinkState) (R : LinkState -> E -> Prop) : Prop :=
  forall l op e, R l e -> (l = Failed -> op <> LConnect) ->
  exists l', link_step failed l op (fst (link_do op e)) l' /\ R l' (snd (link_do op e)).

Lemma simulation_runs failed R l ops e :
  simulates failed R -> R l e -> link_run failed l ops (link_results ops e).
Proof.
  intros Hsim. revert l e; induction ops as [|op ops IH]; intros l e HR; [constructor|].
  cbn [link_results]. destruct (decide (l = Failed)) as [->|Hl].
  - destruct (decide (op = LConnect)) as [->|Hop]; [destruct (link_do LConnect e); apply link_unspecified|].
    destruct (Hsim Failed op e HR) as (l' & Hs & HR'); [done|]. destruct (link_do op e).
    econstructor; [exact Hs | by apply IH].
  - destruct (Hsim l op e HR) as (l' & Hs & HR'); [by intros ->|]. destruct (link_do op e).
    econstructor; [exact Hs | by apply IH].
Qed.
End refinement.

(** A transfer that returned what the contract allows, in a state that stays
    or goes down with the code. *)
Lemma link_send_step failed l data e n l' :
  In e [Ok; WouldBlock; TransportClosed; TransportFailure] -> 0 <= n <= zlen data -> (e <> Ok -> n = 0) ->
  transfer_step l e l' -> link_step failed l (LSend data) (RSend e n) l'.
Proof.
  intros [<-|He] Hn Hz Ht; [by constructor|]. rewrite Hz by (intros ->; by destruct He as [|[|[|[]]]]).
  by constructor.
Qed.

Lemma link_recv_step failed l n e got l' :
  In e [Ok; WouldBlock; TransportClosed; TransportFailure] -> (0 <= n -> zlen got <= n) -> bytes_ok got ->
  (e <> Ok -> got = []) -> transfer_step l e l' -> link_step failed l (LRecv n) (RRecv e got) l'.
Proof.
  intros [<-|He] Hn Hb Hz Ht; [by constructor|]. rewrite Hz by (intros ->; by destruct He as [|[|[|[]]]]).
  by constructor.
Qed.

#[export] Hint Constructors link_step : core.

(** ** Objects that hold a socket *)
Section holders.
Context {O W : Type} `{HO : Holder O} `{T : Transport (Obj O W)} (ok : Obj O W -> Prop).

(** The state of the link, as the object's members show it. *)
Definition holder_link (l : LinkState) (s : Obj O W) : Prop :=
  ok s /\ match l with
          | Down => holder_closed (self s)
          | Opening => is_Some (sock_of (self s)) /\ usable (self s) = false
          | Up => usable (self s) = true
          | Failed => False
          end.

(** The object after a transfer with code [e]. *)
Definition holder_transfer (s : Obj O W) (e : Error) (s' : Obj O W) : Prop :=
  ok s' /\ (usable (self s) = false -> e = TransportClosed /\ self s' = self s) /\
  (self s' = self s \/ holder_closed (self s') /\ (e = TransportClosed \/ e = TransportFailure)).

Lemma holder_transfer_step l s e s' :
  holder_link l s -> holder_transfer s e s' -> exists l', transfer_step l e l' /\ holder_link l' s'.
Proof.
  intros [Hok Hl] (Hok' & Hu & Hs). unfold holder_link. destruct l; cbn in *; [| | |done].
  - destruct Hl as [Hn Hf]. destruct (Hu Hf) as [-> ->]. by exists Down.
  - destruct Hl as [Hn Hf]. destruct (Hu Hf) as [-> ->]. by exists Opening.
  - destruct Hs as [-> | [Hc Hs]]; [exists Up | exists Down]; auto.
Qed.

Context (connect_post : forall s, ok s -> post transport_connect (fun e s' => ok s' /\ connect_result e (self s')) s)
  (connect_up : forall s, ok s -> usable (self s) = true -> fst (transport_connect s) = Ok)
  (send_post : forall data s, ok s -> post (transport_send data) (fun r s' =>
     sends data r s' /\ holder_transfer s (fst r) s') s)
  (recv_post : forall n s, ok s -> post (transport_recv n) (fun r s' =>
     receives n r s' /\ holder_transfer s (fst r) s') s)
  (close_post : forall s, ok s -> ok (transport_close s) /\ holder_closed (self (transport_close s)))
  (connected_usable : forall s, transport_is_connected s = usable (self s)).

Lemma holder_simulates : simulates Down holder_link.
Proof.
  intros l op s HR _. pose proof HR as [Hok Hl]. destruct op as [|data|n|]; cbn [link_do].
  - pose proof (connect_post s Hok) as [Hok' He]. pose proof (connect_up s Hok) as Hup.
    destruct (transport_connect s) as [e s']. cbn [fst snd] in *. rewrite connected_usable.
    assert (Hne : e <> Ok -> l <> Up) by (intros Hne ->; by apply Hne, Hup).
    destruct e; try done; cbn in He.
    + rewrite He. exists Up. by split.
    + destruct He as [Hs Hu]. rewrite Hu. exists Opening. split; [constructor; by apply Hne | by repeat split].
    + destruct He as [Hs Hu]. rewrite Hu. exists Down. split; [constructor; by apply Hne | by repeat split].
  - pose proof (send_post data s Hok) as [(Hc & Hn & Hz) Ht]. destruct (transport_send data s) as [[e k] s'].
    cbn [fst snd] in *. destruct (holder_transfer_step l s e s' HR Ht) as (l' & Hs & HR').
    exists l'. split; [by apply link_send_step | done].
  - pose proof (recv_post n s Hok) as [(Hc & Hn & Hb & Hz) Ht]. destruct (transport_recv n s) as [[e k] s'].
    cbn [fst snd] in *. destruct (holder_transfer_step l s e s' HR Ht) as (l' & Hs & HR').
    exists l'. split; [by apply link_recv_step | done].
  - destruct (close_post s Hok) as [Hok' [Hs Hu]]. cbn [fst snd]. rewrite connected_usable, Hu.
    exists Down. by repeat split.
Qed.

(** One call on the socket of an object that is usable, and the code
    [TransportClosed] otherwise. *)
Lemma one_call_transfer o tr w e s' :
  one_call o tr s' -> ok s' -> (usable o = false -> e = TransportClosed) -> holder_transfer (mkObj o w tr) e s'.
Proof. intros [Hs _] Hok Hu. split; [done|]. cbn [self]. split; [auto | by left]. Qed.
End holders.
