(* ===== verification/Posix.v ===== *)
(** * Posix: the system calls the POSIX transports make

    [PosixApi] gives the calls a meaning over any type of systems; [PosixApiOk]
    is what POSIX documents of their results. The numeric constants of the
    headers are whatever the platform says. The wrappers record the calls that
    touch a resource. [PosixClock] is examples/posix_clock.hpp. *)
From S2P Require Import Prelude Errors Transport Platform.
#[local] Open Scope io_scope.

Class PosixConstants := {
  AF_INET : Z; SOCK_STREAM : Z; IPPROTO_TCP : Z;
  F_GETFL : Z; F_SETFL : Z; O_NONBLOCK : Z;
  TCP_NODELAY : Z; SOL_SOCKET : Z; SO_ERROR : Z; MSG_NOSIGNAL : Z;
  POLLIN : Z; POLLOUT : Z; FD_SETSIZE : Z;
  EAGAIN : Z; EWOULDBLOCK : Z; EINTR : Z; EPIPE : Z; ECONNRESET : Z; ENOTCONN : Z;
  EINPROGRESS : Z; EALREADY : Z;
}.

(** [htons] and [htonl], as the bytes the result has in memory. *)
Definition htons (v : Z) : list Z := [u8 (Z.shiftr v 8); u8 v].
Definition htonl (v : Z) : list Z :=
  [u8 (Z.shiftr v 24); u8 (Z.shiftr v 16); u8 (Z.shiftr v 8); u8 v].

Record SockAddrIn := mkSockAddrIn { sin_family : Z; sin_port : list Z; sin_addr : list Z }.

Record AddrInfo := mkAddrInfo {
  ai_family : Z; ai_socktype : Z; ai_protocol : Z; ai_addr : SockAddrIn;
}.

(** Seconds and microseconds. *)
Definition Timeval : Type := Z * Z.

Class PosixApi (W : Type) := {
  sys_errno : W -> Z;
  sys_socket : Z -> Z -> Z -> W -> Z * W;
  sys_fcntl : Z -> Z -> Z -> W -> Z * W;
  sys_setsockopt : Z -> Z -> Z -> Z -> W -> Z * W;
  (** The result and the option's value. *)
  sys_getsockopt : Z -> Z -> Z -> W -> Z * Z * W;
  sys_connect : Z -> SockAddrIn -> W -> Z * W;
  sys_poll : Z -> Z -> Z -> W -> Z * W;
  (** The sets of descriptors to watch for reading and for writing. *)
  sys_select : Z -> list Z -> list Z -> Timeval -> W -> Z * W;
  sys_send : Z -> list Z -> Z -> W -> Z * W;
  (** The result and the bytes put in a buffer of the given size. *)
  sys_recv : Z -> Z -> Z -> W -> Z * list Z * W;
  sys_close : Z -> W -> Z * W;
  (** The result and the head of the list, if it is not null. *)
  sys_getaddrinfo : list Z -> list Z -> Z -> Z -> W -> Z * option AddrInfo * W;
  sys_freeaddrinfo : AddrInfo -> W -> unit * W;
  sys_clock_gettime : W -> Z * Z * W;
}.

(** POSIX: [send] and [recv] return -1 or the number of bytes moved, at most
    the number asked for. *)
Class PosixApiOk (W : Type) `{PosixApi W} : Prop := {
  sys_send_range fd data flags w :
    fst (sys_send fd data flags w) = -1 \/ 0 <= fst (sys_send fd data flags w) <= zlen data;
  sys_recv_range fd len flags w :
    0 <= len ->
    fst (fst (sys_recv fd len flags w)) = -1 \/
    fst (fst (sys_recv fd len flags w)) = zlen (snd (fst (sys_recv fd len flags w))) /\
    zlen (snd (fst (sys_recv fd len flags w))) <= len;
  sys_recv_bytes fd len flags w : bytes_ok (snd (fst (sys_recv fd len flags w)));
}.

Section calls.
Context `{PC : PosixConstants} {O W : Type} `{PA : PosixApi W}.

Definition errno : IO O W Z := sys (fun w => (sys_errno w, w)).

Definition socket (family type protocol : Z) : IO O W Z :=
  fd <- sys (sys_socket family type protocol);;
  (if fd >=? 0 then note (OsSocket fd) else io_ret tt);;;
  io_ret fd.

Definition fcntl_getfl (fd : Z) : IO O W Z := note (OsQuery fd);;; sys (sys_fcntl fd F_GETFL 0).

(** [fcntl(fd, F_SETFL, flags | O_NONBLOCK)]. *)
Definition fcntl_nonblock (fd flags : Z) : IO O W Z :=
  note (OsQuery fd);;;
  r <- sys (sys_fcntl fd F_SETFL (Z.lor flags O_NONBLOCK));;
  (if r >=? 0 then note (OsNonblock fd) else io_ret tt);;;
  io_ret r.

Definition setsockopt (fd level option value : Z) : IO O W Z :=
  note (OsQuery fd);;; sys (sys_setsockopt fd level option value).

Definition getsockopt (fd level option : Z) : IO O W (Z * Z) :=
  note (OsQuery fd);;; sys (sys_getsockopt fd level option).

Definition connect_to (fd : Z) (addr : SockAddrIn) : IO O W Z :=
  note (OsIo fd);;; sys (sys_connect fd addr).

(** [poll] of one descriptor, to ask and to wait for the application. *)
Definition poll (fd events timeout_ms : Z) : IO O W Z :=
  note (OsWait fd timeout_ms);;; sys (sys_poll fd events timeout_ms).

Definition poll_idle (fd events timeout_ms : Z) : IO O W Z :=
  note (OsIdle fd);;; sys (sys_poll fd events timeout_ms).

Definition timeval_ms (tv : Timeval) : Z := fst tv * 1000 + Z.quot (snd tv) 1000.

(** [FD_SET] of one descriptor, undefined from [FD_SETSIZE] on, and [select] on
    the set that contains it alone: to wait for the application until it is
    readable, and to ask whether it is writable. *)
Definition select_read_idle (fd : Z) (tv : Timeval) : IO O W Z :=
  (if fd >=? FD_SETSIZE then note OsUndefined else io_ret tt);;;
  note (OsIdle fd);;; sys (sys_select (fd + 1) [fd] [] tv).

Definition select_write (fd : Z) (tv : Timeval) : IO O W Z :=
  (if fd >=? FD_SETSIZE then note OsUndefined else io_ret tt);;;
  note (OsWait fd (timeval_ms tv));;; sys (sys_select (fd + 1) [] [fd] tv).

Definition send_bytes (fd : Z) (data : list Z) (flags : Z) : IO O W Z :=
  note (OsIo fd);;; sys (sys_send fd data flags).

Definition recv_bytes (fd len flags : Z) : IO O W (Z * list Z) :=
  note (OsIo fd);;; sys (sys_recv fd len flags).

Definition close_fd (fd : Z) : IO O W Z := note (OsClose fd);;; sys (sys_close fd).

Definition getaddrinfo (host port : list Z) (family socktype : Z) : IO O W (Z * option AddrInfo) :=
  note OsResolve;;;
  r <- sys (sys_getaddrinfo host port family socktype);;
  (if (fst r =? 0) && bool_decide (is_Some (snd r)) then note OsAddrList else io_ret tt);;;
  io_ret r.

Definition freeaddrinfo (res : AddrInfo) : IO O W unit := note OsFreeAddr;;; sys (sys_freeaddrinfo res).

(** [PosixClock::now_ms()]: the monotonic clock in milliseconds, truncated. *)
Definition posix_now_ms : IO O W Z :=
  ts <- sys sys_clock_gettime;;
  io_ret (u32 (u64 (u64 (u64 (fst ts) * 1000) + u64 (snd ts) / 1000000))).
End calls.

Lemma posix_now_u32 {O W} `{PosixApi W} (s : Obj O W) : is_u32 (fst (posix_now_ms s)).
Proof. unfold posix_now_ms, io_bind, sys. destruct (sys_clock_gettime _). apply u32_range. Qed.

Lemma posix_now_call {O W} `{PosixApi W} `{Holder O} (o : O) (w : W) tr :
  post posix_now_ms (fun _ => one_call o tr) (mkObj o w tr).
Proof. unfold posix_now_ms. io_steps. split; cbn; auto. Qed.

(** ** The network order of an address *)
Lemma htonl_octets a b c d :
  is_u8 a -> is_u8 b -> is_u8 c -> is_u8 d -> htonl (((a * 256 + b) * 256 + c) * 256 + d) = [a; b; c; d].
Proof.
  unfold is_u8. intros. unfold htonl, u8. rewrite !Z.shiftr_div_pow2 by lia.
  repeat f_equal; Z.to_euclidean_division_equations; lia.
Qed.

(** ** A simulated system

    The results of successive calls are scripted; sends are accepted whole. *)
Record SimOs := mkSimOs {
  sim_errno : Z;
  sim_sockets : list Z;          (* results of [socket] *)
  sim_setfl : Z;                 (* of [fcntl(F_SETFL)] *)
  sim_connects : list Z;         (* of [connect] *)
  sim_ready : list Z;            (* of [poll] and [select] *)
  sim_so_error : Z;
  sim_incoming : list (option (list Z));  (* what successive [recv]s find; [None], and then, -1 *)
  sim_resolves : bool;
  sim_clock_ms : Z;
  sim_tick_ms : Z;               (* by which a reading advances the clock *)
}.

#[export] Instance eta_SimOs : Eta SimOs := fun r =>
  mkSimOs (sim_errno r) (sim_sockets r) (sim_setfl r) (sim_connects r) (sim_ready r) (sim_so_error r)
    (sim_incoming r) (sim_resolves r) (sim_clock_ms r) (sim_tick_ms r).

Module LinuxConstants.
#[export] Instance linux : PosixConstants := {|
  AF_INET := 2; SOCK_STREAM := 1; IPPROTO_TCP := 6;
  F_GETFL := 3; F_SETFL := 4; O_NONBLOCK := 2048;
  TCP_NODELAY := 1; SOL_SOCKET := 1; SO_ERROR := 4; MSG_NOSIGNAL := 16384;
  POLLIN := 1; POLLOUT := 4; FD_SETSIZE := 1024;
  EAGAIN := 11; EWOULDBLOCK := 11; EINTR := 4; EPIPE := 32; ECONNRESET := 104; ENOTCONN := 107;
  EINPROGRESS := 115; EALREADY := 114;
|}.
End LinuxConstants.

Definition sim_pop (field : SimOs -> list Z) (set : list Z -> SimOs -> SimOs) (last : Z) (w : SimOs) : Z * SimOs :=
  match field w with
  | [] => (last, w)
  | r :: rs => (r, set rs w)
  end.

Definition sim_recv (len : Z) (w : SimOs) : Z * list Z * SimOs :=
  match sim_incoming w with
  | [] => (-1, [], w)
  | None :: rest => (-1, [], w <| sim_incoming := rest |>)
  | Some chunk :: rest =>
      let got := u8 <$> ztake len chunk in (zlen got, got, w <| sim_incoming := rest |>)
  end.

#[export] Instance sim_api : PosixApi SimOs := {|
  sys_errno := sim_errno;
  sys_socket _ _ _ := sim_pop sim_sockets (fun rs w => w <| sim_sockets := rs |>) (-1);
  sys_fcntl fd cmd arg w := (if arg =? 0 then 2 else sim_setfl w, w);
  sys_setsockopt _ _ _ _ w := (0, w);
  sys_getsockopt _ _ _ w := (0, sim_so_error w, w);
  sys_connect _ _ := sim_pop sim_connects (fun rs w => w <| sim_connects := rs |>) 0;
  sys_poll _ _ _ := sim_pop sim_ready (fun rs w => w <| sim_ready := rs |>) 1;
  sys_select _ _ _ _ := sim_pop sim_ready (fun rs w => w <| sim_ready := rs |>) 1;
  sys_send _ data _ w := (zlen data, w);
  sys_recv _ len _ := sim_recv len;
  sys_close _ w := (0, w);
  sys_getaddrinfo _ port family socktype w :=
    (0, if sim_resolves w then Some (mkAddrInfo family socktype 6 (mkSockAddrIn family [7; 91] [127; 0; 0; 1])) else None, w);
  sys_freeaddrinfo _ w := (tt, w);
  sys_clock_gettime w :=
    (sim_clock_ms w / 1000, sim_clock_ms w mod 1000 * 1000000, w <| sim_clock_ms ::= fun t => t + sim_tick_ms w |>);
|}.

#[export] Instance sim_api_ok : PosixApiOk SimOs.
Proof.
  split.
  - intros. right. cbn. pose proof (zlen_nonneg data). lia.
  - intros fd len flags w Hlen. cbn. unfold sim_recv. destruct (sim_incoming w) as [|[c|] r]; [by left| |by left].
    right. cbn. split; [done|]. rewrite zlen_fmap. unfold zlen, ztake. rewrite length_take. lia.
  - intros. cbn. unfold sim_recv. destruct (sim_incoming w) as [|[c|] r]; cbn; [constructor| |constructor].
    apply Forall_fmap, Forall_true. intros x. apply u8_range.
Qed.

Definition sim0 : SimOs := mkSimOs 11 [5; 6; 7] 0 [-1] [0; 1] 0 [] true 0 10.
