(* ===== verification/TcpIpTransport.v ===== *)
(** * TcpIpTransport: TCP to a numeric address (examples/tcp_ip_transport.hpp)

    The class over the system calls of [Posix], one definition per member
    function; what it promises to the client ([TransportOk]); and that it holds
    exactly one socket from [connect] to [close], calls nothing on another, and
    never makes a call that can wait. *)
From S2P Require Import Prelude Errors Transport Ipv4 Platform LinkSpec Posix.
#[local] Open Scope io_scope.

Record TcpIpTransport := mkTcpIpTransport {
  tcp_address_ : Ipv4;
  tcp_port_ : Z;
  tcp_fd_ : Z;
  tcp_connected_ : bool;
}.

#[export] Instance eta_TcpIpTransport : Eta TcpIpTransport := fun r =>
  mkTcpIpTransport (tcp_address_ r) (tcp_port_ r) (tcp_fd_ r) (tcp_connected_ r).

(** The two constructors. *)
Definition tcp_of_address (address : Ipv4) (port : Z) : TcpIpTransport :=
  mkTcpIpTransport address port (-1) false.
Definition tcp_of_text (dotted_quad : option (list Z)) (port : Z) : TcpIpTransport :=
  mkTcpIpTransport (ipv4 dotted_quad) port (-1) false.

Section tcp.
Context `{PC : PosixConstants} {W : Type} `{PA : PosixApi W}.

Definition tcp_classify (e : Z) : Error :=
  if (e =? EAGAIN) || (e =? EWOULDBLOCK) || (e =? EINTR) then WouldBlock
  else if (e =? EPIPE) || (e =? ECONNRESET) || (e =? ENOTCONN) then TransportClosed
  else TransportFailure.

Definition tcp_close : IO TcpIpTransport W unit :=
  t <- this;;
  (if tcp_fd_ t >=? 0 then close_fd (tcp_fd_ t);;; io_ret tt else io_ret tt);;;
  set_this (fun t => t <| tcp_fd_ := -1 |>);;;
  set_this (fun t => t <| tcp_connected_ := false |>).

(** The destructor. *)
Definition tcp_destroy : IO TcpIpTransport W unit := tcp_close.

Definition tcp_peer (t : TcpIpTransport) : SockAddrIn :=
  mkSockAddrIn AF_INET (htons (tcp_port_ t)) (htonl (to_uint32 (tcp_address_ t))).

Definition tcp_begin_connect : IO TcpIpTransport W Error :=
  fd <- socket AF_INET SOCK_STREAM IPPROTO_TCP;;
  set_this (fun t => t <| tcp_fd_ := fd |>);;;
  if fd <? 0 then io_ret TransportFailure
  else
    flags <- fcntl_getfl fd;;
    failed <- (if flags <? 0 then io_ret true
               else r <- fcntl_nonblock fd flags;; io_ret (r <? 0));;
    if (failed : bool) then tcp_close;;; io_ret TransportFailure
    else
      setsockopt fd IPPROTO_TCP TCP_NODELAY 1;;;
      t <- this;;
      r <- connect_to fd (tcp_peer t);;
      if r =? 0 then
        set_this (fun t => t <| tcp_connected_ := true |>);;; io_ret Ok
      else
        e <- errno;;
        if (e =? EINPROGRESS) || (e =? EALREADY) || (e =? EINTR) then io_ret WouldBlock
        else tcp_close;;; io_ret TransportFailure.

Definition tcp_finish_connect : IO TcpIpTransport W Error :=
  t <- this;;
  ready <- poll (tcp_fd_ t) POLLOUT 0;;
  if ready <? 0 then
    e <- errno;;
    if e =? EINTR then io_ret WouldBlock
    else tcp_close;;; io_ret TransportFailure
  else if ready =? 0 then io_ret WouldBlock
  else
    r <- getsockopt (tcp_fd_ t) SOL_SOCKET SO_ERROR;;
    if (fst r <? 0) || negb (snd r =? 0) then tcp_close;;; io_ret TransportFailure
    else
      set_this (fun t => t <| tcp_connected_ := true |>);;; io_ret Ok.

Definition tcp_connect : IO TcpIpTransport W Error :=
  t <- this;;
  if tcp_connected_ t then io_ret Ok
  else if tcp_fd_ t <? 0 then tcp_begin_connect
  else tcp_finish_connect.

(** The code and [written]. *)
Definition tcp_send (data : list Z) : IO TcpIpTransport W (Error * Z) :=
  t <- this;;
  if (tcp_fd_ t <? 0) || negb (tcp_connected_ t) then io_ret (TransportClosed, 0)
  else
    n <- send_bytes (tcp_fd_ t) data MSG_NOSIGNAL;;
    if n >? 0 then io_ret (Ok, n)
    else if n =? 0 then io_ret (TransportClosed, 0)
    else e <- errno;; io_ret (tcp_classify e, 0).

(** The code and the [read] bytes put in the buffer. *)
Definition tcp_recv (size : Z) : IO TcpIpTransport W (Error * list Z) :=
  t <- this;;
  if (tcp_fd_ t <? 0) || negb (tcp_connected_ t) then io_ret (TransportClosed, [])
  else
    r <- recv_bytes (tcp_fd_ t) size 0;;
    let '(n, got) := r in
    if n >? 0 then io_ret (Ok, ztake n got)
    else if n =? 0 then io_ret (TransportClosed, [])
    else e <- errno;; io_ret (tcp_classify e, []).

Definition tcp_wait_readable (timeout_ms : Z) : IO TcpIpTransport W unit :=
  t <- this;;
  if tcp_fd_ t <? 0 then io_ret tt
  else poll_idle (tcp_fd_ t) POLLIN timeout_ms;;; io_ret tt.

#[export] Instance tcp_transport : Transport (Obj TcpIpTransport W) := {|
  transport_connect := tcp_connect;
  transport_send := tcp_send;
  transport_recv := tcp_recv;
  transport_close s := snd (tcp_close s);
  transport_is_connected s := tcp_connected_ (self s);
|}.

#[export] Instance tcp_clock : Clock (Obj TcpIpTransport W) := {| now_ms := posix_now_ms |}.
End tcp.

(** ** What the object holds *)
#[export] Instance tcp_holder : Holder TcpIpTransport := {|
  sock_of t := if tcp_fd_ t >=? 0 then Some (tcp_fd_ t) else None;
  usable := tcp_connected_;
  started _ := false;
|}.

Lemma tcp_open t : 0 <= tcp_fd_ t -> sock_of t = Some (tcp_fd_ t).
Proof. intros. cbn. case_if; zbool; [done | lia]. Qed.

Lemma tcp_shut t : tcp_fd_ t < 0 -> sock_of t = None.
Proof. intros. cbn. case_if; zbool; [lia | done]. Qed.

Definition tcp_ok (t : TcpIpTransport) (tr : list OsEvent) : Prop := holder_ok t tr /\ holder_prompt t tr.

Section tcp_facts.
Context `{PC : PosixConstants} {W : Type} `{PA : PosixApi W}.
Implicit Types (s : Obj TcpIpTransport W) (t : TcpIpTransport) (tr : list OsEvent).

Definition tcp_closes (_ : unit) s : Prop := tcp_ok (self s) (trace s) /\ holder_closed (self s).

(** [close] gives the socket back, also where it is not non-blocking yet. *)
Lemma tcp_close_open t w tr :
  0 <= tcp_fd_ t -> held_after tr = Some (mkHeld (Some (tcp_fd_ t)) false false) -> is_Some (prompt_after tr) ->
  post tcp_close tcp_closes (mkObj t w tr).
Proof.
  intros Hfd Hh [nb Hp]. unfold tcp_close, close_fd. io_steps; zbool; [|lia].
  split; [|done]. split; [split|]; cbn [self trace]; unfold holder_prompt; run_monitors; done.
Qed.

Lemma tcp_close_post t w tr : tcp_ok t tr -> post tcp_close tcp_closes (mkObj t w tr).
Proof.
  intros [[Hh Hu] Hp]. destruct (Z.le_gt_cases 0 (tcp_fd_ t)).
  - apply tcp_close_open; [done | |]; [unfold held_by in Hh | unfold holder_prompt in Hp];
      rewrite tcp_open in * by done; eauto.
  - unfold holder_prompt, held_by in *. rewrite tcp_shut in * by done.
    unfold tcp_close. io_steps; zbool; [lia|]. by repeat split.
Qed.

(** *** [connect] *)
Definition tcp_connects (e : Error) s : Prop := tcp_ok (self s) (trace s) /\ connect_result e (self s).

(** Giving up: the socket is closed and the failure reported. *)
Lemma tcp_give_up t w tr :
  0 <= tcp_fd_ t -> held_after tr = Some (mkHeld (Some (tcp_fd_ t)) false false) ->
  is_Some (prompt_after tr) -> post (tcp_close;;; io_ret TransportFailure) tcp_connects (mkObj t w tr).
Proof.
  intros Hfd Hh Hp. io_step. eapply post_mono; [by apply tcp_close_open|]. intros ? s' [? ?]. by io_steps.
Qed.

(** The object is left with its non-blocking socket. *)
Lemma tcp_connects_open e t w tr :
  0 <= tcp_fd_ t -> held_after tr = Some (mkHeld (Some (tcp_fd_ t)) false false) ->
  prompt_after tr = Some (Some (tcp_fd_ t)) ->
  e = (if tcp_connected_ t then Ok else WouldBlock) -> tcp_connects e (mkObj t w tr).
Proof.
  intros Hfd Hh Hp ->. pose proof (tcp_open t Hfd) as Ho.
  split; [split; [split|]|]; cbn [self trace]; unfold holder_prompt, held_by; rewrite ?Ho; try done.
  destruct (tcp_connected_ t) eqn:E; [done|]. split; [by rewrite Ho | done].
Qed.

(** Run the program, giving up where it does, up to the monitors. *)
Ltac tcp_run :=
  repeat first [apply tcp_give_up | io_step]; zbool; try lia;
    try (apply tcp_connects_open; [cbn [tcp_fd_ update_field]; lia|..]); cbn [tcp_fd_ update_field];
    try (by run_monitors); try done.

Lemma tcp_begin_connect_post t w tr :
  tcp_ok t tr -> tcp_connected_ t = false -> tcp_fd_ t < 0 -> post tcp_begin_connect tcp_connects (mkObj t w tr).
Proof.
  intros [[Hh _] Hp] Hc Hfd. unfold held_by, holder_prompt in Hh, Hp. rewrite tcp_shut in Hh, Hp by done.
  change (started t) with false in Hh.
  unfold tcp_begin_connect, socket, fcntl_getfl, fcntl_nonblock, setsockopt, connect_to, errno.
  tcp_run; [cbn; by rewrite Hc|].
  assert (Hs : sock_of (t <| tcp_fd_ := r |>) = None) by (apply tcp_shut; done).
  split; [split; [split|]|]; unfold held_by, holder_prompt; cbn [self trace]; rewrite ?Hs; try done.
  cbn. congruence.
Qed.

Lemma tcp_finish_connect_post t w tr :
  tcp_ok t tr -> tcp_connected_ t = false -> 0 <= tcp_fd_ t -> post tcp_finish_connect tcp_connects (mkObj t w tr).
Proof.
  intros [[Hh _] Hp] Hc Hfd. unfold held_by, holder_prompt in Hh, Hp. rewrite tcp_open in Hh, Hp by done.
  change (started t) with false in Hh.
  unfold tcp_finish_connect, poll, errno, getsockopt. tcp_run; by rewrite Hc.
Qed.

Lemma tcp_connect_post t w tr : tcp_ok t tr -> post tcp_connect tcp_connects (mkObj t w tr).
Proof.
  intros Hok. unfold tcp_connect. io_steps; zbool.
  - by split.
  - by apply tcp_begin_connect_post.
  - by apply tcp_finish_connect_post.
Qed.

(** *** [send], [recv] and [wait_readable] *)
Lemma tcp_send_call data t w tr : post (tcp_send data) (fun _ => one_call t tr) (mkObj t w tr).
Proof. unfold tcp_send, send_bytes, errno. io_steps; zbool; split; cbn [self trace]; eauto 8 using tcp_open. Qed.

Lemma tcp_recv_call n t w tr : post (tcp_recv n) (fun _ => one_call t tr) (mkObj t w tr).
Proof.
  unfold tcp_recv, recv_bytes, errno. io_steps; try case_match; io_steps; zbool;
    split; cbn [self trace]; eauto 8 using tcp_open.
Qed.

Lemma tcp_wait_call ms t w tr : post (tcp_wait_readable ms) (fun _ => one_call t tr) (mkObj t w tr).
Proof. unfold tcp_wait_readable, poll_idle. io_steps; zbool; split; cbn [self trace]; eauto 8 using tcp_open. Qed.

Lemma tcp_classify_codes e : In (tcp_classify e) [WouldBlock; TransportClosed; TransportFailure].
Proof. unfold tcp_classify. repeat case_if; cbn; auto. Qed.
End tcp_facts.

(** ** The contracts *)
Section tcp_contract.
Context `{PC : PosixConstants} {W : Type} `{PAO : PosixApiOk W}.

Lemma tcp_connect_codes (s : Obj TcpIpTransport W) :
  post tcp_connect (fun e _ => In e [Ok; WouldBlock; TransportFailure]) s.
Proof.
  destruct s as [t w tr]. unfold tcp_connect, tcp_begin_connect, tcp_finish_connect, tcp_close, close_fd, socket,
    fcntl_getfl, fcntl_nonblock, setsockopt, connect_to, errno, poll, getsockopt.
  io_steps; cbn; auto.
Qed.

Lemma tcp_send_contract data (s : Obj TcpIpTransport W) : post (tcp_send data) (sends data) s.
Proof.
  destruct s as [t w tr]. pose proof (zlen_nonneg data). unfold tcp_send, send_bytes, errno. io_steps; zbool.
  all: try (by apply sends_nothing; cbn; auto).
  - apply sends_some. pose proof (sys_send_range (tcp_fd_ t) data MSG_NOSIGNAL w) as Hr. rewrite Hsys in Hr. cbn in Hr. lia.
  - apply sends_nothing, tcp_classify_codes.
Qed.

Lemma tcp_recv_contract n (s : Obj TcpIpTransport W) : post (tcp_recv n) (receives n) s.
Proof.
  destruct s as [t w tr]. unfold tcp_recv, recv_bytes, errno. io_steps; [apply receives_nothing; cbn; auto|].
  destruct r as [k got]. pose proof (sys_recv_range (tcp_fd_ t) n 0 w) as Hr.
  pose proof (sys_recv_bytes (tcp_fd_ t) n 0 w) as Hb. rewrite Hsys in Hr, Hb. cbn [fst snd] in *.
  io_steps; zbool; try (by apply receives_nothing; cbn; auto).
  - apply receives_some; [|by apply bytes_ok_take]. intros Hn.
    destruct (Hr Hn) as [|[-> ?]]; [lia|]. by rewrite ztake_all by lia.
  - apply receives_nothing, tcp_classify_codes.
Qed.

#[export] Instance tcp_transport_ok : TransportOk (Obj TcpIpTransport W).
Proof.
  apply posts_transport_ok; [apply tcp_connect_codes | apply tcp_send_contract | apply tcp_recv_contract |].
  intros s. apply posix_now_u32.
Qed.

(** Every method keeps the object in order; [close] closes it, and only
    [connect] opens it again. *)
Definition tcp_device (s : Obj TcpIpTransport W) : Prop := tcp_ok (self s) (trace s).
Definition tcp_device_closed (s : Obj TcpIpTransport W) : Prop := holder_closed (self s).

Lemma one_call_tcp_ok t tr (s : Obj TcpIpTransport W) : one_call t tr s -> tcp_ok t tr -> tcp_ok (self s) (trace s).
Proof. intros Hs [? ?]. split; [by eapply one_call_ok | by eapply one_call_prompt]. Qed.

#[export] Instance tcp_keeps : TransportKeeps tcp_device tcp_device_closed.
Proof.
  split; intros; repeat match goal with s : Obj _ _ |- _ => destruct s as [t w tr] end.
  - by apply (tcp_connect_post t w tr).
  - assert (Hok : tcp_ok (self (snd (tcp_connect (mkObj t w tr)))) (trace (snd (tcp_connect (mkObj t w tr)))))
      by (by apply (tcp_connect_post t w tr)).
    cbn [transport_connect tcp_transport] in *. destruct (snd (tcp_connect (mkObj t w tr))) as [t' w' tr'].
    by apply (tcp_close_post t' w' tr').
  - eapply one_call_tcp_ok; [apply (tcp_send_call data t w tr) | done].
  - eapply one_call_tcp_ok; [apply (tcp_recv_call n t w tr) | done].
  - by apply (tcp_close_post t w tr).
  - eapply one_call_tcp_ok; [apply (posix_now_call t w tr) | done].
  - eapply one_call_closed; [apply (tcp_send_call data t w tr) | done].
  - eapply one_call_closed; [apply (tcp_recv_call n t w tr) | done].
  - eapply one_call_closed; [apply (posix_now_call t w tr) | done].
Qed.

(** ** The abstract link *)
Lemma tcp_send_closed data (s : Obj TcpIpTransport W) :
  tcp_connected_ (self s) = false -> fst (fst (tcp_send data s)) = TransportClosed.
Proof. destruct s as [t w tr]. cbn. intros Ht. unfold tcp_send. cbn. by rewrite Ht, orb_true_r. Qed.

Lemma tcp_recv_closed n (s : Obj TcpIpTransport W) :
  tcp_connected_ (self s) = false -> fst (fst (tcp_recv n s)) = TransportClosed.
Proof. destruct s as [t w tr]. cbn. intros Ht. unfold tcp_recv. cbn. by rewrite Ht, orb_true_r. Qed.

Lemma tcp_simulates : simulates Down (holder_link tcp_device).
Proof.
  apply holder_simulates.
  - intros [t w tr] Hok. by apply tcp_connect_post.
  - intros [t w tr] _ Hu. cbn in *. unfold tcp_connect. cbn. by rewrite Hu.
  - intros data [t w tr] Hok. split; [apply (tcp_send_contract data (mkObj t w tr))|].
    eapply one_call_transfer; [apply (tcp_send_call data t w tr)| |by apply (tcp_send_closed data (mkObj t w tr))].
    eapply one_call_tcp_ok; [apply (tcp_send_call data t w tr) | done].
  - intros n [t w tr] Hok. split; [apply (tcp_recv_contract n (mkObj t w tr))|].
    eapply one_call_transfer; [apply (tcp_recv_call n t w tr)| |by apply (tcp_recv_closed n (mkObj t w tr))].
    eapply one_call_tcp_ok; [apply (tcp_recv_call n t w tr) | done].
  - intros [t w tr] Hok. by apply (tcp_close_post t w tr).
  - done.
Qed.
End tcp_contract.
