(* ===== verification/PosixTransport.v ===== *)
(** * PosixTransport: TCP to a host name (examples/posix_transport.hpp)

    The class over the system calls of [Posix], one definition per member
    function, its contract towards the client, and what it holds: the socket
    from [connect] to [close], and the address list within [connect] only. *)
From S2P Require Import Prelude Errors CLib Transport Platform LinkSpec Posix.
#[local] Open Scope io_scope.

Record PosixTransport := mkPosixTransport {
  px_host_ : list Z;
  px_port_ : Z;
  px_fd_ : Z;
  px_connected_ : bool;
}.

#[export] Instance eta_PosixTransport : Eta PosixTransport := fun r =>
  mkPosixTransport (px_host_ r) (px_port_ r) (px_fd_ r) (px_connected_ r).

Definition px_of_host (host : list Z) (port : Z) : PosixTransport := mkPosixTransport host port (-1) false.

Section posix.
Context `{PC : PosixConstants} {W : Type} `{PA : PosixApi W}.

Definition px_close : IO PosixTransport W unit :=
  t <- this;;
  (if px_fd_ t >=? 0 then close_fd (px_fd_ t);;; io_ret tt else io_ret tt);;;
  set_this (fun t => t <| px_fd_ := -1 |>);;;
  set_this (fun t => t <| px_connected_ := false |>).

(** The destructor. *)
Definition px_destroy : IO PosixTransport W unit := px_close.

(** The text of the port, in an array of eight characters. *)
Definition px_port_text (port : Z) : list Z := snprintf_fits 8 (digits_of port).

(** The part of [connect] from the socket on. *)
Definition px_open (res : AddrInfo) : IO PosixTransport W Error :=
  fd <- socket (ai_family res) (ai_socktype res) (ai_protocol res);;
  set_this (fun t => t <| px_fd_ := fd |>);;;
  if fd <? 0 then freeaddrinfo res;;; io_ret TransportFailure
  else
    flags <- fcntl_getfl fd;;
    fcntl_nonblock fd flags;;;
    setsockopt fd IPPROTO_TCP TCP_NODELAY 1;;;
    rc <- connect_to fd (ai_addr res);;
    freeaddrinfo res;;;
    if rc =? 0 then
      set_this (fun t => t <| px_connected_ := true |>);;; io_ret Ok
    else
      e <- errno;;
      if (e =? EINPROGRESS) || (e =? EALREADY) then io_ret WouldBlock
      else px_close;;; io_ret TransportFailure.

Definition px_begin : IO PosixTransport W Error :=
  t <- this;;
  r <- getaddrinfo (px_host_ t) (px_port_text (px_port_ t)) AF_INET SOCK_STREAM;;
  match snd r with
  | Some res => if negb (fst r =? 0) then io_ret TransportFailure else px_open res
  | None => io_ret TransportFailure
  end.

(** The poll for completion. *)
Definition px_finish : IO PosixTransport W Error :=
  t <- this;;
  ready <- select_write (px_fd_ t) (0, 0);;
  if ready <? 0 then px_close;;; io_ret TransportFailure
  else if ready =? 0 then io_ret WouldBlock
  else
    r <- getsockopt (px_fd_ t) SOL_SOCKET SO_ERROR;;
    if (fst r <? 0) || negb (snd r =? 0) then px_close;;; io_ret TransportFailure
    else
      set_this (fun t => t <| px_connected_ := true |>);;; io_ret Ok.

Definition px_connect : IO PosixTransport W Error :=
  t <- this;;
  if (px_fd_ t >=? 0) && px_connected_ t then io_ret Ok
  else if px_fd_ t <? 0 then px_begin
  else px_finish.

Definition px_send (data : list Z) : IO PosixTransport W (Error * Z) :=
  t <- this;;
  if (px_fd_ t <? 0) || negb (px_connected_ t) then io_ret (TransportClosed, 0)
  else
    n <- send_bytes (px_fd_ t) data MSG_NOSIGNAL;;
    if n >? 0 then io_ret (Ok, n)
    else if n =? 0 then io_ret (TransportClosed, 0)
    else
      e <- errno;;
      if (e =? EAGAIN) || (e =? EWOULDBLOCK) || (e =? EINTR) then io_ret (WouldBlock, 0)
      else io_ret (if (e =? EPIPE) || (e =? ECONNRESET) then TransportClosed else TransportFailure, 0).

Definition px_recv (size : Z) : IO PosixTransport W (Error * list Z) :=
  t <- this;;
  if (px_fd_ t <? 0) || negb (px_connected_ t) then io_ret (TransportClosed, [])
  else
    r <- recv_bytes (px_fd_ t) size 0;;
    let '(n, got) := r in
    if n >? 0 then io_ret (Ok, ztake n got)
    else if n =? 0 then io_ret (TransportClosed, [])
    else
      e <- errno;;
      if (e =? EAGAIN) || (e =? EWOULDBLOCK) || (e =? EINTR) then io_ret (WouldBlock, [])
      else io_ret (if e =? ECONNRESET then TransportClosed else TransportFailure, []).

Definition px_wait_readable (timeout_ms : Z) : IO PosixTransport W unit :=
  t <- this;;
  if px_fd_ t <? 0 then io_ret tt
  else
    select_read_idle (px_fd_ t) (Z.quot timeout_ms 1000, Z.rem timeout_ms 1000 * 1000);;;
    io_ret tt.

#[export] Instance px_transport : Transport (Obj PosixTransport W) := {|
  transport_connect := px_connect;
  transport_send := px_send;
  transport_recv := px_recv;
  transport_close s := snd (px_close s);
  transport_is_connected s := px_connected_ (self s);
|}.

#[export] Instance px_clock : Clock (Obj PosixTransport W) := {| now_ms := posix_now_ms |}.
End posix.

(** ** What the object holds *)
#[export] Instance px_holder : Holder PosixTransport := {|
  sock_of t := if px_fd_ t >=? 0 then Some (px_fd_ t) else None;
  usable := px_connected_;
  started _ := false;
|}.

Lemma px_open_sock t : 0 <= px_fd_ t -> sock_of t = Some (px_fd_ t).
Proof. intros. cbn. case_if; zbool; [done | lia]. Qed.

Lemma px_shut_sock t : px_fd_ t < 0 -> sock_of t = None.
Proof. intros. cbn. case_if; zbool; [lia | done]. Qed.

(** Descriptors an [fd_set] has room for. *)
Class SmallFds (W : Type) `{PosixConstants} `{PosixApi W} : Prop := {
  fd_setsize_nonneg : 0 <= FD_SETSIZE;
  small_fds family type protocol w : fst (sys_socket family type protocol w) < FD_SETSIZE;
}.

Section px_facts.
Context {W : Type} `{SF : SmallFds W}.
Implicit Types (s : Obj PosixTransport W) (t : PosixTransport) (tr : list OsEvent).

(** The object in order, its descriptor within reach of [FD_SET]. *)
Definition px_ok t tr : Prop := holder_ok t tr /\ px_fd_ t < FD_SETSIZE.

Definition px_closes (_ : unit) s : Prop := px_ok (self s) (trace s) /\ holder_closed (self s).
Definition px_connects (e : Error) s : Prop := px_ok (self s) (trace s) /\ connect_result e (self s).

Lemma px_close_open t w tr :
  0 <= px_fd_ t -> held_after tr = Some (mkHeld (Some (px_fd_ t)) false false) ->
  post px_close px_closes (mkObj t w tr).
Proof.
  intros Hfd Hh. unfold px_close, close_fd. io_steps; zbool; [|lia].
  pose proof fd_setsize_nonneg. split; [|done].
  split; [split|]; cbn [self trace px_fd_ update_field]; [by run_monitors | done | cbn; lia].
Qed.

Lemma px_close_post t w tr : px_ok t tr -> post px_close px_closes (mkObj t w tr).
Proof.
  intros [[Hh Hu] Hs]. pose proof fd_setsize_nonneg. destruct (Z.le_gt_cases 0 (px_fd_ t)).
  - apply px_close_open; [done|]. unfold held_by in Hh. by rewrite px_open_sock in Hh by done.
  - unfold held_by in *. rewrite px_shut_sock in * by done.
    unfold px_close. io_steps; zbool; [lia|]. split; [|done]. split; [by split|]. cbn. lia.
Qed.

Lemma px_give_up t w tr :
  0 <= px_fd_ t -> held_after tr = Some (mkHeld (Some (px_fd_ t)) false false) ->
  post (px_close;;; io_ret TransportFailure) px_connects (mkObj t w tr).
Proof.
  intros Hfd Hh. io_step. eapply post_mono; [by apply px_close_open|]. intros ? s' [? ?]. by io_steps.
Qed.

Lemma px_connects_open e t w tr :
  0 <= px_fd_ t < FD_SETSIZE -> held_after tr = Some (mkHeld (Some (px_fd_ t)) false false) ->
  e = (if px_connected_ t then Ok else WouldBlock) -> px_connects e (mkObj t w tr).
Proof.
  intros Hfd Hh ->. pose proof (px_open_sock t (proj1 Hfd)) as Ho.
  split; [split; [split|]|]; cbn [self trace]; unfold held_by; rewrite ?Ho; try done; [lia|].
  destruct (px_connected_ t) eqn:E; [done|]. split; [by rewrite Ho | done].
Qed.

Lemma px_connects_shut t w tr :
  px_fd_ t < 0 -> px_connected_ t = false -> held_after tr = Some nothing_held ->
  px_connects TransportFailure (mkObj t w tr).
Proof.
  intros Hfd Hc Hh. pose proof (px_shut_sock t Hfd) as Hs. pose proof fd_setsize_nonneg.
  split; [split; [split|]|]; cbn [self trace]; unfold held_by; rewrite ?Hs; try done; [|lia].
  cbn. congruence.
Qed.

Ltac px_run :=
  repeat first [apply px_give_up | io_step]; zbool; try lia;
    cbn [px_fd_ update_field]; try (by run_monitors); try done.

Lemma px_begin_post t w tr :
  px_ok t tr -> px_connected_ t = false -> px_fd_ t < 0 -> post px_begin px_connects (mkObj t w tr).
Proof.
  intros [[Hh _] _] Hc Hfd. unfold held_by in Hh. rewrite px_shut_sock in Hh by done. change (started t) with false in Hh.
  unfold px_begin, getaddrinfo. do 7 io_step.
  destruct r as [rc [res|]]; cbn [fst snd].
  2: { rewrite (bool_decide_false (is_Some None)) by (by intros []). rewrite andb_false_r.
    io_steps. apply px_connects_shut; [done | done | by run_monitors]. }
  rewrite (bool_decide_true (is_Some (Some res))) by eauto. rewrite andb_true_r.
  destruct (rc =? 0) eqn:Erc; cbn [negb].
  2: { io_steps. cbn [fst snd]. rewrite Erc. cbn [negb]. io_steps. apply px_connects_shut; [done | done | by run_monitors]. }
  io_steps. cbn [fst snd]. rewrite Erc. cbn [negb].
  unfold px_open, socket, fcntl_getfl, fcntl_nonblock, setsockopt, connect_to, freeaddrinfo, errno.
  px_run; try (apply px_connects_shut; [done | done | by run_monitors]);
    (apply px_connects_open; [|by run_monitors|cbn; by rewrite ?Hc]);
    pose proof (small_fds (ai_family res) (ai_socktype res) (ai_protocol res) w0) as Hs;
    rewrite Hsys0 in Hs; by split.
Qed.

Lemma px_finish_post t w tr :
  px_ok t tr -> px_connected_ t = false -> 0 <= px_fd_ t -> post px_finish px_connects (mkObj t w tr).
Proof.
  intros [[Hh _] Hs] Hc Hfd. unfold held_by in Hh. rewrite px_open_sock in Hh by done. change (started t) with false in Hh.
  unfold px_finish, select_write, getsockopt.
  px_run; (apply px_connects_open; [done | by run_monitors | cbn; by rewrite ?Hc]).
Qed.

Lemma px_connect_post t w tr : px_ok t tr -> post px_connect px_connects (mkObj t w tr).
Proof.
  intros Hok. pose proof Hok as [[_ Hu] _]. unfold px_connect. io_steps.
  - zbool. by split.
  - assert (px_connected_ t = false).
    { destruct (px_connected_ t) eqn:Ec; [|done]. destruct (Hu Ec) as [fd Hfd].
      zbool. by rewrite px_shut_sock in Hfd. }
    zbool. by apply px_begin_post.
  - assert (px_connected_ t = false) by (zbool; destruct E as [E|E]; zbool; [lia | done]).
    zbool. by apply px_finish_post.
Qed.

(** *** [send], [recv] and [wait_readable] *)
Lemma px_send_call data t w tr : post (px_send data) (fun _ => one_call t tr) (mkObj t w tr).
Proof. unfold px_send, send_bytes, errno. io_steps; zbool; split; cbn [self trace]; eauto 8 using px_open_sock. Qed.

Lemma px_recv_call n t w tr : post (px_recv n) (fun _ => one_call t tr) (mkObj t w tr).
Proof.
  unfold px_recv, recv_bytes, errno. io_steps; try case_match; io_steps; zbool;
    split; cbn [self trace]; eauto 8 using px_open_sock.
Qed.

Lemma px_wait_call ms t w tr : px_ok t tr -> post (px_wait_readable ms) (fun _ => one_call t tr) (mkObj t w tr).
Proof.
  intros [_ Hs]. unfold px_wait_readable, select_read_idle.
  io_steps; zbool; try lia; split; cbn [self trace]; eauto 8 using px_open_sock.
Qed.
End px_facts.

(** ** The contracts *)
Section px_contract.
Context `{PC : PosixConstants} {W : Type} `{PAO : PosixApiOk W}.

Lemma px_connect_codes (s : Obj PosixTransport W) :
  post px_connect (fun e _ => In e [Ok; WouldBlock; TransportFailure]) s.
Proof.
  destruct s as [t w tr]. unfold px_connect, px_begin, px_finish, px_open, px_close, close_fd, socket, freeaddrinfo,
    fcntl_getfl, fcntl_nonblock, setsockopt, connect_to, errno, select_write, getsockopt, getaddrinfo.
  io_steps; try case_match; io_steps; cbn; auto.
Qed.

Lemma px_send_contract data (s : Obj PosixTransport W) : post (px_send data) (sends data) s.
Proof.
  destruct s as [t w tr]. pose proof (zlen_nonneg data). unfold px_send, send_bytes, errno. io_steps; zbool.
  all: try (by apply sends_nothing; cbn; auto); try (by apply sends_nothing; case_if; cbn; auto).
  apply sends_some. pose proof (sys_send_range (px_fd_ t) data MSG_NOSIGNAL w) as Hr. rewrite Hsys in Hr. cbn in Hr. lia.
Qed.

Lemma px_recv_contract n (s : Obj PosixTransport W) : post (px_recv n) (receives n) s.
Proof.
  destruct s as [t w tr]. unfold px_recv, recv_bytes, errno. io_steps; [apply receives_nothing; cbn; auto|].
  destruct r as [k got]. pose proof (sys_recv_range (px_fd_ t) n 0 w) as Hr.
  pose proof (sys_recv_bytes (px_fd_ t) n 0 w) as Hb. rewrite Hsys in Hr, Hb. cbn [fst snd] in *.
  io_steps; zbool; try (by apply receives_nothing; cbn; auto); try (by apply receives_nothing; case_if; cbn; auto).
  apply receives_some; [|by apply bytes_ok_take]. intros Hn.
  destruct (Hr Hn) as [|[-> ?]]; [lia|]. by rewrite ztake_all by lia.
Qed.

#[export] Instance px_transport_ok : TransportOk (Obj PosixTransport W).
Proof.
  apply posts_transport_ok; [apply px_connect_codes | apply px_send_contract | apply px_recv_contract |].
  intros s. apply posix_now_u32.
Qed.

Definition px_device (s : Obj PosixTransport W) : Prop := px_ok (self s) (trace s).
Definition px_device_closed (s : Obj PosixTransport W) : Prop := holder_closed (self s).

Lemma one_call_px_ok t tr (s : Obj PosixTransport W) : one_call t tr s -> px_ok t tr -> px_ok (self s) (trace s).
Proof. intros Hs [? ?]. split; [by eapply one_call_ok | by destruct Hs as [-> _]]. Qed.

#[export] Instance px_keeps `{!SmallFds W} : TransportKeeps px_device px_device_closed.
Proof.
  split; intros; repeat match goal with s : Obj _ _ |- _ => destruct s as [t w tr] end.
  - by apply (px_connect_post t w tr).
  - assert (Hok : px_ok (self (snd (px_connect (mkObj t w tr)))) (trace (snd (px_connect (mkObj t w tr)))))
      by (by apply (px_connect_post t w tr)).
    cbn [transport_connect px_transport] in *. destruct (snd (px_connect (mkObj t w tr))) as [t' w' tr'].
    by apply (px_close_post t' w' tr').
  - eapply one_call_px_ok; [apply (px_send_call data t w tr) | done].
  - eapply one_call_px_ok; [apply (px_recv_call n t w tr) | done].
  - by apply (px_close_post t w tr).
  - eapply one_call_px_ok; [apply (posix_now_call t w tr) | done].
  - eapply one_call_closed; [apply (px_send_call data t w tr) | done].
  - eapply one_call_closed; [apply (px_recv_call n t w tr) | done].
  - eapply one_call_closed; [apply (posix_now_call t w tr) | done].
Qed.

(** ** The abstract link *)
Lemma px_send_closed data (s : Obj PosixTransport W) :
  px_connected_ (self s) = false -> fst (fst (px_send data s)) = TransportClosed.
Proof. destruct s as [t w tr]. cbn. intros Ht. unfold px_send. cbn. by rewrite Ht, orb_true_r. Qed.

Lemma px_recv_closed n (s : Obj PosixTransport W) :
  px_connected_ (self s) = false -> fst (fst (px_recv n s)) = TransportClosed.
Proof. destruct s as [t w tr]. cbn. intros Ht. unfold px_recv. cbn. by rewrite Ht, orb_true_r. Qed.

Lemma px_simulates `{!SmallFds W} : simulates Down (holder_link px_device).
Proof.
  apply holder_simulates.
  - intros [t w tr] Hok. by apply px_connect_post.
  - intros [t w tr] [[_ Hup] _] Hu. cbn [self] in *. destruct (Hup Hu) as [fd Hfd]. cbn in Hu, Hfd.
    unfold px_connect. cbn. rewrite Hu. by destruct (px_fd_ t >=? 0).
  - intros data [t w tr] Hok. split; [apply (px_send_contract data (mkObj t w tr))|].
    eapply one_call_transfer; [apply (px_send_call data t w tr)| |by apply (px_send_closed data (mkObj t w tr))].
    eapply one_call_px_ok; [apply (px_send_call data t w tr) | done].
  - intros n [t w tr] Hok. split; [apply (px_recv_contract n (mkObj t w tr))|].
    eapply one_call_transfer; [apply (px_recv_call n t w tr)| |by apply (px_recv_closed n (mkObj t w tr))].
    eapply one_call_px_ok; [apply (px_recv_call n t w tr) | done].
  - intros [t w tr] Hok. by apply (px_close_post t w tr).
  - done.
Qed.
End px_contract.
