(* ===== verification/WinsockTransport.v ===== *)
(** * WinsockTransport: TCP on Windows (examples/winsock_transport.hpp)

    The class over the calls of Winsock, an interface with the documented ranges
    of their results, one definition per member function; its contract towards
    the client; that it holds at most one socket, uses Winsock exactly while it
    holds one, and never makes a call that can wait. [win_now_ms] is
    examples/win_clock.hpp. *)
From S2P Require Import Prelude Errors Transport Ipv4 Platform LinkSpec Posix.
#[local] Open Scope io_scope.

Class WinsockConstants := {
  INVALID_SOCKET : Z;
  WS_AF_INET : Z; WS_SOCK_STREAM : Z; WS_IPPROTO_TCP : Z; FIONBIO : Z;
  WS_TCP_NODELAY : Z; WS_SOL_SOCKET : Z; WS_SO_ERROR : Z;
  WSAEWOULDBLOCK : Z; WSAEINPROGRESS : Z; WSAEALREADY : Z; WSAEINTR : Z; WSAECONNRESET : Z;
  WSAECONNABORTED : Z; WSAENETRESET : Z; WSAESHUTDOWN : Z; WSAENOTCONN : Z;
}.

Definition SOCKET_ERROR : Z := -1.
Definition INT_MAX : Z := 2 ^ 31 - 1.

Class WinsockApi (W : Type) := {
  win_last_error : W -> Z;
  win_startup : Z -> W -> Z * W;
  win_cleanup : W -> Z * W;
  win_socket : Z -> Z -> Z -> W -> Z * W;
  win_ioctlsocket : Z -> Z -> Z -> W -> Z * W;
  win_setsockopt : Z -> Z -> Z -> Z -> W -> Z * W;
  win_getsockopt : Z -> Z -> Z -> W -> Z * Z * W;
  win_connect : Z -> SockAddrIn -> W -> Z * W;
  (** The sets for reading, writing and exceptions. *)
  win_select : list Z -> list Z -> list Z -> Timeval -> W -> Z * W;
  win_send : Z -> list Z -> Z -> W -> Z * W;
  win_recv : Z -> Z -> Z -> W -> Z * list Z * W;
  win_closesocket : Z -> W -> Z * W;
  GetTickCount64 : W -> Z * W;
}.

(** [send] and [recv] return [SOCKET_ERROR] or the number of bytes moved, at
    most the number asked for. *)
Class WinsockApiOk (W : Type) `{WinsockApi W} : Prop := {
  win_send_range s data flags w :
    fst (win_send s data flags w) = SOCKET_ERROR \/ 0 <= fst (win_send s data flags w) <= zlen data;
  win_recv_range s len flags w :
    0 <= len ->
    fst (fst (win_recv s len flags w)) = SOCKET_ERROR \/
    fst (fst (win_recv s len flags w)) = zlen (snd (fst (win_recv s len flags w))) /\
    zlen (snd (fst (win_recv s len flags w))) <= len;
  win_recv_bytes s len flags w : bytes_ok (snd (fst (win_recv s len flags w)));
}.

Record WinsockTransport := mkWinsockTransport {
  ws_address_ : Ipv4;
  ws_port_ : Z;
  ws_sock_ : Z;
  ws_connected_ : bool;
  ws_wsa_started_ : bool;
}.

#[export] Instance eta_WinsockTransport : Eta WinsockTransport := fun r =>
  mkWinsockTransport (ws_address_ r) (ws_port_ r) (ws_sock_ r) (ws_connected_ r) (ws_wsa_started_ r).

(** [send] and [recv] take an [int]. *)
Definition clamp_to_int (n : Z) : Z := if n <? INT_MAX then n else INT_MAX.

Section winsock.
Context `{WC : WinsockConstants} {W : Type} `{WA : WinsockApi W}.

(** The two constructors. *)
Definition ws_of_address (address : Ipv4) (port : Z) : WinsockTransport :=
  mkWinsockTransport address port INVALID_SOCKET false false.
Definition ws_of_text (dotted_quad : option (list Z)) (port : Z) : WinsockTransport :=
  mkWinsockTransport (ipv4 dotted_quad) port INVALID_SOCKET false false.

Definition WSAGetLastError : IO WinsockTransport W Z := sys (fun w => (win_last_error w, w)).

Definition start_winsock : IO WinsockTransport W bool :=
  t <- this;;
  if ws_wsa_started_ t then io_ret true
  else
    r <- sys (win_startup 0x0202);;
    if negb (r =? 0) then io_ret false
    else
      note OsStartup;;;
      set_this (fun t => t <| ws_wsa_started_ := true |>);;; io_ret true.

Definition stop_winsock : IO WinsockTransport W unit :=
  t <- this;;
  if ws_wsa_started_ t then
    note OsCleanup;;; sys win_cleanup;;;
    set_this (fun t => t <| ws_wsa_started_ := false |>)
  else io_ret tt.

Definition ws_close : IO WinsockTransport W unit :=
  t <- this;;
  (if negb (ws_sock_ t =? INVALID_SOCKET) then
     note (OsClose (ws_sock_ t));;; sys (win_closesocket (ws_sock_ t));;;
     set_this (fun t => t <| ws_sock_ := INVALID_SOCKET |>)
   else io_ret tt);;;
  set_this (fun t => t <| ws_connected_ := false |>);;;
  stop_winsock.

(** The destructor. *)
Definition ws_destroy : IO WinsockTransport W unit := ws_close.

Definition ws_peer (t : WinsockTransport) : SockAddrIn :=
  mkSockAddrIn WS_AF_INET (htons (ws_port_ t)) (htonl (to_uint32 (ws_address_ t))).

Definition ws_begin_connect : IO WinsockTransport W Error :=
  up <- start_winsock;;
  if negb up then io_ret TransportFailure
  else
    sock <- sys (win_socket WS_AF_INET WS_SOCK_STREAM WS_IPPROTO_TCP);;
    set_this (fun t => t <| ws_sock_ := sock |>);;;
    if sock =? INVALID_SOCKET then stop_winsock;;; io_ret TransportFailure
    else
      note (OsSocket sock);;;
      note (OsQuery sock);;;
      r <- sys (win_ioctlsocket sock FIONBIO 1);;
      if negb (r =? 0) then ws_close;;; io_ret TransportFailure
      else
        note (OsNonblock sock);;;
        note (OsQuery sock);;;
        sys (win_setsockopt sock WS_IPPROTO_TCP WS_TCP_NODELAY 1);;;
        t <- this;;
        note (OsIo sock);;;
        r <- sys (win_connect sock (ws_peer t));;
        if r =? 0 then
          set_this (fun t => t <| ws_connected_ := true |>);;; io_ret Ok
        else
          err <- WSAGetLastError;;
          if (err =? WSAEWOULDBLOCK) || (err =? WSAEINPROGRESS) || (err =? WSAEALREADY) then io_ret WouldBlock
          else ws_close;;; io_ret TransportFailure.

Definition ws_finish_connect : IO WinsockTransport W Error :=
  t <- this;;
  note (OsWait (ws_sock_ t) 0);;;
  ready <- sys (win_select [] [ws_sock_ t] [ws_sock_ t] (0, 0));;
  if ready =? 0 then io_ret WouldBlock
  else if ready =? SOCKET_ERROR then ws_close;;; io_ret TransportFailure
  else
    note (OsQuery (ws_sock_ t));;;
    r <- sys (win_getsockopt (ws_sock_ t) WS_SOL_SOCKET WS_SO_ERROR);;
    if negb (fst r =? 0) || negb (snd r =? 0) then ws_close;;; io_ret TransportFailure
    else
      set_this (fun t => t <| ws_connected_ := true |>);;; io_ret Ok.

Definition ws_connect : IO WinsockTransport W Error :=
  t <- this;;
  if ws_connected_ t then io_ret Ok
  else if ws_sock_ t =? INVALID_SOCKET then ws_begin_connect
  else ws_finish_connect.

Definition ws_classify (err : Z) : IO WinsockTransport W Error :=
  if (err =? WSAEWOULDBLOCK) || (err =? WSAEINTR) then io_ret WouldBlock
  else if (err =? WSAECONNRESET) || (err =? WSAECONNABORTED) || (err =? WSAENETRESET) ||
          (err =? WSAESHUTDOWN) || (err =? WSAENOTCONN)
  then ws_close;;; io_ret TransportClosed
  else ws_close;;; io_ret TransportFailure.

Definition ws_send (data : list Z) : IO WinsockTransport W (Error * Z) :=
  t <- this;;
  if (ws_sock_ t =? INVALID_SOCKET) || negb (ws_connected_ t) then io_ret (TransportClosed, 0)
  else
    let len := clamp_to_int (zlen data) in
    note (OsIo (ws_sock_ t));;;
    n <- sys (win_send (ws_sock_ t) (ztake len data) 0);;
    if n >? 0 then io_ret (Ok, n)
    else if n =? 0 then io_ret (TransportClosed, 0)
    else
      err <- WSAGetLastError;;
      e <- ws_classify err;;
      io_ret (e, 0).

Definition ws_recv (size : Z) : IO WinsockTransport W (Error * list Z) :=
  t <- this;;
  if (ws_sock_ t =? INVALID_SOCKET) || negb (ws_connected_ t) then io_ret (TransportClosed, [])
  else
    let len := clamp_to_int size in
    note (OsIo (ws_sock_ t));;;
    r <- sys (win_recv (ws_sock_ t) len 0);;
    let '(n, got) := r in
    if n >? 0 then io_ret (Ok, ztake n got)
    else if n =? 0 then io_ret (TransportClosed, [])
    else
      err <- WSAGetLastError;;
      e <- ws_classify err;;
      io_ret (e, []).

Definition ws_wait_readable (timeout_ms : Z) : IO WinsockTransport W unit :=
  t <- this;;
  if ws_sock_ t =? INVALID_SOCKET then io_ret tt
  else
    note (OsIdle (ws_sock_ t));;;
    sys (win_select [ws_sock_ t] [] [] (Z.quot timeout_ms 1000, Z.rem timeout_ms 1000 * 1000));;;
    io_ret tt.

(** [WinClock::now_ms()]. *)
Definition win_now_ms : IO WinsockTransport W Z :=
  t <- sys GetTickCount64;; io_ret (u32 t).

#[export] Instance ws_transport : Transport (Obj WinsockTransport W) := {|
  transport_connect := ws_connect;
  transport_send := ws_send;
  transport_recv := ws_recv;
  transport_close s := snd (ws_close s);
  transport_is_connected s := ws_connected_ (self s);
|}.

#[export] Instance ws_clock : Clock (Obj WinsockTransport W) := {| now_ms := win_now_ms |}.

(** ** What the object holds *)
#[export] Instance ws_holder : Holder WinsockTransport := {|
  sock_of t := if ws_sock_ t =? INVALID_SOCKET then None else Some (ws_sock_ t);
  usable := ws_connected_;
  started := ws_wsa_started_;
|}.
End winsock.

(** Winsock must be in use whenever a socket is created or called on. *)
Definition winsock_step (started : bool) (ev : OsEvent) : option bool :=
  match ev with
  | OsStartup => Some true
  | OsCleanup => Some false
  | _ => if started then Some started else None
  end.

Definition winsock_after (tr : list OsEvent) : option bool := accepts winsock_step false tr.
#[global] Arguments winsock_after : simpl never.

Lemma winsock_after_snoc tr ev : winsock_after (tr ++ [ev]) = b ← winsock_after tr; winsock_step b ev.
Proof. apply accepts_snoc. Qed.

Ltac run_winsock :=
  rewrite ?winsock_after_snoc;
  repeat match goal with H : winsock_after ?tr = _ |- context [winsock_after ?tr] => rewrite H end;
  cbn [mbind option_bind winsock_step]; run_monitors.

Section ws_facts.
Context `{WC : WinsockConstants} {W : Type} `{WA : WinsockApi W}.
Implicit Types (s : Obj WinsockTransport W) (t : WinsockTransport) (tr : list OsEvent).

(** The object in order between two calls: Winsock is in use exactly while it
    holds a socket. *)
Record ws_ok t tr : Prop := {
  ws_ok_holder : holder_ok t tr;
  ws_ok_prompt : holder_prompt t tr;
  ws_ok_winsock : winsock_after tr = Some (ws_wsa_started_ t);
  ws_ok_started : ws_wsa_started_ t = true <-> ws_sock_ t <> INVALID_SOCKET;
}.

(** The object with a socket, [nb] the non-blocking one if any. *)
Record ws_live t tr (nb : option Z) : Prop := {
  live_sock : ws_sock_ t <> INVALID_SOCKET;
  live_started : ws_wsa_started_ t = true;
  live_held : held_after tr = Some (mkHeld (Some (ws_sock_ t)) false true);
  live_prompt : prompt_after tr = Some nb;
  live_winsock : winsock_after tr = Some true;
}.

Lemma ws_open_sock t : ws_sock_ t <> INVALID_SOCKET -> sock_of t = Some (ws_sock_ t).
Proof. intros. cbn. case_if; zbool; done. Qed.

Lemma ws_shut_sock t : ws_sock_ t = INVALID_SOCKET -> sock_of t = None.
Proof. intros. cbn. case_if; zbool; done. Qed.

Lemma ws_ok_live t tr : ws_ok t tr -> ws_sock_ t <> INVALID_SOCKET -> ws_live t tr (Some (ws_sock_ t)).
Proof.
  intros [[Hh _] Hp Hw Hs] Hne. pose proof (proj2 Hs Hne) as Hst. unfold held_by, holder_prompt in *.
  rewrite ws_open_sock in * by done. change (started t) with (ws_wsa_started_ t) in Hh. rewrite Hst in *. by split.
Qed.

Lemma ws_live_ok t tr : ws_live t tr (Some (ws_sock_ t)) -> ws_ok t tr.
Proof.
  intros [Hne Hst Hh Hp Hw]. pose proof (ws_open_sock t Hne) as Ho. split.
  - split; [unfold held_by; rewrite Ho; cbn; by rewrite Hst | by rewrite Ho].
  - unfold holder_prompt. by rewrite Ho.
  - by rewrite Hst.
  - by rewrite Hst.
Qed.

(** A call on the socket that is held. *)
Lemma ws_live_call t tr nb ev :
  ws_live t tr nb ->
  ev = OsQuery (ws_sock_ t) \/ ev = OsWait (ws_sock_ t) 0 \/ ev = OsIdle (ws_sock_ t) ->
  ws_live t (tr ++ [ev]) nb.
Proof. intros [Hne Hst Hh Hp Hw] [-> | [-> | ->]]; split; try done; by run_winsock. Qed.

Lemma ws_live_io t tr :
  ws_live t tr (Some (ws_sock_ t)) -> ws_live t (tr ++ [OsIo (ws_sock_ t)]) (Some (ws_sock_ t)).
Proof. intros [Hne Hst Hh Hp Hw]; split; try done; by run_winsock. Qed.

Lemma ws_live_connected t tr nb b : ws_live t tr nb -> ws_live (t <| ws_connected_ := b |>) tr nb.
Proof. by intros [? ? ? ? ?]. Qed.

(** *** [close] *)
Definition ws_closes (_ : unit) s : Prop := ws_ok (self s) (trace s) /\ holder_closed (self s).

Lemma ws_shut_ok t tr :
  ws_sock_ t = INVALID_SOCKET -> ws_connected_ t = false -> ws_wsa_started_ t = false ->
  held_after tr = Some nothing_held -> prompt_after tr = Some None -> winsock_after tr = Some false ->
  ws_ok t tr /\ holder_closed t.
Proof.
  intros Hs Hc Hst Hh Hp Hw. pose proof (ws_shut_sock t Hs) as Ho. split; [|by split]. split.
  - split; [unfold held_by; rewrite Ho; cbn; by rewrite Hst | cbn; congruence].
  - unfold holder_prompt. by rewrite Ho.
  - by rewrite Hst.
  - rewrite Hst, Hs. by split.
Qed.

Lemma ws_close_live t w tr nb : ws_live t tr nb -> post ws_close ws_closes (mkObj t w tr).
Proof.
  intros [Hne Hst Hh Hp Hw]. unfold ws_close, stop_winsock. io_steps; zbool; try done; cbn in *; try congruence.
  apply ws_shut_ok; cbn [self trace]; try done; by run_winsock.
Qed.

Lemma ws_close_post t w tr : ws_ok t tr -> post ws_close ws_closes (mkObj t w tr).
Proof.
  intros Hok. destruct (decide (ws_sock_ t = INVALID_SOCKET)) as [Hs|Hs]; [|by eapply ws_close_live, ws_ok_live].
  destruct Hok as [[Hh Hu] Hp Hw Hst]. unfold held_by, holder_prompt in *. rewrite ws_shut_sock in * by done.
  change (started t) with (ws_wsa_started_ t) in Hh.
  destruct (ws_wsa_started_ t) eqn:E; [by destruct (proj1 Hst)|].
  unfold ws_close, stop_winsock. io_steps; zbool; try done; cbn in *; try congruence.
  by apply ws_shut_ok.
Qed.

(** *** [connect] *)
Definition ws_connects (e : Error) s : Prop := ws_ok (self s) (trace s) /\ connect_result e (self s).

Lemma ws_give_up t w tr nb : ws_live t tr nb -> post (ws_close;;; io_ret TransportFailure) ws_connects (mkObj t w tr).
Proof. intros Hl. io_step. eapply post_mono; [by eapply ws_close_live|]. intros ? s' [? ?]. by io_steps. Qed.

Lemma ws_connects_open e t w tr :
  ws_live t tr (Some (ws_sock_ t)) -> e = (if ws_connected_ t then Ok else WouldBlock) ->
  ws_connects e (mkObj t w tr).
Proof.
  intros Hl ->. pose proof (ws_open_sock t (live_sock _ _ _ Hl)) as Ho. split; [by apply ws_live_ok|].
  cbn [self]. destruct (ws_connected_ t) eqn:E; [done|]. split; [by rewrite Ho | done].
Qed.

Lemma ws_finish_connect_post t w tr :
  ws_ok t tr -> ws_connected_ t = false -> ws_sock_ t <> INVALID_SOCKET ->
  post ws_finish_connect ws_connects (mkObj t w tr).
Proof.
  intros Hok Hc Hne. pose proof (ws_ok_live t tr Hok Hne) as Hl.
  assert (Hl' : forall t', ws_live t' tr (Some (ws_sock_ t)) ->
    ws_sock_ t' = ws_sock_ t -> ws_live t' (tr ++ [OsWait (ws_sock_ t) 0]) (Some (ws_sock_ t))).
  { intros t' Ht' Hs. rewrite <- Hs in *. by apply ws_live_call; [|auto]. }
  assert (Hq : forall t', ws_live t' tr (Some (ws_sock_ t)) -> ws_sock_ t' = ws_sock_ t ->
    ws_live t' ((tr ++ [OsWait (ws_sock_ t) 0]) ++ [OsQuery (ws_sock_ t)]) (Some (ws_sock_ t))).
  { intros t' Ht' Hs. specialize (Hl' t' Ht' Hs). rewrite <- Hs in *. by apply ws_live_call; [|auto]. }
  unfold ws_finish_connect. repeat first [eapply ws_give_up | io_step]; eauto.
  - apply ws_connects_open; [by apply Hl' | by rewrite Hc].
  - apply ws_connects_open; [|done]. apply Hq; [by apply ws_live_connected | done].
Qed.

Lemma ws_begin_connect_post t w tr :
  ws_ok t tr -> ws_connected_ t = false -> ws_sock_ t = INVALID_SOCKET ->
  post ws_begin_connect ws_connects (mkObj t w tr).
Proof.
  intros [[Hh Hu] Hp Hw Hst] Hc Hs. unfold held_by, holder_prompt in *. rewrite ws_shut_sock in * by done.
  change (started t) with (ws_wsa_started_ t) in Hh.
  destruct (ws_wsa_started_ t) eqn:E; [by destruct (proj1 Hst)|].
  unfold ws_begin_connect, start_winsock, stop_winsock, WSAGetLastError.
  repeat first [eapply ws_give_up | io_step]; zbool; cbn in *; try congruence; subst;
    try (by apply ws_shut_ok; try done; cbn [trace]; run_winsock);
    try (apply ws_connects_open; [|cbn; by rewrite ?Hc]);
    try (by split; cbn; try done; run_winsock).
  Unshelve. all: exact None.
Qed.

Lemma ws_connect_post t w tr : ws_ok t tr -> post ws_connect ws_connects (mkObj t w tr).
Proof.
  intros Hok. unfold ws_connect. io_steps; zbool.
  - by split.
  - by apply ws_begin_connect_post.
  - by apply ws_finish_connect_post.
Qed.

(** *** [send], [recv] and [wait_readable] *)

(** The object in order, and closed if it was closed. *)
Definition ws_stays t s : Prop :=
  ws_ok (self s) (trace s) /\ (holder_closed t -> holder_closed (self s)).

Lemma ws_classify_post t w tr err :
  ws_live t tr (Some (ws_sock_ t)) -> post (ws_classify err) (fun _ s => ws_ok (self s) (trace s)) (mkObj t w tr).
Proof.
  intros Hl. unfold ws_classify. io_steps; try (eapply post_mono; [by eapply ws_close_live|]; intros ? s' [? ?]);
    io_steps; [by apply ws_live_ok | done | done].
Qed.

Lemma ws_open_not_closed t : ws_sock_ t <> INVALID_SOCKET -> holder_closed t -> False.
Proof. intros Hne [Hs _]. by rewrite ws_open_sock in Hs. Qed.

Lemma ws_send_post data t w tr : ws_ok t tr -> post (ws_send data) (fun _ => ws_stays t) (mkObj t w tr).
Proof.
  intros Hok. unfold ws_send, WSAGetLastError. io_step. io_step. io_step; [io_steps; by split|]. zbool.
  assert (Hne : ws_sock_ t <> INVALID_SOCKET) by done.
  pose proof (ws_live_io _ _ (ws_ok_live t tr Hok Hne)) as Hl. pose proof (ws_open_not_closed t Hne).
  io_steps; try (split; [by apply ws_live_ok | done]).
  eapply post_mono; [by apply ws_classify_post|]. intros e s' Hs'. io_steps. by split.
Qed.

Lemma ws_recv_post n t w tr : ws_ok t tr -> post (ws_recv n) (fun _ => ws_stays t) (mkObj t w tr).
Proof.
  intros Hok. unfold ws_recv, WSAGetLastError. io_step. io_step. io_step; [io_steps; by split|]. zbool.
  assert (Hne : ws_sock_ t <> INVALID_SOCKET) by done.
  pose proof (ws_live_io _ _ (ws_ok_live t tr Hok Hne)) as Hl. pose proof (ws_open_not_closed t Hne).
  io_steps. case_match. io_steps; try (split; [by apply ws_live_ok | done]).
  eapply post_mono; [by apply ws_classify_post|]. intros e s' Hs'. io_steps. by split.
Qed.

Lemma ws_wait_post ms t w tr : ws_ok t tr -> post (ws_wait_readable ms) (fun _ => ws_stays t) (mkObj t w tr).
Proof.
  intros Hok. unfold ws_wait_readable. io_step. io_step. io_step; [io_steps; by split|]. zbool.
  io_steps. split; [|done]. apply ws_live_ok, ws_live_call; [by apply ws_ok_live | auto].
Qed.

Lemma win_now_post t w tr : ws_ok t tr -> post win_now_ms (fun _ => ws_stays t) (mkObj t w tr).
Proof. intros. unfold win_now_ms. io_steps. by split. Qed.
End ws_facts.

(** ** The contracts *)
Section ws_contract.
Context `{WC : WinsockConstants} {W : Type} `{WAO : WinsockApiOk W}.

Lemma clamp_range n : 0 <= n -> 0 <= clamp_to_int n <= n.
Proof. intros. unfold clamp_to_int, INT_MAX. case_if; zbool; lia. Qed.

Lemma ws_connect_codes (s : Obj WinsockTransport W) :
  post ws_connect (fun e _ => In e [Ok; WouldBlock; TransportFailure]) s.
Proof.
  destruct s as [t w tr]. unfold ws_connect, ws_begin_connect, ws_finish_connect, ws_close, start_winsock, stop_winsock,
    WSAGetLastError. io_steps; cbn; auto.
Qed.

Lemma ws_classify_codes err (s : Obj WinsockTransport W) :
  post (ws_classify err) (fun e _ => In e [WouldBlock; TransportClosed; TransportFailure]) s.
Proof. destruct s. unfold ws_classify, ws_close, stop_winsock. io_steps; cbn; auto. Qed.

Lemma ws_send_contract data (s : Obj WinsockTransport W) : post (ws_send data) (sends data) s.
Proof.
  destruct s as [t w tr]. pose proof (zlen_nonneg data) as Hn. pose proof (clamp_range _ Hn) as Hc.
  unfold ws_send, WSAGetLastError. io_steps; zbool; try (by apply sends_nothing; cbn; auto).
  - apply sends_some. pose proof (win_send_range (ws_sock_ t) (ztake (clamp_to_int (zlen data)) data) 0 w) as Hr.
    rewrite Hsys, zlen_ztake in Hr by lia. unfold SOCKET_ERROR in Hr. cbn in Hr. lia.
  - eapply post_mono; [apply ws_classify_codes|]. intros e s' He. io_steps. by apply sends_nothing.
Qed.

Lemma ws_recv_contract n (s : Obj WinsockTransport W) : post (ws_recv n) (receives n) s.
Proof.
  destruct s as [t w tr]. unfold ws_recv, WSAGetLastError. io_steps; [apply receives_nothing; cbn; auto|].
  destruct r as [k got]. pose proof (win_recv_range (ws_sock_ t) (clamp_to_int n) 0 w) as Hr.
  pose proof (win_recv_bytes (ws_sock_ t) (clamp_to_int n) 0 w) as Hb. rewrite Hsys in Hr, Hb. cbn [fst snd] in *.
  io_steps; zbool; try (by apply receives_nothing; cbn; auto).
  - apply receives_some; [|by apply bytes_ok_take]. intros Hn. pose proof (clamp_range _ Hn). unfold SOCKET_ERROR in Hr.
    destruct Hr as [|[-> ?]]; [lia | lia |]. rewrite ztake_all by lia. lia.
  - eapply post_mono; [apply ws_classify_codes|]. intros e s' He. io_steps. by apply receives_nothing.
Qed.

#[export] Instance ws_transport_ok : TransportOk (Obj WinsockTransport W).
Proof.
  apply posts_transport_ok; [apply ws_connect_codes | apply ws_send_contract | apply ws_recv_contract |].
  intros s. cbn. unfold win_now_ms, io_bind, sys. destruct (GetTickCount64 _). apply u32_range.
Qed.

Definition ws_device (s : Obj WinsockTransport W) : Prop := ws_ok (self s) (trace s).
Definition ws_device_closed (s : Obj WinsockTransport W) : Prop := holder_closed (self s).

#[export] Instance ws_keeps : TransportKeeps ws_device ws_device_closed.
Proof.
  split; intros; repeat match goal with s : Obj _ _ |- _ => destruct s as [t w tr] end.
  - by apply (ws_connect_post t w tr).
  - assert (Hok : ws_ok (self (snd (ws_connect (mkObj t w tr)))) (trace (snd (ws_connect (mkObj t w tr)))))
      by (by apply (ws_connect_post t w tr)).
    cbn [transport_connect ws_transport] in *. destruct (snd (ws_connect (mkObj t w tr))) as [t' w' tr'].
    by apply (ws_close_post t' w' tr').
  - by apply (ws_send_post data t w tr).
  - by apply (ws_recv_post n t w tr).
  - by apply (ws_close_post t w tr).
  - by apply (win_now_post t w tr).
  - by apply (ws_send_post data t w tr).
  - by apply (ws_recv_post n t w tr).
  - by apply (win_now_post t w tr).
Qed.

(** ** The abstract link *)

(** A transfer that failed closed the socket, unless it only has to wait. *)
Lemma ws_classify_transfer t0 w0 tr0 t w tr err :
  ws_live t tr (Some (ws_sock_ t)) -> t0 = t -> ws_connected_ t = true ->
  post (ws_classify err) (fun e s => holder_transfer ws_device (mkObj t0 w0 tr0) e s) (mkObj t w tr).
Proof.
  intros Hl -> Hc. unfold ws_classify.
  assert (Hu : usable t = false -> forall P : Prop, P) by (cbn; congruence).
  io_steps; try (eapply post_mono; [by eapply ws_close_live|]; intros ? s' [? ?]); io_steps.
  - split; [by apply ws_live_ok|]. split; [intros Hf; by apply Hu | by left].
  - split; [done|]. split; [intros Hf; by apply Hu | by right; auto].
  - split; [done|]. split; [intros Hf; by apply Hu | by right; auto].
Qed.

(** The same object after a call that did not fail. *)
Lemma ws_same_transfer t w tr w' tr' e :
  ws_live t tr' (Some (ws_sock_ t)) -> ws_connected_ t = true ->
  holder_transfer ws_device (mkObj t w tr) e (mkObj t w' tr').
Proof.
  intros Hl Hc. split; [by apply ws_live_ok|]. split; [cbn; congruence | by left].
Qed.

Lemma ws_send_transfer data t w tr :
  ws_ok t tr -> post (ws_send data) (fun r s' => holder_transfer ws_device (mkObj t w tr) (fst r) s') (mkObj t w tr).
Proof.
  intros Hok. unfold ws_send, WSAGetLastError. io_step. io_step. io_step.
  { io_steps. split; [done|]. split; [done | by left]. }
  zbool. assert (Hne : ws_sock_ t <> INVALID_SOCKET) by done.
  pose proof (ws_live_io _ _ (ws_ok_live t tr Hok Hne)) as Hl.
  io_steps; try (by apply ws_same_transfer).
  eapply post_mono; [by apply ws_classify_transfer|]. intros e s' Hs'. by io_steps.
Qed.

Lemma ws_recv_transfer n t w tr :
  ws_ok t tr -> post (ws_recv n) (fun r s' => holder_transfer ws_device (mkObj t w tr) (fst r) s') (mkObj t w tr).
Proof.
  intros Hok. unfold ws_recv, WSAGetLastError. io_step. io_step. io_step.
  { io_steps. split; [done|]. split; [done | by left]. }
  zbool. assert (Hne : ws_sock_ t <> INVALID_SOCKET) by done.
  pose proof (ws_live_io _ _ (ws_ok_live t tr Hok Hne)) as Hl.
  io_steps. case_match. io_steps; try (by apply ws_same_transfer).
  eapply post_mono; [by apply ws_classify_transfer|]. intros e s' Hs'. by io_steps.
Qed.

Lemma ws_simulates : simulates Down (holder_link ws_device).
Proof.
  apply holder_simulates.
  - intros [t w tr] Hok. by apply ws_connect_post.
  - intros [t w tr] _ Hu. cbn in *. unfold ws_connect. cbn. by rewrite Hu.
  - intros data [t w tr] Hok. split; [apply (ws_send_contract data (mkObj t w tr)) | by apply (ws_send_transfer data t w tr)].
  - intros n [t w tr] Hok. split; [apply (ws_recv_contract n (mkObj t w tr)) | by apply (ws_recv_transfer n t w tr)].
  - intros [t w tr] Hok. by apply (ws_close_post t w tr).
  - done.
Qed.
End ws_contract.
