(* ===== verification/TlsTransport.v ===== *)
(** * TlsTransport: TLS over mbedTLS (examples/tls_transport.hpp)

    The class [MbedTlsTransport] over the calls of mbedTLS, an interface with
    the documented ranges of their results; its contract towards the client;
    and that no application data moves on a connection whose peer was not
    verified. The contexts the class owns are part of the library's state. *)
From S2P Require Import Prelude Errors Transport Platform LinkSpec Posix.
#[local] Open Scope io_scope.

Inductive TlsContext := TlsNet | TlsSsl | TlsConf | TlsCa | TlsDrbg | TlsEntropy.

Class MbedTlsConstants := {
  MBEDTLS_ERR_SSL_WANT_READ : Z;
  MBEDTLS_ERR_SSL_WANT_WRITE : Z;
  MBEDTLS_ERR_SSL_PEER_CLOSE_NOTIFY : Z;
}.

Class MbedTlsApi (W : Type) := {
  mbedtls_init : TlsContext -> W -> unit * W;
  mbedtls_free : TlsContext -> W -> unit * W;
  mbedtls_ctr_drbg_seed : list Z -> W -> Z * W;
  mbedtls_x509_crt_parse : list Z -> W -> Z * W;
  mbedtls_net_connect : list Z -> list Z -> W -> Z * W;
  mbedtls_net_set_nonblock : W -> Z * W;
  (** A client over a stream, with the default preset. *)
  mbedtls_ssl_config_defaults : W -> Z * W;
  (** Verification required, the chain, the generator. *)
  mbedtls_ssl_conf_verify_required : W -> unit * W;
  mbedtls_ssl_conf_ca_chain : W -> unit * W;
  mbedtls_ssl_conf_rng : W -> unit * W;
  mbedtls_ssl_setup : W -> Z * W;
  mbedtls_ssl_set_hostname : list Z -> W -> Z * W;
  mbedtls_ssl_set_bio : W -> unit * W;
  mbedtls_ssl_handshake : W -> Z * W;
  mbedtls_ssl_get_verify_result : W -> Z * W;
  mbedtls_ssl_write : list Z -> W -> Z * W;
  mbedtls_ssl_read : Z -> W -> Z * list Z * W;
  mbedtls_ssl_close_notify : W -> Z * W;
}.

(** A positive result of [ssl_write] and [ssl_read] is the number of bytes
    moved, at most the number asked for. *)
Class MbedTlsApiOk (W : Type) `{MbedTlsApi W} : Prop := {
  ssl_write_range data w : fst (mbedtls_ssl_write data w) <= zlen data;
  ssl_read_range n w :
    0 <= n -> 0 < fst (fst (mbedtls_ssl_read n w)) ->
    fst (fst (mbedtls_ssl_read n w)) = zlen (snd (fst (mbedtls_ssl_read n w))) /\
    zlen (snd (fst (mbedtls_ssl_read n w))) <= n;
  ssl_read_bytes n w : bytes_ok (snd (fst (mbedtls_ssl_read n w)));
}.

Record MbedTlsTransport := mkMbedTlsTransport {
  tls_host_ : list Z;
  tls_port_ : list Z;
  tls_ca_pem_ : list Z;   (* its length is [ca_pem_len_] *)
  tls_connected_ : bool;
  tls_setup_done_ : bool;
}.

#[export] Instance eta_MbedTlsTransport : Eta MbedTlsTransport := fun r =>
  mkMbedTlsTransport (tls_host_ r) (tls_port_ r) (tls_ca_pem_ r) (tls_connected_ r) (tls_setup_done_ r).

(** "mqtt-embedded" *)
Definition kPers : list Z := [109; 113; 116; 116; 45; 101; 109; 98; 101; 100; 100; 101; 100].

Section tls.
Context `{MC : MbedTlsConstants} {W : Type} `{MA : MbedTlsApi W}.

Definition tls_of (host port ca_pem : list Z) : MbedTlsTransport := mkMbedTlsTransport host port ca_pem false false.

(** The body of the constructor. *)
Definition tls_construct : IO MbedTlsTransport W unit :=
  sys (mbedtls_init TlsNet);;; sys (mbedtls_init TlsSsl);;; sys (mbedtls_init TlsConf);;;
  sys (mbedtls_init TlsCa);;; sys (mbedtls_init TlsDrbg);;; sys (mbedtls_init TlsEntropy).

(** Release one of the network context's connections, if it has one. *)
Definition tls_net_free : IO MbedTlsTransport W unit := note (OsTls TlsNetFree);;; sys (mbedtls_free TlsNet).

Definition tls_close : IO MbedTlsTransport W unit :=
  t <- this;;
  (if tls_connected_ t then note (OsTls TlsData);;; sys mbedtls_ssl_close_notify;;; io_ret tt else io_ret tt);;;
  tls_net_free;;;
  set_this (fun t => t <| tls_connected_ := false |>);;;
  set_this (fun t => t <| tls_setup_done_ := false |>).

Definition tls_destroy : IO MbedTlsTransport W unit :=
  tls_close;;;
  sys (mbedtls_free TlsEntropy);;; sys (mbedtls_free TlsDrbg);;; sys (mbedtls_free TlsCa);;;
  sys (mbedtls_free TlsConf);;; note (OsTls TlsSslFree);;; sys (mbedtls_free TlsSsl);;; tls_net_free.

(** [setup()] from the connection on. *)
Definition tls_setup_session : IO MbedTlsTransport W Z :=
  t <- this;;
  r <- sys mbedtls_net_set_nonblock;;
  if negb (r =? 0) then io_ret (-1)
  else
    r <- sys mbedtls_ssl_config_defaults;;
    if negb (r =? 0) then io_ret (-1)
    else
      sys mbedtls_ssl_conf_verify_required;;;
      sys mbedtls_ssl_conf_ca_chain;;;
      sys mbedtls_ssl_conf_rng;;;
      note (OsTls TlsSslSetup);;;
      r <- sys mbedtls_ssl_setup;;
      if negb (r =? 0) then io_ret (-1)
      else
        r <- sys (mbedtls_ssl_set_hostname (tls_host_ t));;
        if negb (r =? 0) then io_ret (-1)
        else sys mbedtls_ssl_set_bio;;; io_ret 0.

Definition tls_setup : IO MbedTlsTransport W Z :=
  t <- this;;
  r <- sys (mbedtls_ctr_drbg_seed kPers);;
  if negb (r =? 0) then io_ret (-1)
  else
    note (OsTls TlsCaParse);;;
    r <- sys (mbedtls_x509_crt_parse (tls_ca_pem_ t));;
    if negb (r =? 0) then io_ret (-1)
    else
      r <- sys (mbedtls_net_connect (tls_host_ t) (tls_port_ t));;
      if negb (r =? 0) then io_ret (-1)
      else note (OsTls TlsNetConnect);;; tls_setup_session.

(** [connect()] once the set-up is done. *)
Definition tls_handshake : IO MbedTlsTransport W Error :=
  note (OsTls TlsHandshake);;;
  rc <- sys mbedtls_ssl_handshake;;
  if rc =? 0 then
    v <- sys mbedtls_ssl_get_verify_result;;
    note (OsTls (TlsVerified (v =? 0)));;;
    if negb (v =? 0) then tls_close;;; io_ret TransportFailure
    else
      set_this (fun t => t <| tls_connected_ := true |>);;; io_ret Ok
  else if (rc =? MBEDTLS_ERR_SSL_WANT_READ) || (rc =? MBEDTLS_ERR_SSL_WANT_WRITE) then io_ret WouldBlock
  else tls_close;;; io_ret TransportFailure.

Definition tls_connect : IO MbedTlsTransport W Error :=
  t <- this;;
  if tls_connected_ t then io_ret Ok
  else
    ready <- (if tls_setup_done_ t then io_ret true
              else
                r <- tls_setup;;
                if negb (r =? 0) then io_ret false
                else set_this (fun t => t <| tls_setup_done_ := true |>);;; io_ret true);;
    if negb (ready : bool) then io_ret TransportFailure else tls_handshake.

Definition tls_send (data : list Z) : IO MbedTlsTransport W (Error * Z) :=
  t <- this;;
  if negb (tls_connected_ t) then io_ret (TransportClosed, 0)
  else
    note (OsTls TlsData);;;
    rc <- sys (mbedtls_ssl_write data);;
    if rc >? 0 then io_ret (Ok, rc)
    else if (rc =? MBEDTLS_ERR_SSL_WANT_READ) || (rc =? MBEDTLS_ERR_SSL_WANT_WRITE) then io_ret (WouldBlock, 0)
    else if rc =? MBEDTLS_ERR_SSL_PEER_CLOSE_NOTIFY then io_ret (TransportClosed, 0)
    else io_ret (TransportFailure, 0).

Definition tls_recv (size : Z) : IO MbedTlsTransport W (Error * list Z) :=
  t <- this;;
  if negb (tls_connected_ t) then io_ret (TransportClosed, [])
  else
    note (OsTls TlsData);;;
    r <- sys (mbedtls_ssl_read size);;
    let '(rc, got) := r in
    if rc >? 0 then io_ret (Ok, ztake rc got)
    else if (rc =? MBEDTLS_ERR_SSL_WANT_READ) || (rc =? MBEDTLS_ERR_SSL_WANT_WRITE) then io_ret (WouldBlock, [])
    else if (rc =? MBEDTLS_ERR_SSL_PEER_CLOSE_NOTIFY) || (rc =? 0) then io_ret (TransportClosed, [])
    else io_ret (TransportFailure, []).

#[export] Instance tls_transport : Transport (Obj MbedTlsTransport W) := {|
  transport_connect := tls_connect;
  transport_send := tls_send;
  transport_recv := tls_recv;
  transport_close s := snd (tls_close s);
  transport_is_connected s := tls_connected_ (self s);
|}.

(** The clock of a POSIX host. *)
#[export] Instance tls_clock `{PA : PosixApi W} : Clock (Obj MbedTlsTransport W) := {| now_ms := posix_now_ms |}.
End tls.

(** ** The connection under the session *)

(** Whether the network context has a connection, and whether its peer was
    verified. *)
Record TlsState := mkTlsState { net_open : bool; net_verified : bool }.

(** A connection is not made over another, data moves on a verified one only.
    [None] is a trace that breaks this. *)
Definition tls_step (st : TlsState) (ev : OsEvent) : option TlsState :=
  match ev with
  | OsTls TlsNetConnect => if net_open st then None else Some (mkTlsState true false)
  | OsTls TlsNetFree => Some (mkTlsState false false)
  | OsTls TlsHandshake => if net_open st then Some st else None
  | OsTls (TlsVerified ok) => if net_open st then Some (mkTlsState true ok) else None
  | OsTls TlsData => if net_open st && net_verified st then Some st else None
  | _ => Some st
  end.

Definition tls_after (tr : list OsEvent) : option TlsState := accepts tls_step (mkTlsState false false) tr.
#[global] Arguments tls_after : simpl never.

Lemma tls_after_snoc tr ev : tls_after (tr ++ [ev]) = st ← tls_after tr; tls_step st ev.
Proof. apply accepts_snoc. Qed.

Ltac run_tls :=
  rewrite ?tls_after_snoc;
  repeat match goal with H : tls_after ?tr = _ |- context [tls_after ?tr] => rewrite H end;
  cbn [mbind option_bind tls_step net_open net_verified andb]; eauto.

(** The members agree with the connection. *)
Record tls_ok (t : MbedTlsTransport) (tr : list OsEvent) : Prop := {
  tls_ok_state : tls_after tr = Some (mkTlsState (tls_setup_done_ t) (tls_connected_ t));
  tls_ok_connected : tls_connected_ t = true -> tls_setup_done_ t = true;
}.

Definition tls_closed (t : MbedTlsTransport) : Prop := tls_connected_ t = false /\ tls_setup_done_ t = false.

Section tls_facts.
Context `{MC : MbedTlsConstants} {W : Type} `{MA : MbedTlsApi W}.
Implicit Types (s : Obj MbedTlsTransport W) (t : MbedTlsTransport) (tr : list OsEvent).

Definition tls_closes (_ : unit) s : Prop := tls_ok (self s) (trace s) /\ tls_closed (self s).

(** [close] restores order, also after a set-up that was not completed. *)
Lemma tls_close_post t w tr st :
  tls_after tr = Some st -> (tls_connected_ t = true -> st = mkTlsState true true) ->
  post tls_close tls_closes (mkObj t w tr).
Proof.
  intros Hst Hc. unfold tls_close, tls_net_free. io_steps; (split; [|done]); split; cbn [self trace]; try done.
  - rewrite (Hc eq_refl) in Hst. by run_tls.
  - by run_tls.
Qed.

Lemma tls_ok_close t w tr : tls_ok t tr -> post tls_close tls_closes (mkObj t w tr).
Proof. intros [Hst Hc]. eapply tls_close_post; [done|]. intros Ht. by rewrite Ht, (Hc Ht). Qed.

(** After [connect]: in order, or failed and to be closed. *)
Definition tls_connects (e : Error) s : Prop :=
  match e with
  | Ok => tls_ok (self s) (trace s) /\ tls_connected_ (self s) = true
  | WouldBlock => tls_ok (self s) (trace s) /\ tls_connected_ (self s) = false
  | TransportFailure => tls_connected_ (self s) = false /\ is_Some (tls_after (trace s))
  | _ => False
  end.

Lemma tls_handshake_post t w tr :
  tls_ok t tr -> tls_setup_done_ t = true -> tls_connected_ t = false ->
  post tls_handshake tls_connects (mkObj t w tr).
Proof.
  intros [Hst _] Hd Hc. rewrite Hd, Hc in Hst.
  assert (Hfail : forall t' w' tr' st, tls_after tr' = Some st -> tls_connected_ t' = false ->
    post (tls_close;;; io_ret TransportFailure) tls_connects (mkObj t' w' tr')).
  { intros t' w' tr' st Hs Hf. io_step. eapply post_mono; [eapply tls_close_post; [done | congruence]|].
    intros ? s' [[Hs' _] [Hf' _]]. io_steps. split; eauto. }
  unfold tls_handshake. repeat first [eapply Hfail | io_step]; cbn; try done; try (by run_tls).
  - zbool. subst. split; [split; cbn [self trace]; [|done]|done]. cbn. rewrite Hd. by run_tls.
  - split; [split; cbn [self trace]; [|congruence]|done]. rewrite Hd, Hc. by run_tls.
Qed.

Lemma tls_connect_post t w tr : tls_ok t tr -> post tls_connect tls_connects (mkObj t w tr).
Proof.
  intros Hok. pose proof Hok as [Hst Hcd]. unfold tls_connect. io_steps; try done.
  - by apply tls_handshake_post.
  - unfold tls_setup, tls_setup_session. io_steps; try done;
      try (by split; cbn [self trace]; [done | run_tls]).
    apply tls_handshake_post; [|done|done]. split; [|done]. cbn. rewrite E. by run_tls.
Qed.

(** [s] is the object unchanged, after at most a transfer of data. *)
Definition tls_same t tr s : Prop :=
  self s = t /\ (trace s = tr \/ tls_connected_ t = true /\ trace s = tr ++ [OsTls TlsData]).

Lemma tls_same_ok t tr s : tls_same t tr s -> tls_ok t tr -> tls_ok (self s) (trace s).
Proof.
  destruct s as [t' w tr']. intros [Ht Htr] [Hst Hc]. cbn in *. subst t'. destruct Htr as [-> | [Ht ->]]; [done|].
  split; [|done]. rewrite (Hc Ht), Ht in Hst |- *. by run_tls.
Qed.

Lemma tls_same_closed t tr s : tls_same t tr s -> tls_closed t -> tls_closed (self s).
Proof. by intros [-> _]. Qed.

Lemma tls_send_same data t w tr : post (tls_send data) (fun _ => tls_same t tr) (mkObj t w tr).
Proof. unfold tls_send. io_steps; zbool; split; cbn; auto. Qed.

Lemma tls_recv_same n t w tr : post (tls_recv n) (fun _ => tls_same t tr) (mkObj t w tr).
Proof. unfold tls_recv. io_steps; try case_match; io_steps; zbool; split; cbn; auto. Qed.

Lemma tls_now_same `{PA : PosixApi W} t w tr : post posix_now_ms (fun _ => tls_same t tr) (mkObj t w tr).
Proof. unfold posix_now_ms. io_steps. split; cbn; auto. Qed.
End tls_facts.

(** ** The contracts *)
Section tls_contract.
Context `{MC : MbedTlsConstants} {W : Type} `{MAO : MbedTlsApiOk W} `{PA : PosixApi W}.

Lemma tls_connect_codes (s : Obj MbedTlsTransport W) :
  post tls_connect (fun e _ => In e [Ok; WouldBlock; TransportFailure]) s.
Proof.
  destruct s as [t w tr].
  unfold tls_connect, tls_handshake, tls_setup, tls_setup_session, tls_close, tls_net_free. io_steps; cbn; auto.
Qed.

Lemma tls_send_contract data (s : Obj MbedTlsTransport W) : post (tls_send data) (sends data) s.
Proof.
  destruct s as [t w tr]. unfold tls_send. io_steps; zbool; try (by apply sends_nothing; cbn; auto).
  apply sends_some. pose proof (ssl_write_range data w) as Hr. rewrite Hsys in Hr. cbn in Hr. lia.
Qed.

Lemma tls_recv_contract n (s : Obj MbedTlsTransport W) : post (tls_recv n) (receives n) s.
Proof.
  destruct s as [t w tr]. unfold tls_recv. io_steps; [apply receives_nothing; cbn; auto|].
  destruct r as [k got]. pose proof (ssl_read_range n w) as Hr. pose proof (ssl_read_bytes n w) as Hb.
  rewrite Hsys in Hr, Hb. cbn [fst snd] in *.
  io_steps; zbool; try (by apply receives_nothing; cbn; auto).
  apply receives_some; [|by apply bytes_ok_take]. intros Hn. destruct (Hr Hn E0) as [-> ?]. by rewrite ztake_all by lia.
Qed.

#[export] Instance tls_transport_ok : TransportOk (Obj MbedTlsTransport W).
Proof.
  apply posts_transport_ok; [apply tls_connect_codes | apply tls_send_contract | apply tls_recv_contract |].
  intros s. apply posix_now_u32.
Qed.

Definition tls_device (s : Obj MbedTlsTransport W) : Prop := tls_ok (self s) (trace s).
Definition tls_device_closed (s : Obj MbedTlsTransport W) : Prop := tls_closed (self s).

#[export] Instance tls_keeps : TransportKeeps tls_device tls_device_closed.
Proof.
  split; intros; repeat match goal with s : Obj _ _ |- _ => destruct s as [t w tr] end.
  - pose proof (tls_connect_post t w tr H0) as Hp. unfold post, tls_connects in Hp.
    cbn [transport_connect tls_transport] in *. unfold tls_device.
    destruct (fst (tls_connect (mkObj t w tr))); try done; by destruct Hp.
  - pose proof (tls_connect_post t w tr H0) as Hp. unfold post, tls_connects in Hp.
    cbn [transport_connect tls_transport transport_close] in *. rewrite H1 in Hp. destruct Hp as [Hc [st Hst]].
    destruct (snd (tls_connect (mkObj t w tr))) as [t' w' tr'].
    apply (tls_close_post t' w' tr' st Hst). cbn in Hc. congruence.
  - eapply tls_same_ok; [apply (tls_send_same data t w tr) | done].
  - eapply tls_same_ok; [apply (tls_recv_same n t w tr) | done].
  - by apply (tls_ok_close t w tr).
  - eapply tls_same_ok; [apply (tls_now_same t w tr) | done].
  - eapply tls_same_closed; [apply (tls_send_same data t w tr) | done].
  - eapply tls_same_closed; [apply (tls_recv_same n t w tr) | done].
  - eapply tls_same_closed; [apply (tls_now_same t w tr) | done].
Qed.

(** ** The abstract link *)
Definition tls_link (l : LinkState) (s : Obj MbedTlsTransport W) : Prop :=
  match l with
  | Down => tls_device s /\ tls_closed (self s)
  | Opening => tls_device s /\ tls_connected_ (self s) = false
  | Up => tls_device s /\ tls_connected_ (self s) = true
  | Failed => tls_connected_ (self s) = false /\ is_Some (tls_after (trace s))
  end.

Lemma tls_link_connected l s : tls_link l s -> tls_connected_ (self s) = up l.
Proof. destruct l; cbn; intros [? ?]; try done. by apply H1. Qed.

Lemma tls_transfer_step l t w tr e (s' : Obj MbedTlsTransport W) :
  tls_link l (mkObj t w tr) -> tls_same t tr s' -> (tls_connected_ t = false -> e = TransportClosed /\ trace s' = tr) ->
  exists l', transfer_step l e l' /\ tls_link l' s'.
Proof.
  intros Hl Hs He. pose proof (tls_link_connected _ _ Hl) as Hc. exists l. cbn in Hc. split.
  - destruct l; cbn in *; try (by split; [apply He|]). by left.
  - destruct l; cbn in Hl |- *; destruct Hl as [Hd Hcl];
      try (by split; [eapply tls_same_ok | destruct Hs as [-> _]]).
    destruct (He Hc) as [_ ->]. by destruct Hs as [-> _].
Qed.

Lemma tls_send_closed data t w tr :
  post (tls_send data) (fun r s' => tls_connected_ t = false -> fst r = TransportClosed /\ trace s' = tr) (mkObj t w tr).
Proof. unfold tls_send. io_steps; zbool; try done; cbn; congruence. Qed.

Lemma tls_recv_closed n t w tr :
  post (tls_recv n) (fun r s' => tls_connected_ t = false -> fst r = TransportClosed /\ trace s' = tr) (mkObj t w tr).
Proof. unfold tls_recv. io_steps; try case_match; io_steps; zbool; try done; cbn; congruence. Qed.

Lemma tls_simulates : simulates Failed tls_link.
Proof.
  intros l op [t w tr] HR Hf. destruct op as [|data|n|]; cbn [link_do].
  - assert (Hd : tls_ok t tr) by (destruct l; try (by destruct HR); by destruct Hf).
    pose proof (tls_connect_post t w tr Hd) as Hp. unfold post in Hp.
    assert (Hup : l = Up -> fst (tls_connect (mkObj t w tr)) = Ok).
    { intros ->. destruct HR as [_ Hc]. cbn in Hc. unfold tls_connect. cbn. by rewrite Hc. }
    cbn [transport_connect transport_is_connected tls_transport] in *.
    destruct (tls_connect (mkObj t w tr)) as [e s']. cbn [fst snd] in *.
    assert (Hne : e <> Ok -> l <> Up) by (intros Hne ->; by apply Hne, Hup).
    destruct e; try done; destruct Hp as [Hp1 Hp2].
    + rewrite Hp2. exists Up. by split.
    + rewrite Hp2. exists Opening. split; [constructor; by apply Hne | done].
    + rewrite Hp1. exists Failed. split; [constructor; by apply Hne | done].
  - pose proof (tls_send_contract data (mkObj t w tr)) as (Hc & Hn & Hz).
    pose proof (tls_send_same data t w tr) as Hs. pose proof (tls_send_closed data t w tr) as He. unfold post in Hs, He.
    cbn [transport_send tls_transport]. destruct (tls_send data (mkObj t w tr)) as [[e k] s']. cbn [fst snd] in *.
    destruct (tls_transfer_step l t w tr e s' HR Hs He) as (l' & Ht & HR').
    exists l'. split; [by apply link_send_step | done].
  - pose proof (tls_recv_contract n (mkObj t w tr)) as (Hc & Hn & Hb & Hz).
    pose proof (tls_recv_same n t w tr) as Hs. pose proof (tls_recv_closed n t w tr) as He. unfold post in Hs, He.
    cbn [transport_recv tls_transport]. destruct (tls_recv n (mkObj t w tr)) as [[e k] s']. cbn [fst snd] in *.
    destruct (tls_transfer_step l t w tr e s' HR Hs He) as (l' & Ht & HR').
    exists l'. split; [by apply link_recv_step | done].
  - assert (Hclose : tls_closes tt (snd (tls_close (mkObj t w tr)))).
    { destruct l; destruct HR as [HR1 HR2]; try (by apply (tls_ok_close t w tr)).
      destruct HR2 as [st Hst]. eapply (tls_close_post t w tr st Hst). cbn in HR1. congruence. }
    destruct Hclose as [Hok [Hc Hd]]. cbn [fst snd transport_close transport_is_connected tls_transport].
    rewrite Hc. exists Down. split; [constructor | by split].
Qed.
End tls_contract.
