(* ===== verification/Examples.v ===== *)
(** * Examples: the programs under examples/

    The three mains as programs of the client's monad: they call the public
    interface, read the clock and wait for the socket, and their handlers write
    the program's global variables. The surroundings of the client are the
    device and those globals. Console output is left out. Loops without a bound
    of their own carry fuel, and a run that exceeds it is [None]. *)
From Stdlib Require Import String.
From S2P Require Import Prelude Errors Packet Etl Codec TxQueue Config Transport ClientState.
From S2P Require Import Effects Client Application CLib Ipv4.
#[local] Open Scope client_scope.

(** ** A device and the program's globals *)
Record Host (D G : Type) := mkHost { device : D; globals : G }.
Arguments mkHost {D G} _ _.
Arguments device {D G} _.
Arguments globals {D G} _.

#[export] Instance eta_Host {D G} : Eta (Host D G) := fun r => mkHost (device r) (globals r).

Section host.
Context {D G : Type} `{T : Transport D} `{CK : Clock D}.

(** An operation of the device. *)
Definition on_device {A} (f : D -> A * D) (e : Host D G) : A * Host D G :=
  let '(a, d) := f (device e) in (a, e <| device := d |>).

#[export] Instance host_transport : Transport (Host D G) := {|
  transport_connect := on_device transport_connect;
  transport_send data := on_device (transport_send data);
  transport_recv n := on_device (transport_recv n);
  transport_close e := e <| device ::= transport_close |>;
  transport_is_connected e := transport_is_connected (device e);
|}.

#[export] Instance host_clock : Clock (Host D G) := {| now_ms := on_device now_ms |}.
End host.

(** [opts] after its initialisers, and the fields the programs set. *)
Definition default_options : ConnectOptions :=
  mkConnectOptions [] [] [] (mkWill [] [] AtMostOnce false) 60 true.

#[export] Instance eta_ConnectOptions : Eta ConnectOptions := fun r =>
  mkConnectOptions (opt_client_id r) (opt_username r) (opt_password r) (opt_will r) (opt_keep_alive_s r)
    (opt_clean_session r).

(** ** What the programs share *)
Section programs.
Context `{Cfg : Config} `{SZ : SizeT} `{BW : ByteStreamWriter} `{BR : ByteStreamReader}.
Context {D G : Type} `{T : Transport D} `{CK : Clock D} (wait_readable : Z -> D -> D).
Context (app : Callback -> Handler (Host D G)).
Notation E := (Host D G).

(** A call of the client. The handlers make no calls. *)
Definition api_call (c : ApiCall) : M E ApiResult := call app 1 c.

Definition read_globals : M E G := fun s => Some (globals (env s), s).

(** [transport.wait_readable(ms)] and [clock.now_ms()]. *)
Definition wait (ms : Z) : M E unit := with_env (fun e => (tt, e <| device ::= wait_readable ms |>)).
Definition clock_now : M E Z := with_env now_ms.

(** [for (int i = 0; i < rounds && go(client); ++i) { step(); wait_readable(ms); }] *)
Fixpoint step_while (rounds : nat) (go : Client -> bool) (after : M E unit) : M E unit :=
  match rounds with
  | O => ret tt
  | S rounds =>
      c <- get;;
      if negb (go c) then ret tt
      else api_call CallStep;;; after;;; step_while rounds go after
  end.

Definition not_idle (c : Client) : bool := negb (State_eqb (state_ c) Idle).
Definition in_flight_left (c : Client) : bool := inflight_count c >? 0.

End programs.

(** ** minimal_publisher.cpp *)
Definition minimal_config : Config := {|
  rx_buffer_size := 256;
  tx_buffer_size := 256;
  max_topic_len := @max_topic_len DefaultConfig;
  max_client_id_len := @max_client_id_len DefaultConfig;
  max_username_len := @max_username_len DefaultConfig;
  max_password_len := @max_password_len DefaultConfig;
  max_inflight_out := 1;
  max_persisted_msg_size := 128;
  max_inflight_in := @max_inflight_in DefaultConfig;
  max_subscriptions := 1;
  max_pending_acks := @max_pending_acks DefaultConfig;
  max_topics_per_request := @max_topics_per_request DefaultConfig;
  retry_interval_ms := @retry_interval_ms DefaultConfig;
  connect_timeout_ms := @connect_timeout_ms DefaultConfig;
|}.

Definition minimal_options : ConnectOptions :=
  default_options <| opt_client_id := text "minimal-publisher" |> <| opt_keep_alive_s := 30 |>.

Section minimal.
Context `{Cfg : Config} `{SZ : SizeT} `{BW : ByteStreamWriter} `{BR : ByteStreamReader}.
Context {D : Type} `{T : Transport D} `{CK : Clock D} (wait_readable : Z -> D -> D).
Notation E := (Host D bool).

(** The one handler; the globals are [g_done]. *)
Definition minimal_on (cb : Callback) (e : E) : E :=
  match cb with
  | CbDelivery _ _ => e <| globals := true |>
  | _ => e
  end.

Definition minimal_app (cb : Callback) : Handler E := Act (minimal_on cb) Done.

Notation api_call := (api_call minimal_app).
Notation wait := (wait wait_readable).

(** [while (!g_done)]; [Some code] is [return code]. *)
Fixpoint minimal_loop (fuel : nat) (published : bool) : M E (option Z) :=
  match fuel with
  | O => out_of_fuel
  | S fuel =>
      g_done <- read_globals;;
      if (g_done : bool) then ret None
      else
        rc <- api_call CallStep;;
        if negb (Error_eqb (fst rc) Ok) then ret (Some 1)
        else
          c <- get;;
          published <- (if is_connected c && negb published then
                          e <- api_call (CallPublish (text "demo/minimal") (text "hello") AtLeastOnce false);;
                          ret (Error_eqb (fst e) Ok)
                        else ret published);;
          wait 50;;;
          minimal_loop fuel published
  end.

(** [while (client.state() != State::Idle) client.step();] *)
Fixpoint minimal_drain (fuel : nat) : M E unit :=
  match fuel with
  | O => out_of_fuel
  | S fuel =>
      c <- get;;
      if not_idle c then api_call CallStep;;; minimal_drain fuel else ret tt
  end.

Definition minimal_session (fuel : nat) : M E Z :=
  api_call (CallOnDelivery (Some 1));;;
  e <- api_call (CallConnect minimal_options);;
  if negb (Error_eqb (fst e) Ok) then ret 1
  else
    r <- minimal_loop fuel false;;
    match r with
    | Some code => ret code
    | None => api_call CallDisconnect;;; minimal_drain fuel;;; ret 0
    end.

(** [main]: [make] is the transport's constructor. *)
Definition minimal_main (make : list Z -> Z -> D) (argv : list (list Z)) (fuel : nat) : option (Z * Sys E) :=
  let host := default (text "127.0.0.1") (arg argv 1) in
  let port := u16 (from_option atoi 1883 (arg argv 2)) in
  minimal_session fuel (mkSys client_init (mkHost (make host port) false) []).
End minimal.

(** ** ip_publisher.cpp *)
Definition node_config : Config := {|
  rx_buffer_size := 512;
  tx_buffer_size := 512;
  max_topic_len := 64;
  max_client_id_len := 24;
  max_username_len := @max_username_len DefaultConfig;
  max_password_len := @max_password_len DefaultConfig;
  max_inflight_out := 4;
  max_persisted_msg_size := 128;
  max_inflight_in := @max_inflight_in DefaultConfig;
  max_subscriptions := 4;
  max_pending_acks := @max_pending_acks DefaultConfig;
  max_topics_per_request := @max_topics_per_request DefaultConfig;
  retry_interval_ms := 10000;
  connect_timeout_ms := @connect_timeout_ms DefaultConfig;
|}.

Definition kDefaultBroker : Ipv4 := ipv4 (Some (text "127.0.0.1")).

Definition ip_options : ConnectOptions :=
  default_options <| opt_client_id := text "ip-publisher" |> <| opt_keep_alive_s := 20 |>
    <| opt_clean_session := true |>.

(** ["reading %d"], in an array of 48. *)
Definition ip_payload (sent : Z) : list Z := text "reading " ++ decimal sent.

Section ip.
Context `{Cfg : Config} `{SZ : SizeT} `{BW : ByteStreamWriter} `{BR : ByteStreamReader}.
Context {D : Type} `{T : Transport D} `{CK : Clock D} (wait_readable : Z -> D -> D).
Notation E := (Host D bool).

(** The globals are [g_running]. The other handlers only print. *)
Definition ip_on (cb : Callback) (e : E) : E :=
  match cb with
  | CbDisconnect _ _ => e <| globals := false |>
  | _ => e
  end.

Definition ip_app (cb : Callback) : Handler E := Act (ip_on cb) Done.

Notation api_call := (api_call ip_app).
Notation step_while := (step_while ip_app).
Notation wait := (wait wait_readable).

(** The publication at most once a second: [sent] and [last_pub] after. *)
Definition ip_publish (topic : list Z) (subscribed : bool) (sent last_pub : Z) : M E (Z * Z) :=
  if negb subscribed then ret (sent, last_pub)
  else
    t <- clock_now;;
    if elapsed_ms t last_pub >=? 1000 then
      e <- api_call (CallPublish topic (ip_payload sent) AtLeastOnce false);;
      t <- clock_now;;
      ret (if Error_eqb (fst e) Ok then sent + 1 else sent, t)
    else ret (sent, last_pub).

(** [while (g_running && sent < 3)] *)
Fixpoint ip_loop (topic : list Z) (fuel : nat) (subscribed : bool) (sent last_pub : Z)
    : M E unit :=
  match fuel with
  | O => out_of_fuel
  | S fuel =>
      g_running <- read_globals;;
      if negb ((g_running : bool) && (sent <? 3)) then ret tt
      else
        e <- api_call CallStep;;
        if negb (Error_eqb (fst e) Ok) then ret tt
        else
          c <- get;;
          subscribed <- (if is_connected c && negb subscribed then
                           e <- api_call (CallSubscribe [mkTopicSubscription topic AtLeastOnce] None);;
                           ret (Error_eqb (fst e) Ok)
                         else ret subscribed);;
          let* (sent, last_pub) := ip_publish topic subscribed sent last_pub in
          wait 50;;;
          ip_loop topic fuel subscribed sent last_pub
  end.

Definition ip_session (topic : list Z) (fuel : nat) : M E Z :=
  api_call (CallOnConnect (Some 1));;;
  api_call (CallOnDisconnect (Some 2));;;
  api_call (CallOnMessage (Some 3));;;
  api_call (CallOnDelivery (Some 4));;;
  e <- api_call (CallConnect ip_options);;
  if negb (Error_eqb (fst e) Ok) then ret 1
  else
    t <- clock_now;;
    ip_loop topic fuel false 0 t;;;
    step_while 40 in_flight_left (wait 50);;;
    api_call CallDisconnect;;;
    step_while 10 not_idle (ret tt);;;
    ret 0.

(** [main]: the exit code, and the system at the end unless the address is
    refused. *)
Definition ip_main (make : Ipv4 -> Z -> D) (argv : list (list Z)) (fuel : nat) : option (Z * option (Sys E)) :=
  let '(parsed, broker) := match arg argv 1 with
                           | Some a => parse_ipv4 (Some a) kDefaultBroker
                           | None => (true, kDefaultBroker)
                           end in
  if negb parsed then Some (2, None)
  else
    let port := u16 (from_option atoi 1883 (arg argv 2)) in
    let topic := from_option (snprintf_fits 80) (text "demo/ip") (arg argv 3) in
    '(code, s) ← ip_session topic fuel (mkSys client_init (mkHost (make broker port) true) []);
    Some (code, Some s).
End ip.

(** ** pubsub_demo.cpp *)
Definition demo_config : Config := {|
  rx_buffer_size := 2048;
  tx_buffer_size := 2048;
  max_topic_len := 96;
  max_client_id_len := 32;
  max_username_len := @max_username_len DefaultConfig;
  max_password_len := @max_password_len DefaultConfig;
  max_inflight_out := 4;
  max_persisted_msg_size := 256;
  max_inflight_in := @max_inflight_in DefaultConfig;
  max_subscriptions := 4;
  max_pending_acks := @max_pending_acks DefaultConfig;
  max_topics_per_request := @max_topics_per_request DefaultConfig;
  retry_interval_ms := @retry_interval_ms DefaultConfig;
  connect_timeout_ms := @connect_timeout_ms DefaultConfig;
|}.

Record DemoGlobals := mkDemoGlobals {
  g_running : bool;
  g_echoes : Z;
  g_deliveries : Z;
  g_connected : bool;
  g_end_reason : Error;
}.

#[export] Instance eta_DemoGlobals : Eta DemoGlobals := fun r =>
  mkDemoGlobals (g_running r) (g_echoes r) (g_deliveries r) (g_connected r) (g_end_reason r).

Definition demo_globals : DemoGlobals := mkDemoGlobals true 0 0 false Ok.

Definition demo_options : ConnectOptions :=
  default_options <| opt_client_id := text "mqtt-embedded-demo" |> <| opt_keep_alive_s := 5 |>
    <| opt_clean_session := true |>.

Definition kSessionDeadlineMs : Z := 60000.

(** ["hello #%d from mqtt-embedded"], in an array of 64. *)
Definition demo_payload (published : Z) : list Z :=
  text "hello #" ++ decimal published ++ text " from mqtt-embedded".

(** The loop's variables. *)
Record DemoVars := mkDemoVars {
  subscribed : bool; published : Z; deferrals : Z; last_pub : Z; timed_out : bool;
}.

(** [expect(ok, what)] counts what failed. *)
Definition expect (ok : bool) : Z := if ok then 0 else 1.

(** The tally at the end; the results are those of the checks in order. *)
Definition demo_failures (checks : list bool) : Z := fold_left (fun n ok => n + expect ok) checks 0.

Section demo.
Context `{Cfg : Config} `{SZ : SizeT} `{BW : ByteStreamWriter} `{BR : ByteStreamReader}.
Context {D : Type} `{T : Transport D} `{CK : Clock D} (wait_readable : Z -> D -> D).
Notation E := (Host D DemoGlobals).

Definition demo_on (cb : Callback) (e : E) : E :=
  match cb with
  | CbConnect _ _ => e <| globals ::= fun g => g <| g_connected := true |> |>
  | CbDisconnect _ reason => e <| globals ::= fun g => g <| g_end_reason := reason |> <| g_running := false |> |>
  | CbMessage _ _ => e <| globals ::= fun g => g <| g_echoes ::= fun n => n + 1 |> |>
  | CbDelivery _ _ => e <| globals ::= fun g => g <| g_deliveries ::= fun n => n + 1 |> |>
  | CbSuback _ _ _ => e
  end.

Definition demo_app (cb : Callback) : Handler E := Act (demo_on cb) Done.

Notation api_call := (api_call demo_app).
Notation step_while := (step_while demo_app).
Notation wait := (wait wait_readable).

(** The publication at most once a second; the flag is [break]. *)
Definition demo_publish (topic : list Z) (v : DemoVars) : M E (DemoVars * bool) :=
  c <- get;;
  if negb (is_connected c && subscribed v) then ret (v, false)
  else
    t <- clock_now;;
    if elapsed_ms t (last_pub v) >=? 1000 then
      e <- api_call (CallPublish topic (demo_payload (published v)) (published v mod 3) false);;
      if Error_eqb (fst e) Ok then
        t <- clock_now;;
        ret (mkDemoVars (subscribed v) (published v + 1) 0 t (timed_out v), false)
      else if deferrals v + 1 >=? 10 then
        ret (mkDemoVars (subscribed v) (published v) (deferrals v + 1) (last_pub v) true, true)
      else
        t <- clock_now;;
        ret (mkDemoVars (subscribed v) (published v) (deferrals v + 1) t (timed_out v), false)
    else ret (v, false).

(** [while (g_running && published < 5)] *)
Fixpoint demo_loop (topic : list Z) (started_ms : Z) (fuel : nat) (v : DemoVars)
    : M E DemoVars :=
  match fuel with
  | O => out_of_fuel
  | S fuel =>
      g <- read_globals;;
      if negb (g_running g && (published v <? 5)) then ret v
      else
        t <- clock_now;;
        if elapsed_ms t started_ms >? kSessionDeadlineMs then
          ret (mkDemoVars (subscribed v) (published v) (deferrals v) (last_pub v) true)
        else
          rc <- api_call CallStep;;
          if negb (Error_eqb (fst rc) Ok) then ret v
          else
            c <- get;;
            sub <- (if is_connected c && negb (subscribed v) then
                      e <- api_call (CallSubscribe [mkTopicSubscription topic AtLeastOnce] None);;
                      ret (Error_eqb (fst e) Ok)
                    else ret (subscribed v));;
            let* (v, stop) := demo_publish topic (mkDemoVars sub (published v) (deferrals v) (last_pub v) (timed_out v)) in
            if (stop : bool) then ret v
            else wait 50;;; demo_loop topic started_ms fuel v
  end.

(** The idle stretch, for [idle_ms] milliseconds. *)
Fixpoint demo_idle (idle_ms idle_started : Z) (fuel : nat) : M E unit :=
  match fuel with
  | O => out_of_fuel
  | S fuel =>
      g <- read_globals;;
      if negb (g_running g) then ret tt
      else
        t <- clock_now;;
        if negb (elapsed_ms t idle_started <? idle_ms) then ret tt
        else
          e <- api_call CallStep;;
          if negb (Error_eqb (fst e) Ok) then ret tt
          else wait 100;;; demo_idle idle_ms idle_started fuel
  end.

Definition demo_session (topic : list Z) (fuel : nat) : M E Z :=
  api_call (CallOnConnect (Some 1));;;
  api_call (CallOnDisconnect (Some 2));;;
  api_call (CallOnMessage (Some 3));;;
  api_call (CallOnDelivery (Some 4));;;
  e <- api_call (CallConnect demo_options);;
  if negb (Error_eqb (fst e) Ok) then ret 1
  else
    last_pub <- clock_now;;
    started_ms <- clock_now;;
    v <- demo_loop topic started_ms fuel (mkDemoVars false 0 0 last_pub false);;
    (if timed_out v then ret tt else step_while 40 in_flight_left (wait 50));;;
    let idle_ms := u32 (opt_keep_alive_s demo_options * 1000 * 2) in
    idle_started <- clock_now;;
    (if timed_out v then ret tt else demo_idle idle_ms idle_started fuel);;;
    c <- get;;
    let survived_idle := is_connected c in
    api_call CallDisconnect;;;
    step_while 20 not_idle (wait 10);;;
    c <- get;;
    let closed_cleanly := State_eqb (state_ c) Idle in
    g <- read_globals;;
    let failures := demo_failures
      [negb (timed_out v); g_connected g; subscribed v; published v =? 5; g_deliveries g >=? 3; g_echoes g >=? 5;
       survived_idle; closed_cleanly; Error_eqb (g_end_reason g) Ok] in
    ret (if negb (failures =? 0) then 1 else 0).

Definition demo_main (make : list Z -> Z -> D) (argv : list (list Z)) (fuel : nat) : option (Z * Sys E) :=
  let host := default (text "test.mosquitto.org") (arg argv 1) in
  let port := u16 (from_option atoi 1883 (arg argv 2)) in
  let topic := from_option (snprintf_fits 128) (text "demo/mqtt-embedded") (arg argv 3) in
  demo_session topic fuel (mkSys client_init (mkHost (make host port) demo_globals) []).
End demo.
