(* ===== verification/ExampleFacts.v ===== *)
(** * ExampleFacts: the programs keep what the client keeps

    The programs under examples/ call the client, read the clock and wait, so
    whatever these preserve holds when they end. *)
From S2P Require Import Prelude Errors Packet Etl Codec TxQueue Config Transport ClientState.
From S2P Require Import Effects Client Application ClientDevice CLib Ipv4 Examples.
#[local] Open Scope client_scope.

(** ** A device among a program's globals *)
Section host.
Context {D G : Type} {T : Transport D} {CK : Clock D}.

Lemma on_device_fst {A} (f : D -> A * D) (e : Host D G) : fst (on_device f e) = fst (f (device e)).
Proof. unfold on_device. by destruct (f (device e)). Qed.

Lemma on_device_snd {A} (f : D -> A * D) (e : Host D G) :
  device (snd (on_device f e)) = snd (f (device e)) /\ globals (snd (on_device f e)) = globals e.
Proof. unfold on_device. by destruct (f (device e)). Qed.

#[export] Instance host_ok {TOK : TransportOk D} : TransportOk (Host D G).
Proof.
  split; intros; cbn; rewrite on_device_fst.
  - apply transport_connect_codes.
  - apply transport_send_codes.
  - apply transport_send_written.
  - apply transport_recv_codes.
  - by apply transport_recv_room.
  - apply transport_recv_bytes.
  - apply clock_u32.
Qed.

Context (P closed : D -> Prop).
Definition host_keeps_P (e : Host D G) : Prop := P (device e).
Definition host_closed (e : Host D G) : Prop := closed (device e).

#[export] Instance host_keeps {TK : TransportKeeps P closed} : TransportKeeps host_keeps_P host_closed.
Proof.
  split; unfold host_keeps_P, host_closed; intros; cbn in *; rewrite ?on_device_fst in *;
    rewrite ?(proj1 (on_device_snd _ _)).
  - by apply keeps_connect.
  - by apply keeps_failed.
  - by apply keeps_send.
  - by apply keeps_recv.
  - by apply keeps_close.
  - by apply keeps_now.
  - by apply closed_send.
  - by apply closed_recv.
  - by apply closed_now.
Qed.

(** What the globals say of the history. *)
Context (K : G -> list Event -> Prop)
  (K_event : forall g h ev, match ev with EvCall _ => False | _ => True end -> K g h -> K g (h ++ [ev])).
Definition host_K (e : Host D G) (h : list Event) : Prop := K (globals e) h.

Lemma host_history : HistoryKeeps host_K.
Proof.
  split; unfold host_K; intros; cbn; rewrite ?(proj2 (on_device_snd _ _)); try done. by apply K_event.
Qed.
End host.

(** ** Programs built from calls, waits and clock readings *)
Section driver.
Context `{Cfg : Config} `{SZ : SizeT} `{BW : ByteStreamWriter} `{BR : ByteStreamReader}.
Context {D G : Type} {T : Transport D} {CK : Clock D} (wait_readable : Z -> D -> D).
Notation E := (Host D G).
Context (app : Callback -> Handler E) (I : Sys E -> Prop).

(** What calls, waits and clock readings preserve. *)
Record driven : Prop := {
  driven_call c s : call_ok c -> I s -> wp True (api_call app c) (fun _ => I) s;
  driven_wait ms s : I s -> wp True (wait wait_readable ms) (fun _ => I) s;
  driven_now s : I s -> wp True clock_now (fun _ => I) s;
}.

Definition drives {A} (m : M E A) : Prop := forall s, I s -> wp True m (fun _ => I) s.

Context (Hd : driven).

Lemma drives_bind {A B} (m : M E A) (k : A -> M E B) : drives m -> (forall a, drives (k a)) -> drives (bind m k).
Proof. intros Hm Hk s Hs. apply wp_bind. eapply wp_mono; [by apply Hm|]. intros a s' Hs'. by apply Hk. Qed.

Lemma drives_ret {A} (a : A) : drives (ret a).
Proof. by intros s Hs. Qed.

Lemma drives_get : drives get.
Proof. by intros s Hs. Qed.

Lemma drives_globals : drives read_globals.
Proof. by intros s Hs. Qed.

Lemma drives_fuel {A} : drives (A := A) out_of_fuel.
Proof. by intros s Hs. Qed.

Lemma drives_call c : call_ok c -> drives (api_call app c).
Proof. intros Hc s Hs. by apply (driven_call Hd). Qed.

Lemma drives_wait ms : drives (wait wait_readable ms).
Proof. intros s Hs. by apply (driven_wait Hd). Qed.

Lemma drives_now : drives clock_now.
Proof. intros s Hs. by apply (driven_now Hd). Qed.

Lemma drives_if {A} (b : bool) (m k : M E A) : drives m -> drives k -> drives (if b then m else k).
Proof. by destruct b. Qed.

Lemma drives_step_while rounds go after : drives after -> drives (step_while app rounds go after).
Proof.
  intros Ha. induction rounds as [|rounds IH]; cbn [step_while]; [apply drives_ret|].
  apply drives_bind; [apply drives_get|]. intros c. apply drives_if; [apply drives_ret|].
  apply drives_bind; [by apply drives_call|]. intros _. by apply drives_bind.
Qed.
End driver.

(** Through a program, call by call. *)
Ltac drive_step :=
  lazymatch goal with
  | |- drives _ (bind _ _) => apply drives_bind; [|intros ?]
  | |- drives _ (ret _) => apply drives_ret
  | |- drives _ get => apply drives_get
  | |- drives _ read_globals => apply drives_globals
  | |- drives _ out_of_fuel => apply drives_fuel
  | |- drives _ (api_call _ _) => eapply drives_call; [eassumption | try exact I]
  | |- drives _ (wait _ _) => eapply drives_wait; eassumption
  | |- drives _ clock_now => eapply drives_now; eassumption
  | |- drives _ (if _ then _ else _) => apply drives_if
  | |- drives _ (step_while _ _ _ _) => eapply drives_step_while; [eassumption|]
  end.

Ltac drive := repeat drive_step.

(** Run the first step of a program that keeps [I]. *)
Ltac drive_on L :=
  let r := fresh "r" in let s := fresh "s" in let Hs := fresh "Hs" in
  apply wp_bind; eapply wp_mono; [L | intros r s Hs; cbv beta in Hs].

(** ** The three programs *)
Section programs.
Context `{Cfg : Config} `{SZ : SizeT} `{BW : ByteStreamWriter} `{BR : ByteStreamReader}.
Context {D : Type} {T : Transport D} {CK : Clock D} (wait_readable : Z -> D -> D).

Lemma minimal_loop_drives I fuel : driven wait_readable minimal_app I -> forall published,
  drives I (minimal_loop wait_readable fuel published).
Proof.
  intros Hd. induction fuel as [|fuel IH]; intros published; cbn [minimal_loop]; drive; [|apply IH]. by vm_compute.
Qed.

(** The loop ends with exit code one, or because [g_done] is set. *)
Lemma minimal_loop_done I fuel : driven wait_readable minimal_app I -> forall published s, I s ->
  wp True (minimal_loop wait_readable fuel published)
    (fun r s' => I s' /\ match r with None => globals (env s') = true | Some code => code = 1 end) s.
Proof.
  intros Hd. induction fuel as [|fuel IH]; intros published s Hs; [done|]. cbn [minimal_loop].
  apply wp_bind. unfold read_globals at 1. unfold wp at 1. destruct (globals (env s)) eqn:Eg; [by split|].
  apply wp_bind. eapply wp_mono; [by eapply drives_call|]. intros rc s1 Hs1.
  case_if; [by split|]. apply wp_bind, wp_get, wp_bind. eapply wp_mono.
  - apply drives_if; [| apply drives_ret | exact Hs1]. drive. by vm_compute.
  - intros pub s2 Hs2. apply wp_bind. eapply wp_mono; [by eapply drives_wait|]. intros ? s3 Hs3. by apply IH.
Qed.

(** The last loop ends in [Idle]. *)
Lemma minimal_drain_idle I fuel : driven wait_readable minimal_app I -> forall s, I s ->
  wp True (minimal_drain fuel) (fun _ s' => I s' /\ state_ (cl s') = Idle) s.
Proof.
  intros Hd. induction fuel as [|fuel IH]; intros s Hs; [done|]. cbn [minimal_drain].
  apply wp_bind, wp_get. unfold not_idle, State_eqb. destruct (bool_decide _) eqn:E; cbn [negb].
  - apply bool_decide_eq_true in E. by apply wp_ret.
  - apply wp_bind. eapply wp_mono; [by eapply drives_call|]. intros r s' Hs'. by apply IH.
Qed.

Lemma ip_payload_short sent : 0 <= sent < 10 -> zlen (ip_payload sent) < 2 ^ 63.
Proof. intros. unfold ip_payload. rewrite decimal_digit by done. by vm_compute. Qed.

Lemma demo_payload_short n : 0 <= n < 10 -> zlen (demo_payload n) < 2 ^ 63.
Proof. intros. unfold demo_payload. rewrite decimal_digit by done. by vm_compute. Qed.

Lemma subscribe_call_ok topic : bytes_ok topic -> call_ok (CallSubscribe [mkTopicSubscription topic AtLeastOnce] None).
Proof. intros Ht. cbn. apply list.Forall_singleton. split; [done | by vm_compute]. Qed.

(** [sent] grows by at most one. *)
Lemma ip_publish_sent I topic subscribed sent last_pub s :
  driven wait_readable ip_app I -> 0 <= sent < 3 -> I s ->
  wp True (ip_publish topic subscribed sent last_pub) (fun r s' => I s' /\ 0 <= fst r <= 3) s.
Proof.
  intros Hd Hsent Hs. unfold ip_publish. case_if; [apply wp_ret; cbn; split; [done | lia]|].
  apply wp_bind. eapply wp_mono; [by eapply drives_now|]. intros t s1 Hs1. case_if; [|apply wp_ret; cbn; split; [done | lia]].
  apply wp_bind. eapply wp_mono; [eapply drives_call; [done | | done]|].
  { cbn. split; [by vm_compute | apply ip_payload_short; lia]. }
  intros e s2 Hs2. apply wp_bind. eapply wp_mono; [by eapply drives_now|]. intros t' s3 Hs3.
  apply wp_ret. cbn. split; [done|]. case_if; lia.
Qed.

Lemma ip_loop_drives I topic fuel : driven wait_readable ip_app I -> bytes_ok topic ->
  forall subscribed sent last_pub, 0 <= sent <= 3 ->
  drives I (ip_loop wait_readable topic fuel subscribed sent last_pub).
Proof.
  intros Hd Ht. induction fuel as [|fuel IH]; intros subscribed sent last_pub Hsent; cbn [ip_loop]; [apply drives_fuel|].
  apply drives_bind; [apply drives_globals|]. intros running. case_if; [apply drives_ret|]. zbool.
  apply drives_bind; [by eapply drives_call|]. intros e. apply drives_if; [apply drives_ret|].
  apply drives_bind; [apply drives_get|]. intros c. apply drives_bind.
  { drive. by apply subscribe_call_ok. }
  intros sub s Hs. apply wp_bind. eapply wp_mono; [apply ip_publish_sent; [done | lia | done]|].
  intros [sent' last'] s' [Hs' Hsent']. cbn [fst] in Hsent'. revert s' Hs'.
  change (drives I (wait wait_readable 50;;; ip_loop wait_readable topic fuel sub sent' last')).
  drive. by apply IH.
Qed.

(** Its exit codes. *)
Lemma ip_session_code I topic fuel s : driven wait_readable ip_app I -> bytes_ok topic -> I s ->
  wp True (ip_session wait_readable topic fuel) (fun code s' => I s' /\ (code = 0 \/ code = 1)) s.
Proof.
  intros Hd Ht Hs. unfold ip_session.
  do 5 (drive_on ltac:(eapply drives_call; [exact Hd | first [exact Logic.I | by vm_compute] | eassumption])).
  case_if; [apply wp_ret; by auto|]. drive_on ltac:(eapply drives_now; eassumption).
  drive_on ltac:(by apply ip_loop_drives). drive_on ltac:(eapply drives_step_while; [done | drive | eassumption]).
  drive_on ltac:(by eapply (drives_call _ _ _ Hd)). drive_on ltac:(eapply drives_step_while; [done | drive | eassumption]).
  apply wp_ret. by auto.
Qed.

(** The demo's count of published messages grows by at most one. *)
Lemma demo_publish_count I topic v s :
  driven wait_readable demo_app I -> 0 <= published v < 5 -> I s ->
  wp True (demo_publish topic v) (fun r s' => I s' /\ 0 <= published (fst r) <= 5) s.
Proof.
  intros Hd Hv Hs. unfold demo_publish. apply wp_bind, wp_get. case_if; [apply wp_ret; cbn; split; [done | lia]|].
  apply wp_bind. eapply wp_mono; [by eapply drives_now|]. intros t s1 Hs1. case_if; [|apply wp_ret; cbn; split; [done | lia]].
  apply wp_bind. eapply wp_mono; [eapply drives_call; [done | | done]|].
  { cbn. split; [apply Z.mod_pos_bound; lia | apply demo_payload_short; lia]. }
  intros e s2 Hs2. case_if; [|case_if; [apply wp_ret; cbn; split; [done | lia]|]];
    (apply wp_bind; eapply wp_mono; [by eapply drives_now|]; intros t' s3 Hs3; apply wp_ret; cbn; split; [done | lia]).
Qed.

Lemma demo_loop_drives I topic started_ms fuel : driven wait_readable demo_app I -> bytes_ok topic ->
  forall v, 0 <= published v <= 5 -> drives I (demo_loop wait_readable topic started_ms fuel v).
Proof.
  intros Hd Ht. induction fuel as [|fuel IH]; intros v Hv; cbn [demo_loop]; [apply drives_fuel|].
  apply drives_bind; [apply drives_globals|]. intros g. case_if; [apply drives_ret|]. zbool.
  apply drives_bind; [by eapply drives_now|]. intros t. apply drives_if; [apply drives_ret|].
  apply drives_bind; [by eapply drives_call|]. intros e. apply drives_if; [apply drives_ret|].
  apply drives_bind; [apply drives_get|]. intros c. apply drives_bind.
  { drive. by apply subscribe_call_ok. }
  intros sub s Hs. apply wp_bind. eapply wp_mono; [apply demo_publish_count; [done | cbn; lia | done]|].
  intros [v' stop] s' [Hs' Hv']. cbn [fst] in Hv'. revert s' Hs'.
  change (drives I (if stop then ret v' else wait wait_readable 50;;; demo_loop wait_readable topic started_ms fuel v')).
  drive. by apply IH.
Qed.

Lemma demo_idle_drives I idle_ms idle_started fuel : driven wait_readable demo_app I ->
  drives I (demo_idle wait_readable idle_ms idle_started fuel).
Proof. intros Hd. induction fuel as [|fuel IH]; cbn [demo_idle]; drive. apply IH. Qed.

Lemma fold_expect checks : forall n, 0 <= n ->
  n <= fold_left (fun n ok => n + expect ok) checks n /\
  (fold_left (fun n ok => n + expect ok) checks n = 0 -> Forall (fun b => b = true) checks).
Proof.
  induction checks as [|b checks IH]; intros n Hn; cbn [fold_left]; [split; [lia | constructor]|].
  destruct (IH (n + expect b)) as [Hle Hall]; [destruct b; cbn; lia|]. split; [destruct b; cbn in *; lia|].
  intros Hz. constructor; [|by apply Hall]. destruct b; [done|]. cbn in Hle, Hz. lia.
Qed.

Lemma demo_failures_none checks : demo_failures checks = 0 -> Forall (fun b => b = true) checks.
Proof. apply fold_expect. lia. Qed.

(** Exit code zero: every check of the tally was met, by the globals and the
    state at the end. *)
Definition demo_met (s : Sys (Host D DemoGlobals)) : Prop :=
  state_ (cl s) = Idle /\ g_connected (globals (env s)) = true /\ 3 <= g_deliveries (globals (env s)) /\
  5 <= g_echoes (globals (env s)) /\ g_end_reason (globals (env s)) = Ok.

Lemma demo_session_met I topic fuel s : driven wait_readable demo_app I -> bytes_ok topic -> I s ->
  wp True (demo_session wait_readable topic fuel) (fun code s' => I s' /\ (code = 0 -> demo_met s')) s.
Proof.
  intros Hd Ht Hs. unfold demo_session.
  do 5 (drive_on ltac:(eapply drives_call; [exact Hd | first [exact Logic.I | by vm_compute] | eassumption])).
  case_if; [by apply wp_ret|].
  do 2 (drive_on ltac:(eapply drives_now; eassumption)). drive_on ltac:(by apply demo_loop_drives).
  drive_on ltac:(eapply drives_if; [apply drives_ret | drive | eassumption]).
  drive_on ltac:(eapply drives_now; eassumption).
  drive_on ltac:(eapply drives_if; [apply drives_ret | by apply demo_idle_drives | eassumption]).
  apply wp_bind, wp_get. drive_on ltac:(by eapply (drives_call _ _ _ Hd)).
  drive_on ltac:(eapply drives_step_while; [done | drive | eassumption]).
  apply wp_bind, wp_get, wp_bind. unfold read_globals, wp at 1. apply wp_ret. split; [done|].
  case_if; [done|]. intros _. zbool. apply demo_failures_none in E0. rewrite !Forall_cons_iff in E0.
  destruct E0 as (_ & Hc & _ & _ & Hdel & Hecho & _ & Hidle & Hreason & _). zbool.
  unfold State_eqb in Hidle. apply bool_decide_eq_true in Hidle. apply bool_decide_eq_true in Hreason.
  unfold demo_met. by split_and!.
Qed.

(** Exit code zero: the loop saw [g_done], and the last loop [Idle]. [I] holds
    up to the first of these, [I'] from there on. *)
Lemma minimal_session_done (I I' : Sys (Host D bool) -> Prop) fuel s :
  driven wait_readable minimal_app I -> driven wait_readable minimal_app I' ->
  (forall s, I s -> globals (env s) = true -> I' s) -> I s ->
  wp True (minimal_session wait_readable fuel) (fun code s' => code = 0 -> I' s' /\ state_ (cl s') = Idle) s.
Proof.
  intros Hd Hd' Hto Hs. unfold minimal_session.
  do 2 (drive_on ltac:(eapply drives_call; [exact Hd | first [exact Logic.I | by vm_compute] | eassumption])).
  case_if; [by apply wp_ret|]. drive_on ltac:(by apply (minimal_loop_done I)). destruct Hs2 as [Hs2 Hg].
  destruct r1 as [code|]; [apply wp_ret; lia|].
  specialize (Hto _ Hs2 Hg). drive_on ltac:(by eapply (drives_call _ _ _ Hd')).
  drive_on ltac:(by apply (minimal_drain_idle I')). by apply wp_ret.
Qed.

(** Any exit code. *)
Lemma minimal_session_kept (I : Sys (Host D bool) -> Prop) fuel s :
  driven wait_readable minimal_app I -> I s -> wp True (minimal_session wait_readable fuel) (fun _ => I) s.
Proof.
  intros Hd Hs. unfold minimal_session.
  do 2 (drive_on ltac:(eapply drives_call; [exact Hd | first [exact Logic.I | by vm_compute] | eassumption])).
  case_if; [by apply wp_ret|]. drive_on ltac:(by apply (minimal_loop_done I)). destruct Hs2 as [Hs2 _].
  destruct r1 as [code|]; [by apply wp_ret|]. drive_on ltac:(by eapply (drives_call _ _ _ Hd)).
  drive_on ltac:(by apply (minimal_drain_idle I)). destruct_and?; by apply wp_ret.
Qed.
End programs.

(** ** What is preserved *)
Section preserved.
Context `{Cfg : Config} `{SZ : SizeT} `{BW : ByteStreamWriter} `{BR : ByteStreamReader}.
Context {D G : Type} {T : Transport D} {CK : Clock D} {TOK : TransportOk D} (wait_readable : Z -> D -> D).
Context (f : Callback -> Host D G -> Host D G).
Notation app := (fun cb => Act (f cb) Done).

(** The reachable states of the client. *)
Lemma reachable_driven : driven wait_readable app (reachable app).
Proof.
  split.
  - intros c s Hc Hs. unfold wp. destruct (api_call app c s) as [[r s']|] eqn:E; [by eapply reach_call | done].
  - intros ms [c e h] Hs. apply (reach_env app (mkSys c e h)). exact Hs.
  - intros [c e h] Hs. unfold clock_now. apply wp_with_env. by apply (reach_env app (mkSys c e h)).
Qed.

Context (P closed : D -> Prop) {TK : TransportKeeps P closed}.
Context (Hwait : forall ms d, P d -> P (wait_readable ms d) /\ (closed d -> closed (wait_readable ms d))).
Context (K : G -> list Event -> Prop)
  (K_event : forall g h ev, match ev with EvCall _ => False | _ => True end -> K g h -> K g (h ++ [ev])).
Context (f_device : forall cb e, device (f cb e) = device e)
  (f_globals : forall cb e h, K (globals e) h -> K (globals (f cb e)) (h ++ [EvCall cb])).

Definition program_kept : Sys (Host D G) -> Prop :=
  kept_sys (host_keeps_P P) (host_closed closed) (host_K K).

Lemma kept_driven : driven wait_readable app program_kept.
Proof.
  pose proof (host_history K K_event) as HK. split.
  - intros c [cc e h] Hc Hs. unfold api_call, call.
    refine (api_keeps_device (host_keeps_P P) (host_closed closed) (host_K K) _ _ c Hc cc e h Hs).
    eapply run_action_keeps; [done | |].
    + intros cb e' Hp. unfold host_keeps_P, host_closed in *. by rewrite f_device.
    + intros cb e' h' Hj. by apply f_globals.
  - intros ms [c e h] [Hp Hi Hw Hj]. unfold wait. apply wp_with_env. destruct (Hwait ms (device e) Hp) as [Hp' Hc'].
    split; cbn [cl env history snd]; [done | intros Hidle; by apply Hc', Hi | done | done].
  - intros [c e h] Hs. unfold clock_now. apply wp_with_env.
    exact (kept_now (host_keeps_P P) (host_closed closed) (host_K K) c e h Hs).
Qed.

(** A client just constructed over a closed device. *)
Lemma program_starts d g : P d -> closed d -> K g [] -> program_kept (mkSys client_init (mkHost d g) []).
Proof. intros Hp Hc Hk. split; [done | done | apply client_init_widths | done]. Qed.
End preserved.
