(* ===== verification/ExampleDeadline.v ===== *)
(** * ExampleDeadline: pubsub_demo ends

    The demo gives its session a deadline because its other stopping conditions
    depend on progress. With a clock that advances, however slowly, the loops
    end; the calls of the client in them return by the invariant of
    [ClientInv]. *)
From S2P Require Import Prelude Errors Packet Etl Codec TxQueue Config Transport ClientState.
From S2P Require Import Effects Client Application ClientInv ClientSpecs StepSpecs AppSpecs.
From S2P Require Import ClientDevice CLib Examples ExampleFacts.
#[local] Open Scope client_scope.

(** ** Time *)
Definition ns_per_ms : Z := 1000000.
Definition a_day : Z := 86400 * 1000 * ns_per_ms.

(** The difference of two readings of a 32-bit millisecond counter, less than
    the counter's range apart. *)
Lemma elapsed_readings t0 t :
  t0 <= t < t0 + (2 ^ 32 - 1) * ns_per_ms ->
  elapsed_ms (u32 (t / ns_per_ms)) (u32 (t0 / ns_per_ms)) = t / ns_per_ms - t0 / ns_per_ms.
Proof.
  unfold ns_per_ms. intros Ht. apply elapsed_ms_exact.
  split; [apply Z.div_le_mono; lia|]. Z.to_euclidean_division_equations. lia.
Qed.

Section deadline.
Context {Cfg : Config} {COK : ConfigOk Cfg} {CS : ConfigSane Cfg}.
Context `{WS : WideSizeT} `{BWO : ByteStreamWriterOk} `{BRO : ByteStreamReaderOk}.
Context {D : Type} {T : Transport D} {CK : Clock D} {TOK : TransportOk D} (wait_readable : Z -> D -> D).
Notation E := (Host D DemoGlobals).

(** The states the demo can bring the client to. *)
Definition live : Sys E -> Prop := reachable demo_app.

(** [time] is the time in nanoseconds: the clock reads it in milliseconds modulo
    2^32, it does not go back, every wait takes some of it, and neither a wait
    nor a call of the client takes longer than a day. *)
Record steady (time : D -> Z) : Prop := {
  steady_read d : fst (now_ms d) = u32 (time d / ns_per_ms);
  steady_now d : time d <= time (snd (now_ms d)) <= time d + a_day;
  steady_wait ms d : time d < time (wait_readable ms d) <= time d + a_day;
  steady_call c s r s' :
    call_ok c -> live s -> api_call demo_app c s = Some (r, s') ->
    time (device (env s)) <= time (device (env s')) <= time (device (env s)) + a_day;
}.

Context (time : D -> Z) (Hst : steady time).
Definition time_of (s : Sys E) : Z := time (device (env s)).

(** [m] returns, keeps the client in order, and takes at most [k] days; [Q]
    holds of its result. *)
Definition lasts {A} (k : Z) (Q : A -> Prop) (m : M E A) : Prop :=
  forall s, live s ->
  wp False m (fun a s' => live s' /\ time_of s <= time_of s' <= time_of s + k * a_day /\ Q a) s.

Lemma lasts_bind {A B} k1 k2 (Q : A -> Prop) (R : B -> Prop) (m : M E A) (f : A -> M E B) :
  lasts k1 Q m -> (forall a, Q a -> lasts k2 R (f a)) -> lasts (k1 + k2) R (bind m f).
Proof.
  intros Hm Hf s Hs. apply wp_bind. eapply wp_mono; [by apply Hm|]. intros a s1 (Hs1 & Ht1 & Hq).
  eapply wp_mono; [by apply (Hf a Hq)|]. intros b s2 (Hs2 & Ht2 & Hr). split; [done|]. split; [lia | done].
Qed.

Lemma lasts_le {A} k k' (Q Q' : A -> Prop) (m : M E A) : lasts k Q m -> k <= k' -> (forall a, Q a -> Q' a) -> lasts k' Q' m.
Proof.
  intros Hm Hk HQ s Hs. eapply wp_mono; [by apply Hm|]. intros a s' (? & ? & ?). unfold a_day, ns_per_ms in *.
  split; [done|]. split; [lia | auto].
Qed.

Lemma lasts_ret {A} k (Q : A -> Prop) (a : A) : 0 <= k -> Q a -> lasts k Q (ret a).
Proof. intros Hk Hq s Hs. apply wp_ret. unfold a_day, ns_per_ms. split; [done|]. split; [lia | done]. Qed.

Lemma lasts_get k : 0 <= k -> lasts k (fun _ => True) get.
Proof. intros Hk s Hs. apply wp_get. unfold a_day, ns_per_ms. split; [done|]. split; [lia | done]. Qed.

Lemma lasts_if {A} k (Q : A -> Prop) (b : bool) (m m' : M E A) :
  lasts k Q m -> lasts k Q m' -> lasts k Q (if b then m else m').
Proof. by destruct b. Qed.

Lemma live_env c (e e' : E) h : live (mkSys c e h) -> live (mkSys c e' h).
Proof. apply (reach_env demo_app (mkSys c e h)). Qed.

Lemma lasts_now : lasts 1 (fun _ => True) clock_now.
Proof.
  intros [c e h] Hs. unfold clock_now. apply wp_with_env. split; [by eapply live_env|]. split; [|done].
  unfold time_of. cbn [env snd now_ms host_clock]. rewrite (proj1 (on_device_snd now_ms e)).
  pose proof (steady_now _ Hst (device e)). lia.
Qed.

Lemma lasts_wait ms : lasts 1 (fun _ => True) (wait wait_readable ms).
Proof.
  intros [c e h] Hs. unfold wait. apply wp_with_env. split; [by eapply live_env|]. split; [|done].
  pose proof (steady_wait _ Hst ms (device e)). unfold time_of. cbn. lia.
Qed.

(** The handlers only write variables, so a nesting of one is enough. *)
Lemma act_cb_ok cb : cb_ok False (run_callback (E := E) demo_app 1) cb.
Proof.
  intros [c e h] Hok _. cbn [run_callback run_handler demo_app].
  apply wp_bind, wp_record, wp_bind, wp_with_env, wp_ret. split; [|apply api_frame_refl].
  exact (sys_ok_call cb c e h Hok).
Qed.

Lemma live_ok s : live s -> sys_ok s.
Proof. apply reachable_sys_ok. intros cb _. repeat constructor. Qed.

Lemma lasts_call c : call_ok c -> lasts 1 (fun _ => True) (api_call demo_app c).
Proof.
  intros Hc s Hs. assert (Hret : wp False (api_call demo_app c) (fun _ => api_keeps (cl s)) s).
  { unfold api_call, call.
    apply api_wp; [done | by apply live_ok | intros hd reason; apply act_cb_ok | right; intros cb _; apply act_cb_ok]. }
  unfold wp in *. destruct (api_call demo_app c s) as [[r s']|] eqn:E; [|done].
  split; [by eapply reach_call|]. split; [|done]. pose proof (steady_call _ Hst c s r s' Hc Hs E). unfold time_of. lia.
Qed.

Lemma lasts_step_while rounds go after k :
  0 <= k -> lasts k (fun _ => True) after ->
  lasts (Z.of_nat rounds * (1 + k)) (fun _ => True) (step_while demo_app rounds go after).
Proof.
  intros Hk Ha. induction rounds as [|rounds IH]; cbn [step_while]; [by apply lasts_ret|].
  replace (Z.of_nat (S rounds) * (1 + k)) with (0 + (1 + (k + Z.of_nat rounds * (1 + k))))
    by (rewrite Nat2Z.inj_succ; ring).
  eapply lasts_bind; [by apply lasts_get|]. intros c _. apply lasts_if; [apply lasts_ret; [lia | done]|].
  eapply lasts_bind; [by apply lasts_call|]. intros _ _. eapply lasts_bind; [done|]. intros _ _. apply IH.
Qed.

(** ** The loops *)

(** One reading of the clock, [t0] at most 2^32 ms back. *)
Lemma wp_clock (Q : Z -> Sys E -> Prop) s :
  live s ->
  (forall s', live s' -> time_of s <= time_of s' <= time_of s + a_day -> Q (u32 (time_of s / ns_per_ms)) s') ->
  wp False clock_now Q s.
Proof.
  destruct s as [c e h]. intros Hs HQ. unfold clock_now. apply wp_with_env.
  cbn [now_ms host_clock]. rewrite on_device_fst, (steady_read _ Hst). apply HQ; [by eapply live_env|].
  unfold time_of. cbn [env]. rewrite (proj1 (on_device_snd now_ms e)). apply (steady_now _ Hst).
Qed.

Lemma demo_publish_lasts topic v :
  0 <= published v < 5 -> lasts 3 (fun r => 0 <= published (fst r) <= 5) (demo_publish topic v).
Proof.
  intros Hv. unfold demo_publish. change 3 with (0 + (1 + (1 + 1))).
  eapply lasts_bind; [by apply lasts_get|]. intros c _. apply lasts_if; [apply lasts_ret; cbn; lia|].
  eapply lasts_bind; [apply lasts_now|]. intros t _. apply lasts_if; [|apply lasts_ret; cbn; lia].
  eapply lasts_bind; [apply lasts_call|].
  { cbn. split; [apply Z.mod_pos_bound; lia | apply demo_payload_short; lia]. }
  intros e _. repeat apply lasts_if; try (apply lasts_ret; cbn; lia);
    (change 1 with (1 + 0); eapply lasts_bind; [apply lasts_now|]; intros t' _; apply lasts_ret; cbn; lia).
Qed.

(** What is left of a round of the loop before the wait. *)
Definition demo_round (topic : list Z) (v : DemoVars) : M E (option (DemoVars * bool)) :=
  rc <- api_call demo_app CallStep;;
  if negb (Error_eqb (fst rc) Ok) then ret None
  else
    c <- get;;
    sub <- (if is_connected c && negb (subscribed v) then
              e <- api_call demo_app (CallSubscribe [mkTopicSubscription topic AtLeastOnce] None);;
              ret (Error_eqb (fst e) Ok)
            else ret (subscribed v));;
    r <- demo_publish topic (mkDemoVars sub (published v) (deferrals v) (last_pub v) (timed_out v));;
    ret (Some r).

Lemma demo_loop_round topic started_ms fuel v s :
  demo_loop wait_readable topic started_ms (S fuel) v s =
  (g <- read_globals;;
   if negb (g_running g && (published v <? 5)) then ret v
   else
     t <- clock_now;;
     if elapsed_ms t started_ms >? kSessionDeadlineMs then
       ret (mkDemoVars (subscribed v) (published v) (deferrals v) (last_pub v) true)
     else
       r <- demo_round topic v;;
       match r with
       | None => ret v
       | Some (v, stop) => if (stop : bool) then ret v else wait wait_readable 50;;; demo_loop wait_readable topic started_ms fuel v
       end) s.
Proof.
  cbn [demo_loop]. unfold demo_round, bind. destruct (read_globals s) as [[g s1]|]; [|done].
  case_if; [done|]. destruct (clock_now s1) as [[t s2]|]; [|done]. case_if; [done|].
  destruct (api_call demo_app CallStep s2) as [[rc s3]|]; [|done]. case_if; [done|]. cbn [get].
  match goal with |- match ?m with Some _ => _ | None => _ end = _ => destruct m as [[sub s4]|]; [|done] end.
  by destruct (demo_publish _ _ s4) as [[[v' stop] s5]|].
Qed.

Lemma demo_round_lasts topic v :
  bytes_ok topic -> 0 <= published v < 5 ->
  lasts 5 (fun r => match r with Some (v, _) => 0 <= published v <= 5 | None => True end) (demo_round topic v).
Proof.
  intros Ht Hv. unfold demo_round. change 5 with (1 + (0 + (1 + (3 + 0)))).
  eapply lasts_bind; [by apply lasts_call|]. intros rc _. apply lasts_if; [apply lasts_ret; [lia | done]|].
  eapply lasts_bind; [by apply lasts_get|]. intros c _. eapply (lasts_bind 1 _ (fun _ => True)).
  { apply lasts_if; [|apply lasts_ret; [lia | done]]. change 1 with (1 + 0).
    eapply lasts_bind; [apply lasts_call; by apply subscribe_call_ok|]. intros e _. by apply lasts_ret. }
  intros sub _. eapply lasts_bind; [by apply demo_publish_lasts|]. intros [v' stop] Hv'. by apply lasts_ret.
Qed.

(** Past [limit] milliseconds and one, both loops see that the limit is passed,
    the counter not having come round yet. *)
Definition past (limit : Z) : Z := (limit + 1) * ns_per_ms.

Lemma elapsed_past t0 t limit :
  0 <= limit <= kSessionDeadlineMs -> t0 + past limit <= t <= t0 + past limit + 7 * a_day ->
  elapsed_ms (u32 (t / ns_per_ms)) (u32 (t0 / ns_per_ms)) > limit.
Proof.
  intros Hl Ht. rewrite elapsed_readings by (unfold past, kSessionDeadlineMs, a_day, ns_per_ms in *; lia).
  unfold past, ns_per_ms in *. Z.to_euclidean_division_equations. lia.
Qed.

Lemma demo_loop_returns topic t0 fuel : bytes_ok topic -> forall v s,
  0 <= published v <= 5 -> live s -> t0 <= time_of s <= t0 + past kSessionDeadlineMs + 7 * a_day ->
  (Z.to_nat (t0 + past kSessionDeadlineMs - time_of s) < fuel)%nat ->
  wp False (demo_loop wait_readable topic (u32 (t0 / ns_per_ms)) fuel v) (fun _ => live) s.
Proof.
  intros Ht. induction fuel as [|fuel IH]; intros v s Hv Hs Htime Hfuel; [lia|].
  unfold wp at 1. rewrite demo_loop_round. apply wp_bind. unfold read_globals, wp at 1.
  case_if; [by apply wp_ret|]. zbool. apply wp_bind, wp_clock; [done|]. intros s1 Hs1 Ht1.
  case_if; [by apply wp_ret|]. zbool. apply wp_bind.
  destruct (Z.le_gt_cases (t0 + past kSessionDeadlineMs) (time_of s)) as [Hpast|Hbefore].
  { pose proof (elapsed_past t0 (time_of s) kSessionDeadlineMs) as Hp. unfold kSessionDeadlineMs in *. lia. }
  eapply wp_mono; [apply (demo_round_lasts topic v Ht); [lia | done]|].
  intros r s2 (Hs2 & Ht2 & Hr). destruct r as [[v' []]|]; [by apply wp_ret| |by apply wp_ret].
  apply wp_bind. destruct s2 as [c2 e2 h2]. unfold wait. apply wp_with_env.
  pose proof (steady_wait _ Hst 50 (device e2)) as Hw. unfold time_of in *. cbn [env snd] in *.
  apply IH; [done | by eapply live_env | |]; cbn; lia.
Qed.

Lemma demo_idle_returns idle_ms t0 fuel : 0 <= idle_ms <= kSessionDeadlineMs -> forall s,
  live s -> t0 <= time_of s <= t0 + past idle_ms + 7 * a_day ->
  (Z.to_nat (t0 + past idle_ms - time_of s) < fuel)%nat ->
  wp False (demo_idle wait_readable idle_ms (u32 (t0 / ns_per_ms)) fuel) (fun _ => live) s.
Proof.
  intros Hidle. induction fuel as [|fuel IH]; intros s Hs Htime Hfuel; [lia|]. cbn [demo_idle].
  apply wp_bind. unfold read_globals, wp at 1. case_if; [by apply wp_ret|].
  apply wp_bind, wp_clock; [done|]. intros s1 Hs1 Ht1. case_if; [by apply wp_ret|]. zbool. apply wp_bind.
  destruct (Z.le_gt_cases (t0 + past idle_ms) (time_of s)) as [Hpast|Hbefore].
  { pose proof (elapsed_past t0 (time_of s) idle_ms). lia. }
  eapply wp_mono; [by apply (lasts_call CallStep)|]. intros r s2 (Hs2 & Ht2 & _). case_if; [by apply wp_ret|].
  apply wp_bind. destruct s2 as [c2 e2 h2]. unfold wait. apply wp_with_env.
  pose proof (steady_wait _ Hst 100 (device e2)) as Hw. unfold time_of in *. cbn [env snd] in *.
  apply IH; [by eapply live_env | |]; cbn; lia.
Qed.

(** The whole program, with enough fuel for the number of nanoseconds. *)
Lemma demo_session_returns topic fuel s :
  bytes_ok topic -> live s -> (Z.to_nat (past kSessionDeadlineMs) < fuel)%nat ->
  wp False (demo_session wait_readable topic fuel) (fun _ => live) s.
Proof.
  intros Ht Hs Hfuel. unfold demo_session.
  assert (Hgo : forall {A B} k Q (m : M E A) (f : A -> M E B) R s, lasts k Q m -> live s ->
    (forall a s', live s' -> wp False (f a) R s') -> wp False (bind m f) R s).
  { intros A B k Q m f R s' Hm Hs' Hf. apply wp_bind. eapply wp_mono; [by apply Hm|]. intros a s2 (? & _). by apply Hf. }
  do 5 (eapply Hgo; [apply lasts_call; first [exact I | by vm_compute] | eassumption | clear s Hs; intros ? s Hs]).
  case_if; [by apply wp_ret|].
  eapply Hgo; [apply lasts_now | done | clear s Hs; intros last s Hs].
  apply wp_bind, wp_clock; [done|]. intros s1 Hs1 Ht1. apply wp_bind.
  eapply wp_mono; [apply demo_loop_returns; [done | cbn; lia | done | |]|].
  { unfold past, kSessionDeadlineMs, a_day, ns_per_ms in *. lia. }
  { lia. }
  intros v s2 Hs2. eapply (Hgo _ _ 80 (fun _ => True)); [|done|].
  { apply lasts_if; [by apply lasts_ret|]. apply (lasts_step_while 40 _ _ 1); [lia | apply lasts_wait]. }
  intros _ s3 Hs3. apply wp_bind, wp_clock; [done|]. intros s4 Hs4 Ht4. apply wp_bind.
  eapply wp_mono with (Q := fun _ => live).
  { case_if; [by apply wp_ret|]. change (u32 (opt_keep_alive_s demo_options * 1000 * 2)) with 10000.
    apply demo_idle_returns; [by vm_compute | done | |]; unfold past, kSessionDeadlineMs, a_day, ns_per_ms in *; lia. }
  intros _ s5 Hs5. apply wp_bind, wp_get. eapply Hgo; [by apply (lasts_call CallDisconnect) | done | intros ? s6 Hs6].
  eapply Hgo; [apply (lasts_step_while 20 _ _ 1); [lia | apply lasts_wait] | done | intros ? s7 Hs7].
  apply wp_bind, wp_get, wp_bind. unfold read_globals, wp at 1. by apply wp_ret.
Qed.
End deadline.
