(* ===== verification/Bench.v ===== *)
(** * Bench: a concrete environment

    A link that delivers scripted chunks, accepts bytes up to scripted limits
    and remembers what was sent, with a clock the script advances. It satisfies
    the transport contract, so the theorems that assume the contract apply to
    it, and runs of the client over it can be evaluated. *)
From S2P Require Import Prelude Errors Packet Etl Codec Config Transport ClientState Effects.
From S2P Require Import Application.

Record Link := mkLink {
  link_clock : Z;
  link_incoming : list (list Z);  (* what successive [recv]s deliver *)
  link_limits : list Z;           (* what successive [send]s accept at most *)
  link_up : bool;
}.

#[export] Instance eta_Link : Eta Link := fun r =>
  mkLink (link_clock r) (link_incoming r) (link_limits r) (link_up r).

Definition bench_send (data : list Z) (l : Link) : Error * Z * Link :=
  match link_limits l with
  | [] => (Ok, zlen data, l)
  | n :: ns => (Ok, Z.max 0 (Z.min n (zlen data)), l <| link_limits := ns |>)
  end.

Definition bench_recv (n : Z) (l : Link) : Error * list Z * Link :=
  match link_incoming l with
  | [] => (WouldBlock, [], l)
  | chunk :: rest =>
      (Ok, u8 <$> ztake n chunk, l <| link_incoming := rest |>)
  end.

#[export] Instance bench_transport : Transport Link := {|
  transport_connect l := (Ok, l <| link_up := true |>);
  transport_send := bench_send;
  transport_recv := bench_recv;
  transport_close l := l <| link_up := false |>;
  transport_is_connected := link_up;
|}.

#[export] Instance bench_clock : Clock Link := {| now_ms l := (u32 (link_clock l), l) |}.

Lemma zlen_ztake_le {A} n (l : list A) : 0 <= n -> zlen (ztake n l) <= n.
Proof. intros. unfold zlen, ztake. rewrite length_take. lia. Qed.

#[export] Instance bench_ok : TransportOk Link.
Proof.
  split; intros; cbn; try (by left); try apply u32_range.
  - unfold bench_send. destruct (link_limits env); by left.
  - unfold bench_send. pose proof (zlen_nonneg data). destruct (link_limits env); cbn; lia.
  - unfold bench_recv. destruct (link_incoming env); cbn; by auto.
  - unfold bench_recv. destruct (link_incoming env) as [|c r]; cbn; [done|].
    rewrite zlen_fmap. by apply zlen_ztake_le.
  - unfold bench_recv. destruct (link_incoming env) as [|c r]; cbn; [constructor|].
    apply Forall_fmap, Forall_true. intros x. apply u8_range.
Qed.

Definition link0 : Link := mkLink 0 [] [] false.

(** A target with a [size_t] of 64 bits, the default capacities, and byte
    streams over lists. *)
Module Target.
#[export] Instance size64 : SizeT.
Proof. refine {| size_bits := 64 |}. lia. Defined.

#[export] Instance size64_wide : WideSizeT.
Proof. unfold WideSizeT. cbn. lia. Qed.

#[export] Existing Instance DefaultConfig.
Export ListStreams.
End Target.
