(* ===== verification/DeviceRuns.v ===== *)
(** * DeviceRuns: the client over the transports, and simulated systems

    What changes around a client whose transport is one of the example classes:
    the system behind it, and the waits of the application's loop. Then simulated
    systems for Winsock and mbedTLS, and scripts that run a client over an
    example transport. *)
From S2P Require Import Prelude Errors Packet Etl Codec TxQueue Config Transport ClientState Effects.
From S2P Require Import Client Application Ipv4 Platform Posix TcpIpTransport PosixTransport.
From S2P Require Import WinsockTransport TlsTransport ClientDevice Bench.

(** ** What happens between two calls of the client *)
Section around.
Context {O W : Type}.
Implicit Types e : Obj O W.

(** The system changes, and the object does not; or the application waits. *)
Definition around (wait : Z -> Obj O W -> Obj O W) e e' : Prop :=
  self e' = self e /\ trace e' = trace e \/ exists ms, e' = wait ms e.

(** A transport just constructed. *)
Definition fresh_device (o : O) e : Prop := self e = o /\ trace e = [].

(** A property of the object and its trace that waiting preserves. *)
Lemma around_keeps wait (ok : O -> list OsEvent -> Prop) (closed : O -> Prop) :
  (forall ms e, ok (self e) (trace e) ->
     ok (self (wait ms e)) (trace (wait ms e)) /\ (closed (self e) -> closed (self (wait ms e)))) ->
  outside_keeps (fun e => ok (self e) (trace e)) (fun e => closed (self e)) (fun _ _ => True) (around wait).
Proof.
  intros Hw e e' h [[Hs Ht]|[ms ->]] Hok _; [by rewrite Hs, Ht|].
  destruct (Hw ms e Hok). by split_and!.
Qed.
End around.

Section waits.
Context `{PC : PosixConstants} {W : Type} `{PAO : PosixApiOk W}.

Definition tcp_wait (ms : Z) (e : Obj TcpIpTransport W) : Obj TcpIpTransport W := snd (tcp_wait_readable ms e).
Definition px_wait (ms : Z) (e : Obj PosixTransport W) : Obj PosixTransport W := snd (px_wait_readable ms e).

Lemma tcp_wait_keeps ms e :
  tcp_device e -> tcp_device (tcp_wait ms e) /\ (tcp_device_closed e -> tcp_device_closed (tcp_wait ms e)).
Proof.
  destruct e as [t w tr]. intros Hok. pose proof (tcp_wait_call ms t w tr) as Hc. unfold post in Hc.
  split; [by eapply one_call_tcp_ok | by eapply one_call_closed].
Qed.

Lemma px_wait_keeps `{!SmallFds W} ms e :
  px_device e -> px_device (px_wait ms e) /\ (px_device_closed e -> px_device_closed (px_wait ms e)).
Proof.
  destruct e as [t w tr]. intros Hok. pose proof (px_wait_call ms t w tr Hok) as Hc. unfold post in Hc.
  split; [by eapply one_call_px_ok | by eapply one_call_closed].
Qed.
End waits.

Definition ws_wait `{WinsockConstants} {W} `{WinsockApi W} (ms : Z) (e : Obj WinsockTransport W)
  : Obj WinsockTransport W := snd (ws_wait_readable ms e).

Lemma ws_wait_keeps `{WinsockConstants} {W} `{WinsockApi W} ms e :
  ws_device (W := W) e -> ws_device (ws_wait ms e) /\ (ws_device_closed e -> ws_device_closed (ws_wait ms e)).
Proof. destruct e as [t w tr]. intros Hok. by apply (ws_wait_post ms t w tr). Qed.

(** ** The client over a device *)
Section over.
Context `{Cfg : Config} `{SZ : SizeT} `{BW : ByteStreamWriter} `{BR : ByteStreamReader}.
Context {O W : Type} {T : Transport (Obj O W)} {CK : Clock (Obj O W)} {TOK : TransportOk (Obj O W)}.
Context (ok : O -> list OsEvent -> Prop) (closed : O -> Prop).
Context {TK : TransportKeeps (fun e : Obj O W => ok (self e) (trace e)) (fun e => closed (self e))}.
Context (wait : Z -> Obj O W -> Obj O W).

(** The object is in order in every state of every run, and closed in [Idle]. *)
Lemma device_runs (app : Callback -> Handler (Obj O W)) (o : O) s :
  (forall ms e, ok (self e) (trace e) ->
     ok (self (wait ms e)) (trace (wait ms e)) /\ (closed (self e) -> closed (self (wait ms e)))) ->
  app_acts (around wait) app -> ok o [] -> closed o -> runs (around wait) app (fresh_device o) s ->
  ok (self (env s)) (trace (env s)) /\ (state_ (cl s) = Idle -> closed (self (env s))).
Proof.
  intros Hwait Happ Hok Hcl Hruns. pose proof (around_keeps wait ok closed Hwait) as Hout.
  destruct (runs_kept (fun e => ok (self e) (trace e)) (fun e => closed (self e)) (fun _ _ => True)
    (around wait) app (fresh_device o) s) as [? ? _ _]; try done.
  - by apply (run_callback_keeps _ _ _ (around wait) app Hout).
  - intros e [Hs Ht]. by rewrite Hs, Ht.
Qed.
End over.

(** ** Scripts *)
Section scripts.
Context `{Cfg : Config} `{SZ : SizeT} `{BW : ByteStreamWriter} `{BR : ByteStreamReader}.
Context {O W : Type} {T : Transport (Obj O W)} {CK : Clock (Obj O W)}.
Context (wait : Z -> Obj O W -> Obj O W) (app : Callback -> Handler (Obj O W)).

Fixpoint drive_device (script : list ApiCall) (s : Sys (Obj O W)) : option (Sys (Obj O W)) :=
  match script with
  | [] => Some s
  | c :: script => '(_, s) ← call app 3 c s; drive_device script (s <| env ::= wait 50 |>)
  end.

Lemma drive_device_runs starts script s s' :
  Forall call_ok script -> runs (around wait) app starts s -> drive_device script s = Some s' ->
  runs (around wait) app starts s'.
Proof.
  revert s; induction script as [|c script IH]; intros s Hok Hr Hd; [by injection Hd as <-|].
  apply Forall_cons_iff in Hok as [Hc Hok]. cbn in Hd. destruct (call app 3 c s) as [[r s1]|] eqn:Ec; [|done].
  cbn in Hd. eapply IH; [done | | exact Hd].
  apply (run_outside _ _ _ s1); [by eapply run_call | by right; exists 50].
Qed.

(** A run of a script from a fresh device, and a decidable fact about its end. *)
Lemma device_script (o : O) (w : W) script (Q : Sys (Obj O W) -> Prop) `{forall s, Decision (Q s)} :
  Forall call_ok script ->
  from_option (fun s => bool_decide (Q s)) false (drive_device script (mkSys client_init (mkObj o w []) [])) = true ->
  exists s, runs (around wait) app (fresh_device o) s /\ Q s.
Proof.
  intros Hok Hq. destruct (drive_device _ _) as [s|] eqn:Hd; [|done]. exists s. split.
  - eapply drive_device_runs; [done | | exact Hd]. by apply run_init.
  - by apply bool_decide_eq_true in Hq.
Qed.
End scripts.

(** ** Winsock and mbedTLS over the simulated system *)
Module WinConstants.
#[export] Instance win : WinsockConstants := {|
  INVALID_SOCKET := 2 ^ 64 - 1;
  WS_AF_INET := 2; WS_SOCK_STREAM := 1; WS_IPPROTO_TCP := 6; FIONBIO := 0x8004667e;
  WS_TCP_NODELAY := 1; WS_SOL_SOCKET := 0xffff; WS_SO_ERROR := 0x1007;
  WSAEWOULDBLOCK := 10035; WSAEINPROGRESS := 10036; WSAEALREADY := 10037; WSAEINTR := 10004;
  WSAECONNRESET := 10054; WSAECONNABORTED := 10053; WSAENETRESET := 10052; WSAESHUTDOWN := 10058;
  WSAENOTCONN := 10057;
|}.
End WinConstants.

#[export] Instance sim_winsock : WinsockApi SimOs := {|
  win_last_error := sim_errno;
  win_startup _ w := (0, w);
  win_cleanup w := (0, w);
  win_socket := sys_socket;
  win_ioctlsocket _ _ _ w := (sim_setfl w, w);
  win_setsockopt := sys_setsockopt;
  win_getsockopt := sys_getsockopt;
  win_connect := sys_connect;
  win_select r w' _ tv := sys_select 0 r w' tv;
  win_send := sys_send;
  win_recv := sys_recv;
  win_closesocket := sys_close;
  GetTickCount64 w := (sim_clock_ms w, w <| sim_clock_ms ::= fun t => t + sim_tick_ms w |>);
|}.

#[export] Instance sim_winsock_ok : WinsockApiOk SimOs.
Proof. split; intros; [apply sys_send_range | by apply sys_recv_range | apply sys_recv_bytes]. Qed.

(** A TLS library over it: the results of successive handshakes and writes are
    scripted, and the data every write was called with is remembered. *)
Record SimTls := mkSimTls {
  tls_sim : SimOs;
  tls_handshakes : list Z;
  tls_verify : Z;
  tls_results : list Z;          (* of successive writes; then all is written *)
  tls_writes : list (list Z);
}.

#[export] Instance eta_SimTls : Eta SimTls := fun r =>
  mkSimTls (tls_sim r) (tls_handshakes r) (tls_verify r) (tls_results r) (tls_writes r).

Module TlsConstants.
#[export] Instance mbedtls : MbedTlsConstants := {|
  MBEDTLS_ERR_SSL_WANT_READ := -0x6900;
  MBEDTLS_ERR_SSL_WANT_WRITE := -0x6880;
  MBEDTLS_ERR_SSL_PEER_CLOSE_NOTIFY := -0x7880;
|}.
End TlsConstants.

Definition sim_ssl_write (data : list Z) (w : SimTls) : Z * SimTls :=
  let w := w <| tls_writes ::= fun ws => ws ++ [data] |> in
  match tls_results w with
  | [] => (zlen data, w)
  | r :: rs => (Z.min r (zlen data), w <| tls_results := rs |>)
  end.

#[export] Instance sim_mbedtls : MbedTlsApi SimTls := {|
  mbedtls_init _ w := (tt, w);
  mbedtls_free _ w := (tt, w);
  mbedtls_ctr_drbg_seed _ w := (0, w);
  mbedtls_x509_crt_parse _ w := (0, w);
  mbedtls_net_connect _ _ w := (0, w);
  mbedtls_net_set_nonblock w := (0, w);
  mbedtls_ssl_config_defaults w := (0, w);
  mbedtls_ssl_conf_verify_required w := (tt, w);
  mbedtls_ssl_conf_ca_chain w := (tt, w);
  mbedtls_ssl_conf_rng w := (tt, w);
  mbedtls_ssl_setup w := (0, w);
  mbedtls_ssl_set_hostname _ w := (0, w);
  mbedtls_ssl_set_bio w := (tt, w);
  mbedtls_ssl_handshake w :=
    match tls_handshakes w with [] => (0, w) | r :: rs => (r, w <| tls_handshakes := rs |>) end;
  mbedtls_ssl_get_verify_result w := (tls_verify w, w);
  mbedtls_ssl_write := sim_ssl_write;
  mbedtls_ssl_read n w := let '(r, got, o) := sys_recv 0 n 0 (tls_sim w) in
    (if r =? -1 then -0x6900 else r, got, w <| tls_sim := o |>);
  mbedtls_ssl_close_notify w := (0, w);
|}.

#[export] Instance sim_mbedtls_ok : MbedTlsApiOk SimTls.
Proof.
  split.
  - intros. cbn. unfold sim_ssl_write. cbn. destruct (tls_results w); cbn; lia.
  - intros n w Hn. pose proof (sys_recv_range 0 n 0 (tls_sim w) Hn) as Hr. cbn in *.
    destruct (sim_recv n (tls_sim w)) as [[r got] o]. cbn in *. case_if; cbn; zbool; lia.
  - intros n w. pose proof (sys_recv_bytes 0 n 0 (tls_sim w)) as Hb. cbn in *.
    by destruct (sim_recv n (tls_sim w)) as [[r got] o].
Qed.

(** The POSIX calls of a system with a TLS library are those of the system; the
    clock is the only one that is made. *)
Definition on_tls_sim {A} (f : SimOs -> A * SimOs) (w : SimTls) : A * SimTls :=
  let '(a, o) := f (tls_sim w) in (a, w <| tls_sim := o |>).

#[export] Instance sim_tls_posix : PosixApi SimTls := {|
  sys_errno w := sim_errno (tls_sim w);
  sys_socket a b c := on_tls_sim (sys_socket a b c);
  sys_fcntl a b c := on_tls_sim (sys_fcntl a b c);
  sys_setsockopt a b c d := on_tls_sim (sys_setsockopt a b c d);
  sys_getsockopt a b c := on_tls_sim (sys_getsockopt a b c);
  sys_connect a b := on_tls_sim (sys_connect a b);
  sys_poll a b c := on_tls_sim (sys_poll a b c);
  sys_select a b c d := on_tls_sim (sys_select a b c d);
  sys_send a b c := on_tls_sim (sys_send a b c);
  sys_recv a b c := on_tls_sim (sys_recv a b c);
  sys_close a := on_tls_sim (sys_close a);
  sys_getaddrinfo a b c d := on_tls_sim (sys_getaddrinfo a b c d);
  sys_freeaddrinfo a := on_tls_sim (sys_freeaddrinfo a);
  sys_clock_gettime := on_tls_sim sys_clock_gettime;
|}.

(** A system whose descriptors fit an [fd_set] of 1024. *)
Record SmallOs := mkSmallOs { small_os : SimOs }.

Definition on_small {A} (f : SimOs -> A * SimOs) (w : SmallOs) : A * SmallOs :=
  let '(a, o) := f (small_os w) in (a, mkSmallOs o).

#[export] Instance small_api : PosixApi SmallOs := {|
  sys_errno w := sim_errno (small_os w);
  sys_socket a b c w := let '(fd, w) := on_small (sys_socket a b c) w in (Z.min fd 1023, w);
  sys_fcntl a b c := on_small (sys_fcntl a b c);
  sys_setsockopt a b c d := on_small (sys_setsockopt a b c d);
  sys_getsockopt a b c := on_small (sys_getsockopt a b c);
  sys_connect a b := on_small (sys_connect a b);
  sys_poll a b c := on_small (sys_poll a b c);
  sys_select a b c d := on_small (sys_select a b c d);
  sys_send a b c := on_small (sys_send a b c);
  sys_recv a b c := on_small (sys_recv a b c);
  sys_close a := on_small (sys_close a);
  sys_getaddrinfo a b c d := on_small (sys_getaddrinfo a b c d);
  sys_freeaddrinfo a := on_small (sys_freeaddrinfo a);
  sys_clock_gettime := on_small sys_clock_gettime;
|}.

#[export] Instance small_api_ok : PosixApiOk SmallOs.
Proof.
  split.
  - intros fd data flags w. exact (sys_send_range fd data flags (small_os w)).
  - intros fd len flags w Hlen. pose proof (sys_recv_range fd len flags (small_os w) Hlen) as Hr. cbn in *.
    unfold on_small. by destruct (sim_recv len (small_os w)) as [[r got] o].
  - intros fd len flags w. pose proof (sys_recv_bytes fd len flags (small_os w)) as Hb. cbn in *.
    unfold on_small. by destruct (sim_recv len (small_os w)) as [[r got] o].
Qed.

Section small.
Import LinuxConstants.
#[export] Instance small_fds_sim : SmallFds SmallOs.
Proof.
  split; [by vm_compute|]. intros family type protocol w. cbn. unfold on_small.
  destruct (sim_pop _ _ _ (small_os w)) as [fd o]. cbn. lia.
Qed.
End small.
