(* ===== verification/Scenarios.v ===== *)
(** * Scenarios: concrete runs

    Scripts of interface calls and link changes, run from a client just
    constructed; the states they end in are reachable, and, where the handlers
    are passive, satisfy the client's invariant. *)
From S2P Require Import Prelude Errors Packet Etl Codec TxQueue Config Transport ClientState.
From S2P Require Import ClientTables Effects Client Application ClientInv AppSpecs Bench.
Import Bench.Target.

(** A script: what an application does, and what happens to its link in
    between. *)
Inductive Action :=
  | Does (c : ApiCall)
  | Link_change (f : Link -> Link).

#[export] Instance Message_eq_dec : EqDecision Message.
Proof. solve_decision. Defined.

#[export] Instance ConnackInfo_eq_dec : EqDecision ConnackInfo.
Proof. solve_decision. Defined.

#[export] Instance FixedHeader_eq_dec : EqDecision FixedHeader.
Proof. solve_decision. Defined.

#[export] Instance Callback_eq_dec : EqDecision Callback.
Proof. solve_decision. Defined.

#[export] Instance Event_eq_dec : EqDecision Event.
Proof. solve_decision. Defined.

Section drive.
Context {Cfg : Config} (app : Callback -> Handler Link).

Fixpoint drive (script : list Action) (s : Sys Link) : option (Sys Link) :=
  match script with
  | [] => Some s
  | Does c :: script => '(_, s) ← call app 3 c s; drive script s
  | Link_change f :: script => drive script (s <| env ::= f |>)
  end.

Definition action_ok (a : Action) : Prop := match a with Does c => call_ok c | Link_change _ => True end.

Lemma drive_reachable script s s' :
  Forall action_ok script -> reachable app s -> drive script s = Some s' -> reachable app s'.
Proof.
  revert s; induction script as [|a script IH]; intros s Hok Hr Hd; [by injection Hd as <-|].
  apply Forall_cons_iff in Hok as [Ha Hok]. destruct a as [c|f]; cbn in Hd.
  - destruct (call app 3 c s) as [[r s1]|] eqn:Ec; [|done]. cbn in Hd.
    eapply IH; [done | by eapply reach_call | exact Hd].
  - eapply IH; [done | apply (reach_env app s (f (env s)) Hr) | exact Hd].
Qed.
End drive.

Definition arrives (bytes : list Z) : Action := Link_change (fun l => l <| link_incoming ::= fun q => q ++ [bytes] |>).

(** "a", "t" and "u". *)
Definition name_a : list Z := [97].
Definition topic_t : list Z := [116].
Definition topic_u : list Z := [117].

Definition options_a : ConnectOptions :=
  {| opt_client_id := name_a; opt_username := []; opt_password := []; opt_will := mkWill [] [] AtMostOnce false;
     opt_keep_alive_s := 60; opt_clean_session := true |}.

(** Connect, and let the broker accept. *)
Definition session : list Action :=
  [Does (CallConnect options_a); arrives [32; 2; 0; 0]; Does CallStep].

Definition start {Cfg : Config} : Sys Link := mkSys client_init link0 [].

(** A QoS 0 PUBLISH without payload, on a topic of one byte. *)
Definition empty_message (t : Z) : list Z := [48; 3; 0; 1; t].

(** Both of an application's message handlers and its handler for the end of a
    session are set. *)
Definition handlers : list Action := [Does (CallOnMessage (Some 1)); Does (CallOnDisconnect (Some 2))].

Lemma drive_start {Cfg : Config} app script s :
  Forall action_ok script -> drive app script start = Some s -> reachable app s.
Proof. intros Hok. apply drive_reachable; [done | apply reach_init]. Qed.

(** Discharge the argument types of a concrete script. *)
Ltac script_ok :=
  repeat (apply Forall_cons; [first [exact I | unfold bytes_ok, is_u8, is_u16; by_decide]|]); apply Forall_nil.

(** A state with a decidable property, reached by a script. *)
Lemma drive_decides {Cfg : Config} app script (Q : Sys Link -> Prop) `{forall s, Decision (Q s)} :
  Forall action_ok script -> from_option (fun s => bool_decide (Q s)) false (drive app script start) = true ->
  exists s, reachable app s /\ Q s.
Proof.
  intros Hok Hq. destruct (drive app script start) as [s|] eqn:Hd; [|done].
  exists s. split; [by eapply drive_start | by apply bool_decide_eq_true in Hq].
Qed.

Ltac by_run script :=
  match goal with
  | |- exists s, reachable ?app s /\ @?Q s => apply (drive_decides app script Q)
  end; [script_ok | vm_compute; reflexivity].

(** ** Scenarios for the invariant *)
Definition passive (cb : Callback) : Handler Link := Done.

Lemma passive_ok {Cfg : Config} : app_ok passive.
Proof. intros cb Hcb. constructor. Qed.

Lemma scenario {Cfg : Config} {COK : ConfigOk Cfg} {CS : ConfigSane Cfg} script (Q : Client -> Prop) `{forall c, Decision (Q c)} :
  Forall action_ok script ->
  from_option (fun s => bool_decide (Q (cl s))) false (drive passive script start) = true ->
  exists c (e : Link) h, sys_ok (mkSys c e h) /\ Q c.
Proof.
  intros Hok Hq. destruct (drive_decides passive script (fun s => Q (cl s)) Hok Hq) as ([c e h] & Hr & HQ).
  exists c, e, h. split; [exact (reachable_sys_ok passive _ passive_ok Hr) | exact HQ].
Qed.

Lemma passive_calm : calm passive.
Proof. intros hd reason. constructor. Qed.

(** Use a state the script reaches, with the decidable facts [Q] about it. *)
Ltac use_scenario script Q :=
  let c := fresh "c" in let e := fresh "e" in let h := fresh "h" in
  let Hok := fresh "Hok" in let HQ := fresh "HQ" in
  destruct (scenario script Q) as (c & e & h & Hok & HQ); [script_ok | vm_compute; reflexivity |];
  exists c, e, h.

(** A session in which QoS 1 and QoS 2 messages are in flight. *)
Definition in_flight : list Action :=
  session ++ [Does (CallPublish topic_t [1] AtLeastOnce false); Does (CallPublish topic_u [2] ExactlyOnce false)].

(** A session with a subscription that awaits its SUBACK. *)
Definition subscribing : list Action :=
  session ++ [Does (CallSubscribe [mkTopicSubscription topic_t AtLeastOnce] (Some 1))].

(** A session with a subscription that awaits its UNSUBACK. *)
Definition unsubscribing : list Action :=
  subscribing ++ [arrives [144; 3; 0; 1; 1]; Does CallStep; Does (CallUnsubscribe [topic_t])].

(** A new session with subscriptions of the last one to renew. *)
Definition renewing : list Action :=
  subscribing ++ [arrives [144; 3; 0; 1; 1]; Does CallStep; Does CallAbort; Does (CallConnect options_a)].
