(* ===== verification/WireProps.v ===== *)
(** * WireProps: what the codec, topic and queue components guarantee *)
From S2P Require Import Prelude Errors Packet PacketFacts Utf8 Topic TopicFacts Etl Codec.
From S2P Require Import CodecFacts TxQueue Config Transport ClientState ClientTables ClientInv.
From S2P Require Import ClientQueue Bench.

(** ** Variable byte integers and fixed headers *)

(** Decoding a variable byte integer accepts exactly the canonical
    encodings: a value of up to 268435455 in the fewest bytes, followed by
    anything. *)
Theorem vbi_decode_exact inp v n :
  bytes_ok inp ->
  vbi_decode inp = Val (mkVbiDecode v n) <->
  vbi_ok v /\ n = vbi_size v /\ exists rest, inp = vbi_wire v ++ rest.
Proof.
  intros Hok. split.
  - intros Hd. apply vbi_decode_sound in Hd as (Hv & Hn & Hi); [|done]. cbn [vbi_value vbi_bytes] in *.
    split_and!; [apply Hv.. | done |]. by exists (zdrop n inp).
  - intros (Hv & -> & rest & ->). apply bytes_ok_app in Hok as [_ Hr]. by apply vbi_decode_wire.
Qed.

Lemma vbi_decode_exact_witness :
  vbi_decode [0xC1; 0x02; 0xFF] = Val (mkVbiDecode 321 2) <->
  vbi_ok 321 /\ 2 = vbi_size 321 /\ exists rest, [0xC1; 0x02; 0xFF] = vbi_wire 321 ++ rest.
Proof. apply (vbi_decode_exact [0xC1; 0x02; 0xFF] 321 2). by_decide. Defined.

(** [vbi_encode] writes the canonical encoding at the front of the span,
    leaves the rest of it alone, and what it wrote decodes to the value. *)
Theorem vbi_roundtrip out v :
  vbi_ok v -> vbi_size v <= zlen out -> bytes_ok out ->
  fst (vbi_encode out v) = Val (vbi_size v) /\
  zdrop (vbi_size v) (snd (vbi_encode out v)) = zdrop (vbi_size v) out /\
  vbi_decode (snd (vbi_encode out v)) = Val (mkVbiDecode v (vbi_size v)).
Proof.
  intros Hv Hlen Hok. rewrite vbi_encode_wire by done. cbn [fst snd].
  split_and!; [done | | apply vbi_decode_wire; [done | by apply bytes_ok_drop]].
  rewrite <- (zlen_vbi_wire v Hv) at 1. apply zdrop_app_zlen.
Qed.

Lemma vbi_roundtrip_witness :
  fst (vbi_encode [7; 7; 7; 7] 128) = Val (vbi_size 128) /\
  zdrop (vbi_size 128) (snd (vbi_encode [7; 7; 7; 7] 128)) = zdrop (vbi_size 128) [7; 7; 7; 7] /\
  vbi_decode (snd (vbi_encode [7; 7; 7; 7] 128)) = Val (mkVbiDecode 128 (vbi_size 128)).
Proof.
  apply (vbi_roundtrip [7; 7; 7; 7] 128); [unfold vbi_ok, kMaxRemainingLength; lia | vm_compute; discriminate | by_decide].
Defined.

(** The first byte of a packet: [from_byte] accepts exactly the bytes
    [to_byte] makes of a valid header, and gives that header back. *)
Theorem header_byte_exact b h :
  is_u8 b -> from_byte b = Val h <-> header_ok h = true /\ to_byte h = b.
Proof.
  intros Hb. split.
  - intros Hf. by apply from_byte_to_byte in Hf as [? ?].
  - intros [Hh <-]. by apply to_byte_from_byte.
Qed.

Lemma header_byte_exact_witness :
  from_byte 0x3D = Val (mkFixedHeader Publish true ExactlyOnce true 0) <->
  header_ok (mkFixedHeader Publish true ExactlyOnce true 0) = true /\
  to_byte (mkFixedHeader Publish true ExactlyOnce true 0) = 0x3D.
Proof. apply (header_byte_exact 0x3D). unfold is_u8. lia. Defined.

(** ** Strings and topics *)

(** C35: [is_valid_mqtt_string] accepts exactly the UTF-8 encodings (RFC 3629)
    of texts without U+0000, and such a text is unique. *)
Theorem mqtt_string_exact s :
  bytes_ok s ->
  is_valid_mqtt_string s = true <->
  exists cs, (Forall mqtt_char cs /\ s = utf8_text cs) /\
    forall cs', Forall mqtt_char cs' /\ s = utf8_text cs' -> cs' = cs.
Proof.
  intros Hok. rewrite is_valid_mqtt_string_spec by done. split.
  - intros (cs & Hcs & ->). exists cs. split; [done|]. intros cs' [Hcs' Heq]. by apply utf8_text_inj.
  - intros (cs & Hcs & _). by exists cs.
Qed.

Lemma mqtt_string_exact_witness :
  is_valid_mqtt_string [0xE2; 0x82; 0xAC; 0x61] = true <->
  exists cs, (Forall mqtt_char cs /\ [0xE2; 0x82; 0xAC; 0x61] = utf8_text cs) /\
    forall cs', Forall mqtt_char cs' /\ [0xE2; 0x82; 0xAC; 0x61] = utf8_text cs' -> cs' = cs.
Proof. apply (mqtt_string_exact [0xE2; 0x82; 0xAC; 0x61]). by_decide. Defined.

(** C34: a topic filter is valid exactly when it has between 1 and 65535 bytes,
    is an MQTT string, every wildcard fills its level, and '#' is only ever the
    last level. *)
Theorem valid_filter_exact f :
  bytes_ok f ->
  is_valid_filter f = true <->
  1 <= zlen f <= 65535 /\ is_valid_mqtt_string f = true /\ filter_levels_ok (levels f).
Proof.
  intros Hok. rewrite is_valid_filter_levels by done.
  rewrite !andb_true_iff, negb_true_iff, Z.leb_le, levelsb_ok.
  assert (Hne : empty f = false <-> 1 <= zlen f).
  { destruct f as [|x f]; cbn [empty]; [by split|]. rewrite zlen_cons. pose proof (zlen_nonneg f). lia. }
  rewrite Hne. naive_solver.
Qed.

Lemma valid_filter_exact_witness :
  is_valid_filter [97; 47; 43; 47; 35] = true <->
  1 <= zlen [97; 47; 43; 47; 35] <= 65535 /\ is_valid_mqtt_string [97; 47; 43; 47; 35] = true /\
  filter_levels_ok (levels [97; 47; 43; 47; 35]).
Proof. apply (valid_filter_exact [97; 47; 43; 47; 35]). by_decide. Defined.

(** C33: for a valid filter, [topic_matches] decides the matching relation of
    MQTT 3.1.1 section 4.7 on topic levels; a filter that starts with a wildcard
    does not match a topic that starts with '$'. *)
Theorem topic_matches_exact f t :
  bytes_ok f -> is_valid_filter f = true -> t <> [] ->
  topic_matches f t = true <->
  level_match (levels f) (levels t) /\
  ~ (char_at t 0 = chr_dollar /\ is_wildcard (char_at f 0) = true).
Proof.
  intros Hok Hv Ht. rewrite is_valid_filter_levels, !andb_true_iff, levelsb_ok, negb_true_iff in Hv by done.
  destruct Hv as (((Hne & _) & _) & _ & Hh). unfold topic_matches. rewrite Hne.
  replace (empty t) with false by (by destruct t). cbn [orb].
  destruct ((char_at t 0 =? chr_dollar) && is_wildcard (char_at f 0)) eqn:Ed.
  { apply andb_true_iff in Ed as [Hd Hw]. zbool. split; [done | intros [_ Hn]; by destruct Hn]. }
  pose proof (matches_loop_spec (S (length f)) [] f [] t ltac:(lia)) as Hm. cbn [app] in Hm.
  change (zlen []) with 0 in Hm. rewrite Hm. cbn [default].
  rewrite <- (levels_matchb_match (levels f) (levels t)) by (done || apply levels_nonempty).
  split; [intros Hb; split; [done|] | by intros [? _]]. intros [Hd Hw]. rewrite Hd, Hw in Ed. done.
Qed.

Lemma topic_matches_exact_witness :
  topic_matches [97; 47; 35] [97; 47; 98; 47; 99] = true <->
  level_match (levels [97; 47; 35]) (levels [97; 47; 98; 47; 99]) /\
  ~ (char_at [97; 47; 98; 47; 99] 0 = chr_dollar /\ is_wildcard (char_at [97; 47; 35] 0) = true).
Proof. apply (topic_matches_exact [97; 47; 35]); [by_decide | reflexivity | discriminate]. Defined.

(** A topic name is valid exactly when it has between 1 and 65535 bytes, is
    an MQTT string and holds no wildcard. *)
Theorem valid_topic_name_exact t :
  bytes_ok t ->
  is_valid_topic_name t = true <->
  1 <= zlen t <= 65535 /\ is_valid_mqtt_string t = true /\ Forall (fun c => is_wildcard c = false) t.
Proof.
  intros Hok. unfold is_valid_topic_name.
  destruct t as [|x t'] eqn:Et; [split; [done | intros [[Hl _] _]; by change (1 <= 0) in Hl]|]. rewrite <- Et in *.
  assert (Hpos : 1 <= zlen t) by (subst t; rewrite zlen_cons; pose proof (zlen_nonneg t'); lia).
  replace (empty t) with false by (by subst t). cbn [orb]. clear Et x t'.
  destruct (zlen t >? 65535) eqn:El; zbool; [split; [done | lia]|].
  destruct (is_valid_mqtt_string t) eqn:Ev; cbn [negb]; [|split; [done | by intros (_ & ? & _)]].
  pose proof (mqtt_string_no_nul t Hok Ev) as Hnz. rewrite forallb_forall, Forall_forall.
  rewrite Forall_forall in Hnz. unfold is_wildcard. split.
  - intros Hall. split_and!; [done | done | done |]. intros c Hc. specialize (Hall c Hc). zbool.
    apply orb_false_iff. split; by apply Z.eqb_neq.
  - intros (_ & _ & Hall) c Hc. specialize (Hall c Hc). rewrite Hall. apply negb_true_iff, Z.eqb_neq.
    by apply Hnz.
Qed.

Lemma valid_topic_name_exact_witness :
  is_valid_topic_name [97; 47; 98] = true <->
  1 <= zlen [97; 47; 98] <= 65535 /\ is_valid_mqtt_string [97; 47; 98] = true /\
  Forall (fun c => is_wildcard c = false) [97; 47; 98].
Proof. apply (valid_topic_name_exact [97; 47; 98]). by_decide. Defined.

(** ** Packets *)
Section packets.
Context `{WS : WideSizeT} `{BWO : ByteStreamWriterOk} `{BRO : ByteStreamReaderOk}.

Lemma zdrop_wire_header type dup qos retain body rest :
  vbi_ok (zlen body) ->
  ztake (zlen body) (zdrop (1 + vbi_size (zlen body)) (wire_packet type dup qos retain body ++ rest)) = body.
Proof.
  intros Hv. unfold wire_packet. rewrite app_comm_cons, <- app_assoc.
  replace (1 + vbi_size (zlen body)) with (zlen (to_byte (mkFixedHeader type dup qos retain (zlen body)) :: vbi_wire (zlen body)))
    by (rewrite zlen_cons, zlen_vbi_wire by done; done).
  by rewrite zdrop_app_zlen, ztake_app_zlen.
Qed.

(** C31: an encoded PUBLISH, wherever the span leaves off, is framed and
    decoded to the message it was made from. *)
Theorem publish_roundtrip out topic payload qos retain dup id n out' :
  bytes_ok out -> bytes_ok topic -> bytes_ok payload -> zlen payload < 2 ^ 63 -> 0 <= qos -> is_u16 id ->
  encode_publish out topic payload qos retain dup id = (Val n, out') ->
  exists p, peek_header out' = Val p /\ peek_total_bytes p = n /\
    decode_publish (peek_hdr p)
      (ztake (fh_remaining_length (peek_hdr p)) (zdrop (peek_header_bytes p) out')) =
    Val (mkMessage topic payload qos retain dup (if qos =? AtMostOnce then 0 else id)).
Proof.
  intros Hout Ht Hpl Hlen Hq Hid He. pose proof He as He'. unfold encode_publish in He'.
  case_if_in He'; [done|]. case_if_in He'; [done|].
  destruct (publish_remaining_length topic (zlen payload) qos) as [rl|] eqn:Erl; [clear He' | done].
  assert (Hne : qos <> AtMostOnce -> id <> 0).
  { intros Hq0 ->. apply Z.eqb_neq in Hq0. rewrite Hq0 in *. done. }
  assert (Hdup : qos = AtMostOnce -> dup = false).
  { intros ->. cbn in *. destruct dup; [|done]. zbool. done. }
  destruct (encode_publish_encodes topic payload qos retain dup id rl Hq Hid Hlen Hne Hdup Erl out) as [Hfit Hno].
  apply (publish_remaining_length_Val _ _ _ id) in Erl as (Hpok & -> & Hvbi); [|done].
  set (body := publish_body topic payload qos id) in *.
  destruct (Z.le_gt_cases (zlen (wire_packet Publish dup qos retain body)) (zlen out)) as [Hle|Hgt];
    [|destruct (Hno Hgt) as [Herr _]; by rewrite He in Herr].
  rewrite Hfit in He by done. apply pair_equal_spec in He as [Hn <-]. apply Val_inj in Hn as <-.
  assert (Hbody : bytes_ok body).
  { unfold body, publish_body, wire_string. destruct Hpok as (_ & [Hl _] & _). unfold kMaxStringLen in Hl.
    rewrite !bytes_ok_app. split_and!; [| done | | done].
    - apply be16_bytes. unfold is_u16. pose proof (zlen_nonneg topic). lia.
    - destruct (negb (qos =? AtMostOnce)); [by apply be16_bytes | constructor]. }
  eexists. split; [apply peek_header_wire; [|done|done|by apply bytes_ok_drop]|].
  - unfold header_ok. cbn. destruct Hpok as (_ & _ & ?). apply andb_true_iff. split; [done|].
    change (PacketType_eqb Publish Publish) with true. cbv iota. lia.
  - cbn [peek_total_bytes peek_hdr fh_remaining_length peek_header_bytes]. split; [done|].
    rewrite zdrop_wire_header by done. by apply decode_publish_wire.
Qed.

(** C32: every PUBLISH the decoder accepts is canonical: encoding the message
    it yields gives back the bytes that were received. *)
Theorem publish_canonical inp p m out :
  bytes_ok inp -> peek_header inp = Val p -> fh_type (peek_hdr p) = Publish ->
  peek_total_bytes p <= zlen inp ->
  decode_publish (peek_hdr p)
    (ztake (fh_remaining_length (peek_hdr p)) (zdrop (peek_header_bytes p) inp)) = Val m ->
  zlen out = peek_total_bytes p ->
  encode_publish out (msg_topic m) (msg_payload m) (msg_qos m) (msg_retain m) (msg_dup m) (msg_packet_id m) =
    (Val (peek_total_bytes p), ztake (peek_total_bytes p) inp).
Proof.
  intros Hok Hp Htype Htot Hd Hout.
  apply peek_header_sound in Hp as (Hvbi & Hhdr & Hhb & Htb & Hinp); [|done].
  set (hdr := peek_hdr p) in *. pose proof (vbi_size_range _ Hvbi) as Hvs. pose proof Hvbi as [Hrl0 _].
  set (body := ztake _ _) in Hd.
  assert (Hzb : zlen body = fh_remaining_length hdr) by (subst body; rewrite zlen_ztake; [done | rewrite zlen_zdrop; lia]).
  apply decode_publish_sound in Hd as (Hbody & Hne & Hf & Hqos & Hret & Hdup & Hid & H0' & H1');
    [|by apply bytes_ok_take, bytes_ok_drop].
  apply header_ok_qos in Hhdr as Hq. cbn [fh_qos] in Hq.
  pose proof (zlen_publish_body (msg_topic m) (msg_payload m) (fh_qos hdr) (msg_packet_id m)) as Hlen'.
  rewrite <- Hbody, Hzb in Hlen'. unfold vbi_ok, kMaxRemainingLength in Hvbi.
  assert (Hlen : zlen (msg_payload m) < 2 ^ 63) by lia.
  assert (Hpok : publish_ok (msg_topic m) (fh_qos hdr)) by (split_and!; [done | apply Hf.. | lia]).
  assert (Hvb : vbi_ok (zlen (publish_body (msg_topic m) (msg_payload m) (fh_qos hdr) (msg_packet_id m))))
    by (rewrite <- Hbody, Hzb; done).
  pose proof (publish_remaining_length_ok _ _ _ _ Hpok Hvb) as Erl.
  rewrite Hqos, Hret, Hdup.
  assert (Hd0 : fh_qos hdr = AtMostOnce -> fh_dup hdr = false) by (intros Hz; by apply H0').
  destruct (encode_publish_encodes _ _ _ (fh_retain hdr) (fh_dup hdr) (msg_packet_id m) _
    (proj1 Hq) Hid Hlen H1' Hd0 Erl out) as [Hfit _].
  rewrite <- Hbody in Hfit. rewrite zlen_wire_packet, Hzb in Hfit by (by rewrite Hzb).
  rewrite Hfit by lia. f_equal; [f_equal; lia|]. rewrite zdrop_all, app_nil_r by lia.
  rewrite Htb, Hinp at 1. unfold wire_packet. rewrite Hzb, app_comm_cons.
  replace (peek_header_bytes p) with (zlen (to_byte hdr :: vbi_wire (fh_remaining_length hdr))) at 1
    by (rewrite zlen_cons, zlen_vbi_wire by done; lia).
  rewrite ztake_app_add by done. by rewrite <- Htype.
Qed.

(** C36: [encode_connect] accepts exactly the options it can put in a packet: the
    strings valid and at most 65535 bytes long, the will's QoS at most 2, no
    password without a user name. For those it writes the CONNECT of MQTT 3.1.1,
    byte for byte, or reports [BufferTooSmall] when the span is too short; all
    others it refuses with [InvalidArgument], touching nothing. (The rules on the
    will's topic and the empty client identifier are [connect]'s.) *)
Theorem encode_connect_exact o :
  is_u16 (opt_keep_alive_s o) ->
  (connect_ok o /\
   encodes (fun out => encode_connect out o) (0x10 :: vbi_wire (zlen (connect_body o)) ++ connect_body o)) \/
  (~ connect_ok o /\ refuses (fun out => encode_connect out o) InvalidArgument).
Proof.
  intros Hka. destruct (connect_remaining_length o) as [rl|e] eqn:Erl.
  - left. split; [by apply connect_remaining_length_Val in Erl as [? _]|].
    by apply (encode_connect_encodes o rl).
  - right. split.
    + intros Hok. apply connect_remaining_length_ok in Hok as [rl Hrl]. congruence.
    + intros out. unfold encode_connect. rewrite Erl. by apply connect_remaining_length_Err in Erl as ->.
Qed.

(** The SUBSCRIBE packet: the size computed beforehand is the size of the
    packet, and the encoder writes that packet into any span that holds it. *)
Theorem encode_subscribe_exact id subs rl :
  id_ok id -> Forall (fun s => 0 <= ts_qos s) subs -> subscribe_remaining_length subs = Val rl ->
  Forall sub_ok subs /\ packet_size rl = zlen (subscribe_packet id subs) /\
  encodes (fun out => encode_subscribe out id subs) (subscribe_packet id subs).
Proof.
  intros Hid Hq Hrl. unfold id_ok in Hid.
  pose proof (encode_subscribe_encodes id subs rl ltac:(unfold is_u16; lia) ltac:(lia) Hq Hrl) as Henc.
  pose proof (subscribe_remaining_length_Val _ id _ Hrl) as (_ & Hall & -> & Hv).
  split_and!; [done | by apply packet_size_wire | done].
Qed.

(** [decode_suback] accepts exactly a non-zero identifier followed by one
    or more return codes, each a granted QoS or the failure code. *)
Theorem decode_suback_exact body id codes :
  bytes_ok body ->
  decode_suback body = Val (mkSubackView id codes) <->
  body = be16 id ++ codes /\ id_ok id /\ codes <> [] /\
  Forall (fun c => c <= 2 \/ c = kSubackFailure) codes.
Proof.
  intros Hok. split.
  - intros Hd. apply decode_suback_sound in Hd as (Hb & Hid & Hne & Hc & Hall); [|done].
    cbn [sv_packet_id sv_return_codes] in *. unfold id_ok, is_u16 in *.
    split_and!; try done; try lia. eapply Forall_impl; [|exact Hall]. cbn beta. intros c Hc'. lia.
  - intros (-> & Hid & Hne & Hall). unfold id_ok in Hid. apply bytes_ok_app in Hok as [Hbe _].
    unfold decode_suback, be16. cbn [app]. unfold be16 in Hbe. rewrite !bytes_ok_cons in Hbe.
    destruct Hbe as (Hhi & Hlo & _). rewrite id_of_bytes_be16, of_be16_be16 by (done || (unfold is_u16; lia)).
    rewrite (proj2 (Z.ltb_ge _ _)) by (destruct codes; [done|]; rewrite !zlen_cons; pose proof (zlen_nonneg codes); lia).
    rewrite (proj2 (Z.eqb_neq id 0)) by lia.
    replace (existsb _ codes) with false; [done|]. symmetry. apply not_true_iff_false.
    intros Hex. apply existsb_exists in Hex as (c & Hin & Hbad). rewrite Forall_forall in Hall.
    specialize (Hall c Hin). zbool. lia.
Qed.

(** Framing: a buffer that starts with a well-formed header announces
    exactly the size of the packet it belongs to; a prefix too short to tell
    has fewer than five bytes; anything else is malformed. *)
Theorem peek_header_framing inp :
  bytes_ok inp ->
  match peek_header inp with
  | Val p =>
      let h := peek_hdr p in
      peek_header_bytes p = zlen (to_byte h :: vbi_wire (fh_remaining_length h)) /\
      peek_total_bytes p = peek_header_bytes p + fh_remaining_length h /\
      peek_total_bytes p <= 268435460 /\
      inp = (to_byte h :: vbi_wire (fh_remaining_length h)) ++ zdrop (peek_header_bytes p) inp
  | Err Incomplete => zlen inp < 5
  | Err e => e = MalformedPacket
  end.
Proof.
  intros Hok. destruct (peek_header inp) as [p|e] eqn:Ep.
  - apply peek_header_sound in Ep as (Hv & _ & Hhb & Ht & Hi); [|done]. cbv zeta.
    pose proof (vbi_size_range _ Hv). pose proof Hv as [_ Hmax]. unfold kMaxRemainingLength in Hmax.
    rewrite zlen_cons, zlen_vbi_wire by done. split_and!; [done | done | lia | done].
  - destruct (peek_header_errors inp e Ep) as [-> | ->]; [|done]. by apply peek_header_incomplete.
Qed.
End packets.

(** ** The outbound queue *)

(** C30: the queue refines a bounded FIFO with a region to write in: whatever
    members are called with whatever sizes, in whatever order, and whatever is
    written to the span, every result is one that the specification [fifo_step]
    allows in that place. An oversized [commit] or [consume] takes what there is;
    [reserve] succeeds exactly if the bytes fit beside those queued, and moves
    none of them. *)
Theorem tx_queue_refines_fifo capacity ops :
  0 <= capacity -> Forall op_ok ops ->
  fifo_runs capacity ops (mkFifo [] (replicate (Z.to_nat capacity) 0)) (tx_runs capacity ops (tx_init capacity)).
Proof.
  intros Hc Hops. assert (Hwf : tx_wf capacity (tx_init capacity)) by (by apply tx_init_wf).
  replace (mkFifo [] _) with (tx_fifo capacity (tx_init capacity)).
  - revert Hwf. generalize (tx_init capacity) as q. induction Hops as [|op ops Hop Hops IH]; intros q Hwf; [constructor|].
    destruct (tx_do_simulates capacity op q Hop Hwf) as [Hwf' Hstep]. econstructor; [exact Hstep | by apply IH].
  - unfold tx_fifo. f_equal. unfold tx_write_span. cbn. rewrite Z.sub_0_r, zdrop_0. apply ztake_all. unfold zlen. rewrite length_replicate. lia.
Qed.

(** Reserve, write and commit, an oversized [commit] and [consume], a [reserve]
    that compacts. *)
Definition queue_calls : list TxOp :=
  [TxReserve 3; TxWrite [1; 2; 3]; TxCommit 3; TxConsume 2; TxReserve 3; TxWriteSpan; TxWrite [4; 5; 6]; TxCommit 9; TxPending; TxPeek;
   TxReserve 1; TxConsume 9; TxEmpty; TxCommit 9; TxPending; TxClear; TxPeek].

Lemma tx_queue_refines_fifo_witness :
  fifo_runs 4 queue_calls (mkFifo [] [0; 0; 0; 0])
    [TxBool true; TxVoid; TxVoid; TxVoid; TxBool true; TxBytes [2; 3; 0]; TxVoid; TxVoid; TxSize 4; TxBytes [3; 4; 5; 6];
     TxBool false; TxVoid; TxBool true; TxVoid; TxSize 4; TxVoid; TxBytes []].
Proof. exact (tx_queue_refines_fifo 4 queue_calls ltac:(lia) ltac:(repeat constructor; cbn; lia)). Defined.

(** ** The theorems at concrete packets *)
Section witnesses.
Import Bench.Target.

Lemma publish_roundtrip_witness :
  let out' := snd (encode_publish (replicate 16 0) [97; 47; 98] [1; 2] AtLeastOnce true false 7) in
  exists p, peek_header out' = Val p /\ peek_total_bytes p = 11 /\
    decode_publish (peek_hdr p)
      (ztake (fh_remaining_length (peek_hdr p)) (zdrop (peek_header_bytes p) out')) =
    Val (mkMessage [97; 47; 98] [1; 2] AtLeastOnce true false 7).
Proof.
  cbv zeta. apply (publish_roundtrip (replicate 16 0) [97; 47; 98] [1; 2] AtLeastOnce true false 7 11);
    [by_decide | by_decide | by_decide | vm_compute; reflexivity | unfold AtLeastOnce; lia
    | unfold is_u16; lia | vm_compute; reflexivity].
Defined.

Lemma publish_canonical_witness :
  encode_publish (replicate 7 0) [97] [5; 6] AtMostOnce false false 0 =
    (Val 7, ztake 7 [0x30; 5; 0; 1; 97; 5; 6; 0xC0; 0]).
Proof.
  apply (publish_canonical [0x30; 5; 0; 1; 97; 5; 6; 0xC0; 0]
    (mkPacketPeek (mkFixedHeader Publish false AtMostOnce false 5) 2 7)
    (mkMessage [97] [5; 6] AtMostOnce false false 0) (replicate 7 0));
    [by_decide | vm_compute; reflexivity | reflexivity | vm_compute; discriminate
    | vm_compute; reflexivity | reflexivity].
Defined.

Lemma encode_connect_exact_witness :
  let o := mkConnectOptions [99] [117] [] (mkWill [119] [1] 1 true) 60 true in
  connect_ok o /\ encode_connect (replicate 30 0) o =
    (Val 24, [0x10; 22; 0; 4; 77; 81; 84; 84; 4; 174; 0; 60; 0; 1; 99; 0; 1; 119; 0; 1; 1; 0; 1; 117] ++ replicate 6 0).
Proof.
  cbv zeta. destruct (encode_connect_exact (mkConnectOptions [99] [117] [] (mkWill [119] [1] 1 true) 60 true)) as [[Hok Henc]|[Hno _]];
    [unfold is_u16; cbn; lia | |].
  - split; [exact Hok|]. exact (proj1 (Henc (replicate 30 0)) ltac:(by vm_compute)).
  - exfalso. apply Hno. by_decide.
Defined.

Lemma encode_subscribe_exact_witness :
  let subs := [mkTopicSubscription [97; 47; 35] 1; mkTopicSubscription [98] 2] in
  Forall sub_ok subs /\ packet_size 12 = zlen (subscribe_packet 9 subs) /\
  encodes (fun out => encode_subscribe out 9 subs) (subscribe_packet 9 subs).
Proof.
  cbv zeta. apply (encode_subscribe_exact 9); [unfold id_ok; lia | by_decide | vm_compute; reflexivity].
Defined.

Lemma decode_suback_exact_witness :
  decode_suback [0; 9; 1; 0x80] = Val (mkSubackView 9 [1; 0x80]) <->
  [0; 9; 1; 0x80] = be16 9 ++ [1; 0x80] /\ id_ok 9 /\ [1; 0x80] <> [] /\
  Forall (fun c => c <= 2 \/ c = kSubackFailure) [1; 0x80].
Proof. apply (decode_suback_exact [0; 9; 1; 0x80]). by_decide. Defined.

Lemma peek_header_framing_witness :
  match peek_header [0x30; 5; 0; 1; 97] with
  | Val p =>
      let h := peek_hdr p in
      peek_header_bytes p = zlen (to_byte h :: vbi_wire (fh_remaining_length h)) /\
      peek_total_bytes p = peek_header_bytes p + fh_remaining_length h /\
      peek_total_bytes p <= 268435460 /\
      [0x30; 5; 0; 1; 97] =
        (to_byte h :: vbi_wire (fh_remaining_length h)) ++ zdrop (peek_header_bytes p) [0x30; 5; 0; 1; 97]
  | Err Incomplete => zlen [0x30; 5; 0; 1; 97] < 5
  | Err e => e = MalformedPacket
  end.
Proof. apply (peek_header_framing [0x30; 5; 0; 1; 97]). by_decide. Defined.
End witnesses.
