(* ===== verification/ClientProps.v ===== *)
(** * ClientProps: what the client guarantees *)
From S2P Require Import Prelude Errors Packet PacketFacts Utf8 Topic Etl Codec CodecFacts TxQueue.
From S2P Require Import Config Transport ClientState ClientTables Effects Client Application.
From S2P Require Import ClientInv ClientQueue ClientSpecs SubscribeSpecs ReceiveSpecs StepSpecs.
From S2P Require Import AppSpecs Bench Scenarios.
#[local] Open Scope client_scope.

Section client.
Context {Cfg : Config} {COK : ConfigOk Cfg} {CS : ConfigSane Cfg}.
Context `{WS : WideSizeT} `{BWO : ByteStreamWriterOk} `{BRO : ByteStreamReaderOk}.
Context {E : Type} {T : Transport E} {CK : Clock E} {TOK : TransportOk E}.
Implicit Types (c : Client) (e : E) (h : list Event).

(** ** Whole-client invariants *)

(** C1: whatever an application and its handlers call, in whatever order and
    nesting, and whatever the transport delivers, the client object stays
    well-formed: indices and table sizes within their capacities, packet
    identifiers of all outstanding exchanges distinct and non-zero, each
    stored packet whole and of the kind its phase says, subscription entries
    valid and distinct. *)
Theorem client_invariant (app : Callback -> Handler E) s :
  app_ok app -> reachable app s -> client_ok (cl s).
Proof. intros Happ Hr. by apply (reachable_sys_ok app s Happ Hr). Qed.

(** C2: on every connection, the bytes accepted by the transport and those
    still queued spell a well-formed CONNECT followed by whole well-formed
    packets of the session, none of them a second CONNECT. *)
Theorem connection_stream (app : Callback -> Handler E) s :
  app_ok app -> reachable app s ->
  state_ (cl s) <> Idle -> state_ (cl s) <> Connecting ->
  exists o pkts, connect_wf o /\ Forall session_packet pkts /\
    sent_since_open (history s) ++ tx_peek (tx_ (cl s)) = connect_packet o ++ concat pkts.
Proof.
  intros Happ Hr Hi Hc. destruct (reachable_sys_ok app s Happ Hr) as [_ Hs].
  unfold stream_ok in Hs. by destruct (state_ (cl s)).
Qed.

(** C3: every call of the public interface returns, whatever the handlers do
    and whatever the peer sends, as long as the handler for the end of a
    session does not itself end a session or pump; callbacks nest at most two
    deep. *)
Theorem calls_return (app : Callback -> Handler E) s call depth :
  app_ok app -> calm app -> reachable app s -> call_ok call -> (2 <= depth)%nat ->
  exists r s', Application.call app depth call s = Some (r, s').
Proof.
  intros Happ Hcalm Hr Hc Hd. destruct depth as [|[|depth]]; [lia | lia |].
  pose proof (call_returns app depth call s Happ Hcalm Hc (reachable_sys_ok app s Happ Hr)) as Hk.
  apply wp_returns in Hk as (r & s' & Hrun & _). by exists r, s'.
Qed.

(** ** Outbound messages *)

(** C4: [publish] is all or nothing. On success the whole PUBLISH is queued
    behind what was waiting, and for QoS 1 and 2 exactly one identifier, free
    before, is taken and reported. On any error nothing is queued, no
    identifier is taken and none is reported. *)
Theorem publish_all_or_nothing topic payload qos retain c e h :
  sys_ok (mkSys c e h) -> 0 <= qos -> zlen payload < 2 ^ 63 ->
  returns (publish topic payload qos retain) (mkSys c e h) (fun res s =>
    history s = h /\
    match fst res with
    | Ok => exists id, snd res = (if qos =? AtMostOnce then None else Some id) /\
        tx_peek (tx_ (cl s)) = tx_peek (tx_ c) ++ publish_packet false qos retain topic payload id /\
        if qos =? AtMostOnce then ids_in_use (cl s) = ids_in_use c
        else id_ok id /\ id ∉ ids_in_use c /\ ids_in_use (cl s) ≡ₚ id :: ids_in_use c
    | _ => snd res = None /\ tx_peek (tx_ (cl s)) = tx_peek (tx_ c) /\ ids_in_use (cl s) ≡ₚ ids_in_use c
    end).
Proof.
  intros Hok Hq Hp. apply wp_returns. eapply wp_mono; [by apply publish_spec|]. by intros res s [_ ?].
Qed.

(** The space an acknowledgement needs is free. *)
Definition ack_fits (c : Client) : bool := zlen (tx_peek (tx_ c)) + 4 <=? tx_buffer_size.

Lemma send_ack_run type id c e h :
  is_ack_type type = true -> id_ok id -> tx_wf tx_buffer_size (tx_ c) ->
  exists q r, send_ack type id (mkSys c e h) = Some (r, mkSys (c <| tx_ := q |>) e h) /\
    if ack_fits c then r = Ok /\ tx_repr tx_buffer_size q (tx_peek (tx_ c) ++ ack_packet type id)
    else r <> Ok /\ tx_repr tx_buffer_size q (tx_peek (tx_ c)).
Proof.
  intros Ht Hid Htx. pose proof Hid as Hid'. unfold id_ok in Hid'.
  enough (Hr : returns (send_ack type id) (mkSys c e h) (fun r s => exists q, s = mkSys (c <| tx_ := q |>) e h /\
    if ack_fits c then r = Ok /\ tx_repr tx_buffer_size q (tx_peek (tx_ c) ++ ack_packet type id)
    else r <> Ok /\ tx_repr tx_buffer_size q (tx_peek (tx_ c)))).
  { destruct Hr as (r & s & Hrun & q & -> & Hq). by exists q, r. }
  apply wp_returns. unfold send_ack, ack_fits.
  eapply wp_enqueue_sized; [done | | apply (packet_size_ack type id) | |].
  - apply encode_ack_encodes; [done | unfold is_u16; lia | lia].
  - intros q Hq Hfit. exists q. rewrite zlen_ack_packet in Hfit. by rewrite (proj2 (Z.leb_le _ _) Hfit).
  - intros q r Hq Hr Hfull. exists q. rewrite zlen_ack_packet in Hfull.
    rewrite (proj2 (Z.leb_gt _ _) Hfull). split; [done|]. split; [by destruct Hr as [-> | ->] | done].
Qed.

Lemma remove_first_gone id l : NoDup l -> existsb (fun v => v =? id) (remove_first id l) = false.
Proof.
  induction 1 as [|v l Hv Hl IH]; [done|]. cbn [remove_first]. destruct (v =? id) eqn:Ev.
  - zbool. subst. apply not_true_iff_false. intros Hex. apply existsb_exists in Hex as (w & Hw & Heq). zbool.
    subst. apply Hv. by apply list_elem_of_In.
  - cbn [existsb]. by rewrite Ev.
Qed.

Lemma remove_first_other id v l : v <> id ->
  existsb (fun w => w =? v) (remove_first id l) = existsb (fun w => w =? v) l.
Proof.
  intros Hv. induction l as [|w l IH]; [done|]. cbn [remove_first existsb]. destruct (w =? id) eqn:Ew.
  - zbool. subst. by rewrite (proj2 (Z.eqb_neq id v)) by congruence.
  - cbn [existsb]. by rewrite IH.
Qed.

(** ** Inbound messages *)
Section inbound.
Context (callback : Callback -> M E unit) (hdr : FixedHeader) (body : list Z) (m : Message).
Context (c : Client) (e : E) (h : list Event).
Context (Hok : sys_ok (mkSys c e h)) (Hbody : bytes_ok body) (Hconn : state_ c = Connected).
Context (Hdec : decode_publish hdr body = Val m).

Lemma inbound_id : msg_qos m <> AtMostOnce -> id_ok (msg_packet_id m).
Proof.
  intros Hq. apply decode_publish_sound in Hdec as (_ & _ & _ & Hqos & _ & _ & Hid & _ & H1'); [|done].
  rewrite Hqos in Hq. specialize (H1' Hq). unfold id_ok, is_u16 in *. lia.
Qed.

Lemma handle_publish_run :
  handle_publish callback hdr body (mkSys c e h) =
  (if msg_qos m =? AtMostOnce then dispatch callback m;;; ret Ok
   else if msg_qos m =? AtLeastOnce then
     r <- send_ack Puback (msg_packet_id m);;
     if negb (Error_eqb r Ok) then count_backpressure;;; ret Ok else dispatch callback m;;; ret Ok
   else if msg_qos m =? ExactlyOnce then
     if inbound_contains (msg_packet_id m) c then
       r <- send_ack Pubrec (msg_packet_id m);;
       (if negb (Error_eqb r Ok) then count_backpressure else ret tt);;; ret Ok
     else if inbound_table_full c then
       modify (fun c => c <| inbound_overflow_count_ ::= fun n => u32 (n + 1) |>);;; ret Ok
     else
       r <- send_ack Pubrec (msg_packet_id m);;
       if negb (Error_eqb r Ok) then count_backpressure;;; ret Ok
       else
         modify (fun c => c <| inbound_ids_ ::= fun l => l ++ [msg_packet_id m] |>);;;
         dispatch callback m;;; ret Ok
   else ret ProtocolViolation) (mkSys c e h).
Proof. unfold handle_publish. unfold bind at 1. cbn [get]. unfold get. cbn [cl]. by rewrite Hconn, Hdec. Qed.

(** Exactly-once, the repeat: a QoS 2 PUBLISH whose identifier is still
    recorded is never handed to the application again; it is answered with
    PUBREC, or counted when there is no room for one. *)
Theorem qos2_repeat_not_delivered :
  msg_qos m = ExactlyOnce -> inbound_contains (msg_packet_id m) c = true ->
  returns (handle_publish callback hdr body) (mkSys c e h) (fun r s =>
    r = Ok /\ history s = h /\ inbound_ids_ (cl s) = inbound_ids_ c /\
    if ack_fits c then tx_peek (tx_ (cl s)) = tx_peek (tx_ c) ++ ack_packet Pubrec (msg_packet_id m)
    else tx_peek (tx_ (cl s)) = tx_peek (tx_ c) /\
         tx_backpressure_count_ (cl s) = u32 (tx_backpressure_count_ c + 1)).
Proof.
  intros Hq Hin. unfold returns. rewrite handle_publish_run, Hq. cbn [Z.eqb]. rewrite Hin.
  destruct (send_ack_run Pubrec (msg_packet_id m) c e h eq_refl ltac:(apply inbound_id; by rewrite Hq)
    (ok_tx c (proj1 Hok))) as (q & r & Hrun & Hr).
  cbn. rewrite (bind_run _ _ _ _ _ Hrun).
  destruct (ack_fits c); destruct Hr as [Hr [_ Hp]].
  - subst r. by eexists _, _.
  - destruct r; try done; by eexists _, _.
Qed.

(** C12: exactly-once, the first time: a new QoS 2 message reaches the
    application only after its PUBREC is queued and its identifier is
    recorded, and with both from then on; without room for either it is not
    delivered and nothing is recorded, so the broker's retransmission starts
    over. *)
Theorem qos2_first_delivery :
  msg_qos m = ExactlyOnce -> inbound_contains (msg_packet_id m) c = false ->
  if inbound_table_full c then
    returns (handle_publish callback hdr body) (mkSys c e h) (fun r s =>
      r = Ok /\ history s = h /\ inbound_ids_ (cl s) = inbound_ids_ c /\ tx_ (cl s) = tx_ c)
  else if ack_fits c then
    exists q, tx_repr tx_buffer_size q (tx_peek (tx_ c) ++ ack_packet Pubrec (msg_packet_id m)) /\
      handle_publish callback hdr body (mkSys c e h) =
      (dispatch callback m;;; ret Ok)
        (mkSys (c <| tx_ := q |> <| inbound_ids_ ::= fun l => l ++ [msg_packet_id m] |>) e h)
  else
    returns (handle_publish callback hdr body) (mkSys c e h) (fun r s =>
      r = Ok /\ history s = h /\ inbound_ids_ (cl s) = inbound_ids_ c /\
      tx_peek (tx_ (cl s)) = tx_peek (tx_ c)).
Proof.
  intros Hq Hin. unfold returns. rewrite handle_publish_run, Hq. cbn [Z.eqb]. rewrite Hin.
  destruct (inbound_table_full c); [by eexists _, _|].
  destruct (send_ack_run Pubrec (msg_packet_id m) c e h eq_refl ltac:(apply inbound_id; by rewrite Hq)
    (ok_tx c (proj1 Hok))) as (q & r & Hrun & Hr).
  destruct (ack_fits c); destruct Hr as [Hr Hp].
  - exists q. split; [done|]. subst r. cbn. by rewrite (bind_run _ _ _ _ _ Hrun).
  - cbn. rewrite (bind_run _ _ _ _ _ Hrun). destruct Hp as [_ Hp]. destruct r; try done; by eexists _, _.
Qed.

(** C13: at-least-once: a QoS 1 message reaches the application only after
    its PUBACK is queued; without room for the PUBACK it is not delivered,
    so the broker sends it again. *)
Theorem qos1_acked_before_delivery :
  msg_qos m = AtLeastOnce ->
  if ack_fits c then
    exists q, tx_repr tx_buffer_size q (tx_peek (tx_ c) ++ ack_packet Puback (msg_packet_id m)) /\
      handle_publish callback hdr body (mkSys c e h) =
      (dispatch callback m;;; ret Ok) (mkSys (c <| tx_ := q |>) e h)
  else
    returns (handle_publish callback hdr body) (mkSys c e h) (fun r s =>
      r = Ok /\ history s = h /\ tx_peek (tx_ (cl s)) = tx_peek (tx_ c)).
Proof.
  intros Hq. unfold returns. rewrite handle_publish_run, Hq. cbn [Z.eqb].
  destruct (send_ack_run Puback (msg_packet_id m) c e h eq_refl ltac:(apply inbound_id; by rewrite Hq)
    (ok_tx c (proj1 Hok))) as (q & r & Hrun & Hr).
  destruct (ack_fits c); destruct Hr as [Hr Hp].
  - exists q. split; [done|]. subst r. cbn. by rewrite (bind_run _ _ _ _ _ Hrun).
  - cbn. rewrite (bind_run _ _ _ _ _ Hrun). destruct Hp as [_ Hp]. destruct r; try done; by eexists _, _.
Qed.
End inbound.

(** C14: PUBREL ends an inbound exchange: PUBCOMP is queued and the identifier
    forgotten, or, without room, neither happens. *)
Theorem pubrel_completes id c e h :
  sys_ok (mkSys c e h) -> id_ok id ->
  returns (handle_pubrel (be16 id)) (mkSys c e h) (fun r s =>
    r = Ok /\ history s = h /\
    if ack_fits c then
      tx_peek (tx_ (cl s)) = tx_peek (tx_ c) ++ ack_packet Pubcomp id /\
      inbound_contains id (cl s) = false /\
      forall v, v <> id -> inbound_contains v (cl s) = inbound_contains v c
    else tx_peek (tx_ (cl s)) = tx_peek (tx_ c) /\ inbound_ids_ (cl s) = inbound_ids_ c).
Proof.
  intros Hok Hid. pose proof Hid as Hid'. unfold id_ok in Hid'.
  unfold handle_pubrel, returns. rewrite decode_packet_id_be16 by (unfold is_u16; lia).
  destruct (send_ack_run Pubcomp id c e h eq_refl Hid (ok_tx c (proj1 Hok))) as (q & r & Hrun & Hr).
  rewrite (bind_run _ _ _ _ _ Hrun). destruct (ack_fits c); destruct Hr as [Hr [_ Hp]].
  - subst r. eexists _, _. split; [reflexivity|]. split_and!; [done | done | done | |].
    + apply remove_first_gone. by destruct (ok_inbound c (proj1 Hok)) as [[? _] _].
    + intros v Hv. by apply remove_first_other.
  - destruct r; try done; by eexists _, _.
Qed.
End client.

Section witnesses.
Import Bench.Target.

Lemma client_invariant_witness :
  exists s, reachable passive s /\ state_ (cl s) = Connected /\ client_ok (cl s).
Proof.
  destruct (drive_decides passive session (fun s => state_ (cl s) = Connected)) as (s & Hr & Hs);
    [script_ok | vm_compute; reflexivity |].
  exists s. split; [exact Hr|]. split; [exact Hs|]. exact (client_invariant passive s passive_ok Hr).
Defined.

Lemma connection_stream_witness :
  exists s, reachable passive s /\ exists o pkts, connect_wf o /\ Forall session_packet pkts /\
    sent_since_open (history s) ++ tx_peek (tx_ (cl s)) = connect_packet o ++ concat pkts.
Proof.
  destruct (drive_decides passive in_flight (fun s => state_ (cl s) = Connected)) as (s & Hr & Hs);
    [script_ok | vm_compute; reflexivity |].
  exists s. split; [exact Hr|]. apply (connection_stream passive s passive_ok Hr); rewrite Hs; discriminate.
Defined.

Lemma calls_return_witness :
  exists s, reachable passive s /\ state_ (cl s) = Connected /\
    exists r s', Application.call passive 2 CallStep s = Some (r, s').
Proof.
  destruct (drive_decides passive session (fun s => state_ (cl s) = Connected)) as (s & Hr & Hs);
    [script_ok | vm_compute; reflexivity |].
  exists s. split; [exact Hr|]. split; [exact Hs|].
  apply (calls_return passive s CallStep 2 passive_ok passive_calm Hr); [exact I | lia].
Defined.

Lemma publish_all_or_nothing_witness :
  exists c (e : Link) h, state_ c = Connected /\
    exists res s, publish topic_t [1; 2] AtLeastOnce false (mkSys c e h) = Some (res, s) /\ history s = h.
Proof.
  use_scenario session (fun c => state_ c = Connected). split; [exact HQ|].
  destruct (publish_all_or_nothing topic_t [1; 2] AtLeastOnce false c e h Hok) as (res & s & Hrun & Hh & _);
    [by_decide | by_decide |]. exists res, s. split; [exact Hrun | exact Hh].
Defined.

(** A QoS 2 PUBLISH of "x" on topic "t" under identifier 9, and its repeat. *)
Definition qos2_header : FixedHeader := mkFixedHeader Publish false ExactlyOnce false 6.
Definition qos2_body : list Z := [0; 1; 116; 0; 9; 120].
Definition qos2_message : Message := mkMessage topic_t [120] ExactlyOnce false false 9.

Lemma qos2_repeat_not_delivered_witness :
  exists c (e : Link) h, state_ c = Connected /\
    exists r s, handle_publish (run_callback passive 2) qos2_header qos2_body (mkSys c e h) = Some (r, s) /\
      history s = h.
Proof.
  use_scenario (session ++ [arrives ([52; 6] ++ qos2_body); Does CallStep])
    (fun c => state_ c = Connected /\ inbound_contains 9 c = true).
  destruct HQ as [Hst Hin]. split; [exact Hst|].
  destruct (qos2_repeat_not_delivered (run_callback passive 2) qos2_header qos2_body qos2_message c e h Hok)
    as (r & s & Hrun & _ & Hh & _); [by_decide | exact Hst | vm_compute; reflexivity | reflexivity | exact Hin |].
  exists r, s. split; [exact Hrun | exact Hh].
Defined.

Lemma qos2_first_delivery_witness :
  exists c (e : Link) h q,
    handle_publish (run_callback passive 2) qos2_header qos2_body (mkSys c e h) =
    (dispatch (run_callback passive 2) qos2_message;;; ret Ok)
      (mkSys (c <| tx_ := q |> <| inbound_ids_ ::= fun l => l ++ [9] |>) e h).
Proof.
  use_scenario session (fun c => state_ c = Connected /\ inbound_contains 9 c = false /\
    inbound_table_full c = false /\ ack_fits c = true).
  destruct HQ as (Hst & Hin & Hfull & Hfit).
  pose proof (qos2_first_delivery (run_callback passive 2) qos2_header qos2_body qos2_message c e h Hok
    ltac:(by_decide) Hst ltac:(vm_compute; reflexivity) eq_refl Hin) as Hf.
  rewrite Hfull, Hfit in Hf. destruct Hf as (q & _ & Hrun). exists q. exact Hrun.
Defined.

Lemma qos1_acked_before_delivery_witness :
  exists c (e : Link) h q,
    handle_publish (run_callback passive 2) (mkFixedHeader Publish false AtLeastOnce false 6) qos2_body (mkSys c e h) =
    (dispatch (run_callback passive 2) (mkMessage topic_t [120] AtLeastOnce false false 9);;; ret Ok)
      (mkSys (c <| tx_ := q |>) e h).
Proof.
  use_scenario session (fun c => state_ c = Connected /\ ack_fits c = true). destruct HQ as (Hst & Hfit).
  pose proof (qos1_acked_before_delivery (run_callback passive 2) (mkFixedHeader Publish false AtLeastOnce false 6)
    qos2_body (mkMessage topic_t [120] AtLeastOnce false false 9) c e h Hok
    ltac:(by_decide) Hst ltac:(vm_compute; reflexivity) eq_refl) as Hf.
  rewrite Hfit in Hf. destruct Hf as (q & _ & Hrun). exists q. exact Hrun.
Defined.

Lemma pubrel_completes_witness :
  exists c (e : Link) h, inbound_contains 9 c = true /\
    exists r s, handle_pubrel (be16 9) (mkSys c e h) = Some (r, s) /\ inbound_contains 9 (cl s) = false.
Proof.
  use_scenario (session ++ [arrives ([52; 6] ++ qos2_body); Does CallStep])
    (fun c => inbound_contains 9 c = true /\ ack_fits c = true).
  destruct HQ as [Hin Hfit]. split; [exact Hin|].
  destruct (pubrel_completes 9 c e h Hok) as (r & s & Hrun & _ & _ & Hpost); [unfold id_ok; lia|].
  rewrite Hfit in Hpost. exists r, s. split; [exact Hrun | exact (proj1 (proj2 Hpost))].
Defined.
End witnesses.
