(* ===== verification/SessionProps.v ===== *)
(** * SessionProps: acknowledgements, timers and the ends of a session *)
From S2P Require Import Prelude Errors Packet PacketFacts Utf8 Topic Etl Codec CodecFacts TxQueue.
From S2P Require Import Config Transport ClientState ClientTables Effects Client Application.
From S2P Require Import ClientInv ClientQueue ClientSpecs SubscribeSpecs ReceiveSpecs StepSpecs.
From S2P Require Import SessionSpecs AppSpecs Bench Scenarios.
#[local] Open Scope client_scope.

Section session.
Context {Cfg : Config} {COK : ConfigOk Cfg} {CS : ConfigSane Cfg}.
Context `{WS : WideSizeT} `{BWO : ByteStreamWriterOk} `{BRO : ByteStreamReaderOk}.
Context {E : Type} {T : Transport E} {CK : Clock E} {TOK : TransportOk E}.
Implicit Types (c : Client) (e : E) (h : list Event).

(** What ends an exchange: PUBACK if a QoS 1 PUBLISH is stored for it, PUBCOMP
    if a PUBREL is. *)
Definition concludes (t : PacketType) (s : OutboundSlot) : Prop :=
  match t with
  | Puback => slot_phase s = WaitPuback /\ stores_publish AtLeastOnce s
  | Pubcomp => slot_phase s = WaitPubcomp /\ stored s = ack_packet Pubrel (slot_packet_id s)
  | _ => False
  end.

Lemma complete_delivery_other callback wait id c e h :
  is_u16 id -> id <> 0 -> (forall i, find_outbound id c = Some i -> slot_phase (slot_at c i) <> wait) ->
  complete_delivery callback wait (be16 id) (mkSys c e h) = Some (Ok, mkSys c e h).
Proof.
  intros Hid Hnz Hno. unfold complete_delivery. rewrite decode_packet_id_be16 by done. rewrite get_run.
  destruct (find_outbound id c) as [i|]; [|done]. specialize (Hno i eq_refl).
  unfold Phase_eqb. by rewrite bool_decide_false.
Qed.

Lemma complete_delivery_run callback wait id c e h i :
  is_u16 id -> id <> 0 -> find_outbound id c = Some i -> slot_phase (slot_at c i) = wait ->
  let c' := c <| outbound_ ::= alter release_slot i |> in
  complete_delivery callback wait (be16 id) (mkSys c e h) =
    (call_if callback (on_delivery_ c) (fun hd => CbDelivery hd id);;; ret Ok) (mkSys c' e h) /\
  ids_in_use c ≡ₚ id :: ids_in_use c'.
Proof.
  intros Hid Hnz Ef Ew. unfold complete_delivery. rewrite decode_packet_id_be16 by done. rewrite get_run. rewrite Ef, Ew.
  unfold Phase_eqb. rewrite bool_decide_true by done. split; [done|].
  apply find_outbound_Some in Ef as (s & Hs & Hat & Hb & <- & _). unfold ids_in_use. cbn.
  rewrite (alter_lookup_insert _ _ _ _ Hs).
  destruct (slot_ids_insert (outbound_ c) i s (release_slot s) Hs) as (rest & -> & ->).
  unfold slot_id at 1. by rewrite Hb.
Qed.

(** C15: the acknowledgement an outbound exchange waits for ends it, PUBACK at
    QoS 1 and PUBCOMP after the PUBREL of QoS 2: its slot is free and its
    identifier available by the time the application is told, once. A PUBACK or
    PUBCOMP for any other exchange, or for none, changes nothing. *)
Theorem delivery_completes callback hdr id c e h :
  sys_ok (mkSys c e h) -> id_ok id -> fh_type hdr = Puback \/ fh_type hdr = Pubcomp ->
  (exists i, find_outbound id c = Some i /\ concludes (fh_type hdr) (slot_at c i) /\
    let c' := c <| outbound_ ::= alter release_slot i |> in
    handle_packet callback hdr (be16 id) (mkSys c e h) =
      (call_if callback (on_delivery_ c) (fun hd => CbDelivery hd id);;; ret Ok) (mkSys c' e h) /\
    ids_in_use c ≡ₚ id :: ids_in_use c') \/
  (forall i, find_outbound id c = Some i -> ~ concludes (fh_type hdr) (slot_at c i)) /\
  handle_packet callback hdr (be16 id) (mkSys c e h) = Some (Ok, mkSys c e h).
Proof.
  intros Hok Hid Ht. unfold id_ok in Hid. assert (Hu : is_u16 id) by (unfold is_u16; lia). unfold handle_packet.
  set (wait := if PacketType_eqb (fh_type hdr) Puback then WaitPuback else WaitPubcomp).
  assert (Hcon : forall i, find_outbound id c = Some i -> concludes (fh_type hdr) (slot_at c i) <-> slot_phase (slot_at c i) = wait).
  { intros i Hi. apply find_outbound_Some in Hi as (s & Hs & -> & _).
    assert (Hslot : slot_ok s) by (eapply outbound_ok_lookup; [apply (ok_outbound c (proj1 Hok)) | done]).
    destruct Hslot as [_ Hslot]. subst wait. destruct Ht as [-> | ->]; cbn; (split; [tauto|]); intros Hp; rewrite Hp in Hslot; done. }
  assert (Hrun : match fh_type hdr with Puback => handle_puback callback (be16 id) | _ => handle_pubcomp callback (be16 id) end =
    complete_delivery callback wait (be16 id)) by (subst wait; by destruct Ht as [-> | ->]).
  destruct (find_outbound id c) as [i|] eqn:Ef.
  - destruct (decide (slot_phase (slot_at c i) = wait)) as [Hw|Hw].
    + left. exists i. split; [done|]. split; [by apply Hcon|].
      pose proof (complete_delivery_run callback wait id c e h i Hu ltac:(lia) Ef Hw). destruct Ht as [Ht|Ht]; rewrite Ht in Hrun |- *; by rewrite Hrun.
    + right. split; [intros ? [= <-]; by rewrite Hcon|].
      pose proof (complete_delivery_other callback wait id c e h Hu ltac:(lia)) as Ho. rewrite Ef in Ho.
      destruct Ht as [Ht|Ht]; rewrite Ht in Hrun |- *; rewrite Hrun; apply Ho; by intros ? [= <-].
  - right. split; [done|]. pose proof (complete_delivery_other callback wait id c e h Hu ltac:(lia)) as Ho. rewrite Ef in Ho.
    destruct Ht as [Ht|Ht]; rewrite Ht in Hrun |- *; rewrite Hrun; by apply Ho.
Qed.

(** C16: PUBREC moves a QoS 2 exchange on: the stored PUBLISH gives way to the
    PUBREL of the same identifier, which is queued if there is room, and the
    exchange now waits for PUBCOMP; it is still the same exchange. *)
Theorem pubrec_advances id c e h i s :
  sys_ok (mkSys c e h) -> state_ c <> Connecting -> id_ok id ->
  find_outbound id c = Some i -> outbound_ c !! i = Some s -> slot_phase s = WaitPubrec ->
  returns (handle_pubrec (be16 id)) (mkSys c e h) (fun r s' =>
    r = Ok /\ history s' = h /\ ids_in_use (cl s') ≡ₚ ids_in_use c /\
    (exists slot, outbound_ (cl s') !! i = Some slot /\ slot_phase slot = WaitPubcomp /\
       slot_packet_id slot = id /\ stored slot = ack_packet Pubrel id) /\
    tx_peek (tx_ (cl s')) = tx_peek (tx_ c) ++
      (if zlen (tx_peek (tx_ c)) + 4 <=? tx_buffer_size then ack_packet Pubrel id else [])).
Proof.
  intros Hok Hst Hid Hf Hs Hph. unfold id_ok in Hid. apply wp_returns.
  unfold handle_pubrec. rewrite decode_packet_id_be16 by (unfold is_u16; lia). wp_run. rewrite Hf.
  apply find_outbound_Some in Hf as (s0 & Hs0 & -> & Hb & Hsid & Hmax). rewrite Hs in Hs0. injection Hs0 as <-.
  rewrite Hph. pose proof (persist_room i Hmax) as Hroom.
  assert (Hslot : slot_ok s) by (eapply outbound_ok_lookup; [apply (ok_outbound c (proj1 Hok)) | done]).
  destruct (encode_ack_encodes Pubrel id eq_refl ltac:(unfold is_u16; lia) ltac:(lia) (slot_packet s)) as [Henc _].
  change (wire_packet Pubrel false AtMostOnce false (be16 id)) with (ack_packet Pubrel id) in Henc.
  rewrite zlen_ack_packet in Henc. rewrite Henc by (destruct Hslot as [-> _]; lia).
  wp_run. rewrite !outbound_alter_alter.
  destruct (pubrel_slot_ok s id Hslot Hsid ltac:(lia)) as [_ Hstored].
  set (s' := pubrel_slot (ack_packet Pubrel id ++ zdrop 4 (slot_packet s)) 4 s) in *.
  eapply wp_mono; [eapply (resend_slot_post i s'); [apply (ok_tx c (proj1 Hok)) | cbn; by rewrite list_lookup_alter_eq, Hs]|].
  intros [] sys (Hh & Hids & (slot & Hslot' & Hp & Hi & Hst') & Htx). wp_run.
  cbn in Hstored, Hp, Hi. change (stored s') with (stored s') in *. rewrite Hstored, Hsid in *.
  split_and!; [done | done | | by exists slot | by rewrite Htx, zlen_ack_packet].
  rewrite Hids. etrans; [eapply (ids_in_use_same _ i); [exact Hs|] | done].
  unfold slot_id in *. rewrite Hb. cbn. done.
Qed.

(** ** The end of a session *)
Lemma slot_ids_released l : slot_ids (release_slot <$> l) = [].
Proof. induction l as [|s l IH]; [done|]. rewrite fmap_cons, slot_ids_cons. exact IH. Qed.

(** C19: ending a session closes the transport, drops everything queued,
    received or awaited on the connection, and forgets the QoS 1 and 2
    exchanges of a clean session while keeping those of a persistent one; the
    subscriptions stay, all marked for renewal. The application is told once,
    after all of it, and only if there was a session to end. *)
Theorem shutdown_resets callback reason c e h :
  exists c', shutdown callback reason (mkSys c e h) =
    ((if State_eqb (state_ c) Idle then ret tt
      else call_if callback (on_disconnect_ c) (fun hd => CbDisconnect hd reason));;; ret reason)
      (mkSys c' (transport_close e) (h ++ [EvClose])) /\
    state_ c' = Idle /\ last_error_ c' = reason /\ tx_peek (tx_ c') = [] /\ rx_len_ c' = 0 /\
    pending_ c' = [] /\ ping_outstanding_ c' = false /\
    (if clean_session_ c then ids_in_use c' = [] /\ inbound_ids_ c' = []
     else outbound_ c' = outbound_ c /\ inbound_ids_ c' = inbound_ids_ c) /\
    subscriptions_ c' = (fun s => s <| sub_needs_resub := true |>) <$> subscriptions_ c.
Proof.
  unfold shutdown, bind, get. cbn [cl].
  destruct (clean_session_ c) eqn:Ecs, (State_eqb (state_ c) Idle) eqn:Est;
    (eexists; split; [reflexivity|]; split_and!; try done).
  all: change (slot_ids (release_slot <$> outbound_ c) ++ [] = []); by rewrite slot_ids_released.
Qed.

(** ** Keep-alive *)

(** C29: what [pump_keep_alive] does, in every case. With a keep-alive interval
    of 0, nothing. While a PINGREQ awaits its answer, nothing but to report
    [KeepAliveTimeout] exactly if the answer is overdue by more than the interval.
    Otherwise nothing until three quarters of the interval have gone by since the
    last packet; then a PINGREQ is queued and awaited from now on, or, if the queue
    has no room for its two bytes, nothing changes and the next call tries
    again. *)
Theorem keep_alive_watch c e h :
  sys_ok (mkSys c e h) ->
  let t := fst (now_ms e) in
  let interval := keep_alive_ms_ c in
  returns pump_keep_alive (mkSys c e h) (fun r s =>
    history s = h /\
    if interval =? 0 then r = Ok /\ cl s = c
    else if ping_outstanding_ c then
      cl s = c /\ r = if interval <? elapsed_ms t (ping_sent_ms_ c) then KeepAliveTimeout else Ok
    else
      r = Ok /\
      if elapsed_ms t (last_sent_ms_ c) <? interval - interval / 4 then cl s = c
      else if zlen (tx_peek (tx_ c)) + 2 <=? tx_buffer_size then
        exists q, tx_peek q = tx_peek (tx_ c) ++ [0xC0; 0] /\
          cl s = c <| tx_ := q |> <| ping_outstanding_ := true |> <| ping_sent_ms_ := t |>
      else exists q, tx_peek q = tx_peek (tx_ c) /\ cl s = c <| tx_ := q |>).
Proof.
  intros Hok t interval. apply wp_returns. unfold pump_keep_alive, now. wp_run. fold interval.
  destruct (interval =? 0); wp_run; [done|]. fold t.
  destruct (ping_outstanding_ c).
  - rewrite Z.gtb_ltb. case_if; by wp_run.
  - destruct (elapsed_ms t _ <? _); wp_run; [done|].
    eapply wp_enqueue_sized; [apply (ok_tx c (proj1 Hok)) | apply encode_empty_encodes; by left | apply packet_size_empty | |];
      change (wire_packet _ _ _ _ _) with [0xC0; 0]; change (zlen [0xC0; 0]) with 2.
    + intros q [_ Hq] Hfit. wp_run. rewrite (proj2 (Z.leb_le _ _) Hfit). split_and!; [done | done | by exists q].
    + intros q r [_ Hq] Hr Hfull. rewrite (proj2 (Z.leb_gt _ _) Hfull).
      destruct Hr as [-> | ->]; wp_run; (split_and!; [done | done | by exists q]).
Qed.

(** ** Dispatch *)

(** Handlers that leave the subscription table as it is while the session goes
    on. They may end the session, and then change what they like. *)
Definition keeps_table (callback : Callback -> M E unit) : Prop :=
  forall cb s s', callback cb s = Some (tt, s') -> state_ (cl s') = Connected ->
    subscriptions_ (cl s') = subscriptions_ (cl s).

(** The callbacks a message is due: one per entry with a handler whose filter
    matches, in table order, or the default handler if there is none. *)
Definition due (m : Message) (s : Subscription) : option Callback :=
  hd ← sub_handler s; if topic_matches (sub_filter s) (msg_topic m) then Some (CbMessage hd m) else None.

Definition deliveries (c : Client) (m : Message) : list Callback :=
  match omap (due m) (subscriptions_ c) with
  | [] => from_option (fun hd => [CbMessage hd m]) [] (on_message_ c)
  | l => l
  end.

(** Call one after the other, until one has ended the session: [false]. *)
Fixpoint until_ended (callback : Callback -> M E unit) (l : list Callback) : M E bool :=
  match l with
  | [] => ret true
  | cb :: l =>
      callback cb;;;
      c <- get;;
      if State_eqb (state_ c) Connected then until_ended callback l else ret false
  end.

Lemma dispatch_loop_run callback m l : keeps_table callback -> forall handled i s, drop i (subscriptions_ (cl s)) = l ->
  dispatch_loop callback (length l) i m handled s =
    (all <- until_ended callback (omap (due m) l);;
     ret (if (all : bool) then Some (handled || negb (empty (omap (due m) l))) else None)) s.
Proof.
  intros Hk. induction l as [|x l IH]; intros handled i s Hl; [cbn; by rewrite orb_false_r|].
  assert (Hi : subscriptions_ (cl s) !! i = Some x) by (by rewrite <- (Nat.add_0_r i), <- lookup_drop, Hl).
  assert (Hl' : drop (S i) (subscriptions_ (cl s)) = l) by (by rewrite <- Nat.add_1_r, <- drop_drop, Hl).
  cbn [length dispatch_loop]. unfold get, bind at 1. rewrite Hi.
  change (omap (due m) (x :: l)) with (match due m x with Some y => y :: omap (due m) l | None => omap (due m) l end).
  set (rest := omap (due m) l) in *. unfold due. destruct (sub_handler x) as [hd|]; cbn [mbind option_bind]; [|by apply IH].
  destruct (topic_matches _ _); [|by apply IH]. cbn [until_ended empty negb]. rewrite orb_true_r. unfold bind, get.
  destruct (callback (CbMessage hd m) s) as [[[] s']|] eqn:Ec; [|done].
  destruct (State_eqb (state_ (cl s')) Connected) eqn:Es; [|done]. cbn [negb].
  rewrite (IH true) by (by rewrite (Hk _ _ _ Ec) by (by apply bool_decide_eq_true in Es)). done.
Qed.

(** C28: a message reaches every subscription handler whose filter matches its
    topic, once per matching entry and in table order, until one of them ends the
    session; the default handler gets it exactly when no entry matches. This is
    for handlers that leave the subscription table alone while the session goes
    on: whatever else they do, [dispatch] is those calls and nothing more. *)
Theorem dispatch_exact callback m s :
  keeps_table callback ->
  dispatch callback m s = (until_ended callback (deliveries (cl s) m);;; ret tt) s.
Proof.
  intros Hk. unfold dispatch. unfold bind at 1, get at 1. unfold bind at 1.
  pose proof (dispatch_loop_run callback m (subscriptions_ (cl s)) Hk false 0 s (drop_0 _)) as Hl. rewrite Hl. unfold deliveries.
  destruct (omap (due m) (subscriptions_ (cl s))) as [|cb l] eqn:Ed.
  - unfold bind, get, call_if, ret. cbn. destruct (on_message_ (cl s)) as [hd|]; [|done]. cbn. unfold bind, get.
    destruct (callback (CbMessage hd m) s) as [[[] s']|]; [|done]. by destruct (State_eqb _ _).
  - unfold bind. destruct (until_ended callback (cb :: l) s) as [[[] s']|]; done.
Qed.

(** ** The start of a session *)

(** Options [connect] takes: a well-formed CONNECT, and the credentials within
    the configured lengths. *)
Definition connect_valid (o : ConnectOptions) : Prop :=
  connect_wf o /\ zlen (opt_client_id o) <= max_client_id_len /\
  zlen (opt_username o) <= max_username_len /\ zlen (opt_password o) <= max_password_len.

(** What [connect] does before it queues anything. *)
Definition starts_over (o : ConnectOptions) (c : Client) : Client :=
  session_of o (c <| tx_ ::= tx_clear |> <| rx_len_ := 0 |>).

Definition connect_started (o : ConnectOptions) (c c' : Client) : Prop :=
  state_ c' = Connecting /\ tx_peek (tx_ c') = connect_packet o /\ rx_len_ c' = 0 /\
  keep_alive_ms_ c' = opt_keep_alive_s o * 1000 /\
  if opt_clean_session o then ids_in_use c' = [] /\ inbound_ids_ c' = []
  else ids_in_use c' = ids_in_use c /\ inbound_ids_ c' = inbound_ids_ c.

Definition connect_post (o : ConnectOptions) (c : Client) (h : list Event) (r : Error) (s : Sys E) : Prop :=
  history s = h /\
  ((r = AlreadyConnected /\ state_ c <> Idle /\ cl s = c) \/
   (r = InvalidArgument /\ state_ c = Idle /\ ~ connect_valid o /\ cl s = c) \/
   (r = BufferTooSmall /\ state_ c = Idle /\ connect_valid o /\ tx_buffer_size < zlen (connect_packet o) /\ cl s = starts_over o c) \/
   (r = Ok /\ state_ c = Idle /\ connect_valid o /\ zlen (connect_packet o) <= tx_buffer_size /\ connect_started o c (cl s))).

Lemma connect_refuses o c e h :
  state_ c = Idle -> ~ connect_valid o -> connect_post o c h InvalidArgument (mkSys c e h).
Proof. intros Hst Hno. split; [done|]. right. by left. Qed.

Lemma connect_queues o rl c e h :
  is_u16 (opt_keep_alive_s o) -> sys_ok (mkSys c e h) -> state_ c = Idle ->
  connect_remaining_length o = Val rl -> connect_valid o ->
  wp False (connect_start o rl) (connect_post o c h) (mkSys c e h).
Proof.
  intros Hka Hok Hst Erl Hacc. pose proof (encode_connect_encodes o rl Hka Erl) as Henc.
  apply connect_remaining_length_Val in Erl as (Hopts & -> & Hvbi).
  pose proof (tx_clear_wf _ _ (ok_tx c (proj1 Hok))) as Hclear.
  unfold connect_start. wp_run. apply (wp_mono _ _ (fun _ s => s = mkSys (starts_over o c) e h)).
  { unfold starts_over, session_of. by destruct (opt_clean_session o); wp_run. }
  intros _ _ ->. assert (Htx : tx_ (starts_over o c) = tx_clear (tx_ c)) by (unfold starts_over, session_of; by case_if).
  wp_run. rewrite packet_size_wire with (type := Connect) (dup := false) (qos := AtMostOnce) (retain := false) by done. fold (connect_packet o).
  destruct (zlen (connect_packet o) >? tx_buffer_size) eqn:Eb; zbool.
  { unfold enqueue_sized. rewrite (proj2 (Z.gtb_lt _ _)) by lia. wp_run. split; [done|]. right. right. left. by split_and!. }
  eapply wp_enqueue_sized; [by rewrite Htx | exact Henc | done | |]; rewrite Htx.
  - intros q [_ Hq'] _. wp_run. unfold connect_post, is_u16 in *. cbn. split; [done|]. right. right. right.
    rewrite u32_small by (unfold is_u32; lia). split_and!; try done. unfold connect_started, starts_over, session_of.
    destruct (opt_clean_session o); split_and!; try done.
    change (slot_ids (release_slot <$> outbound_ c) ++ [] = []). by rewrite slot_ids_released.
  - intros q r _ _ Hfull. change (zlen (tx_peek (tx_clear _))) with 0 in Hfull. fold (connect_packet o) in Hfull. lia.
Qed.

(** C18: what [connect] returns and does, in every case. Unless the client is
    idle it returns [AlreadyConnected], and for options that are not well-formed or
    exceed the configured lengths [InvalidArgument]; then nothing at all has
    changed. For a CONNECT larger than the queue it returns [BufferTooSmall], and
    stays idle, but what was queued and received is gone by then, and so are the
    exchanges if a clean session was asked for. Otherwise it succeeds: the
    CONNECT is the only thing queued, the receive buffer is empty, and a clean
    session starts with no exchange outstanding while a persistent one keeps its
    own. *)
Theorem connect_outcome opts c e h :
  is_u16 (opt_keep_alive_s opts) -> sys_ok (mkSys c e h) ->
  returns (connect opts) (mkSys c e h) (fun r s => connect_post opts c h r s).
Proof.
  intros Hka Hok. apply wp_returns. unfold connect. wp_run.
  destruct (State_eqb (state_ c) Idle) eqn:Es; cbn [negb]; [apply bool_decide_eq_true in Es |
    apply bool_decide_eq_false in Es; wp_run; split; [done | by left]].
  do 3 (case_if; [wp_run; apply connect_refuses; [done|]; intros (_ & ? & ? & ?); zbool; lia|]).
  destruct (will_valid (opt_will opts) && _) eqn:Ew.
  { wp_run. apply connect_refuses; [done|]. intros [(_ & _ & _ & Hw & _) _].
    apply andb_true_iff in Ew as [Hv Hn]. by rewrite (Hw Hv) in Hn. }
  destruct (empty (opt_client_id opts) && _) eqn:Ec.
  { wp_run. apply connect_refuses; [done|]. intros [(_ & _ & _ & _ & Hcs) _].
    apply andb_true_iff in Ec as [Hv Hn]. apply empty_true in Hv. by rewrite (Hcs Hv) in Hn. }
  destruct (connect_remaining_length opts) as [rl|er] eqn:Erl.
  - apply connect_queues; try done.
    apply connect_remaining_length_Val in Erl as (Hopts & -> & Hvbi).
    split; [|zbool; split_and!; try lia]. split_and!; try done.
    + intros Hw. rewrite Hw in Ew. by apply negb_false_iff.
    + intros Hn. rewrite Hn in Ec. by apply negb_false_iff.
  - wp_run. rewrite (connect_remaining_length_Err _ _ Erl). apply connect_refuses; [done|].
    intros [(Hopts & _) _]. destruct (connect_remaining_length_ok _ Hopts) as [rl Hrl]. congruence.
Qed.

(** ** Retransmission *)

(** C17: the retransmission that follows a reconnection resends every
    outstanding exchange, in slot order, when they fit the queue together: its
    PUBLISH marked as a duplicate or its PUBREL. No exchange ends or changes
    phase, and the retransmission is not repeated. *)
Theorem retransmit_all c e h :
  sys_ok (mkSys c e h) -> retransmit_now_ c = true ->
  zlen (tx_peek (tx_ c)) + zlen (resends c 0 (Z.to_nat max_inflight_out)) <= tx_buffer_size ->
  Forall (fun s => resend_of s (resend s)) (outbound_ c) /\
  returns pump_retransmit (mkSys c e h) (fun _ s =>
    history s = h /\ retransmit_now_ (cl s) = false /\
    tx_peek (tx_ (cl s)) = tx_peek (tx_ c) ++ resends c 0 (Z.to_nat max_inflight_out) /\
    slot_phase <$> outbound_ (cl s) = slot_phase <$> outbound_ c /\
    slot_packet_id <$> outbound_ (cl s) = slot_packet_id <$> outbound_ c).
Proof.
  intros Hok Hnow Hfit. split.
  { eapply Forall_impl; [exact resend_ok|]. by destruct (ok_outbound c (proj1 Hok)) as (_ & ? & _). }
  apply wp_returns. unfold pump_retransmit, now. wp_run. rewrite Hnow. cbn [negb]. rewrite andb_false_r. wp_run.
  set (c1 := c <| retransmit_now_ := false |>).
  eapply wp_mono; [apply (retransmit_loop_forced _ _ _ c1); [apply (ok_tx c (proj1 Hok)) | exact Hfit]|].
  intros _ s' (q & -> & _ & Htx). split_and!; [done | done | exact Htx | apply slot_phase_resent | apply slot_id_resent].
Qed.
End session.

Section witnesses.
Import Bench.Target.

Lemma delivery_completes_witness :
  exists c (e : Link) h, ids_in_use c = [1; 2] /\
    handle_packet (run_callback passive 2) (mkFixedHeader Puback false AtMostOnce false 2) (be16 1) (mkSys c e h) =
      (call_if (run_callback passive 2) (on_delivery_ c) (fun hd => CbDelivery hd 1);;; ret Ok)
        (mkSys (c <| outbound_ ::= alter release_slot 0%nat |>) e h).
Proof.
  use_scenario in_flight (fun c => ids_in_use c = [1; 2] /\ find_outbound 1 c = Some 0%nat /\
    Phase_eqb (slot_phase (slot_at c 0)) WaitPuback = true).
  destruct HQ as (Hids & Hf & Hp). split; [exact Hids|].
  destruct (delivery_completes (run_callback passive 2) (mkFixedHeader Puback false AtMostOnce false 2) 1 c e h Hok)
    as [(i & Hi & _ & Hrun & _)|[Hno _]]; [unfold id_ok; lia | by left | |].
  - assert (i = 0%nat) as -> by congruence. exact Hrun.
  - exfalso. apply (Hno 0%nat Hf). apply find_outbound_Some in Hf as (s & Hs & Hat & _). apply bool_decide_eq_true in Hp.
    rewrite Hat in Hp |- *. assert (Hslot : slot_ok s) by (eapply outbound_ok_lookup; [apply (ok_outbound c (proj1 Hok)) | done]).
    destruct Hslot as [_ Hslot]. rewrite Hp in Hslot. by split.
Defined.

Lemma pubrec_advances_witness :
  exists c (e : Link) h r s, handle_pubrec (be16 2) (mkSys c e h) = Some (r, s) /\
    ids_in_use (cl s) ≡ₚ ids_in_use c.
Proof.
  use_scenario in_flight (fun c => find_outbound 2 c = Some 1%nat /\ state_ c = Connected /\
    slot_phase <$> (outbound_ c !! 1%nat) = Some WaitPubrec).
  destruct HQ as (Hf & Hst & Hp). destruct (outbound_ c !! 1%nat) as [slot|] eqn:Hs; [|discriminate].
  injection Hp as Hp.
  destruct (pubrec_advances 2 c e h 1 slot Hok) as (r & s & Hrun & _ & _ & Hids & _);
    [rewrite Hst; discriminate | unfold id_ok; lia | exact Hf | exact Hs | exact Hp |].
  exists r, s. split; [exact Hrun | exact Hids].
Defined.

Lemma keep_alive_watch_witness :
  exists c (e : Link) h, keep_alive_ms_ c = 60000 /\
    exists s, pump_keep_alive (mkSys c e h) = Some (Ok, s) /\ history s = h.
Proof.
  use_scenario session (fun c => keep_alive_ms_ c = 60000 /\ ping_outstanding_ c = false).
  destruct HQ as (Hk & Hping). split; [exact Hk|].
  destruct (keep_alive_watch c e h Hok) as (r & s & Hrun & Hh & Hs). rewrite Hk, Hping in Hs.
  destruct Hs as [-> _]. exists s. split; [exact Hrun | exact Hh].
Defined.

(** An application whose message handlers end the session. *)
Definition quitter (cb : Callback) : Handler Link := match cb with CbMessage _ _ => Call CallAbort (fun _ => Done) | _ => Done end.

Lemma quitter_keeps : keeps_table (run_callback quitter 2).
Proof.
  intros cb [c e h] s' Hrun Hst. destruct cb; try (cbn in Hrun; injection Hrun as <-; reflexivity). exfalso. revert Hrun Hst.
  cbn. unfold abort, shutdown, bind, get. cbn. unfold bind, get. cbn. destruct (clean_session_ c), (State_eqb (state_ c) Idle); cbn;
    try (intros [= <-]; discriminate); destruct (on_disconnect_ c); cbn; intros [= <-]; discriminate.
Qed.

Lemma quitter_once m l c (e : Link) h : on_disconnect_ c = None ->
  exists s, until_ended (run_callback quitter 2) (CbMessage 3 m :: l) (mkSys c e h) = Some (false, s) /\
    history s = h ++ [EvCall (CbMessage 3 m); EvClose].
Proof.
  intros Hod. cbn. unfold abort, shutdown, bind, get. cbn. unfold bind, get. cbn. rewrite Hod.
  destruct (clean_session_ c), (State_eqb (state_ c) Idle); cbn;
    (eexists; split; [reflexivity | cbn; by rewrite <- app_assoc]).
Qed.

(** The message matches both entries, but the first handler ends the session. *)
Lemma dispatch_exact_witness :
  let m := mkMessage topic_t [120] AtMostOnce false false 0 in
  exists c (e : Link) h, deliveries c m = [CbMessage 3 m; CbMessage 3 m] /\
    exists s, dispatch (run_callback quitter 2) m (mkSys c e h) = Some (tt, s) /\ history s = h ++ [EvCall (CbMessage 3 m); EvClose].
Proof.
  intros m. use_scenario (session ++ [Does (CallSubscribe [mkTopicSubscription topic_t AtLeastOnce; mkTopicSubscription [35] AtLeastOnce] (Some 3))])
    (fun c => deliveries c m = [CbMessage 3 m; CbMessage 3 m] /\ on_disconnect_ c = None).
  destruct HQ as (Hd & Hod). split; [exact Hd|].
  destruct (quitter_once m [CbMessage 3 m] c e h Hod) as (s & Hrun & Hh). exists s. split; [|exact Hh].
  etransitivity; [exact (dispatch_exact (run_callback quitter 2) m (mkSys c e h) quitter_keeps)|].
  apply (f_equal (fun l => (until_ended (run_callback quitter 2) l;;; ret tt) (mkSys c e h))) in Hd.
  etransitivity; [exact Hd|]. exact (bind_run _ _ _ _ _ Hrun).
Defined.

Lemma connect_outcome_witness :
  exists r s, connect options_a (mkSys client_init link0 []) = Some (r, s) /\
    connect_post options_a client_init [] r s.
Proof. apply connect_outcome; [unfold is_u16; cbn; lia | apply client_init_ok]. Defined.

Lemma retransmit_all_witness :
  exists c (e : Link) h, ids_in_use c = [1; 2] /\
    exists r s, pump_retransmit (mkSys (c <| retransmit_now_ := true |>) e h) = Some (r, s) /\
      tx_peek (tx_ (cl s)) = tx_peek (tx_ c) ++ resends c 0 4.
Proof.
  use_scenario in_flight (fun c => ids_in_use c = [1; 2] /\
    zlen (tx_peek (tx_ c)) + zlen (resends c 0 (Z.to_nat max_inflight_out)) <= tx_buffer_size).
  destruct HQ as (Hids & Hfit). split; [exact Hids|].
  assert (Hok' : sys_ok (mkSys (c <| retransmit_now_ := true |>) e h)).
  { destruct Hok as [[] Hs]. split; [constructor; assumption | exact Hs]. }
  destruct (retransmit_all (c <| retransmit_now_ := true |>) e h Hok' eq_refl Hfit) as [_ (r & s & Hrun & _ & _ & Htx & _)].
  exists r, s. split; [exact Hrun | exact Htx].
Defined.
End witnesses.
