(* ===== verification/SubscribeProps.v ===== *)
(** * SubscribeProps: subscriptions, their acknowledgements and their renewal *)
From S2P Require Import Prelude Errors Packet PacketFacts Utf8 Topic TopicFacts Etl Codec.
From S2P Require Import CodecFacts TxQueue Config Transport ClientState ClientTables Effects.
From S2P Require Import Client Application ClientInv ClientQueue ClientSpecs SubscribeSpecs.
From S2P Require Import ReceiveSpecs StepSpecs AppSpecs Bench Scenarios.
#[local] Open Scope client_scope.

(** ** Edits of the table by entry identifier, as maps over the table *)
Section by_id.
Context {Cfg : Config} {COK : ConfigOk Cfg} {CS : ConfigSane Cfg}.
Implicit Types (l : list Subscription).

Lemma erase_sub_filter sid l :
  NoDup (sub_ids l) -> erase_sub sid l = omap (fun x => if sub_id x =? sid then None else Some x) l.
Proof.
  unfold sub_ids. induction l as [|x l IH]; cbn; intros Hn; [done|]. apply list.NoDup_cons in Hn as [Hx Hn].
  destruct (sub_id x =? sid) eqn:Ex; [|f_equal; by apply IH]. zbool. subst sid.
  clear IH Hn. induction l as [|y l IH]; [done|]. cbn in *. apply not_elem_of_cons in Hx as [Hxy Hx].
  rewrite (proj2 (Z.eqb_neq _ _)) by congruence. f_equal. by apply IH.
Qed.

Lemma find_alter_map sid f l :
  NoDup (sub_ids l) ->
  match find_index (fun x => sub_id x =? sid) (length l) l with
  | Some i => alter f i l
  | None => l
  end = omap (fun x => if sub_id x =? sid then Some (f x) else Some x) l.
Proof.
  unfold sub_ids. induction l as [|x l IH]; cbn; intros Hn; [done|]. apply list.NoDup_cons in Hn as [Hx Hn].
  specialize (IH Hn). destruct (sub_id x =? sid) eqn:Ex.
  - zbool. subst sid. cbn. f_equal. clear IH Hn. induction l as [|y l IH]; [done|]. cbn in *.
    apply not_elem_of_cons in Hx as [Hxy Hx]. rewrite (proj2 (Z.eqb_neq _ _)) by congruence. f_equal. by apply IH.
  - destruct (find_index _ _ l); cbn; by f_equal.
Qed.

Lemma omap_omap {A B C} (f : B -> option C) (g : A -> option B) (l : list A) :
  omap f (omap g l) = omap (fun x => g x ≫= f) l.
Proof. induction l as [|x l IH]; [done|]. cbn. destruct (g x); cbn; [|done]. destruct (f _); by f_equal. Qed.

Lemma omap_some {A} (l : list A) : omap Some l = l.
Proof. induction l as [|x l IH]; [done|]. cbn. by f_equal. Qed.

Lemma omap_if_fmap {A} (p : A -> bool) (f : A -> A) (l : list A) :
  omap (fun x => if p x then Some (f x) else Some x) l = (fun x => if p x then f x else x) <$> l.
Proof. induction l as [|x l IH]; [done|]. cbn. rewrite <- IH. by destruct (p x). Qed.

(** What the return codes say of one entry: [0x80] for its identifier drops
    it, any other code is its granted QoS. *)
Definition answer1 (p : Z * Z) (x : Subscription) : option Subscription :=
  if sub_id x =? snd p then
    if fst p =? kSubackFailure then None
    else Some (x <| sub_granted_qos := fst p |> <| sub_needs_resub := false |>)
  else Some x.

Fixpoint answer (ps : list (Z * Z)) (x : Subscription) : option Subscription :=
  match ps with
  | [] => Some x
  | p :: ps => x ← answer1 p x; answer ps x
  end.

Lemma apply_return_codes_answers codes sids (c : Client) :
  subscriptions_ok (subscriptions_ c) ->
  apply_return_codes codes sids c =
  c <| subscriptions_ := omap (answer (zip codes sids)) (subscriptions_ c) |>.
Proof.
  revert sids c; induction codes as [|rc codes IH]; intros [|sid sids] c Hok; cbn [apply_return_codes zip_with answer];
    try (rewrite omap_some; by destruct c).
  set (c1 := if rc =? kSubackFailure then _ else _).
  assert (Hc1 : c1 = c <| subscriptions_ := omap (answer1 (rc, sid)) (subscriptions_ c) |>).
  { destruct Hok as (_ & [Hn _] & _). subst c1. unfold answer1. cbn [fst snd]. case_if.
    - by rewrite <- erase_sub_filter.
    - rewrite <- find_alter_map by done. unfold find_by_sub_id, update_subscription.
      destruct (find_index _ _ _); [done | by destruct c]. }
  assert (Hok1 : subscriptions_ok (subscriptions_ c1)).
  { pose proof (apply_return_codes_edit [rc] [sid] c) as (l & Hl & Hkeep). cbn in Hl. fold c1 in Hl.
    rewrite Hl. by apply Hkeep. }
  rewrite (IH sids c1 Hok1). rewrite Hc1. cbn. by rewrite omap_omap.
Qed.

Definition named (sids : list Z) (x : Subscription) : bool := existsb (fun sid => sub_id x =? sid) sids.

Lemma erase_subscriptions_filter sids (c : Client) :
  subscriptions_ok (subscriptions_ c) ->
  erase_subscriptions sids c =
  c <| subscriptions_ := omap (fun x => if named sids x then None else Some x) (subscriptions_ c) |>.
Proof.
  revert c; induction sids as [|sid sids IH]; intros c Hok; cbn [erase_subscriptions].
  { cbn. rewrite omap_some. by destruct c. }
  pose proof Hok as (_ & [Hn _] & _). rewrite IH by by apply subscriptions_ok_erase.
  unfold erase_subscription. cbn. rewrite erase_sub_filter, omap_omap by done.
  unfold update_field. cbn. f_equal. apply list_omap_ext, Forall_Forall2_diag, Forall_true. intros x.
  unfold named. cbn [existsb]. by destruct (sub_id x =? sid).
Qed.

(** The renewal of a batch clears the mark of the entries it names. *)
Definition renewed (sids : list Z) (x : Subscription) : Subscription :=
  if named sids x then x <| sub_needs_resub := false |> else x.

Lemma clear_resub_map sids (c : Client) :
  subscriptions_ok (subscriptions_ c) ->
  clear_resub sids c =
  c <| subscriptions_ := renewed sids <$> subscriptions_ c |>.
Proof.
  revert c; induction sids as [|sid sids IH]; intros c Hok; cbn [clear_resub].
  { cbn. rewrite list_fmap_id. by destruct c. }
  set (c1 := match find_by_sub_id sid c with Some _ => _ | None => _ end).
  assert (Hc1 : subscriptions_ok (subscriptions_ c1) /\ c1 = c <| subscriptions_ :=
    (fun x => if sub_id x =? sid then x <| sub_needs_resub := false |> else x) <$> subscriptions_ c |>).
  { pose proof (clear_resub_edit [sid] c) as (l & Hl & Hkeep). cbn in Hl. fold c1 in Hl.
    split; [rewrite Hl; by apply Hkeep|]. pose proof Hok as (_ & [Hn _] & _).
    pose proof (find_alter_map sid (fun x => x <| sub_needs_resub := false |>) _ Hn) as Hf.
    rewrite omap_if_fmap in Hf. rewrite <- Hf. subst c1. unfold find_by_sub_id, update_subscription.
    destruct (find_index _ _ _); [done | by destruct c]. }
  destruct Hc1 as [Hok1 Hc1]. rewrite IH by done. rewrite Hc1. unfold update_field. cbn. f_equal.
  rewrite <- list_fmap_compose. apply list_fmap_ext. intros i x _. unfold renewed, named. cbn [existsb compose].
  destruct (sub_id x =? sid) eqn:Ex; cbn; rewrite ?Ex; [|done]. by destruct (existsb _ sids).
Qed.
End by_id.

Section subscriptions.
Context {Cfg : Config} {COK : ConfigOk Cfg} {CS : ConfigSane Cfg}.
Context `{WS : WideSizeT} `{BWO : ByteStreamWriterOk} `{BRO : ByteStreamReaderOk}.
Context {E : Type} {T : Transport E} {CK : Clock E} {TOK : TransportOk E}.
Implicit Types (c : Client) (e : E) (h : list Event).

(** C24: [subscribe] is all or nothing. On success the SUBSCRIBE is queued
    whole, its identifier is fresh, the acknowledgement awaited names one
    entry of the table per requested filter, and each of these has the filter,
    the handler and a requested QoS of the call; no existing entry is lost. On
    any error nothing is queued or awaited and the table is untouched. *)
Theorem subscribe_all_or_nothing subs handler c e h :
  Forall (fun s => bytes_ok (ts_filter s) /\ 0 <= ts_qos s) subs -> sys_ok (mkSys c e h) ->
  returns (subscribe subs handler) (mkSys c e h) (subscribe_post subs handler c h).
Proof.
  intros Hargs Hok. apply wp_returns. eapply wp_mono; [by apply subscribe_spec|]. by intros r s [].
Qed.

(** C25: [unsubscribe] is all or nothing, and removes nothing yet. On success the
    UNSUBSCRIBE is queued whole under a fresh identifier, and the acknowledgement
    awaited names the entries whose filters were named. On any error nothing is
    queued or awaited; the table is untouched in both cases. *)
Theorem unsubscribe_all_or_nothing filters c e h :
  sys_ok (mkSys c e h) ->
  returns (unsubscribe filters) (mkSys c e h) (unsubscribe_post filters c h).
Proof.
  intros Hok. apply wp_returns. eapply wp_mono; [by apply unsubscribe_spec|]. by intros r s [].
Qed.

Lemma remove_pending_delete i c : remove_pending i c = c <| pending_ ::= delete i |>.
Proof. unfold remove_pending, update_field. cbn. by rewrite delete_take_drop. Qed.

(** C26: a SUBACK is matched to its SUBSCRIBE and applied entry by entry, each
    code to the entry it answers wherever that entry is by then: failures
    remove it, grants are recorded. The exchange is over before the
    application is told. A SUBACK for no outstanding SUBSCRIBE is ignored, one
    with the wrong number of codes ends the session. *)
Theorem suback_applied callback body v c e h :
  sys_ok (mkSys c e h) -> decode_suback body = Val v ->
  match find_pending (sv_packet_id v) Suback c with
  | None => handle_suback callback body (mkSys c e h) = Some (Ok, mkSys c e h)
  | Some i =>
      let sids := ack_subs (ack_at c i) in
      if zlen (sv_return_codes v) =? zlen sids then
        handle_suback callback body (mkSys c e h) =
          (call_if callback (on_suback_ c) (fun hd => CbSuback hd (sv_packet_id v) (sv_return_codes v));;; ret Ok)
          (mkSys (c <| subscriptions_ ::= omap (answer (zip (sv_return_codes v) sids)) |>
                    <| pending_ ::= delete i |>) e h)
      else handle_suback callback body (mkSys c e h) = Some (ProtocolViolation, mkSys c e h)
  end.
Proof.
  intros Hok Hd. unfold handle_suback. rewrite Hd. rewrite get_run.
  destruct (find_pending _ _ c) as [i|]; [|done]. cbv zeta.
  destruct (_ =? _); cbn [negb]; [|done].
  rewrite !modify_run, get_run, remove_pending_delete.
  by rewrite apply_return_codes_answers by apply (ok_subscriptions c (proj1 Hok)).
Qed.

(** An UNSUBACK removes exactly the entries its UNSUBSCRIBE named, and ends
    the exchange; one for no outstanding UNSUBSCRIBE is ignored. *)
Theorem unsuback_applied id c e h :
  sys_ok (mkSys c e h) -> id_ok id ->
  handle_unsuback (be16 id) (mkSys c e h) =
    match find_pending id Unsuback c with
    | None => Some (Ok, mkSys c e h)
    | Some i => Some (Ok, mkSys
        (c <| subscriptions_ ::= omap (fun x => if named (ack_subs (ack_at c i)) x then None else Some x) |>
           <| pending_ ::= delete i |>) e h)
    end.
Proof.
  intros Hok Hid. unfold id_ok in Hid. unfold handle_unsuback.
  rewrite decode_packet_id_be16 by (unfold is_u16; lia). rewrite get_run.
  destruct (find_pending _ _ c) as [i|]; [|done]. rewrite !modify_run, remove_pending_delete.
  by rewrite erase_subscriptions_filter by apply (ok_subscriptions c (proj1 Hok)).
Qed.

(** ** Renewal *)
Lemma resub_batch_take room (l : list Subscription) :
  (0 < room)%nat -> resub_batch room l = take room (List.filter sub_needs_resub l).
Proof.
  revert room; induction l as [|x l IH]; intros room Hr; cbn [resub_batch List.filter]; [by rewrite take_nil|].
  destruct (sub_needs_resub x); [|by apply IH]. destruct room as [|[|room]]; [lia | done |].
  cbn [take]. f_equal. apply IH. lia.
Qed.

(** The entries the next renewal is for, and its request. *)
Definition renewal c : list Subscription :=
  take (Z.to_nat max_topics_per_request) (List.filter sub_needs_resub (subscriptions_ c)).

Definition requests (l : list Subscription) : list TopicSubscription :=
  (fun x => mkTopicSubscription (sub_filter x) (sub_requested_qos x)) <$> l.

Lemma renewed_other sid sids (l : list Subscription) :
  sid ∉ sub_ids l -> renewed (sid :: sids) <$> l = renewed sids <$> l.
Proof.
  intros Hs. apply list_fmap_ext. intros i x Hi. unfold renewed, named. cbn [existsb].
  rewrite (proj2 (Z.eqb_neq _ _)); [done|]. intros <-. apply Hs. by eapply list_elem_of_fmap_2, list_elem_of_lookup_2.
Qed.

Lemma renewal_rest n (l : list Subscription) :
  NoDup (sub_ids l) ->
  List.filter sub_needs_resub (renewed (sub_ids (take n (List.filter sub_needs_resub l))) <$> l) =
  drop n (List.filter sub_needs_resub l).
Proof.
  revert n. induction l as [|x l IH]; intros n Hn; [by destruct n|].
  apply list.NoDup_cons in Hn as [Hx Hn]. cbn [List.filter]. destruct (sub_needs_resub x) eqn:Ex.
  - destruct n as [|n].
    { change (sub_ids (take 0 _)) with (@nil Z). unfold renewed, named. cbn [existsb]. rewrite list_fmap_id.
      cbn. by rewrite Ex. }
    cbn [take drop sub_ids]. change (sub_ids (x :: ?k)) with (sub_id x :: sub_ids k).
    rewrite fmap_cons, renewed_other by done. unfold renewed at 1, named. cbn [existsb]. rewrite Z.eqb_refl. cbn.
    by apply IH.
  - rewrite fmap_cons. assert (Hr : forall sids, sub_needs_resub (renewed sids x) = false).
    { intros sids. unfold renewed. by destruct (named sids x). }
    cbn [List.filter]. rewrite Hr. by apply IH.
Qed.

Lemma requests_ok l : Forall entry_ok l -> Forall sub_ok (requests l).
Proof.
  intros Hl. apply Forall_fmap. eapply Forall_impl; [|exact Hl]. intros x (Hb & Hv & _ & Hq).
  rewrite is_valid_filter_levels in Hv by done. zbool.
  split_and!; [by apply empty_false | by split | cbn; lia].
Qed.

Lemma zlen_subscribe_packet id id' subs :
  vbi_ok (zlen (subscribe_body id subs)) -> zlen (subscribe_packet id subs) = zlen (subscribe_packet id' subs).
Proof.
  intros Hv. assert (Hz : zlen (subscribe_body id' subs) = zlen (subscribe_body id subs)).
  { unfold subscribe_body. by rewrite !zlen_app, !zlen_be16. }
  unfold subscribe_packet. rewrite !zlen_wire_packet by (by rewrite ?Hz). by rewrite Hz.
Qed.

(** When the next renewal is sent: there is a marked entry, the request can be
    tracked, an identifier is left, and the SUBSCRIBE is within the protocol's
    size and fits the queue beside what waits there. *)
Definition renewable c : Prop :=
  renewal c <> [] /\ ack_table_full c = false /\ (exists id, id_ok id /\ id ∉ ids_in_use c) /\
  vbi_ok (zlen (subscribe_body 0 (requests (renewal c)))) /\
  zlen (tx_peek (tx_ c)) + zlen (subscribe_packet 0 (requests (renewal c))) <= tx_buffer_size.

Definition renewal_sent c h (s : Sys E) : Prop :=
  history s = h /\
  List.filter sub_needs_resub (subscriptions_ (cl s)) =
    drop (Z.to_nat max_topics_per_request) (List.filter sub_needs_resub (subscriptions_ c)) /\
  keys (cl s) = keys c /\
  exists id t, id_ok id /\ id ∉ ids_in_use c /\
    tx_peek (tx_ (cl s)) = tx_peek (tx_ c) ++ subscribe_packet id (requests (renewal c)) /\
    pending_ (cl s) = pending_ c ++ [mkPendingAck (sub_ids (renewal c)) t id Suback].

Definition renewal_put_off c h (s : Sys E) : Prop :=
  history s = h /\ subscriptions_ (cl s) = subscriptions_ c /\ pending_ (cl s) = pending_ c /\
  tx_peek (tx_ (cl s)) = tx_peek (tx_ c).

(** The request of a renewal, and the identifier that goes with it. *)
Lemma renewal_encodes c e h id rl :
  sys_ok (mkSys c e h) -> id_ok id -> subscribe_remaining_length (requests (renewal c)) = Val rl ->
  encodes (fun out => encode_subscribe out id (requests (renewal c))) (subscribe_packet id (requests (renewal c))) /\
  packet_size rl = zlen (subscribe_packet id (requests (renewal c))) /\
  zlen (subscribe_packet id (requests (renewal c))) = zlen (subscribe_packet 0 (requests (renewal c))) /\
  vbi_ok (zlen (subscribe_body 0 (requests (renewal c)))).
Proof.
  intros Hok Hid Hrl. destruct (ok_subscriptions c (proj1 Hok)) as (_ & _ & _ & Hent).
  assert (Hbatch : resub_batch (Z.to_nat max_topics_per_request) (subscriptions_ c) = renewal c)
    by (apply resub_batch_take; pose proof config_facts; lia).
  pose proof (batch_args_ok (Z.to_nat max_topics_per_request) (subscriptions_ c) Hent) as [Hq Hf].
  rewrite Hbatch in Hq, Hf. fold (requests (renewal c)) in Hq, Hf.
  destruct (subscribe_packet_ok id _ _ Hid Hq Hf Hrl) as (_ & _ & Henc & Hps).
  destruct (subscribe_remaining_length_Val _ 0 _ Hrl) as (_ & _ & -> & Hv).
  split_and!; [done | done | by symmetry; apply zlen_subscribe_packet | done].
Qed.

Lemma pump_resubscribe_cases c e h :
  sys_ok (mkSys c e h) ->
  wp False pump_resubscribe (fun _ s => renewable c /\ renewal_sent c h s \/ ~ renewable c /\ renewal_put_off c h s) (mkSys c e h).
Proof.
  intros Hok. pose proof (ok_subscriptions c (proj1 Hok)) as Hsubs.
  assert (Hbatch : resub_batch (Z.to_nat max_topics_per_request) (subscriptions_ c) = renewal c)
    by (apply resub_batch_take; pose proof config_facts; lia).
  unfold pump_resubscribe. wp_run. rewrite Hbatch. fold (requests (renewal c)) (sub_ids (renewal c)).
  destruct (ack_table_full c) eqn:Efull; [wp_run; right; split; [by intros (_ & ? & _); congruence | done]|].
  destruct (empty (requests (renewal c))) eqn:Ene.
  { wp_run. right. split; [|done]. intros [Hne _]. apply Hne. apply empty_true in Ene. by destruct (renewal c). }
  apply empty_false in Ene. destruct (subscribe_remaining_length _) as [rl|er] eqn:Erl.
  2: { wp_run. right. split; [|done]. intros (_ & _ & _ & Hv & _).
    assert (Hb : Forall entry_ok (renewal c)).
    { rewrite <- Hbatch. eapply Forall_sublist; [apply resub_batch_sublist | apply Hsubs]. }
    by rewrite (subscribe_remaining_length_ok _ 0 Ene (requests_ok _ Hb) Hv) in Erl. }
  pose proof (alloc_packet_id_ok c e h Hok) as Halloc.
  pose proof (fun id => alloc_packet_id_none c id (ok_next_packet_id c (proj1 Hok))) as Hnone.
  destruct (alloc_packet_id c) as [id c1]. destruct Halloc as (_ & [n ->] & Hid). cbn [fst] in Hnone. wp_run.
  destruct (id =? 0) eqn:E0; zbool.
  { wp_run. right. split; [|done]. intros (_ & _ & (v & Hv & Hfree) & _). by apply Hfree, Hnone. }
  destruct (Hid E0) as [Hid1 Hfresh]. destruct (renewal_encodes c e h id rl Hok Hid1 Erl) as (Henc & Hps & Hz & Hv).
  wp_run. eapply wp_enqueue_sized; [apply (ok_tx c (proj1 Hok)) | exact Henc | exact Hps | |]; cbn; rewrite Hz.
  - intros q [_ Hq] Hfit. wp_run. left. split.
    { split_and!; [by intros Hn; rewrite Hn in Ene | done | by exists id | done | done]. }
    unfold renewal_sent. cbn [cl history]. rewrite clear_resub_map by done. cbn. split_and!; [done | | | by exists id, (fst (now_ms e))].
    + destruct Hsubs as (_ & [Hn _] & _). by apply renewal_rest.
    + unfold keys. rewrite <- list_fmap_compose. apply list_fmap_ext. intros i x _. cbn. unfold renewed. by destruct (named _ x).
  - intros q r [_ Hq] Hr Hfull. assert (Hno : ~ renewable c) by (intros (_ & _ & _ & _ & ?); lia).
    destruct Hr as [-> | ->]; wp_run; by right.
Qed.

(** C27: what [pump_resubscribe] does. If there is a marked entry, room in the
    table of acknowledgements, an identifier left, and room in the queue for the
    SUBSCRIBE, it asks again for the first marked entries the request limit
    allows, in table order, in one SUBSCRIBE under a fresh identifier; these and
    only these lose their mark, and the acknowledgement is awaited. Otherwise it
    changes neither the table nor the queue nor what is awaited: every mark stays
    for the next call. *)
Theorem renewal_outcome c e h :
  sys_ok (mkSys c e h) ->
  returns pump_resubscribe (mkSys c e h) (fun _ s =>
    renewable c /\ renewal_sent c h s \/ ~ renewable c /\ renewal_put_off c h s).
Proof. intros Hok. by apply wp_returns, pump_resubscribe_cases. Qed.

(** A renewal whose entries do not fit one packet of the queue's size is
    not sent, not even in part and not even from an empty queue; every mark
    stays, so it is the same renewal that is tried, in vain, ever after. *)
Theorem renewal_stuck c e h :
  sys_ok (mkSys c e h) -> tx_buffer_size < zlen (subscribe_packet 0 (requests (renewal c))) ->
  returns pump_resubscribe (mkSys c e h) (fun _ s => renewal_put_off c h s /\ renewal (cl s) = renewal c).
Proof.
  intros Hok Hbig. apply wp_returns. eapply wp_mono; [by apply pump_resubscribe_cases|].
  intros r s [[(_ & _ & _ & _ & Hfit) _]|[_ Hoff]]; [pose proof (zlen_nonneg (tx_peek (tx_ c))); lia|].
  split; [done|]. destruct Hoff as (_ & Hsubs & _). unfold renewal. by rewrite Hsubs.
Qed.
End subscriptions.

Section witnesses.
Import Bench.Target.

Lemma subscribe_all_or_nothing_witness :
  exists c (e : Link) h res s, let subs := [mkTopicSubscription topic_u ExactlyOnce] in
    subscribe subs (Some 3) (mkSys c e h) = Some (res, s) /\ subscribe_post subs (Some 3) c h res s.
Proof.
  use_scenario session (fun c => state_ c = Connected). cbv zeta.
  apply (subscribe_all_or_nothing _ (Some 3) c e h); [unfold bytes_ok, is_u8; by_decide | exact Hok].
Defined.

Lemma unsubscribe_all_or_nothing_witness :
  exists c (e : Link) h, length (subscriptions_ c) = 1%nat /\
    exists res s, unsubscribe [topic_t] (mkSys c e h) = Some (res, s) /\ unsubscribe_post [topic_t] c h res s.
Proof.
  use_scenario subscribing (fun c => length (subscriptions_ c) = 1%nat). split; [exact HQ|].
  apply (unsubscribe_all_or_nothing [topic_t] c e h Hok).
Defined.

Lemma suback_applied_witness :
  exists c (e : Link) h, length (subscriptions_ c) = 1%nat /\
    handle_suback (run_callback passive 2) [0; 1; 1] (mkSys c e h) =
      (call_if (run_callback passive 2) (on_suback_ c) (fun hd => CbSuback hd 1 [1]);;; ret Ok)
        (mkSys (c <| subscriptions_ ::= omap (answer (zip [1] (ack_subs (ack_at c 0)))) |>
                  <| pending_ ::= delete 0%nat |>) e h).
Proof.
  use_scenario subscribing (fun c => length (subscriptions_ c) = 1%nat /\ find_pending 1 Suback c = Some 0%nat /\
    zlen (ack_subs (ack_at c 0)) = 1).
  destruct HQ as (Hl & Hf & Hz). split; [exact Hl|].
  pose proof (suback_applied (run_callback passive 2) [0; 1; 1] (mkSubackView 1 [1]) c e h Hok
    ltac:(vm_compute; reflexivity)) as Hs.
  cbn [sv_packet_id sv_return_codes] in Hs. rewrite Hf, Hz in Hs. exact Hs.
Defined.

Lemma unsuback_applied_witness :
  exists c (e : Link) h, length (subscriptions_ c) = 1%nat /\
    handle_unsuback (be16 2) (mkSys c e h) = Some (Ok, mkSys
      (c <| subscriptions_ ::= omap (fun x => if named (ack_subs (ack_at c 0)) x then None else Some x) |>
         <| pending_ ::= delete 0%nat |>) e h).
Proof.
  use_scenario unsubscribing (fun c => length (subscriptions_ c) = 1%nat /\ find_pending 2 Unsuback c = Some 0%nat).
  destruct HQ as (Hl & Hf). split; [exact Hl|].
  rewrite (unsuback_applied 2 c e h Hok) by (unfold id_ok; lia). rewrite Hf. reflexivity.
Defined.

Lemma renewal_outcome_witness :
  exists c (e : Link) h, length (renewal c) = 1%nat /\
    exists r s, pump_resubscribe (mkSys c e h) = Some (r, s) /\ renewal_sent c h s.
Proof.
  use_scenario renewing (fun c => length (renewal c) = 1%nat /\ ack_table_full c = false /\ ids_in_use c = [] /\
    (0 <= zlen (subscribe_body 0 (requests (renewal c))) /\
     zlen (subscribe_body 0 (requests (renewal c))) <= kMaxRemainingLength) /\
    zlen (tx_peek (tx_ c)) + zlen (subscribe_packet 0 (requests (renewal c))) <= tx_buffer_size).
  destruct HQ as (Hl & Hfull & Hids & Hv & Hfit). split; [exact Hl|].
  destruct (renewal_outcome c e h Hok) as (r & s & Hrun & [[_ Hsent]|[Hno _]]); [exists r, s; split; [exact Hrun | exact Hsent]|].
  exfalso. apply Hno. split; [intros Hn; rewrite Hn in Hl; discriminate|]. split; [exact Hfull|].
  split; [exists 1; rewrite Hids; split; [unfold id_ok; lia | apply not_elem_of_nil] | split; [exact Hv | exact Hfit]].
Defined.

(** A queue of 16 bytes, which a SUBSCRIBE for one filter of 5 bytes fits and
    one for two does not. *)
Definition SmallConfig : Config :=
  {| rx_buffer_size := 64; tx_buffer_size := 16; max_topic_len := 64; max_client_id_len := 24;
     max_username_len := 32; max_password_len := 32; max_inflight_out := 4; max_persisted_msg_size := 256;
     max_inflight_in := 4; max_subscriptions := 8; max_pending_acks := 4; max_topics_per_request := 4;
     retry_interval_ms := 20000; connect_timeout_ms := 30000 |}.

#[local] Existing Instance SmallConfig.

#[local] Instance SmallConfig_ok : ConfigOk SmallConfig.
Proof. split; reflexivity. Qed.

#[local] Instance SmallConfig_sane : ConfigSane SmallConfig.
Proof. split; cbn; lia. Qed.

Definition subscribes (filter : list Z) (id : Z) : list Action :=
  [Does (CallSubscribe [mkTopicSubscription filter AtMostOnce] (Some 1));
   arrives [144; 3; 0; id; 0]; Does CallStep].

(** Two subscriptions, a lost connection, a new session. *)
Definition stuck_run : list Action :=
  session ++ subscribes [97; 47; 98; 47; 99] 1 ++ subscribes [97; 47; 98; 47; 100] 2 ++ [Does CallAbort] ++ session.

Lemma renewal_stuck_witness :
  exists c (e : Link) h, state_ c = Connected /\ length (renewal c) = 2%nat /\ tx_peek (tx_ c) = [] /\
    exists r s, pump_resubscribe (mkSys c e h) = Some (r, s) /\ renewal (cl s) = renewal c.
Proof.
  use_scenario stuck_run (fun c => state_ c = Connected /\ length (renewal c) = 2%nat /\ tx_peek (tx_ c) = [] /\
    tx_buffer_size < zlen (subscribe_packet 0 (requests (renewal c)))).
  destruct HQ as (Hst & Hl & Hq & Hbig). split; [exact Hst|]. split; [exact Hl|]. split; [exact Hq|].
  destruct (renewal_stuck c e h Hok Hbig) as (r & s & Hrun & _ & Hsame). exists r, s. split; [exact Hrun | exact Hsame].
Defined.
End witnesses.
