(* ===== verification/Findings.v ===== *)
(** * Findings: runs in which the client does not do what it means to

    Each is a run of the model over the link of [Bench], from a client just
    constructed, through calls of the public interface only. *)
From S2P Require Import Prelude Errors Packet Etl Codec TxQueue Config Transport ClientState.
From S2P Require Import ClientTables Effects Client Application ClientInv Bench Scenarios.
Import Bench.Target.

(** An application whose message handler hangs up. *)
Definition hang_up (cb : Callback) : Handler Link :=
  match cb with
  | CbMessage _ _ => Call CallDisconnect (fun _ => Done)
  | _ => Done
  end.

Definition hang_up_run : list Action :=
  handlers ++ session ++ [arrives (empty_message 116 ++ empty_message 117); Does CallStep].

(** A message handler may call [disconnect], which should end the session
    gracefully. If a second message is already in the receive buffer, it is
    still processed, is taken for a violation of the protocol because the
    session is no longer [Connected], and the shutdown that follows drops the
    DISCONNECT: the broker never gets it, and the application is told of a
    protocol error. *)
Theorem disconnect_from_handler_lost :
  exists s, reachable hang_up s /\
    sent_since_open (history s) = connect_packet options_a /\ tx_peek (tx_ (cl s)) = [] /\
    list.last (history s) = Some (EvCall (CbDisconnect 2 ProtocolViolation)).
Proof. by_run hang_up_run. Qed.

(** An application that makes sure. *)
Definition hang_up_twice (cb : Callback) : Handler Link :=
  match cb with
  | CbMessage _ _ => Call CallDisconnect (fun _ => Call CallDisconnect (fun _ => Done))
  | _ => Done
  end.

Definition hang_up_twice_run : list Action :=
  handlers ++ session ++ [arrives (empty_message 116); arrives [98; 2; 0; 7]; Does CallStep].

(** A handler that ends the session with the reason [Ok] (here by a second
    [disconnect]) does not end the step: the client reads from the transport it
    has closed, processes what it reads, and answers it, in state [Idle]. *)
Theorem step_continues_after_close :
  exists s, reachable hang_up_twice s /\ state_ (cl s) = Idle /\
    drop 7 (history s) = [EvClose; EvCall (CbDisconnect 2 Ok); EvRecv (ack_packet Pubrel 7);
                          EvPacket (mkFixedHeader Pubrel false AtMostOnce false 2) (be16 7);
                          EvSend (ack_packet Pubcomp 7)].
Proof. by_run hang_up_twice_run. Qed.

(** The next [send] accepts nothing. *)
Definition blocked : Action := Link_change (fun l => l <| link_limits := [0] |>).

Definition late_pubrel_run : list Action :=
  session ++ [Does CallDisconnect; blocked; arrives (ack_packet Pubrel 7); Does CallStep].

(** DISCONNECT is not always the last packet: an acknowledgement that
    arrives while it waits to go out is still answered, behind it. *)
Theorem packet_after_disconnect :
  exists s, reachable (fun _ => Done) s /\
    sent_since_open (history s) =
      connect_packet options_a ++ empty_packet Disconnect ++ ack_packet Pubcomp 7.
Proof. by_run late_pubrel_run. Qed.

Definition subscribe_t : Action := Does (CallSubscribe [mkTopicSubscription topic_t AtMostOnce] (Some 1)).

(** Subscribe, be granted; unsubscribe and subscribe again; the broker answers
    both in order, and grants the subscription. *)
Definition resubscribe_run : list Action :=
  session ++
  [subscribe_t; arrives [144; 3; 0; 1; 0]; Does CallStep;
   Does (CallUnsubscribe [topic_t]); subscribe_t;
   arrives [176; 2; 0; 2]; arrives [144; 3; 0; 3; 0]; Does CallStep].

(** Subscribing again to a filter whose UNSUBACK is outstanding reuses the
    entry the UNSUBACK removes: the broker has granted the subscription, the
    application's table has no entry for it and its handler gets nothing. *)
Theorem resubscription_lost :
  exists s, reachable (fun _ => Done) s /\
    state_ (cl s) = Connected /\ subscriptions_ (cl s) = [] /\ pending_ (cl s) = [] /\
    list.last (history s) = Some (EvPacket (mkFixedHeader Suback false AtMostOnce false 3) [0; 3; 0]).
Proof. by_run resubscribe_run. Qed.

(** ** A configuration with slots of more than 64 KiB *)
Definition BigConfig : Config :=
  {| rx_buffer_size := 1024; tx_buffer_size := 70000; max_topic_len := 64; max_client_id_len := 24;
     max_username_len := 32; max_password_len := 32; max_inflight_out := 1; max_persisted_msg_size := 70000;
     max_inflight_in := 4; max_subscriptions := 8; max_pending_acks := 4; max_topics_per_request := 4;
     retry_interval_ms := 20000; connect_timeout_ms := 30000 |}.

Section big.
#[local] Existing Instance BigConfig.

Definition big_payload : list Z := repeat 0 (Z.to_nat 65540).

Definition big_run : list Action :=
  session ++ [Does (CallPublish topic_t big_payload AtLeastOnce false)].

(** The length of a stored packet is kept in 16 bits, so a configuration
    that allows larger ones, which [ConfigCheck] accepts, stores a length that
    is short by a multiple of 65536: the retransmission of this PUBLISH of
    65549 bytes would be its first 13. *)
Theorem stored_length_truncated :
  ConfigCheck BigConfig = true /\
  exists s, reachable (fun _ => Done) s /\
    tx_peek (tx_ (cl s)) = publish_packet false AtLeastOnce false topic_t big_payload 1 /\
    zlen (tx_peek (tx_ (cl s))) = 65549 /\ slot_packet_len <$> outbound_ (cl s) = [13] /\
    slot_phase <$> outbound_ (cl s) = [WaitPuback].
Proof. split; [reflexivity|]. by_run big_run. Qed.
End big.

(** ** A configuration that does not resend on a timer *)
Definition NoRetryConfig : Config :=
  {| rx_buffer_size := 1024; tx_buffer_size := 32; max_topic_len := 64; max_client_id_len := 24;
     max_username_len := 32; max_password_len := 32; max_inflight_out := 1; max_persisted_msg_size := 256;
     max_inflight_in := 4; max_subscriptions := 8; max_pending_acks := 4; max_topics_per_request := 4;
     retry_interval_ms := 0; connect_timeout_ms := 30000 |}.

Section no_retry.
#[local] Existing Instance NoRetryConfig.

Definition filler : list Z := repeat 0 25.

(** PUBREC arrives in a step in which the queue is full; then the link takes
    everything. *)
Definition full_queue_run : list Action :=
  session ++
  [Does (CallPublish topic_t [1] ExactlyOnce false); Does CallStep; Does (CallPublish topic_t filler AtMostOnce false);
   Link_change (fun l => l <| link_limits := [0; 0] |>); arrives (ack_packet Pubrec 1);
   Does CallStep; Does CallStep; Link_change (fun l => l <| link_clock := 30000 |>); Does CallStep; Does CallStep].

(** A PUBREL that found the queue full is said to go out once there is room.
    With [retry_interval_ms = 0] it does not, as long as the connection lasts:
    the exchange stays where it is, with an empty queue. *)
Theorem pubrel_not_sent_later :
  ConfigCheck NoRetryConfig = true /\
  exists s, reachable (fun _ => Done) s /\
    state_ (cl s) = Connected /\ tx_peek (tx_ (cl s)) = [] /\ tx_backpressure_count_ (cl s) = 1 /\
    slot_phase <$> outbound_ (cl s) = [WaitPubcomp] /\
    sent_since_open (history s) =
      connect_packet options_a ++ publish_packet false ExactlyOnce false topic_t [1] 1 ++
      publish_packet false AtMostOnce false topic_t filler 0.
Proof. split; [reflexivity|]. by_run full_queue_run. Qed.
End no_retry.

(** ** A target with a [size_t] of 16 bits *)
Section size16.
Definition size16 : SizeT.
Proof. refine {| size_bits := 16 |}. lia. Defined.

(** The length arithmetic is said to be safe on such a target. The total of a
    frame wraps: the header of a PUBLISH of 65533 bytes announces a packet of one
    byte in all, which every buffer holds, so that its body is taken from beyond
    the end of the receive buffer. And the length of a string of 65534 bytes with
    its prefix is 0. *)
Theorem frame_wraps_on_16_bits :
  @peek_header size16 [48; 253; 255; 3] =
    Val (mkPacketPeek (mkFixedHeader Publish false AtMostOnce false 65533) 4 1) /\
  @utf8_size size16 65534 = 0.
Proof. split; reflexivity. Qed.
End size16.
