(* ===== verification/PersistProps.v ===== *)
(** * PersistProps: no accepted message is lost *)
From S2P Require Import Prelude Errors Packet Etl Codec TxQueue Config Transport ClientState.
From S2P Require Import ClientTables Effects Client Application ClientInv AppSpecs ClientPersist.
From S2P Require Import Bench Scenarios.

Section persist.
Context {Cfg : Config} {COK : ConfigOk Cfg} {CS : ConfigSane Cfg}.
Context `{WS : WideSizeT} `{BWO : ByteStreamWriterOk} `{BRO : ByteStreamReaderOk}.
Context {E : Type} {T : Transport E} {CK : Clock E} {TOK : TransportOk E}.

(** C5: a QoS 1 or 2 message that [publish] accepted in a persistent session is
    not lost. However the application, its handlers, the transport and the peer
    go on, across connections that fail and are made again, a slot keeps the
    PUBLISH to be sent again, or the PUBREL once the peer has the message, until
    the application has been told that it was delivered; as long as no clean
    session is asked for and the handler for deliveries stays set. *)
Theorem accepted_message_kept (app : Callback -> Handler E) s depth topic payload qos retain id s1 s2 :
  app_ok app -> (forall cb, handler_calls persistent (app cb)) -> reachable app s ->
  clean_session_ (cl s) = false -> is_Some (on_delivery_ (cl s)) ->
  0 <= qos -> zlen payload < 2 ^ 63 ->
  call app depth (CallPublish topic payload qos retain) s = Some ((Ok, Some id), s1) ->
  continues true app s1 s2 ->
  carried (mkParcel id qos retain topic payload) (cl s2) \/
  exists h, history s2 = history s1 ++ h /\ told (mkParcel id qos retain topic payload) h.
Proof.
  intros Happ Hpers Hr Hclean Htold Hq Hp Hrun Hcont. destruct s as [c e h].
  pose proof (publish_accepts topic payload qos retain c e h Hq Hp (reachable_sys_ok app _ Happ Hr)) as Hacc.
  unfold call in Hrun. cbn [api] in Hrun. unfold wp in Hacc. rewrite Hrun in Hacc.
  destruct (Hacc id eq_refl) as (Hid & Hc & _ & Hcl & Hod). cbn [cl] in *.
  assert (Hs1 : safe_sys true (mkParcel id qos retain topic payload) (history s1) s1).
  { split; [congruence | by rewrite Hod|]. exists []. split; [by rewrite app_nil_r | by left]. }
  destruct (continues_safe true app (mkParcel id qos retain topic payload) Hid Hpers (history s1) s1 s2 Hcont Hs1) as [_ _ (h' & Hh & Hs)].
  destruct Hs as [Hs|[Hs|[? _]]]; [by left | right; by exists h' | done].
Qed.
End persist.

(** ** Witnesses *)
Section witnesses.
Import Bench.Target.

Definition options_kept : ConnectOptions :=
  {| opt_client_id := name_a; opt_username := []; opt_password := []; opt_will := mkWill [] [] AtMostOnce false;
     opt_keep_alive_s := 60; opt_clean_session := false |}.

Definition kept_session : list Action :=
  [Does (CallOnDelivery (Some 1)); Does (CallConnect options_kept); arrives [32; 2; 0; 0]; Does CallStep].

(** The connection is lost and made again, and the peer acknowledges. *)
Definition reconnection : list Action :=
  [Does CallStep; Does CallAbort; Does (CallConnect options_kept); arrives [32; 2; 1; 0]; Does CallStep].

Definition action_persists (a : Action) : Prop := match a with Does c => persistent c | Link_change _ => True end.

Lemma drive_continues app s1 script s s' :
  Forall action_persists script -> continues true app s1 s -> drive app script s = Some s' -> continues true app s1 s'.
Proof.
  revert s; induction script as [|a script IH]; intros s Hok Hr Hd; [by injection Hd as <-|].
  apply Forall_cons_iff in Hok as [Ha Hok]. destruct a as [c|f]; cbn in Hd.
  - destruct (call app 3 c s) as [[r s2]|] eqn:Ec; [|done]. cbn in Hd.
    eapply IH; [done | eapply continues_call; [exact Hr | exact Ha | exact Ec] | exact Hd].
  - eapply IH; [done | apply (continues_env true app s1 s (f (env s)) Hr) | exact Hd].
Qed.

(** A script, a call that reports an identifier, and another script. *)
Lemma publishes_then before pub id after (Q : Sys Link -> Sys Link -> Prop) `{forall s s', Decision (Q s s')} :
  Forall action_ok before -> Forall action_persists after ->
  match drive passive before start with
  | Some s =>
      match call passive 3 pub s with
      | Some (r, s1) =>
          match drive passive after s1 with
          | Some s2 => bool_decide (r = (Ok, Some id)) && negb (clean_session_ (cl s)) &&
                       bool_decide (is_Some (on_delivery_ (cl s))) && bool_decide (Q s1 s2)
          | None => false
          end
      | None => false
      end
  | None => false
  end = true ->
  exists s s1 s2, reachable passive s /\ clean_session_ (cl s) = false /\ is_Some (on_delivery_ (cl s)) /\
    call passive 3 pub s = Some ((Ok, Some id), s1) /\ continues true passive s1 s2 /\ Q s1 s2.
Proof.
  intros Hb Ha Hrun. destruct (drive passive before start) as [s|] eqn:Hd; [|done].
  destruct (call passive 3 pub s) as [[r s1]|] eqn:Hc; [|done].
  destruct (drive passive after s1) as [s2|] eqn:Hd2; [|done].
  rewrite !andb_true_iff, negb_true_iff in Hrun. destruct Hrun as [[[Hr Hcl] Hod] HQ].
  apply bool_decide_eq_true in Hr, Hod, HQ. subst r. exists s, s1, s2.
  split; [by eapply drive_start|]. split; [done|]. split; [done|]. split; [done|]. split; [|done].
  eapply drive_continues; [done | apply continues_here | done].
Qed.

(** A message accepted, then the link lost and made again, with the message sent
    a second time. *)
Lemma kept_run_facts :
  exists s s1 s2, reachable passive s /\ clean_session_ (cl s) = false /\ is_Some (on_delivery_ (cl s)) /\
    call passive 3 (CallPublish topic_t [1] AtLeastOnce false) s = Some ((Ok, Some 1), s1) /\
    continues true passive s1 s2 /\ history s2 <> history s1.
Proof.
  apply (publishes_then kept_session _ 1 reconnection (fun s1 s2 => history s2 <> history s1));
    [script_ok | by repeat constructor | vm_compute; reflexivity].
Qed.

Lemma accepted_message_kept_witness :
  exists s1 s2 : Sys Link, continues true passive s1 s2 /\ history s2 <> history s1 /\
    (carried (mkParcel 1 AtLeastOnce false topic_t [1]) (cl s2) \/
     exists h, history s2 = history s1 ++ h /\ told (mkParcel 1 AtLeastOnce false topic_t [1]) h).
Proof.
  destruct kept_run_facts as (s & s1 & s2 & Hr & Hcl & Hod & Hc & Hcont & Hh). exists s1, s2.
  split; [exact Hcont|]. split; [exact Hh|].
  apply (accepted_message_kept passive s 3 topic_t [1] AtLeastOnce false 1 s1 s2 passive_ok);
    [intros cb; apply hc_done | exact Hr | exact Hcl | exact Hod | by vm_compute | by vm_compute | exact Hc | exact Hcont].
Defined.
End witnesses.
