(* ===== verification/TraceProps.v ===== *)
(** * TraceProps: what the client makes of the bytes it receives *)
From stdpp Require Import sets.
From S2P Require Import Prelude Errors Packet Etl Codec TxQueue Config Transport ClientState.
From S2P Require Import ClientTables Effects Client Application ClientInv ClientTrace TraceSpecs.
From S2P Require Import Bench Scenarios PersistProps.

(** A PUBREL for the identifier. *)
Definition releases (id : Z) (ev : Event) : bool :=
  match ev with
  | EvPacket hd body =>
      PacketType_eqb (fh_type hd) Pubrel && match decode_packet_id body with Val i => i =? id | Err _ => false end
  | _ => false
  end.

Lemma unreleased_stays id ev ids : id ∈ ids -> releases id ev = false -> id ∈ unreleased_event ids ev.
Proof.
  intros Hin Hr. destruct ev as [|cb| | |hd body|]; cbn in *; try done.
  - destruct cb; try done. case_if; set_solver.
  - case_if; [|done]. destruct (decode_packet_id body) as [i|]; [|done]. cbn in Hr.
    rewrite list_elem_of_In in *. apply filter_In. split; [done|]. by rewrite Z.eqb_sym, Hr.
Qed.

Lemma unreleased_app id h k :
  id ∈ unreleased h -> existsb (releases id) k = false ->
  id ∈ unreleased (h ++ k) /\ (id ∈ earlier (h ++ k) \/ ~ exists hd body, In (EvPacket hd body) k).
Proof.
  intros Hin. induction k as [|ev k IH] using rev_ind; intros Hr.
  { rewrite app_nil_r. split; [done|]. right. by intros (? & ? & []). }
  rewrite existsb_app in Hr. apply orb_false_iff in Hr as [Hk Hev]. cbn in Hev. rewrite orb_false_r in Hev.
  destruct (IH Hk) as [Hu He]. rewrite app_assoc, unreleased_snoc, earlier_snoc. split; [by apply unreleased_stays|].
  destruct ev as [| | | |hd body|]; try (by left);
    (destruct He as [He|He]; [by left | right; intros (hd & body & Hi)];
     apply in_app_or in Hi as [Hi|[Hi|[]]]; [apply He; eauto | done]).
Qed.

Section trace.
Context {Cfg : Config} {COK : ConfigOk Cfg} `{WS : WideSizeT} `{BW : ByteStreamWriter} `{BR : ByteStreamReader}.
Context {E : Type} {T : Transport E} {CK : Clock E} {TOK : TransportOk E}.

(** C10: while there is a connection, the bytes received on it are the packets
    that were handled, each whole, once and in order, and the bytes still held in
    the receive buffer behind them; whatever the peer sends, however the transport
    cuts it, and whatever the application and its handlers do. *)
Theorem inbound_stream (app : Callback -> Handler E) s :
  reachable app s -> state_ (cl s) <> Idle -> state_ (cl s) <> Connecting ->
  received (history s) = concat (handled (history s)) ++ ztake (rx_len_ (cl s)) (rx_ (cl s)).
Proof.
  intros Hr Hi Hc. pose proof (reachable_traced app s Hr) as Ht.
  rewrite (tr_stream _ _ _ _ Ht (conj Hi Hc)). cbn. by rewrite zdrop_0.
Qed.

(** C11: no callback comes from nowhere. A handler is called with a message only
    while the PUBLISH it is decoded from is the packet handled last, for a
    connection only on a CONNACK that accepts it, for a delivery only on the PUBACK
    or PUBCOMP with that identifier, for a subscription only on its SUBACK and with
    its return codes. *)
Theorem callbacks_caused (app : Callback -> Handler E) s h1 cb h2 :
  reachable app s -> history s = h1 ++ EvCall cb :: h2 -> caused (last_packet h1) cb.
Proof.
  intros Hr Hh. pose proof (tr_caused _ _ _ _ (reachable_traced app s Hr)) as Hc.
  apply (Hc h1 (EvCall cb)). exists h2. by rewrite Hh, <- app_assoc.
Qed.

(** C9: exactly once. In an application that asks for no clean session, across
    any connections, two QoS 2 messages handed over under one identifier belong to
    one packet, or a PUBREL for the identifier was handled between them: no repeat
    of a PUBLISH is ever taken for a new message. *)
Theorem qos2_exactly_once (app : Callback -> Handler E) s h1 hd m h2 ph body h3 hd' m' h4 :
  (forall cb, handler_calls keeps_session (app cb)) -> kept_reachable app s ->
  history s = h1 ++ EvCall (CbMessage hd m) :: h2 ++ EvPacket ph body :: h3 ++ EvCall (CbMessage hd' m') :: h4 ->
  msg_qos m = ExactlyOnce -> msg_qos m' = ExactlyOnce -> msg_packet_id m' = msg_packet_id m ->
  existsb (releases (msg_packet_id m)) (h2 ++ EvPacket ph body :: h3) = true.
Proof.
  intros Happ Hr Hh Hq Hq' Hid. apply not_false_iff_true. intros Hno.
  pose proof (kept_traced True app (fun _ => Happ) s Hr) as Ht.
  pose proof (once_all _ _ _ (tr_once _ _ _ _ Ht I)) as Hall.
  set (k := h2 ++ EvPacket ph body :: h3) in *. set (h := h1 ++ [EvCall (CbMessage hd m)]).
  apply (Hall (h ++ k) (EvCall (CbMessage hd' m'))); [|done|].
  { exists h4. rewrite Hh. subst h k. by rewrite <- !app_assoc. }
  destruct (unreleased_app (msg_packet_id m) h k) as [_ [He|He]]; [| done | by rewrite Hid |].
  - subst h. rewrite unreleased_snoc. cbn. rewrite Hq. by left.
  - exfalso. apply He. exists ph, body. subst k. apply in_or_app. right. by left.
Qed.
End trace.

(** ** Witnesses *)
Section witnesses.
Import Bench.Target.

Definition action_keeps (a : Action) : Prop := match a with Does c => keeps_session c | Link_change _ => True end.

Lemma drive_kept app script s s' :
  Forall action_keeps script -> kept_reachable app s -> drive app script s = Some s' -> kept_reachable app s'.
Proof.
  revert s; induction script as [|a script IH]; intros s Hok Hr Hd; [by injection Hd as <-|].
  apply Forall_cons_iff in Hok as [Ha Hok]. destruct a as [c|f]; cbn in Hd.
  - destruct (call app 3 c s) as [[r s2]|] eqn:Ec; [|done]. cbn in Hd.
    eapply IH; [done | by eapply kept_call | exact Hd].
  - eapply IH; [done | apply (kept_env app s (f (env s)) Hr) | exact Hd].
Qed.

(** QoS 2 messages on "t" under the identifier 5. *)
Definition qos2_message (dup : bool) (byte : Z) : list Z := [if dup then 60 else 52; 6; 0; 1; 116; 0; 5; byte].

(** A message; on the next connection the peer repeats it, releases it, and
    reuses its identifier. The transport cuts the last one in two. *)
Definition reuse_run : list Action :=
  [Does (CallOnMessage (Some 1)); Does (CallConnect options_kept); arrives [32; 2; 0; 0]; Does CallStep;
   arrives (qos2_message false 1); Does CallStep; Does CallAbort;
   Does (CallConnect options_kept); arrives [32; 2; 1; 0]; arrives (qos2_message true 1 ++ ack_packet Pubrel 5);
   arrives (ztake 4 (qos2_message false 2)); Does CallStep].

Definition reuse_end : list Action := [arrives (zdrop 4 (qos2_message false 2)); Does CallStep].

Definition run_state (script : list Action) : Sys Link := default start (drive passive script start).

Lemma run_state_reachable script :
  Forall action_ok script -> bool_decide (is_Some (drive passive script start)) = true ->
  reachable passive (run_state script).
Proof. intros Hok Hs. apply bool_decide_eq_true in Hs as [s Hs]. unfold run_state. rewrite Hs. by eapply drive_start. Qed.

Lemma inbound_stream_witness :
  let s := run_state reuse_run in
  rx_len_ (cl s) = 4 /\ zlen (handled (history s)) = 3 /\
  received (history s) = concat (handled (history s)) ++ ztake (rx_len_ (cl s)) (rx_ (cl s)).
Proof.
  cbv zeta. split; [by vm_compute|]. split; [by vm_compute|].
  apply (inbound_stream passive (run_state reuse_run));
    [apply run_state_reachable; [script_ok | vm_compute; reflexivity] | by vm_compute | by vm_compute].
Defined.

(** The last event of a longer run: the message under the identifier that was
    reused. *)
Definition reuse_history : list Event := history (run_state (reuse_run ++ reuse_end)).

Definition message_5 (byte : Z) : Message := mkMessage topic_t [byte] ExactlyOnce false false 5.

Lemma callbacks_caused_witness : caused (last_packet (take 20 reuse_history)) (CbMessage 1 (message_5 2)).
Proof.
  apply (callbacks_caused passive (run_state (reuse_run ++ reuse_end)) (take 20 reuse_history) (CbMessage 1 (message_5 2))
    (drop 21 reuse_history)); [apply run_state_reachable; [script_ok | vm_compute; reflexivity] | vm_compute; reflexivity].
Defined.

Definition publish_header : FixedHeader := mkFixedHeader Publish false ExactlyOnce false 6.

Lemma qos2_exactly_once_witness :
  existsb (releases 5) (take 12 (drop 7 reuse_history) ++ EvPacket publish_header [0; 1; 116; 0; 5; 2] :: []) = true.
Proof.
  apply (qos2_exactly_once passive (run_state (reuse_run ++ reuse_end)) (take 6 reuse_history) 1 (message_5 1)
    (take 12 (drop 7 reuse_history)) publish_header [0; 1; 116; 0; 5; 2] [] 1 (message_5 2) (drop 21 reuse_history)).
  - intros cb. apply hc_done.
  - apply (drive_kept passive (reuse_run ++ reuse_end) start); [by repeat constructor | apply kept_init | vm_compute; reflexivity].
  - vm_compute. reflexivity.
  - reflexivity.
  - reflexivity.
  - reflexivity.
Defined.
End witnesses.
