(* ===== verification/Broker.v ===== *)
(** * Broker: a peer and a link that work

    What it takes of the other side for messages to be delivered, as an interface:
    the transport carries bytes both ways, keeping the client waiting only so
    often, and a broker behind it answers what MQTT 3.1.1 makes it answer to a
    publisher. No timer of the client expires while the exchange lasts: the clock
    does not go back, and stays within a window. *)
From S2P Require Import Prelude Errors Packet PacketFacts Utf8 Topic Etl Codec CodecFacts TxQueue.
From S2P Require Import Config Transport ClientState ClientTables Effects Client Application ClientInv.

(** ** What a publisher sends and is answered *)
Inductive Up :=
  | UpPublish (dup : bool) (qos : QoS) (retain : bool) (topic payload : list Z) (id : Z)
  | UpPubrel (id : Z).

Definition up_bytes (u : Up) : list Z :=
  match u with
  | UpPublish dup qos retain topic payload id => publish_packet dup qos retain topic payload id
  | UpPubrel id => ack_packet Pubrel id
  end.

Definition up_wf (u : Up) : Prop :=
  match u with
  | UpPublish dup qos _ topic payload id => publish_wf dup qos topic payload id
  | UpPubrel id => id_ok id
  end.

(** An acknowledgement: its type and identifier. *)
Record Ack := mkAck { ack_type : PacketType; ack_id : Z }.

Definition ack_bytes (a : Ack) : list Z := ack_packet (ack_type a) (ack_id a).

(** What the protocol has the broker answer (MQTT 3.1.1, 4.3). *)
Definition reply (u : Up) : option Ack :=
  match u with
  | UpPublish _ qos _ _ _ id =>
      if qos =? AtLeastOnce then Some (mkAck Puback id)
      else if qos =? ExactlyOnce then Some (mkAck Pubrec id)
      else None
  | UpPubrel id => Some (mkAck Pubcomp id)
  end.

(** CONNACK, the connection accepted. *)
Definition connack_bytes (present : bool) : list Z := [32; 2; if present then 1 else 0; 0].

(** ** The interface *)

(** The bytes the broker has got, and those the client has got, on the
    connection; the broker's side of a connection as a function of the client's,
    and whether it says to a CONNECT that it has the session; whether a connection
    can be made, and whether it is there; how often the link
    may still keep the client waiting; the time. *)
Class Peer (E : Type) := {
  accepted : E -> list Z;
  delivered : E -> list Z;
  answers : list Z -> list Z;
  session_present : ConnectOptions -> bool;
  dialable : E -> Prop;
  linked : E -> Prop;
  delays : E -> Z;
  clock_at : E -> Z;
  window_start : Z;
  window_end : Z;
}.

(** The window is not over. *)
Definition in_time {E} `{Peer E} (e : E) : Prop := clock_at e <= window_end.

(** Time passes, within the window, *)
Definition elapses {E} `{Peer E} (e e' : E) : Prop := clock_at e <= clock_at e' <= window_end /\ delays e' <= delays e.

(** the link stays what it is, *)
Definition later {E} `{Peer E} (e e' : E) : Prop :=
  elapses e e' /\ (linked e -> linked e') /\ (dialable e -> dialable e').

(** and nothing moves on it. *)
Definition same_link {E} `{Peer E} (e e' : E) : Prop :=
  later e e' /\ accepted e' = accepted e /\ delivered e' = delivered e.

Class PeerOk (E : Type) `{Transport E} `{Clock E} `{Peer E} : Prop := {
  window_u32 : 0 <= window_start /\ window_end < 2 ^ 32;
  delays_nonneg e : 0 <= delays e;
  (** The broker accepts a CONNECT and answers each packet that follows, in
      order. *)
  answers_ok o ups :
    connect_wf o -> Forall up_wf ups ->
    answers (connect_packet o ++ concat (up_bytes <$> ups)) =
      connack_bytes (session_present o) ++ concat (ack_bytes <$> omap reply ups);
  (** [connect] succeeds in the end, *)
  peer_connect e : in_time e -> dialable e -> exists e', elapses e e' /\
    (transport_connect e = (Ok, e') /\ linked e' /\ accepted e' = [] /\ delivered e' = [] \/
     transport_connect e = (WouldBlock, e') /\ dialable e' /\ delays e' < delays e);
  (** every [send] takes something, *)
  peer_send data e : in_time e -> linked e -> data <> [] -> exists n e', transport_send data e = (Ok, n, e') /\
    0 < n <= zlen data /\ accepted e' = accepted e ++ ztake n data /\ delivered e' = delivered e /\ later e e';
  (** and [recv] in the end produces something if there is something. *)
  peer_recv n e rest : in_time e -> linked e -> 0 < n -> answers (accepted e) = delivered e ++ rest ->
    exists r got e', transport_recv n e = (r, got, e') /\ accepted e' = accepted e /\
      delivered e' = delivered e ++ got /\ later e e' /\
      (r = WouldBlock /\ got = [] /\ (rest = [] \/ delays e' < delays e) \/
       r = Ok /\ got <> [] /\ zlen got <= n /\ got `prefix_of` rest);
  peer_now e : in_time e -> exists e', now_ms e = (clock_at e', e') /\ same_link e e';
}.

Section later.
Context {E : Type} {P : Peer E}.

Lemma elapses_refl (e : E) : in_time e -> elapses e e.
Proof. unfold elapses, in_time. lia. Qed.

Lemma later_refl (e : E) : in_time e -> later e e.
Proof. intros. split; [by apply elapses_refl | done]. Qed.

Lemma elapses_trans (a b c : E) : elapses a b -> elapses b c -> elapses a c.
Proof. unfold elapses. lia. Qed.

Lemma later_trans (a b c : E) : later a b -> later b c -> later a c.
Proof. intros (? & ? & ?) (? & ? & ?). split; [by eapply elapses_trans | auto]. Qed.

Lemma same_link_refl (e : E) : in_time e -> same_link e e.
Proof. intros. split; [by apply later_refl | done]. Qed.

Lemma later_in_time (e e' : E) : later e e' -> in_time e'.
Proof. unfold later, elapses, in_time. lia. Qed.

Lemma later_linked (e e' : E) : later e e' -> linked e -> linked e'.
Proof. by intros (_ & ? & _). Qed.

Lemma same_link_trans (a b c : E) : same_link a b -> same_link b c -> same_link a c.
Proof. intros (? & ? & ?) (? & ? & ?). split; [by eapply later_trans | split; congruence]. Qed.
End later.

(** Handlers that only watch: they make no call, and do not touch the link. *)
Inductive watching {E} `{Peer E} : Handler E -> Prop :=
  | w_done : watching Done
  | w_act f k : (forall e, in_time e -> same_link e (f e)) -> watching k -> watching (Act f k)
  | w_inspect k : (forall c e, watching (k c e)) -> watching (Inspect k).

(** ** A broker on the bench

    An instance to run: the broker frames what it has got with the codec and
    answers packet by packet. The link moves at most [step_up] bytes up and
    [step_down] bytes down at a time, and a script says which of the calls that
    come first it keeps waiting. *)
Module Sim.
Record SimLink := mkSimLink {
  sim_up : list Z;
  sim_down : list Z;
  sim_stalls : list bool;
  sim_clock : Z;
}.

#[export] Instance eta_SimLink : Eta SimLink := fun r => mkSimLink (sim_up r) (sim_down r) (sim_stalls r) (sim_clock r).

Section sim.
Context `{SZ : SizeT} `{BW : ByteStreamWriter} `{BR : ByteStreamReader}.
Context (step_up step_down last_tick : Z).

(** The answer to one framed packet. *)
Definition sim_reply (hd : FixedHeader) (body : list Z) : list Z :=
  match fh_type hd with
  | Connect => connack_bytes (negb (Z.testbit (default 0 (body !! 7%nat)) 1))
  | Publish =>
      match decode_publish hd body with
      | Val m =>
          if msg_qos m =? AtLeastOnce then ack_packet Puback (msg_packet_id m)
          else if msg_qos m =? ExactlyOnce then ack_packet Pubrec (msg_packet_id m)
          else []
      | Err _ => []
      end
  | Pubrel => match decode_packet_id body with Val id => ack_packet Pubcomp id | Err _ => [] end
  | _ => []
  end.

(** Packet by packet; [fuel] is at least the number of bytes. *)
Fixpoint sim_answers (fuel : nat) (bytes : list Z) : list Z :=
  match fuel with
  | O => []
  | S fuel =>
      match peek_header bytes with
      | Val p =>
          if zlen bytes <? peek_total_bytes p then []
          else
            sim_reply (peek_hdr p) (ztake (fh_remaining_length (peek_hdr p)) (zdrop (peek_header_bytes p) bytes)) ++
            sim_answers fuel (zdrop (peek_total_bytes p) bytes)
      | Err _ => []
      end
  end.

Definition sim_link_answers (bytes : list Z) : list Z := u8 <$> sim_answers (S (length bytes)) bytes.

Definition sim_send (data : list Z) (l : SimLink) : Error * Z * SimLink :=
  let n := Z.min step_up (zlen data) in (Ok, n, l <| sim_up ::= fun b => b ++ ztake n data |>).

(** Does the call have to wait? *)
Definition sim_stalled (l : SimLink) : bool * SimLink :=
  match sim_stalls l with
  | [] => (false, l)
  | b :: rest => (b, l <| sim_stalls := rest |>)
  end.

Definition sim_connect (l : SimLink) : Error * SimLink :=
  let '(wait, l) := sim_stalled l in
  if wait then (WouldBlock, l) else (Ok, l <| sim_up := [] |> <| sim_down := [] |>).

Definition sim_recv (n : Z) (l : SimLink) : Error * list Z * SimLink :=
  let '(wait, l) := sim_stalled l in
  if wait then (WouldBlock, [], l)
  else
    match zdrop (zlen (sim_down l)) (sim_link_answers (sim_up l)) with
    | [] => (WouldBlock, [], l)
    | rest => let got := ztake (Z.min n step_down) rest in (Ok, got, l <| sim_down ::= fun b => b ++ got |>)
    end.

#[export] Instance sim_transport : Transport SimLink := {|
  transport_connect := sim_connect;
  transport_send := sim_send;
  transport_recv := sim_recv;
  transport_close l := l;
  transport_is_connected _ := true;
|}.

(** Every reading is a millisecond later, up to the last tick. *)
#[export] Instance sim_clock_instance : Clock SimLink := {|
  now_ms l := let t := Z.max 0 (Z.min last_tick (sim_clock l + 1)) in (t, l <| sim_clock := t |>)
|}.

#[export] Instance sim_peer : Peer SimLink := {|
  accepted := sim_up;
  delivered := sim_down;
  answers := sim_link_answers;
  session_present o := negb (opt_clean_session o);
  dialable _ := True;
  linked _ := True;
  delays l := zlen (List.filter id (sim_stalls l));
  clock_at := sim_clock;
  window_start := 0;
  window_end := last_tick;
|}.
End sim.

(** ** The broker answers *)
Section facts.
Context `{WS : WideSizeT} `{BWO : ByteStreamWriterOk} `{BRO : ByteStreamReaderOk}.

(** A header is read off its own bytes, whatever follows. *)
Lemma vbi_decode_front rest inp d : vbi_decode inp = Val d -> vbi_decode (inp ++ rest) = Val d.
Proof.
  assert (Hloop : forall n i acc m, vbi_decode_loop n inp i acc m = Val d -> vbi_decode_loop n (inp ++ rest) i acc m = Val d).
  { induction n as [|n IH]; intros i acc m Hd; [done|]. cbn [vbi_decode_loop] in *.
    destruct (zget inp i) as [b|] eqn:Hb; [|done].
    assert (Hb' : zget (inp ++ rest) i = Some b) by (unfold zget in *; by apply lookup_app_l_Some).
    rewrite Hb'. cbv zeta in *. case_if; [done|]. by apply IH. }
  apply Hloop.
Qed.

Lemma peek_header_front t dup qos retain body rest :
  header_ok (mkFixedHeader t dup qos retain 0) = true -> vbi_ok (zlen body) ->
  peek_header (wire_packet t dup qos retain body ++ rest) =
    Val (mkPacketPeek (mkFixedHeader t dup qos retain (zlen body)) (1 + vbi_size (zlen body))
           (zlen (wire_packet t dup qos retain body))).
Proof.
  intros Hh Hrl. unfold wire_packet. cbn [app peek_header].
  rewrite (to_byte_length _ _ _ _ _ 0), to_byte_from_byte by done. change (zdrop 1 (?b :: ?l)) with l. rewrite <- app_assoc.
  rewrite (vbi_decode_front _ _ (mkVbiDecode (zlen body) (vbi_size (zlen body))))
    by (rewrite <- (app_nil_r (vbi_wire _)); apply vbi_decode_wire; [done | constructor]).
  cbn [fh_type fh_dup fh_qos fh_retain vbi_value vbi_bytes].
  pose proof (vbi_size_range _ Hrl). pose proof Hrl as Hrl'. unfold vbi_ok, kMaxRemainingLength in Hrl'.
  rewrite !size_t_small by lia. rewrite zlen_cons, zlen_app, zlen_vbi_wire by done. do 2 f_equal. lia.
Qed.

Lemma sim_answers_packet fuel t dup qos retain body rest :
  header_ok (mkFixedHeader t dup qos retain 0) = true -> vbi_ok (zlen body) ->
  sim_answers (S fuel) (wire_packet t dup qos retain body ++ rest) =
    sim_reply (mkFixedHeader t dup qos retain (zlen body)) body ++ sim_answers fuel rest.
Proof.
  intros Hh Hrl. cbn [sim_answers]. rewrite peek_header_front by done.
  cbn [peek_total_bytes peek_hdr peek_header_bytes fh_remaining_length].
  rewrite zlen_app, zdrop_app_zlen. pose proof (zlen_nonneg rest).
  destruct (_ <? _) eqn:E0; zbool; [lia|]. do 2 f_equal. unfold wire_packet.
  change (?b :: ?l) with ([b] ++ l). rewrite <- !app_assoc, (app_assoc [_]).
  replace (1 + vbi_size (zlen body)) with (zlen ([to_byte (mkFixedHeader t dup qos retain (zlen body))] ++ vbi_wire (zlen body)))
    by (rewrite zlen_app, zlen_vbi_wire by done; done).
  by rewrite zdrop_app_zlen, ztake_app_zlen.
Qed.

Lemma valid_topic_ok topic : is_valid_topic_name topic = true -> topic <> [] /\ field_ok topic.
Proof.
  unfold is_valid_topic_name. destruct (empty topic || _) eqn:He; [done|]. destruct (negb _) eqn:Hm; [done|]. intros _.
  apply orb_false_iff in He as [He Hl]. apply negb_false_iff in Hm. zbool. split; [by apply empty_false | split; [exact Hl | done]].
Qed.

Lemma sim_reply_up u rest fuel :
  up_wf u -> sim_answers (S fuel) (up_bytes u ++ rest) = concat (ack_bytes <$> option_list (reply u)) ++ sim_answers fuel rest.
Proof.
  intros Hu. destruct u as [dup qos retain topic payload id | id]; cbn [up_bytes reply up_wf] in *.
  - destruct Hu as (Ht & Hq & Hdup & Hid & Hv). destruct (valid_topic_ok topic Ht) as [Hne Hf].
    assert (Hcase : qos = 0 \/ qos = 1 \/ qos = 2) by lia. unfold publish_packet. rewrite sim_answers_packet; [| |done].
    2: { destruct Hcase as [->|[->| ->]]; [by rewrite Hdup | by destruct dup..]. }
    f_equal. unfold sim_reply. cbn [fh_type]. destruct (Z.eq_dec qos AtMostOnce) as [Hq0|Hq0].
    + rewrite Hq0 in *. change (publish_body topic payload AtMostOnce id) with (publish_body topic payload AtMostOnce 0).
      by rewrite decode_publish_wire by (done || by split).
    + specialize (Hid Hq0). rewrite decode_publish_wire; [|lia | by split_and!; [|..|lia] | unfold id_ok, is_u16 in *; lia
        | unfold id_ok in *; lia | done]. cbn [msg_qos msg_packet_id].
      destruct Hcase as [?|[->| ->]]; [done | cbn; by rewrite app_nil_r..].
  - unfold ack_packet at 1. rewrite sim_answers_packet by (done || apply vbi_ok_2). f_equal. unfold sim_reply. cbn [fh_type].
    rewrite decode_packet_id_be16 by (unfold id_ok, is_u16 in *; lia). cbn. by rewrite app_nil_r.
Qed.

Lemma sim_answers_ups ups : forall fuel, Forall up_wf ups -> (length ups <= fuel)%nat ->
  sim_answers fuel (concat (up_bytes <$> ups)) = concat (ack_bytes <$> omap reply ups).
Proof.
  induction ups as [|u ups IH]; intros [|fuel] Hwf Hf; try done; [cbn in Hf; lia|].
  apply Forall_cons_iff in Hwf as [Hu Hwf]. cbn [fmap list_fmap concat]. rewrite sim_reply_up by done.
  rewrite IH by (done || cbn in Hf; lia). cbn. by destruct (reply u).
Qed.

Lemma up_bytes_ne u : (0 < length (up_bytes u))%nat.
Proof. destruct u; unfold up_bytes, publish_packet, ack_packet, wire_packet; cbn [length]; lia. Qed.

Lemma reply_bytes u a : up_wf u -> reply u = Some a -> bytes_ok (ack_bytes a).
Proof.
  intros Hu Ha. assert (Hid : id_ok (ack_id a) /\ In (ack_type a) [Puback; Pubrec; Pubcomp]).
  { destruct u as [dup qos retain topic payload id | id]; cbn in *; [|injection Ha as <-; cbn; auto].
    destruct Hu as (_ & _ & _ & Hid & _). unfold AtLeastOnce, ExactlyOnce, AtMostOnce in *.
    destruct (qos =? 1) eqn:E1; zbool; [injection Ha as <-; cbn; split; [apply Hid; lia | auto]|].
    destruct (qos =? 2) eqn:E2; zbool; [injection Ha as <-; cbn; split; [apply Hid; lia | auto] | done]. }
  destruct Hid as [Hid Ht]. assert (Hb : bytes_ok (be16 (ack_id a))) by (apply be16_bytes; unfold is_u16, id_ok in *; lia).
  unfold ack_bytes, ack_packet, wire_packet. destruct Ht as [<-|[<-|[<-|[]]]];
    (constructor; [by vm_compute|]; constructor; [by vm_compute | exact Hb]).
Qed.

Lemma connect_flags_clean o : Z.testbit (connect_flags o) 1 = opt_clean_session o.
Proof.
  assert (Hu8 : forall x, Z.testbit (u8 x) 1 = Z.testbit x 1) by (intros; unfold u8; by apply Z.mod_pow2_bits_low).
  assert (Hqos : Z.testbit (Z.shiftl (Z.land (will_qos (opt_will o)) 0x03) 3) 1 = false) by (by rewrite Z.shiftl_spec).
  unfold connect_flags. repeat (case_if; rewrite ?Z.lor_spec, ?Hu8, ?Z.lor_spec, ?Hqos); done.
Qed.

Lemma u8_bytes l : bytes_ok l -> u8 <$> l = l.
Proof. induction 1 as [|x l Hx _ IH]; [done|]. cbn. by rewrite u8_small, IH. Qed.

Lemma sim_answers_ok o ups :
  connect_wf o -> Forall up_wf ups ->
  sim_link_answers (connect_packet o ++ concat (up_bytes <$> ups)) =
    connack_bytes (negb (opt_clean_session o)) ++ concat (ack_bytes <$> omap reply ups).
Proof.
  intros (_ & _ & Hv & _) Hwf. unfold sim_link_answers. unfold connect_packet.
  rewrite sim_answers_packet by done. change (sim_reply _ _) with (connack_bytes (negb (Z.testbit (connect_flag_bits o) 1))).
  rewrite <- connect_flags_exact, connect_flags_clean, sim_answers_ups; [|done|].
  - apply u8_bytes. apply bytes_ok_app. split; [unfold connack_bytes; destruct (opt_clean_session o); by repeat (constructor; [by vm_compute|])|].
    induction Hwf as [|u ups Hu _ IH]; [constructor|]. cbn. destruct (reply u) eqn:Er; [|exact IH].
    cbn. apply bytes_ok_app. split; [by eapply reply_bytes | exact IH].
  - assert (Hlen : forall ups, (length ups <= length (concat (up_bytes <$> ups)))%nat).
    { induction ups0 as [|u l IH]; [done|]. cbn. rewrite length_app. pose proof (up_bytes_ne u). lia. }
    rewrite length_app. specialize (Hlen ups). lia.
Qed.

(** ** The instance satisfies the interfaces *)
Context (step_up step_down last_tick : Z).
Context (Hup : 0 < step_up) (Hdown : 0 < step_down) (Htick : 0 <= last_tick < 2 ^ 32).

#[local] Existing Instance sim_transport.
#[local] Existing Instance sim_clock_instance.

Lemma sim_stalled_facts l :
  let '(wait, l') := sim_stalled l in
  sim_up l' = sim_up l /\ sim_down l' = sim_down l /\ sim_clock l' = sim_clock l /\
  zlen (List.filter id (sim_stalls l')) + (if wait then 1 else 0) <= zlen (List.filter id (sim_stalls l)).
Proof.
  unfold sim_stalled. destruct (sim_stalls l) as [|[] rest] eqn:Es; cbn; rewrite ?Es; cbn; split_and!; try done; rewrite ?zlen_cons; lia.
Qed.

Lemma sim_transport_ok : @TransportOk SimLink (sim_transport step_up step_down) (sim_clock_instance last_tick).
Proof.
  split; intros; cbn; try (by left).
  - unfold sim_connect. destruct (sim_stalled env) as [[] ?]; cbn; auto.
  - pose proof (zlen_nonneg data). lia.
  - unfold sim_recv. destruct (sim_stalled env) as [[] l]; [cbn; auto|]. destruct (zdrop _ _); cbn; auto.
  - unfold sim_recv. destruct (sim_stalled env) as [[] l]; [done|]. destruct (zdrop _ _); cbn; [done|].
    unfold zlen, ztake. rewrite length_take. lia.
  - unfold sim_recv. destruct (sim_stalled env) as [[] l]; [constructor|].
    destruct (zdrop _ _) as [|x k] eqn:Ed; cbn; [constructor|]. apply bytes_ok_take. rewrite <- Ed.
    apply bytes_ok_drop. unfold sim_link_answers. apply Forall_fmap, Forall_true. intros y. apply u8_range.
  - unfold is_u32. lia.
Qed.

Lemma sim_peer_ok :
  @PeerOk SimLink (sim_transport step_up step_down) (sim_clock_instance last_tick) (sim_peer last_tick).
Proof.
  split; unfold in_time, same_link, later, elapses;
    cbn [transport_connect transport_send transport_recv now_ms sim_transport sim_clock_instance
         accepted delivered answers session_present clock_at window_start window_end dialable linked delays sim_peer].
  - lia.
  - intros e. apply zlen_nonneg.
  - apply sim_answers_ok.
  - intros e He _. unfold sim_connect. pose proof (sim_stalled_facts e) as Hst.
    destruct (sim_stalled e) as [[] l]; destruct Hst as (Hu & Hd & Hc & Hn); eexists;
      (split; [|first [left; done | right; split_and!; [done | done | lia]]]); cbn; rewrite Hc; split; lia.
  - intros data e He _ Hne. assert (Hpos : 0 < zlen data) by (destruct data; [done | rewrite zlen_cons; pose proof (zlen_nonneg data); lia]).
    eexists _, _. split; [done|]. cbn. split_and!; try done; lia.
  - intros n e rest He _ Hn Hans. unfold sim_recv. pose proof (sim_stalled_facts e) as Hst.
    destruct (sim_stalled e) as [wait l]. destruct Hst as (Hu & Hd & Hc & Hm).
    destruct wait.
    + eexists _, _, _. split; [done|]. rewrite app_nil_r. split_and!; try done; try lia. left. split_and!; try done. right. lia.
    + rewrite Hu, Hd, Hans, zdrop_app_zlen. destruct rest as [|x rest].
      * eexists _, _, _. split; [done|]. rewrite app_nil_r. split_and!; try done; try lia. left. by split_and!; [..|left].
      * eexists _, _, _. split; [done|]. cbn [sim_up sim_down sim_clock sim_stalls]. split_and!; try done; try (cbn; lia); [cbn; by rewrite Hd|].
        right. split; [done|]. unfold ztake. split_and!.
        -- replace (Z.to_nat (Z.min n step_down)) with (S (Z.to_nat (Z.min n step_down) - 1)) by lia. done.
        -- unfold zlen. rewrite length_take. lia.
        -- apply prefix_take.
  - intros e He. set (t := Z.max 0 (Z.min last_tick (sim_clock e + 1))). assert (Ht : sim_clock e <= t <= last_tick) by lia.
    exists (e <| sim_clock := t |>). split; [done|]. cbn. split_and!; try done; lia.
Qed.
End facts.
End Sim.
