(* ===== verification/Talk.v ===== *)
(** * Talk: a publisher and a broker that works

    The client's half of an exchange with a peer that keeps to the interface of
    [Broker]: whatever is awaited has been asked for, so that every step that finds
    something outstanding moves it on, and after finitely many steps nothing is. *)
From stdpp Require Import sets.
From S2P Require Import Prelude Errors Packet PacketFacts Etl Codec CodecFacts TxQueue.
From S2P Require Import Config Transport ClientState ClientTables Effects Client Application.
From S2P Require Import ClientInv ClientQueue ClientSpecs ReceiveSpecs SessionSpecs StepSpecs AppSpecs.
From S2P Require Import ClientTrace Broker.
#[local] Open Scope client_scope.

(** ** What the table awaits *)
Definition awaited (s : OutboundSlot) : option Ack :=
  match slot_phase s with
  | Free => None
  | WaitPuback => Some (mkAck Puback (slot_packet_id s))
  | WaitPubrec => Some (mkAck Pubrec (slot_packet_id s))
  | WaitPubcomp => Some (mkAck Pubcomp (slot_packet_id s))
  end.

Definition awaits (l : list OutboundSlot) : list Ack := omap awaited l.

Lemma awaits_cons s l : awaits (s :: l) = option_list (awaited s) ++ awaits l.
Proof. unfold awaits. cbn. by destruct (awaited s). Qed.

Lemma awaits_insert l i s s' :
  l !! i = Some s -> exists rest, awaits l ≡ₚ option_list (awaited s) ++ rest /\
    awaits (<[i := s']> l) ≡ₚ option_list (awaited s') ++ rest.
Proof.
  revert i; induction l as [|x l IH]; intros [|i] Hi; cbn in Hi; try done.
  - injection Hi as ->. exists (awaits l). cbn [insert list_insert]. by rewrite !awaits_cons.
  - destruct (IH i Hi) as (rest & H1 & H2). exists (option_list (awaited x) ++ rest).
    cbn [insert list_insert]. rewrite !awaits_cons, H1, H2. split; by rewrite !(Permutation_app_swap_app _ (option_list (awaited x))).
Qed.

Lemma elem_of_awaits a l : a ∈ awaits l -> exists i s, l !! i = Some s /\ awaited s = Some a.
Proof.
  unfold awaits. rewrite list_elem_of_omap. intros (s & Hs & Ha). apply list_elem_of_lookup in Hs as [i Hi]. by exists i, s.
Qed.

Lemma awaited_busy s a : awaited s = Some a -> slot_busy s = true /\ slot_packet_id s = ack_id a.
Proof. unfold awaited, slot_busy, slot_free. destruct (slot_phase s); try done; by intros [= <-]. Qed.

Lemma awaits_same l k :
  slot_phase <$> l = slot_phase <$> k -> slot_packet_id <$> l = slot_packet_id <$> k -> awaits l = awaits k.
Proof.
  revert k; induction l as [|s l IH]; intros [|s' k] Hp Hi; try done. cbn in Hp, Hi. injection Hp as Hp Hps. injection Hi as Hi His.
  rewrite !awaits_cons, (IH k Hps His). unfold awaited. by rewrite Hp, Hi.
Qed.

Lemma length_awaits l : (length (awaits l) <= length (List.filter slot_busy l))%nat.
Proof.
  induction l as [|s l IH]; [done|]. rewrite awaits_cons, length_app. cbn [List.filter].
  unfold awaited, slot_busy at 1, slot_free at 1. destruct (slot_phase s);
    match goal with |- context [Phase_eqb ?a ?b] => let v := eval vm_compute in (Phase_eqb a b) in change (Phase_eqb a b) with v end;
    cbn; lia.
Qed.

Section tables.
Context {Cfg : Config} {COK : ConfigOk Cfg}.

(** Nothing is awaited beyond the configured slots, *)
Lemma awaits_take l : outbound_ok l -> awaits (take (Z.to_nat max_inflight_out) l) = awaits l.
Proof.
  intros (_ & _ & Hres). unfold residue_free in Hres. rewrite <- (take_drop (Z.to_nat max_inflight_out) l) at 2.
  unfold awaits. rewrite omap_app. assert (H0 : omap awaited (drop (Z.to_nat max_inflight_out) l) = []).
  { induction Hres as [|s k Hs Hk IH]; [done|]. cbn. unfold awaited. unfold slot_free, Phase_eqb in Hs.
    apply bool_decide_eq_true in Hs. by rewrite Hs. }
  by rewrite H0, app_nil_r.
Qed.

(** and one acknowledgement at most for each of them. *)
Lemma awaits_bound l : outbound_ok l -> zlen (awaits l) <= max_inflight_out.
Proof.
  intros Hl. pose proof config_facts. rewrite <- (awaits_take l Hl). unfold zlen.
  pose proof (length_awaits (take (Z.to_nat max_inflight_out) l)) as Hlen.
  pose proof (List.filter_length_le slot_busy (take (Z.to_nat max_inflight_out) l)). rewrite length_take in *. lia.
Qed.

(** The slot of an identifier in use. *)
Lemma slot_ids_unique l : NoDup (slot_ids l) -> forall i j s s', l !! i = Some s -> l !! j = Some s' ->
  slot_busy s = true -> slot_busy s' = true -> slot_packet_id s' = slot_packet_id s -> i = j.
Proof.
  induction l as [|x l IH]; intros Hnd i j s s' Hi Hj Hb Hb' Hid; [done|]. rewrite slot_ids_cons in Hnd.
  destruct i as [|i], j as [|j]; cbn in Hi, Hj; [done | | |].
  - injection Hi as ->. rewrite Hb in Hnd. inversion Hnd as [|? ? Hn _]; subst. exfalso. apply Hn.
    apply elem_of_slot_ids. by exists j, s'.
  - injection Hj as ->. rewrite Hb' in Hnd. inversion Hnd as [|? ? Hn _]; subst. exfalso. apply Hn.
    apply elem_of_slot_ids. by exists i, s.
  - f_equal. eapply (IH ltac:(destruct (slot_busy x); [by inversion Hnd | done]) i j); done.
Qed.

Lemma busy_below l i s :
  residue_free l -> l !! i = Some s -> slot_busy s = true -> (i < Z.to_nat max_inflight_out)%nat.
Proof.
  intros Hres Hi Hb. destruct (decide (i < Z.to_nat max_inflight_out)%nat) as [|Hge]; [done|]. exfalso.
  unfold residue_free in Hres. eapply Forall_lookup_1 with (i := (i - Z.to_nat max_inflight_out)%nat) (x := s) in Hres.
  - unfold slot_busy in Hb. by rewrite Hres in Hb.
  - rewrite lookup_drop. rewrite <- Hi. f_equal. lia.
Qed.

Lemma find_outbound_at c i s :
  outbound_ok (outbound_ c) -> ids_good (ids_in_use c) -> outbound_ c !! i = Some s -> slot_busy s = true ->
  find_outbound (slot_packet_id s) c = Some i.
Proof.
  intros (_ & _ & Hres) [Hnd _] Hi Hb. unfold ids_in_use in Hnd. apply list.NoDup_app in Hnd as (Hnd & _ & _).
  assert (Hh : forall s, slot_busy s = true -> slot_holds (slot_packet_id s) s = true).
  { intros s0 Hs0. unfold slot_holds. rewrite Z.eqb_refl, andb_true_r. exact Hs0. }
  destruct (find_outbound (slot_packet_id s) c) as [j|] eqn:Ef.
  - apply find_outbound_Some in Ef as (s' & Hj & _ & Hb' & Hid & _). f_equal. symmetry.
    eapply (slot_ids_unique (outbound_ c)); try done.
  - exfalso. pose proof (busy_below _ _ _ Hres Hi Hb) as Hlt. unfold find_outbound in Ef.
    eapply find_index_None in Ef; [by rewrite Hh in Ef|]. apply list_elem_of_lookup. exists i. by rewrite lookup_take_lt.
Qed.
End tables.

Section talk.
Context {Cfg : Config} {COK : ConfigOk Cfg} {CS : ConfigSane Cfg}.
Context `{WS : WideSizeT} `{BWO : ByteStreamWriterOk} `{BRO : ByteStreamReaderOk}.
Context {E : Type} {T : Transport E} {CK : Clock E} {TOK : TransportOk E} {P : Peer E} {POK : PeerOk E}.
Implicit Types (c : Client) (e : E) (h : list Event).

(** ** Sending *)

(** Everything queued went out. *)
Definition flushed c e (r : Error) (s : Sys E) : Prop :=
  r = Ok /\
  (exists q t, cl s = c <| tx_ := q |> <| last_sent_ms_ := t |> /\ tx_peek q = [] /\
     (t = last_sent_ms_ c \/ clock_at e <= t <= clock_at (env s))) /\
  accepted (env s) = accepted e ++ tx_peek (tx_ c) /\ delivered (env s) = delivered e /\ later e (env s).

Lemma pump_tx_flushes c e h :
  tx_wf tx_buffer_size (tx_ c) -> in_time e -> linked e -> wp False pump_tx (flushed c e) (mkSys c e h).
Proof.
  assert (Hloop : forall fuel c e h, tx_wf tx_buffer_size (tx_ c) -> in_time e -> linked e ->
    tx_pending (tx_ c) < Z.of_nat fuel ->
    wp False (pump_tx_loop fuel) (flushed c e) (mkSys c e h)).
  { clear c e h. induction fuel as [|fuel IH]; intros c e h Htx Ht Hli Hf; [unfold tx_wf, tx_pending in *; lia|].
    cbn [pump_tx_loop]. wp_run. destruct (tx_empty (tx_ c)) eqn:Ee.
    { apply (tx_empty_peek tx_buffer_size) in Ee; [|done]. wp_run. split; [done|]. rewrite Ee, app_nil_r.
      split; [|by split_and!; [..|apply later_refl]].
      exists (tx_ c), (last_sent_ms_ c). split_and!; [by destruct c | done | by left]. }
    assert (Hne : tx_peek (tx_ c) <> []) by (intros Hn; apply (tx_empty_peek tx_buffer_size) in Hn; [congruence | done]).
    destruct (peer_send (tx_peek (tx_ c)) e Ht Hli Hne) as (n & e1 & Hsend & Hn & Hacc & Hdel & Hl1).
    wp_run. rewrite Hsend. cbn [fst snd]. wp_run. replace (n =? 0) with false by (symmetry; apply Z.eqb_neq; lia). wp_run.
    destruct (peer_now e1 (later_in_time _ _ Hl1)) as (e2 & Hnow & Hl2 & Hacc2 & Hdel2). rewrite Hnow. cbn [fst snd].
    pose proof (tx_consume_repr tx_buffer_size n (tx_ c) _ ltac:(lia) (conj Htx eq_refl)) as [Hq Hp].
    pose proof (later_trans _ _ _ Hl1 Hl2) as Hl.
    eapply wp_mono; [apply IH; [done | by eapply later_in_time | by eapply later_linked|]|].
    - cbn. rewrite <- (zlen_tx_peek _ _ Hq), Hp, zlen_zdrop by lia. rewrite (zlen_tx_peek _ _ Htx). lia.
    - intros r s (-> & (q & t & Hc & Hpk & Htm) & Ha & Hd & Hls). cbn in Ha, Hc, Htm. split; [done|].
      split; [|split_and!].
      + exists q, t. split_and!; [by rewrite Hc | done|]. right. unfold later, elapses in *. lia.
      + rewrite Ha, Hacc2, Hacc, <- app_assoc, Hp. by rewrite ztake_zdrop.
      + congruence.
      + by eapply later_trans. }
  intros Htx Ht Hli. unfold pump_tx. wp_run. apply Hloop; [done | done | done|]. unfold tx_wf, tx_pending in *. lia.
Qed.

(** ** The client's half *)

(** The link is there, or can be had, and no timer is about to expire. *)
Record alive c e : Prop := {
  al_time : window_start <= clock_at e <= window_end;
  al_ping : ping_outstanding_ c = false;
  al_keep : 0 <= keep_alive_ms_ c /\
    (keep_alive_ms_ c = 0 \/ window_end - window_start < keep_alive_ms_ c - keep_alive_ms_ c / 4);
  al_last : window_start <= last_sent_ms_ c <= clock_at e;
  al_link : match state_ c with Connecting => dialable e | _ => linked e end;
}.

(** The stored packets were sent in the window. *)
Definition slots_recent c e : Prop :=
  Forall (fun s => slot_busy s = true -> window_start <= slot_last_sent_ms s <= clock_at e) (outbound_ c).

(** The acknowledgements on their way are [inc], the packets still queued are
    [ups], and together they settle what the table awaits. *)
Record talking (inc : list Ack) (ups : list Up) c e h : Prop := {
  tk_ok : sys_ok (mkSys c e h);
  tk_state : state_ c = Connected;
  tk_forced : retransmit_now_ c = false;
  tk_subs : subscriptions_ c = [];
  tk_alive : alive c e;
  tk_slots : slots_recent c e;
  tk_sent : exists o sent, connect_wf o /\ Forall up_wf sent /\
    accepted e = connect_packet o ++ concat (up_bytes <$> sent);
  tk_queue : tx_peek (tx_ c) = concat (up_bytes <$> ups);
  tk_ups : Forall up_wf ups;
  tk_awaits : inc ++ omap reply ups ≡ₚ awaits (outbound_ c);
}.

(** What the broker has said that the client has not got. *)
Definition waiting e : list Z := zdrop (zlen (delivered e)) (answers (accepted e)).

Record arriving c e (bytes : list Z) : Prop := {
  ar_prefix : answers (accepted e) = delivered e ++ waiting e;
  ar_bytes : held c ++ waiting e = bytes;
}.

Lemma waiting_app e rest : answers (accepted e) = delivered e ++ rest -> waiting e = rest.
Proof. intros Ha. unfold waiting. by rewrite Ha, zdrop_app_zlen. Qed.

Lemma arriving_app e c rest : answers (accepted e) = delivered e ++ rest -> arriving c e (held c ++ rest).
Proof. intros Ha. split; rewrite (waiting_app _ _ Ha); done. Qed.

Lemma alive_later c e e' : alive c e -> later e e' -> alive c e'.
Proof.
  intros [Ht Hp Hk Hl Hli] (Hle & Hlk & Hdi). unfold elapses in Hle. split; try done; try lia. destruct (state_ c); auto.
Qed.

Lemma slots_later c e e' : slots_recent c e -> later e e' -> slots_recent c e'.
Proof.
  intros Hs (Hle & _). unfold elapses in Hle. eapply Forall_impl; [|exact Hs]. cbn. intros s Hb ?. specialize (Hb ltac:(done)). lia.
Qed.

Lemma in_time_alive c e : alive c e -> in_time e.
Proof. intros [? _ _ _ _]. unfold in_time. lia. Qed.

Lemma linked_alive c e : alive c e -> state_ c <> Connecting -> linked e.
Proof. intros [_ _ _ _ Hl] Hst. by destruct (state_ c). Qed.

(** The flush hands the queued packets to the broker, which answers them. *)
Lemma talking_flush inc ups bytes c e h :
  talking inc ups c e h -> arriving c e bytes ->
  wp False pump_tx (fun r s => r = Ok /\ talking (inc ++ omap reply ups) [] (cl s) (env s) (history s) /\
    arriving (cl s) (env s) (bytes ++ concat (ack_bytes <$> omap reply ups)) /\
    held (cl s) = held c /\ outbound_ (cl s) = outbound_ c /\ in_step_ (cl s) = in_step_ c /\
    on_delivery_ (cl s) = on_delivery_ c /\ delays (env s) <= delays e) (mkSys c e h).
Proof.
  intros [Hok Hst Hfo Hsu Hal Hsl (o & sent & Ho & Hwf & Hacc) Hq Hups Haw] [Hpre Hby].
  eapply wp_mono; [apply wp_and; [apply pump_tx_flushes | apply pump_tx_wp]|].
  { by open_ok Hok. } { by eapply in_time_alive. } { eapply linked_alive; [done | congruence]. } { exact Hok. } { congruence. }
  intros r [c' e' h'] [(-> & (q & t & Hc & Hpk & Htm) & Ha & Hd & Hl) [Hok' _]]. cbn [cl env history] in *. subst c'.
  assert (Hsent : accepted e' = connect_packet o ++ concat (up_bytes <$> sent ++ ups)).
  { by rewrite Ha, Hacc, Hq, fmap_app, concat_app, <- app_assoc. }
  assert (Hans : answers (accepted e') = delivered e' ++ waiting e ++ concat (ack_bytes <$> omap reply ups)).
  { rewrite Hsent, answers_ok by (done || by apply Forall_app). rewrite omap_app, fmap_app, concat_app.
    rewrite Hacc, answers_ok in Hpre by done. rewrite Hd, !app_assoc. f_equal. by rewrite <- Hpre. }
  split; [done|]. split; [|split_and!; try done; try (unfold later, elapses in Hl; cbn; lia)].
  - split; try done.
    + destruct (alive_later _ _ _ Hal Hl) as [? ? ? ? ?]. destruct Hal. split; try done. cbn. unfold later, elapses in *. lia.
    + by eapply slots_later.
    + exists o, (sent ++ ups). split_and!; [done | by apply Forall_app | done].
    + cbn. by rewrite app_nil_r.
  - split; rewrite (waiting_app _ _ Hans); [done|]. by rewrite <- Hby, <- app_assoc.
Qed.

(** ** Receiving acknowledgements *)
Context (callback : Callback -> M E unit).

(** The handlers watch. *)
Definition watches : Prop := forall cb c e h, exists e',
  callback cb (mkSys c e h) = Some (tt, mkSys c e' (h ++ [EvCall cb])) /\ (in_time e -> same_link e e').

Context (Hcb : watches).

Lemma watches_ok cb : cb_ok False callback cb.
Proof.
  intros [c e h] Hok _. destruct (Hcb cb c e h) as (e' & Hrun & _). unfold wp. rewrite Hrun.
  split; [|done]. by apply (sys_ok_call cb c e' h).
Qed.

Definition stays c e (s : Sys E) : Prop :=
  same_link e (env s) /\ rx_ (cl s) = rx_ c /\ rx_len_ (cl s) = rx_len_ c /\ in_step_ (cl s) = in_step_ c /\
  on_delivery_ (cl s) = on_delivery_ c.

Lemma stays_arriving c e s bytes : stays c e s -> arriving c e bytes -> arriving (cl s) (env s) bytes.
Proof.
  intros ((_ & Ha & Hd) & Hr & Hl & _) [Hp Hb]. unfold waiting, held in *.
  split; unfold waiting, held; by rewrite ?Ha, ?Hd, ?Hr, ?Hl.
Qed.

Lemma call_if_watches hd invoke c e h :
  in_time e ->
  wp False (call_if callback hd invoke) (fun _ s => exists e' h', s = mkSys c e' h' /\ same_link e e') (mkSys c e h).
Proof.
  intros Ht. destruct hd as [hd|]; cbn.
  - destruct (Hcb (invoke hd) c e h) as (e' & Hrun & Hs). unfold wp. rewrite Hrun.
    by eexists e', _; split; [|apply Hs].
  - wp_run. exists e, h. split; [done | by apply same_link_refl].
Qed.

(** The slot that awaits the acknowledgement. *)
Lemma awaiting_slot a inc ups c e h :
  talking (a :: inc) ups c e h -> exists i s, outbound_ c !! i = Some s /\ awaited s = Some a /\
    find_outbound (ack_id a) c = Some i /\ slot_at c i = s /\ id_ok (ack_id a) /\ (i < Z.to_nat max_inflight_out)%nat.
Proof.
  intros Htk. assert (Hin : a ∈ awaits (outbound_ c)) by (rewrite <- (tk_awaits _ _ _ _ _ Htk); by left).
  apply elem_of_awaits in Hin as (i & s & Hi & Ha). destruct (awaited_busy _ _ Ha) as [Hb Hid].
  pose proof (tk_ok _ _ _ _ _ Htk) as Hok. open_ok Hok. exists i, s. split_and!; try done.
  - rewrite <- Hid. by apply find_outbound_at.
  - by apply slot_at_Some.
  - rewrite <- Hid. by eapply slot_id_ok.
  - destruct Hout as (_ & _ & Hres). by eapply busy_below.
Qed.

Lemma bytes_ok_be16 id : id_ok id -> bytes_ok (be16 id).
Proof. intros Hid. apply be16_bytes. unfold is_u16, id_ok in *. lia. Qed.

(** The end of an exchange. *)
Lemma talking_complete a wait inc ups c e h :
  talking (a :: inc) ups c e h -> in_step_ c = true ->
  ack_type a = Puback /\ wait = WaitPuback \/ ack_type a = Pubcomp /\ wait = WaitPubcomp ->
  wp False (complete_delivery callback wait (be16 (ack_id a)))
    (fun r s => r = Ok /\ talking inc ups (cl s) (env s) (history s) /\ stays c e s) (mkSys c e h).
Proof.
  intros Htk Hstep Hty. destruct (awaiting_slot _ _ _ _ _ _ Htk) as (i & s & Hi & Ha & Hf & Hat & Hid & _).
  pose proof Htk as [Hok Hst Hfo Hsu Hal Hsl Hsent Hq Hups Haw].
  eapply wp_mono with (Q := fun r s => (r = Ok /\ exists e' h', s = mkSys (c <| outbound_ ::= alter release_slot i |>) e' h' /\
    same_link e e') /\ keeps c s).
  - apply wp_and.
    + unfold complete_delivery. rewrite decode_packet_id_be16 by (unfold is_u16, id_ok in *; lia). wp_run. rewrite Hf, Hat.
      assert (Hw : Phase_eqb (slot_phase s) wait = true).
      { unfold awaited in Ha. destruct (slot_phase s); try done; injection Ha as <-; destruct Hty as [[? ->]|[? ->]]; done. }
      rewrite Hw. cbn [negb]. wp_run. eapply wp_mono; [apply call_if_watches; by eapply in_time_alive|].
      intros [] s' Hs. wp_run. by split.
    + apply complete_delivery_wp; [intros cb _; apply watches_ok | by apply bytes_ok_be16 | done | done].
  - intros r s' [(-> & e' & h' & -> & Hs) [Hok' _]]. split; [done|]. cbn [cl env history]. split; [|by split_and!].
    destruct Hs as (Hl & Hacc & Hdel). split; try done.
    + destruct (alive_later _ _ _ Hal Hl). by split.
    + apply Forall_alter; [by eapply slots_later | done].
    + by rewrite Hacc.
    + change (inc ++ omap reply ups ≡ₚ awaits (alter release_slot i (outbound_ c))).
      rewrite (alter_lookup_insert _ _ _ _ Hi). destruct (awaits_insert _ _ _ (release_slot s) Hi) as (rest & R1 & R2).
      rewrite R2. rewrite Ha in R1. rewrite R1 in Haw. by apply Permutation_cons_inv in Haw.
Qed.

(** The table after a PUBREC that found room for its PUBREL. *)
Definition pubrel_sent (t : Z) (s : OutboundSlot) : OutboundSlot :=
  pubrel_slot (ack_packet Pubrel (slot_packet_id s) ++ zdrop 4 (slot_packet s)) 4 s <| slot_last_sent_ms := t |>.

Lemma pubrec_run i s c e h :
  sys_ok (mkSys c e h) -> outbound_ c !! i = Some s -> slot_phase s = WaitPubrec -> in_time e ->
  zlen (tx_peek (tx_ c)) + 4 <= tx_buffer_size ->
  wp False (handle_pubrec (be16 (slot_packet_id s))) (fun r s' => r = Ok /\ exists q e',
    s' = mkSys (c <| tx_ := q |> <| outbound_ ::= alter (pubrel_sent (clock_at e')) i |>) e' h /\
    tx_peek q = tx_peek (tx_ c) ++ ack_packet Pubrel (slot_packet_id s) /\ same_link e e') (mkSys c e h).
Proof.
  intros Hok Hi Hph Ht Hroom. assert (Hb : slot_busy s = true) by (unfold slot_busy, slot_free; by rewrite Hph).
  assert (Hid : id_ok (slot_packet_id s)) by (open_ok Hok; by eapply slot_id_ok).
  assert (Hf : find_outbound (slot_packet_id s) c = Some i) by (open_ok Hok; by apply find_outbound_at).
  assert (Hsl : slot_ok s) by (open_ok Hok; by eapply outbound_ok_lookup).
  assert (Hmax : (i < Z.to_nat max_inflight_out)%nat) by (open_ok Hok; destruct Hout as (_ & _ & ?); by eapply busy_below).
  pose proof (persist_room i Hmax) as Hbig. set (id := slot_packet_id s) in *.
  unfold handle_pubrec. rewrite decode_packet_id_be16 by (unfold is_u16, id_ok in *; lia). wp_run.
  rewrite Hf, (slot_at_Some _ _ _ Hi), Hph.
  destruct (encode_ack_encodes Pubrel id eq_refl ltac:(unfold is_u16, id_ok in *; lia) ltac:(unfold id_ok in *; lia) (slot_packet s)) as [Henc _].
  change (wire_packet Pubrel false AtMostOnce false (be16 id)) with (ack_packet Pubrel id) in Henc.
  rewrite zlen_ack_packet in Henc. rewrite Henc by (destruct Hsl as [-> _]; lia). wp_run. rewrite !outbound_alter_alter.
  unfold resend_slot. wp_run. erewrite slot_at_Some by (cbn; by rewrite list_lookup_alter_eq, Hi).
  destruct (pubrel_slot_ok s id Hsl eq_refl ltac:(lia)) as [_ Hst]. cbn in Hst. unfold stored in Hst. cbn in Hst.
  cbn [compose slot_packet slot_packet_len update_field]. cbn. rewrite Hst.
  apply wp_enqueue; [by open_ok Hok | |cbn; rewrite zlen_ack_packet; lia].
  intros q [_ Hq] _. cbn in Hq. wp_run. destruct (peer_now e Ht) as (e' & Hnow & Hs). rewrite Hnow. cbn [fst snd].
  split; [done|]. exists q, e'. split; [|by rewrite Hq]. rewrite outbound_tx_comm, outbound_alter_alter.
  f_equal. unfold update_field. f_equal. rewrite !(alter_lookup_insert _ _ _ _ Hi). done.
Qed.

(** A QoS 2 exchange moves on. *)
Lemma talking_pubrec a inc ups c e h :
  talking (a :: inc) ups c e h -> ack_type a = Pubrec -> zlen (tx_peek (tx_ c)) + 4 <= tx_buffer_size ->
  wp False (handle_pubrec (be16 (ack_id a)))
    (fun r s => r = Ok /\ talking inc (ups ++ [UpPubrel (ack_id a)]) (cl s) (env s) (history s) /\ stays c e s) (mkSys c e h).
Proof.
  intros Htk Hty Hroom. destruct (awaiting_slot _ _ _ _ _ _ Htk) as (i & s & Hi & Ha & Hf & Hat & Hid & _).
  pose proof Htk as [Hok Hst Hfo Hsu Hal Hsl Hsent Hq Hups Haw].
  assert (Hph : slot_phase s = WaitPubrec /\ slot_packet_id s = ack_id a).
  { unfold awaited in Ha. destruct (slot_phase s); try done; injection Ha as <-; done. }
  destruct Hph as [Hph Hsid]. rewrite <- Hsid. eapply wp_mono.
  { apply wp_and; [apply (pubrec_run i s c e h); try done; by eapply in_time_alive|].
    apply (handle_pubrec_wp False); [rewrite Hsid; by apply bytes_ok_be16 | done | congruence]. }
  intros r s' [(-> & q & e' & -> & Hpk & Hs) [Hok' _]]. split; [done|]. cbn [cl env history]. split; [|by split_and!].
  destruct Hs as (Hl & Hacc & Hdel). split; try done.
  - destruct (alive_later _ _ _ Hal Hl). by split.
  - apply Forall_alter; [by eapply slots_later|]. cbn. intros. unfold later, elapses in *. destruct Hal. lia.
  - by rewrite Hacc.
  - cbn. rewrite Hpk, Hq, fmap_app, concat_app. cbn. by rewrite app_nil_r.
  - apply Forall_app. split; [done|]. constructor; [|done]. cbn. by rewrite Hsid.
  - change (inc ++ omap reply (ups ++ [UpPubrel (slot_packet_id s)]) ≡ₚ awaits (alter (pubrel_sent (clock_at e')) i (outbound_ c))).
    rewrite (alter_lookup_insert _ _ _ _ Hi). destruct (awaits_insert _ _ _ (pubrel_sent (clock_at e') s) Hi) as (rest & R1 & R2).
    rewrite R2. rewrite Ha in R1. rewrite R1 in Haw. apply Permutation_cons_inv in Haw.
    rewrite omap_app, app_assoc. cbn. rewrite Haw. by rewrite Permutation_app_comm.
Qed.

(** What is received of the queue's room: each acknowledgement may ask for a
    PUBREL. *)
Definition roomy (inc : list Ack) c : Prop := zlen (tx_peek (tx_ c)) + 4 * zlen inc <= tx_buffer_size.

Definition next_ups (a : Ack) (ups : list Up) : list Up :=
  if PacketType_eqb (ack_type a) Pubrec then ups ++ [UpPubrel (ack_id a)] else ups.

Lemma awaited_type s a : awaited s = Some a -> In (ack_type a) [Puback; Pubrec; Pubcomp].
Proof. unfold awaited. destruct (slot_phase s); try done; intros [= <-]; cbn; auto. Qed.

Lemma talking_packet a inc ups c e h hd :
  talking (a :: inc) ups c e h -> roomy (a :: inc) c -> in_step_ c = true -> fh_type hd = ack_type a ->
  wp False (handle_packet callback hd (be16 (ack_id a)))
    (fun r s => r = Ok /\ talking inc (next_ups a ups) (cl s) (env s) (history s) /\ stays c e s) (mkSys c e h).
Proof.
  intros Htk Hroom Hstep Hty. destruct (awaiting_slot _ _ _ _ _ _ Htk) as (i & s & _ & Ha & _).
  unfold handle_packet, next_ups. rewrite Hty. apply awaited_type in Ha as [Ea|[Ea|[Ea|[]]]]; rewrite <- Ea.
  - apply (talking_complete a WaitPuback); [done | done | by left].
  - apply talking_pubrec; [done | done|]. unfold roomy in Hroom. rewrite zlen_cons in Hroom. pose proof (zlen_nonneg inc). lia.
  - apply (talking_complete a WaitPubcomp); [done | done | by right].
Qed.

Lemma roomy_next a inc ups c e h s :
  talking (a :: inc) ups c e h -> talking inc (next_ups a ups) (cl s) (env s) (history s) -> roomy (a :: inc) c -> roomy inc (cl s).
Proof.
  intros Htk Htk' Hr. unfold roomy in *. rewrite zlen_cons in Hr.
  rewrite (tk_queue _ _ _ _ _ Htk'), (tk_queue _ _ _ _ _ Htk) in *. unfold next_ups.
  case_if; [|lia]. rewrite fmap_app, concat_app, zlen_app. cbn. rewrite app_nil_r, zlen_ack_packet. lia.
Qed.

(** ** Draining the buffer *)
Lemma talking_event inc ups c e h hd body : talking inc ups c e h -> talking inc ups c e (h ++ [EvPacket hd body]).
Proof. intros [Hok ? ? ? ? ? ? ? ? ?]. split; try done. by apply sys_ok_packet. Qed.

Lemma talking_consumed inc ups c e h k :
  talking inc ups c e h -> in_step_ c = true -> 0 < k <= rx_len_ c -> talking inc ups (consumed k c) e h.
Proof.
  intros [Hok ? ? ? Hal ? ? ? ? ?] Hs Hk. unfold consumed.
  pose proof (stepping_consume c e h k (conj Hok Hs) Hk) as [Hok' _]. cbv zeta in Hok' |- *.
  destruct (rx_len_ c - k >? 0); (split; try done); destruct Hal; by split.
Qed.

Lemma arriving_consumed c e k bytes :
  rx_ok (rx_ c) (rx_len_ c) -> 0 < k <= rx_len_ c -> arriving c e bytes -> arriving (consumed k c) e (zdrop k bytes).
Proof.
  intros Hrx Hk [Hp Hb]. destruct (held_consumed k c Hrx Hk) as [Hh _]. split; [done|]. rewrite Hh, <- Hb.
  rewrite zdrop_app_le; [done|]. unfold held. destruct Hrx as (Hz & _ & Hl). rewrite zlen_ztake; lia.
Qed.

Lemma id_u16 id : id_ok id -> is_u16 id.
Proof. unfold id_ok, is_u16. lia. Qed.

(** A packet that has begun. *)
Lemma peek_partial t id k :
  In t [Connack; Puback; Pubrec; Pubcomp] -> is_u16 id -> 0 < k < 4 ->
  match peek_header (ztake k (ack_packet t id)) with Err er => er = Incomplete | Val p => peek_total_bytes p = 4 end.
Proof.
  intros Ht Hid Hk.
  assert (Hw : ack_packet t id = to_byte (mkFixedHeader t false AtMostOnce false 2) :: 2 :: be16 id) by done.
  assert (Hfb : from_byte (to_byte (mkFixedHeader t false AtMostOnce false 2)) = Val (mkFixedHeader t false AtMostOnce false 0)).
  { rewrite (to_byte_length _ _ _ _ _ 0). apply to_byte_from_byte. by destruct Ht as [<-|[<-|[<-|[<-|[]]]]]. }
  rewrite Hw. assert (k = 1 \/ k = 2 \/ k = 3) as [->|Hk'] by lia.
  { change (ztake 1 (?b :: ?l)) with [b]. cbn [peek_header]. by rewrite Hfb. }
  assert (Hz : exists rest, bytes_ok rest /\ ztake k (to_byte (mkFixedHeader t false AtMostOnce false 2) :: 2 :: be16 id) =
    to_byte (mkFixedHeader t false AtMostOnce false 2) :: vbi_wire 2 ++ rest).
  { destruct Hk' as [->| ->]; [exists []; split; [constructor | done]|]. exists (ztake 1 (be16 id)). split; [|done]. by apply bytes_ok_take, be16_bytes. }
  destruct Hz as (rest & Hrest & ->). cbn [peek_header]. rewrite Hfb. change (zdrop 1 (?b :: ?l)) with l.
  rewrite (vbi_decode_wire 2 rest) by (done || apply vbi_ok_2). cbn.
  by rewrite (size_t_small (1 + 1)), size_t_small by lia.
Qed.

Lemma peek_whole t id rest :
  In t [Connack; Puback; Pubrec; Pubcomp] -> is_u16 id -> bytes_ok rest ->
  peek_header (ack_packet t id ++ rest) = Val (mkPacketPeek (mkFixedHeader t false AtMostOnce false 2) 2 4).
Proof.
  intros Ht Hid Hr. unfold ack_packet. rewrite peek_header_wire; [done | | apply vbi_ok_2 | by apply be16_bytes | done].
  by destruct Ht as [<-|[<-|[<-|[<-|[]]]]].
Qed.

(** The bytes held, as the packets expected. *)
Lemma held_ack a inc ups c e h :
  talking (a :: inc) ups c e h -> arriving c e (concat (ack_bytes <$> a :: inc)) ->
  id_ok (ack_id a) /\ In (ack_type a) [Puback; Pubrec; Pubcomp] /\
  if 4 <=? rx_len_ c then exists rest, held c = ack_packet (ack_type a) (ack_id a) ++ rest
  else held c = ztake (rx_len_ c) (ack_packet (ack_type a) (ack_id a)).
Proof.
  intros Htk [_ Hb]. destruct (awaiting_slot _ _ _ _ _ _ Htk) as (i & s & _ & Ha & _ & _ & Hid & _).
  split; [done|]. split; [by eapply awaited_type|]. pose proof (tk_ok _ _ _ _ _ Htk) as Hok. open_ok Hok.
  destruct Hrx as (Hz & _ & Hl). assert (Hlen : zlen (held c) = rx_len_ c) by (unfold held; rewrite zlen_ztake; lia).
  cbn in Hb. change (ack_bytes a) with (ack_packet (ack_type a) (ack_id a)) in Hb. set (pkt := ack_packet _ _) in *.
  pose proof (zlen_ack_packet (ack_type a) (ack_id a)) as H4. fold pkt in H4. case_if; zbool.
  - exists (zdrop 4 (held c)). rewrite <- (ztake_zdrop 4 (held c)) at 1. f_equal.
    assert (Ht : ztake 4 (held c ++ waiting e) = ztake 4 (pkt ++ concat (ack_bytes <$> inc))) by (by rewrite Hb).
    rewrite ztake_app_le in Ht by lia. by rewrite Ht, <- H4, ztake_app_zlen.
  - assert (Ht : ztake (rx_len_ c) (held c ++ waiting e) = ztake (rx_len_ c) (pkt ++ concat (ack_bytes <$> inc))) by (by rewrite Hb).
    rewrite !ztake_app_le in Ht by lia. rewrite <- Ht. symmetry. apply ztake_all. lia.
Qed.

(** Not enough of a packet to go on. *)
Lemma drain_round_stops inc ups c e h :
  talking inc ups c e h -> arriving c e (concat (ack_bytes <$> inc)) -> rx_len_ c < 4 ->
  drain_round callback (mkSys c e h) = Some (Some Ok, mkSys c e h).
Proof.
  intros Htk Har Hlt. unfold drain_round. rewrite get_run. destruct (rx_len_ c =? 0) eqn:E0; [done|]. zbool.
  pose proof (tk_ok _ _ _ _ _ Htk) as Hok. open_ok Hok. destruct Hrx as (Hz & _ & Hl).
  destruct inc as [|a inc].
  { destruct Har as [_ Hb]. cbn in Hb. apply app_eq_nil in Hb as [Hh _]. assert (Hz0 : zlen (held c) = 0) by (by rewrite Hh).
    unfold held in Hz0. rewrite zlen_ztake in Hz0; lia. }
  destruct (held_ack _ _ _ _ _ _ Htk Har) as (Hid & Hty & Hh). rewrite (proj2 (Z.leb_gt _ _) Hlt) in Hh.
  fold (held c). rewrite Hh. pose proof (peek_partial (ack_type a) (ack_id a) (rx_len_ c) (or_intror Hty) (id_u16 _ Hid) ltac:(lia)) as Hp.
  destruct (peek_header _) as [p|er]; [|by rewrite Hp]. rewrite Hp. pose proof config_facts as (? & _).
  destruct (4 >? rx_buffer_size) eqn:E1; zbool; [lia|]. by rewrite (proj2 (Z.ltb_lt _ _) Hlt).
Qed.

(** A whole packet with a body of two bytes. *)
Lemma drain_round_packet t w rest c e h (Q : Sys E -> Prop) :
  let hd := mkFixedHeader t false AtMostOnce false 2 in
  rx_ok (rx_ c) (rx_len_ c) -> In t [Connack; Puback; Pubrec; Pubcomp] -> is_u16 w -> held c = ack_packet t w ++ rest ->
  wp False (handle_packet callback hd (be16 w)) (fun r s => r = Ok /\ rx_len_ (cl s) = rx_len_ c /\
    Q (mkSys (consumed 4 (cl s)) (env s) (history s))) (mkSys c e (h ++ [EvPacket hd (be16 w)])) ->
  wp False (drain_round callback) (fun r s => r = None /\ Q s) (mkSys c e h).
Proof.
  intros hd (Hz & Hb & Hl) Ht Hw Hh Hrun. pose proof config_facts as (Hbuf & _).
  assert (Hrest : bytes_ok rest).
  { assert (Hhb : bytes_ok (held c)) by (by apply bytes_ok_take). rewrite Hh in Hhb. by apply bytes_ok_app in Hhb as [_ ?]. }
  assert (Hle : 4 <= rx_len_ c).
  { assert (Hlen : zlen (held c) = rx_len_ c) by (unfold held; rewrite zlen_ztake; lia).
    rewrite <- Hlen, Hh, zlen_app, zlen_ack_packet. pose proof (zlen_nonneg rest). lia. }
  unfold drain_round. wp_run. destruct (rx_len_ c =? 0) eqn:E0; zbool; [lia|].
  fold (held c). rewrite Hh, (peek_whole _ _ _ Ht Hw Hrest). cbn [peek_total_bytes peek_hdr peek_header_bytes fh_remaining_length].
  destruct (4 >? rx_buffer_size) eqn:E1; zbool; [lia|]. destruct (rx_len_ c <? 4) eqn:E2; zbool; [lia|]. wp_run.
  assert (Hbody : ztake 2 (zdrop 2 (rx_ c)) = be16 w).
  { rewrite <- (ztake_zdrop (rx_len_ c) (rx_ c)). fold (held c). rewrite Hh. reflexivity. }
  rewrite Hbody. eapply wp_mono; [exact Hrun|]. intros r [c' e' h'] (-> & Hlen & HQ). cbn [cl env history] in *. wp_run.
  rewrite Hlen, (proj2 (Z.ltb_ge _ _) Hle). unfold consumed in HQ. cbv zeta in HQ. rewrite Hlen in HQ.
  destruct (rx_len_ c - 4 >? 0); wp_run; rewrite ?Hlen; (split; [done | exact HQ]).
Qed.

Lemma drain_round_takes a inc ups c e h :
  talking (a :: inc) ups c e h -> arriving c e (concat (ack_bytes <$> a :: inc)) -> roomy (a :: inc) c ->
  in_step_ c = true -> 4 <= rx_len_ c ->
  wp False (drain_round callback) (fun r s => r = None /\
    talking inc (next_ups a ups) (cl s) (env s) (history s) /\
    arriving (cl s) (env s) (concat (ack_bytes <$> inc)) /\ in_step_ (cl s) = true /\ roomy inc (cl s) /\
    rx_len_ (cl s) = rx_len_ c - 4 /\ on_delivery_ (cl s) = on_delivery_ c /\ delays (env s) <= delays e) (mkSys c e h).
Proof.
  intros Htk Har Hroom Hstep Hle. destruct (held_ack _ _ _ _ _ _ Htk Har) as (Hid & Hty & Hh).
  rewrite (proj2 (Z.leb_le _ _) Hle) in Hh. destruct Hh as [rest Hh].
  assert (Hrx : rx_ok (rx_ c) (rx_len_ c)) by (by pose proof (tk_ok _ _ _ _ _ Htk) as Hok; open_ok Hok).
  eapply drain_round_packet; [done | by right | by apply id_u16 | exact Hh|]. eapply wp_mono.
  { apply (talking_packet a inc ups); [by apply talking_event | done | done | done]. }
  intros r [c' e' h'] (-> & Htk' & Hstay). pose proof Hstay as (((Hel & _) & _) & Hr1 & Hr2 & Hr3 & Hr4). unfold elapses in Hel. cbn [cl env history] in *.
  split; [done|]. split; [done|]. split; [apply talking_consumed; [done | congruence | lia]|].
  pose proof (stays_arriving _ _ _ _ Hstay Har) as Har'.
  pose proof (arriving_consumed c' e' 4 _ ltac:(by rewrite Hr1, Hr2) ltac:(lia) Har') as Har2.
  cbn in Har2. change (ack_bytes a) with (ack_packet (ack_type a) (ack_id a)) in Har2.
  rewrite <- (zlen_ack_packet (ack_type a) (ack_id a)), zdrop_app_zlen in Har2.
  pose proof (roomy_next a inc ups c e h (mkSys c' e' h') Htk Htk' Hroom) as Hroom'.
  split; [exact Har2|]. unfold consumed. cbv zeta. destruct (rx_len_ c' - 4 >? 0); cbn; split_and!; try done; congruence || lia.
Qed.

(** ** What there is still to do *)

(** A measure in bytes: each acknowledgement awaited, twice and one more for a
    PUBREC, which a PUBCOMP follows; the CONNACK; less what is held of them; and
    what the link may still keep the client waiting. *)
Definition weight (a : Ack) : Z := if PacketType_eqb (ack_type a) Pubrec then 9 else 4.

Definition weigh (l : list Ack) : Z := foldr (fun a n => weight a + n) 0 l.

Definition unanswered (st : State) : Z := match st with Connecting | AwaitingConnack => 4 | _ => 0 end.

Definition todo c e : Z := weigh (awaits (outbound_ c)) + unanswered (state_ c) - rx_len_ c + delays e.

#[global] Instance weigh_proper : Proper ((≡ₚ) ==> eq) weigh.
Proof. intros l k Hlk. unfold weigh. induction Hlk; cbn; lia. Qed.

Lemma weigh_app l k : weigh (l ++ k) = weigh l + weigh k.
Proof. unfold weigh. induction l as [|a l IH]; cbn in *; lia. Qed.

Lemma todo_talking inc ups c e h :
  talking inc ups c e h -> todo c e = weigh (inc ++ omap reply ups) - rx_len_ c + delays e.
Proof. intros Htk. unfold todo. rewrite <- (tk_awaits _ _ _ _ _ Htk), (tk_state _ _ _ _ _ Htk). cbn. lia. Qed.

Lemma later_delays e e' : later e e' -> delays e' <= delays e.
Proof. by intros [[_ ?] _]. Qed.

Lemma weigh_next a inc ups :
  weigh (inc ++ omap reply (next_ups a ups)) + 4 <= weigh ((a :: inc) ++ omap reply ups).
Proof.
  rewrite !weigh_app. unfold next_ups. cbn [weigh foldr app]. fold (weigh inc). unfold weight.
  case_if; [|lia]. rewrite omap_app, weigh_app. cbn.
  change (weight _) with 4. lia.
Qed.

(** The handler for deliveries stays, nothing new is awaited, and there is not
    more to do. *)
Definition onward c e c' e' : Prop :=
  todo c' e' <= todo c e /\ on_delivery_ c' = on_delivery_ c /\
  (awaits (outbound_ c) = [] -> awaits (outbound_ c') = []).

Lemma onward_trans c1 e1 c2 e2 c3 e3 : onward c1 e1 c2 e2 -> onward c2 e2 c3 e3 -> onward c1 e1 c3 e3.
Proof. unfold onward. intros (? & ? & ?) (? & ? & ?). split_and!; [lia | congruence | auto]. Qed.

Lemma onward_same c c' e e' :
  outbound_ c' = outbound_ c -> state_ c' = state_ c -> rx_len_ c' = rx_len_ c -> on_delivery_ c' = on_delivery_ c ->
  delays e' <= delays e -> onward c e c' e'.
Proof. unfold onward, todo. intros -> -> -> -> ?. split_and!; [lia | done | done]. Qed.

(** In a session, while a step runs: everything received so far fits what is
    expected. *)
Definition conversing c e h : Prop := in_step_ c = true /\ exists inc ups,
  talking inc ups c e h /\ arriving c e (concat (ack_bytes <$> inc)) /\ roomy inc c.

(** Draining ends with less than a packet held, and nothing is undone. *)
Definition drained_well c e (r : Error) (s : Sys E) : Prop :=
  r = Ok /\ rx_len_ (cl s) < 4 /\ onward c e (cl s) (env s).

Lemma drain_conversing c e h :
  conversing c e h ->
  wp False (drain_rx callback) (fun r s => conversing (cl s) (env s) (history s) /\ drained_well c e r s) (mkSys c e h).
Proof.
  assert (Hloop : forall fuel c e h, conversing c e h -> rx_len_ c < Z.of_nat fuel ->
    wp False (drain_rx_loop callback fuel)
      (fun r s => conversing (cl s) (env s) (history s) /\ drained_well c e r s) (mkSys c e h)).
  { clear c e h. induction fuel as [|fuel IH]; intros c e h (Hs & inc & ups & Htk & Har & Hroom) Hf.
    { pose proof (tk_ok _ _ _ _ _ Htk) as Hok. open_ok Hok. destruct Hrx as (_ & _ & ?). lia. }
    cbn [drain_rx_loop]. wp_run. destruct (Z.lt_ge_cases (rx_len_ c) 4) as [Hlt|Hge].
    { unfold wp. rewrite (drain_round_stops _ _ _ _ _ Htk Har Hlt). cbn.
      split; [split; [done|]; by exists inc, ups|]. split_and!; [done | done | by apply onward_same]. }
    destruct inc as [|a inc].
    { destruct Har as [_ Hb]. cbn in Hb. apply app_eq_nil in Hb as [Hh _]. exfalso.
      pose proof (tk_ok _ _ _ _ _ Htk) as Hok. open_ok Hok. destruct Hrx as (Hz & _ & Hl).
      assert (Hz0 : zlen (held c) = 0) by (by rewrite Hh). unfold held in Hz0. rewrite zlen_ztake in Hz0; lia. }
    eapply wp_mono; [by apply (drain_round_takes a inc ups)|].
    intros r [c' e' h'] (-> & Htk' & Har' & Hs' & Hroom' & Hlen & Hod & Hdel). cbn [cl env history] in *.
    pose proof (todo_talking _ _ _ _ _ Htk). pose proof (todo_talking _ _ _ _ _ Htk'). pose proof (weigh_next a inc ups).
    assert (Hc' : conversing c' e' h') by (split; [done|]; by exists inc, (next_ups a ups)).
    eapply wp_mono; [apply IH; [done | lia]|].
    intros r s (Hcv & -> & ? & Hon). split; [done|]. split; [done|]. split; [done|]. eapply onward_trans; [|exact Hon].
    split_and!; [lia | done|]. intros Hno. pose proof (tk_awaits _ _ _ _ _ Htk) as Haw. rewrite Hno in Haw.
    by apply Permutation_nil_r in Haw. }
  intros Hc. unfold drain_rx. wp_run. apply Hloop; [done|].
  destruct Hc as (_ & inc & ups & Htk & _). pose proof (tk_ok _ _ _ _ _ Htk) as Hok. open_ok Hok. destruct Hrx as (_ & _ & ?). lia.
Qed.

(** ** The start of a connection *)

(** CONNECT is out, and the CONNACK on its way or just taken; what the table
    keeps from before fits the queue. *)
Record opening c e h : Prop := {
  op_step : in_step_ c = true;
  op_ok : sys_ok (mkSys c e h);
  op_subs : subscriptions_ c = [];
  op_alive : alive c e;
  op_queue : tx_peek (tx_ c) = [];
  op_sent : exists o, connect_wf o /\ accepted e = connect_packet o;
  op_fits : zlen (resends c 0 (Z.to_nat max_inflight_out)) <= tx_buffer_size;
  op_state : state_ c = AwaitingConnack /\ (exists present, arriving c e (connack_bytes present)) /\
               window_start <= connect_started_ms_ c <= clock_at e \/
             state_ c = Connected /\ retransmit_now_ c = true /\ arriving c e [];
}.

(** CONNACK is a packet with a body of two bytes. *)
Definition connack_word (present : bool) : Z := if present then 256 else 0.

Lemma connack_word_bytes present :
  connack_bytes present = ack_packet Connack (connack_word present) /\ is_u16 (connack_word present).
Proof. unfold connack_bytes, connack_word. by destruct present. Qed.

Lemma connack_run present c e h :
  opening c e h -> state_ c = AwaitingConnack ->
  wp False (handle_connack callback (be16 (connack_word present))) (fun r s => r = Ok /\ exists e' h',
    s = mkSys (c <| connack_ := mkConnackInfo Accepted present |> <| state_ := Connected |>
      <| ping_outstanding_ := false |> <| retransmit_now_ := true |>) e' h' /\ same_link e e') (mkSys c e h).
Proof.
  intros Hop Hst. unfold handle_connack. wp_run. rewrite Hst. change (negb (State_eqb _ _)) with false. cbv iota.
  assert (Hd : decode_connack (be16 (connack_word present)) = Val (mkConnackInfo Accepted present))
    by (unfold connack_word; by destruct present).
  rewrite Hd. wp_run. cbn [ci_code ci_session_present]. rewrite bool_decide_true by done. cbn [negb]. wp_run.
  eapply wp_mono with (Q := fun _ s => s = mkSys (c <| connack_ := mkConnackInfo Accepted present |>
    <| state_ := Connected |> <| ping_outstanding_ := false |> <| retransmit_now_ := true |>) e h).
  { destruct present; cbn [negb]; wp_run; [done|]. f_equal. unfold mark_all_resub, update_field. cbn.
    by rewrite (op_subs _ _ _ Hop). }
  intros [] s ->. wp_run. eapply wp_mono; [apply call_if_watches; by eapply in_time_alive, op_alive|].
  intros [] s Hs. wp_run. by split.
Qed.

Lemma opening_held c e h :
  opening c e h -> state_ c = AwaitingConnack ->
  exists present, arriving c e (connack_bytes present) /\
    rx_len_ c <= 4 /\ held c = ztake (rx_len_ c) (ack_packet Connack (connack_word present)).
Proof.
  intros Hop Hst. destruct (op_state _ _ _ Hop) as [(_ & [present Har] & _)|(? & _)]; [|congruence].
  exists present. split; [done|]. destruct Har as [_ Hb].
  pose proof (op_ok _ _ _ Hop) as Hok. open_ok Hok. destruct Hrx as (Hz & _ & Hl).
  assert (Hlen : zlen (held c) = rx_len_ c) by (unfold held; rewrite zlen_ztake; lia).
  rewrite (proj1 (connack_word_bytes present)) in Hb. rewrite <- Hb, <- Hlen. split; [|by rewrite ztake_app_zlen].
  pose proof (zlen_ack_packet Connack (connack_word present)) as H4. rewrite <- Hb, zlen_app in H4. pose proof (zlen_nonneg (waiting e)). lia.
Qed.

Lemma opening_stops c e h :
  opening c e h -> rx_len_ c < 4 -> drain_round callback (mkSys c e h) = Some (Some Ok, mkSys c e h).
Proof.
  intros Hop Hlt. unfold drain_round. rewrite get_run. destruct (rx_len_ c =? 0) eqn:E0; [done|]. zbool.
  pose proof (op_ok _ _ _ Hop) as Hok. open_ok Hok. destruct Hrx as (Hz & _ & Hl).
  destruct (op_state _ _ _ Hop) as [(Hst' & _)|(_ & _ & [_ Hb])].
  2: { apply app_eq_nil in Hb as [Hh _]. assert (Hz0 : zlen (held c) = 0) by (by rewrite Hh).
       unfold held in Hz0. rewrite zlen_ztake in Hz0; lia. }
  destruct (opening_held _ _ _ Hop Hst') as (present & _ & _ & Hh). fold (held c). rewrite Hh.
  pose proof (peek_partial Connack (connack_word present) (rx_len_ c) ltac:(by left) (proj2 (connack_word_bytes present)) ltac:(lia)) as Hp.
  destruct (peek_header _) as [p|er]; [|by rewrite Hp]. rewrite Hp. pose proof config_facts as (? & _).
  destruct (4 >? rx_buffer_size) eqn:E1; zbool; [lia|]. by rewrite (proj2 (Z.ltb_lt _ _) Hlt).
Qed.

Lemma opening_takes c e h :
  opening c e h -> 4 <= rx_len_ c ->
  wp False (drain_round callback) (fun r s => r = None /\ opening (cl s) (env s) (history s) /\
    rx_len_ (cl s) = 0 /\ onward c e (cl s) (env s)) (mkSys c e h).
Proof.
  intros Hop Hle. pose proof (op_ok _ _ _ Hop) as Hok.
  assert (Hrx : rx_ok (rx_ c) (rx_len_ c)) by (by open_ok Hok). pose proof Hrx as (Hz & _ & Hl).
  destruct (op_state _ _ _ Hop) as [(Hst & _)|(_ & _ & [_ Hb])].
  2: { apply app_eq_nil in Hb as [Hh _]. assert (Hz0 : zlen (held c) = 0) by (by rewrite Hh).
       unfold held in Hz0. rewrite zlen_ztake in Hz0; lia. }
  destruct (opening_held _ _ _ Hop Hst) as (present & Har & Hle4 & Hh).
  assert (Hlen : rx_len_ c = 4) by lia. rewrite Hlen, (ztake_all 4), <- (app_nil_r (ack_packet _ _)) in Hh by (by rewrite zlen_ack_packet).
  eapply drain_round_packet; [done | by left | apply (connack_word_bytes present) | exact Hh|].
  eapply wp_mono; [apply wp_and|]; cbn [handle_packet fh_type].
  { apply (connack_run present); [|done]. destruct Hop. split; try done. by apply sys_ok_packet. }
  { apply (handle_connack_wp False); [intros cb _; apply watches_ok | exact (op_step _ _ _ Hop) | by apply sys_ok_packet]. }
  intros r s [(-> & e' & h' & -> & Hs) [Hok' _]]. cbn [cl env history] in *. split; [done|]. split; [done|].
  set (c' := c <| connack_ := _ |> <| state_ := _ |> <| ping_outstanding_ := _ |> <| retransmit_now_ := _ |>) in *.
  assert (Hcons : consumed 4 c' = c' <| rx_len_ := 0 |>) by (unfold consumed; cbn; by rewrite Hlen).
  rewrite Hcons. pose proof Hs as (Hl' & Hacc & Hdel).
  pose proof (stepping_consume c' e' h' 4 (conj Hok' (op_step _ _ _ Hop)) ltac:(cbn; lia)) as [Hok2 _]. cbn in Hok2.
  rewrite Hlen in Hok2. cbn in Hok2.
  split; [|split; [done|]; split; [|done]; change (weigh (awaits (outbound_ c)) + 0 - 0 + delays e' <= todo c e);
    unfold todo; rewrite Hst, Hlen; cbn [unanswered]; unfold later, elapses in Hl'; lia].
  destruct Hop as [Hstep _ Hsu Hal Hq (o & Ho & Hsent) Hfit _]. split; try done.
  - destruct (alive_later _ _ _ Hal Hl') as [? ? ? ? Hli]. split; try done. by rewrite Hst in Hli.
  - exists o. split; [done|]. congruence.
  - right. split; [done|]. split; [done|].
    pose proof (arriving_consumed c e 4 _ Hrx ltac:(lia) Har) as [Hpre Hby].
    split; unfold waiting, held in *; rewrite Hacc, Hdel; [done|].
    rewrite (proj1 (connack_word_bytes present)), (zdrop_all 4) in Hby by (by rewrite zlen_ack_packet).
    apply app_eq_nil in Hby as [_ ->]. done.
Qed.

(** ** Receiving *)
Definition engaged c e h : Prop := conversing c e h \/ opening c e h.

Lemma engaged_facts c e h :
  engaged c e h -> stepping (mkSys c e h) /\ state_ c <> Connecting /\ (in_time e /\ linked e) /\
    answers (accepted e) = delivered e ++ waiting e.
Proof.
  intros [(Hs & inc & ups & Htk & [Hp _] & _)|Hop].
  - pose proof (tk_state _ _ _ _ _ Htk). split_and!; [split; [apply Htk | done] | congruence | by eapply in_time_alive, tk_alive
      | eapply linked_alive; [by eapply tk_alive | congruence] | done].
  - destruct Hop as [Hs Hok _ Hal _ _ _ Hst]. assert (Hne : state_ c <> Connecting) by (destruct Hst as [(? & _)|(? & _)]; congruence).
    split_and!; [by split | done | by eapply in_time_alive | by eapply linked_alive |].
    by destruct Hst as [(_ & [? [? _]] & _)|(_ & _ & [? _])].
Qed.

Lemma drain_engaged c e h :
  engaged c e h ->
  wp False (drain_rx callback) (fun r s => engaged (cl s) (env s) (history s) /\ drained_well c e r s) (mkSys c e h).
Proof.
  intros [Hc|Hop].
  { eapply wp_mono; [by apply drain_conversing|]. intros r s [? ?]. split; [by left | done]. }
  pose proof (op_ok _ _ _ Hop) as Hok. open_ok Hok. destruct Hrx as (_ & _ & Hl).
  assert (Hstop : forall fuel c e h, opening c e h -> rx_len_ c < 4 -> fuel <> 0%nat ->
    drain_rx_loop callback fuel (mkSys c e h) = Some (Ok, mkSys c e h)).
  { intros [|fuel] c1 e1 h1 Hop1 Hlt Hf; [done|]. cbn [drain_rx_loop]. unfold bind. by rewrite opening_stops. }
  unfold drain_rx. wp_run. destruct (Z.lt_ge_cases (rx_len_ c) 4) as [Hlt|Hge].
  { unfold wp. rewrite Hstop by done. split; [by right|]. split_and!; [done | done | by apply onward_same]. }
  cbn [drain_rx_loop]. wp_run. eapply wp_mono; [by apply opening_takes|].
  intros r [c' e' h'] (-> & Hop' & Hlen & Ht). cbn [cl env history] in *. unfold wp. rewrite Hstop by (done || lia).
  split; [by right|]. split_and!; [done | cbn; lia | done].
Qed.

(** The client with [got] behind what it held. *)
Definition with_received (got : list Z) (t : Z) c : Client :=
  c <| rx_ ::= fun rx => splice rx (rx_len_ c) got |> <| rx_len_ ::= fun n => n + zlen got |> <| last_received_ms_ := t |>.

Lemma arriving_recv c e e' got t rest bytes :
  rx_ok (rx_ c) (rx_len_ c) -> arriving c e bytes -> waiting e = got ++ rest ->
  accepted e' = accepted e -> delivered e' = delivered e ++ got -> arriving (with_received got t c) e' bytes.
Proof.
  intros (Hz & _ & Hl) [Hp Hb] Hw Hacc Hdel.
  assert (Ha : answers (accepted e') = delivered e' ++ rest) by (by rewrite Hacc, Hp, Hw, Hdel, app_assoc).
  split; rewrite (waiting_app _ _ Ha); [done|]. unfold held, with_received. cbn.
  rewrite ztake_splice by lia. fold (held c). by rewrite <- app_assoc, <- Hw.
Qed.

Lemma engaged_recv c e e' h got t rest :
  engaged c e h -> waiting e = got ++ rest -> accepted e' = accepted e -> delivered e' = delivered e ++ got ->
  later e e' -> bytes_ok got -> rx_len_ c + zlen got <= rx_buffer_size ->
  engaged (with_received got t c) e' (h ++ [EvRecv got]) /\ todo (with_received got t c) e' <= todo c e - zlen got.
Proof.
  intros He Hw Hacc Hdel Hl Hb Hroom. destruct (engaged_facts _ _ _ He) as (Hst & Hne & _).
  destruct (stepping_recv got t c e e' h Hst Hne Hb Hroom) as [Hok' _].
  assert (Hrx : rx_ok (rx_ c) (rx_len_ c)) by (by destruct Hst as [Hok _]; open_ok Hok).
  split; [|change (weigh (awaits (outbound_ c)) + unanswered (state_ c) - (rx_len_ c + zlen got) + delays e' <= todo c e - zlen got);
    unfold todo; unfold later, elapses in Hl; lia].
  destruct He as [(Hs & inc & ups & Htk & Har & Hro)|Hop].
  - left. split; [done|]. exists inc, ups. destruct Htk as [Hok ? ? ? Hal Hsl Hsent ? ? ?].
    split_and!; [|by eapply arriving_recv | done]. split; try done.
    + destruct (alive_later _ _ _ Hal Hl). by split.
    + by eapply slots_later.
    + by rewrite Hacc.
  - right. destruct Hop as [Hs Hok ? Hal ? Hsent ? Hstate]. split; try done.
    + destruct (alive_later _ _ _ Hal Hl). by split.
    + by rewrite Hacc.
    + destruct Hstate as [(? & [present Har] & ?)|(? & ? & Har)]; [left | right]; (split; [done|]; split; [|unfold later, elapses in *]);
        try done; try (by eapply arriving_recv); [exists present; by eapply arriving_recv | cbn; lia].
Qed.

Lemma sys_ok_env c e e' h : sys_ok (mkSys c e h) -> sys_ok (mkSys c e' h).
Proof. by intros [? ?]. Qed.

Lemma arriving_same c e e' bytes : same_link e e' -> arriving c e bytes -> arriving c e' bytes.
Proof. intros (_ & Ha & Hd) [Hp Hb]. unfold waiting in *. split; unfold waiting; by rewrite ?Ha, ?Hd. Qed.

Lemma talking_same inc ups c e e' h : same_link e e' -> talking inc ups c e h -> talking inc ups c e' h.
Proof.
  intros (Hl & Ha & _) [Hok ? ? ? Hal Hsl Hsent ? ? ?]. split; try done.
  - by eapply alive_later.
  - by eapply slots_later.
  - by rewrite Ha.
Qed.

Lemma engaged_same c e e' h : same_link e e' -> engaged c e h -> engaged c e' h.
Proof.
  intros Hs [(Hi & inc & ups & Htk & Har & Hr)|Hop].
  - left. split; [done|]. exists inc, ups. split_and!; [by eapply talking_same | by eapply arriving_same | done].
  - right. pose proof Hs as (Hl & Ha & _). destruct Hop as [? Hok ? Hal ? Hsent ? Hstate]. split; try done.
    + by eapply alive_later.
    + by rewrite Ha.
    + destruct Hstate as [(? & [present Har] & ?)|(? & ? & Har)]; [left | right]; (split; [done|]; split; [|unfold later, elapses in *]);
        try done; try (by eapply arriving_same); [exists present; by eapply arriving_same | lia].
Qed.

Lemma pump_rx_engaged rounds : forall c e h,
  engaged c e h -> rx_len_ c < 4 ->
  wp False (pump_rx_loop callback rounds) (fun r s => r = Ok /\ engaged (cl s) (env s) (history s) /\
    rx_len_ (cl s) < 4 /\ onward c e (cl s) (env s) /\
    (rounds <> 0%nat -> waiting e <> [] -> todo (cl s) (env s) < todo c e)) (mkSys c e h).
Proof.
  induction rounds as [|rounds IH]; intros c e h He Hlt; cbn [pump_rx_loop].
  { wp_run. do 3 (split; [done|]). split; [by apply onward_same | done]. }
  destruct (engaged_facts _ _ _ He) as (Hst & Hne & (Htime & Hli) & Hpre). pose proof config_facts as (Hbuf & _).
  assert (Hrx : rx_ok (rx_ c) (rx_len_ c)) by (by destruct Hst as [Hok _]; open_ok Hok). destruct Hrx as (_ & _ & Hl).
  wp_run. destruct (rx_len_ c <? rx_buffer_size) eqn:E0; zbool; [|lia]. wp_run.
  pose proof (transport_recv_bytes (rx_buffer_size - rx_len_ c) e) as Hbytes.
  assert (Hspace : 0 < rx_buffer_size - rx_len_ c) by lia.
  destruct (peer_recv (rx_buffer_size - rx_len_ c) e (waiting e) Htime Hli Hspace Hpre)
    as (r & got & e' & Hrecv & Hacc & Hdel & Hlat & Hcase).
  rewrite Hrecv in *. cbn [fst snd] in *. pose proof Hlat as [[_ Hdl] _]. destruct Hcase as [(-> & -> & Hw)|(-> & Hgot & Hle & rest & Hrest)].
  - wp_run. rewrite app_nil_r in Hdel.
    eapply wp_mono; [apply drain_engaged, (engaged_same c e); [by split_and! | done]|].
    intros r s (He' & -> & ? & Hon). split_and!; try done.
    { eapply onward_trans; [|exact Hon]. by apply onward_same. }
    intros _ Hwait. destruct Hon as [Ht _]. unfold todo in Ht |- *. destruct Hw as [Hw|Hw]; [done | lia].
  - wp_run.
    assert (Hpos : 0 < zlen got) by (destruct got; [done | rewrite zlen_cons; pose proof (zlen_nonneg got); lia]).
    destruct (zlen got =? 0) eqn:E1; zbool; [lia|]. wp_run.
    destruct (peer_now e' (later_in_time _ _ Hlat)) as (e2 & Hnow & Hs2). rewrite Hnow. cbn [fst snd].
    pose proof Hs2 as (Hl2 & Ha2 & Hd2).
    destruct (engaged_recv c e e2 h got (clock_at e2) rest He Hrest) as [He2 Ht2]; try done; try congruence; try lia.
    { by eapply later_trans. }
    unfold after_recv. wp_run. eapply wp_mono; [exact (drain_engaged _ _ _ He2)|].
    intros r [c3 e3 h3] (He3 & -> & Hlt3 & Hon3). cbn [cl env history] in *. wp_run.
    destruct (engaged_facts _ _ _ He3) as (_ & Hne3 & _).
    assert (Hs3 : State_eqb (state_ c3) Connecting = false) by (by apply bool_decide_eq_false). rewrite Hs3.
    destruct (rx_len_ c3 =? rx_buffer_size) eqn:E3; zbool; [lia|].
    eapply wp_mono; [by apply IH|]. intros r s (-> & ? & ? & Hon & _). pose proof (onward_trans _ _ _ _ _ _ Hon3 Hon) as [Ht Hst'].
    split_and!; try done; [|intros _ _; lia]. split; [lia | done].
Qed.
End talk.
