(* ===== verification/Settle.v ===== *)
(** * Settle: after finitely many steps nothing is outstanding

    The step with a peer that keeps to the interface of [Broker], from [connect] on:
    no timer fires, every step that finds something outstanding moves it on. *)
From stdpp Require Import sets.
From S2P Require Import Prelude Errors Packet PacketFacts Utf8 Topic Etl Codec CodecFacts TxQueue.
From S2P Require Import Config Transport ClientState ClientTables Effects Client Application.
From S2P Require Import ClientInv ClientQueue ClientSpecs ReceiveSpecs SessionSpecs StepSpecs AppSpecs.
From S2P Require Import ClientTrace Broker Talk.
#[local] Open Scope client_scope.

Section settle.
Context {Cfg : Config} {COK : ConfigOk Cfg} {CS : ConfigSane Cfg}.
Context `{WS : WideSizeT} `{BWO : ByteStreamWriterOk} `{BRO : ByteStreamReaderOk}.
Context {E : Type} {T : Transport E} {CK : Clock E} {TOK : TransportOk E} {P : Peer E} {POK : PeerOk E}.
Context (callback : Callback -> M E unit) (Hcb : watches callback).
Implicit Types (c : Client) (e : E) (h : list Event).

(** ** Timers *)

(** No timer expires in the window. *)
Definition patient : Prop :=
  (retry_interval_ms = 0 \/ window_end - window_start < retry_interval_ms) /\
  window_end - window_start <= connect_timeout_ms.

(** The queue has room for a PUBREL per exchange. *)
Definition releases_fit : Prop := 4 * max_inflight_out <= tx_buffer_size.

Context (Hpat : patient) (Hrel : releases_fit).

(** Only the surroundings change. *)
Definition passes c e h (s : Sys E) : Prop := exists e', s = mkSys c e' h /\ same_link e e'.

Lemma elapsed_in_window t t' : window_start <= t' <= t -> t <= window_end -> elapsed_ms t t' <= window_end - window_start.
Proof.
  intros Hle Ht. pose proof window_u32 as [? ?]. unfold elapsed_ms. rewrite u32_small by (unfold is_u32; lia). lia.
Qed.

Lemma keep_alive_passes c e h :
  alive c e -> wp False pump_keep_alive (fun r s => r = Ok /\ passes c e h s) (mkSys c e h).
Proof.
  intros Hal. pose proof Hal as [Ht Hp [Hk0 Hk] Hl _]. unfold pump_keep_alive. wp_run.
  destruct (keep_alive_ms_ c =? 0) eqn:E0; zbool.
  { wp_run. split; [done|]. exists e. split; [done|]. apply same_link_refl. by eapply in_time_alive. }
  wp_run. destruct (peer_now e (in_time_alive _ _ Hal)) as (e' & Hnow & Hs). rewrite Hnow, Hp. cbn [fst snd].
  pose proof Hs as (Hle & _). unfold later, elapses in Hle.
  assert (Hel : elapsed_ms (clock_at e') (last_sent_ms_ c) <= window_end - window_start) by (apply elapsed_in_window; lia).
  destruct Hk as [Hk|Hk]; [lia|]. destruct (elapsed_ms _ _ <? _) eqn:E1; zbool; [|lia]. wp_run. split; [done|]. by exists e'.
Qed.

Lemma resubscribe_idle c e h : subscriptions_ c = [] -> pump_resubscribe (mkSys c e h) = Some (tt, mkSys c e h).
Proof. intros Hs. unfold pump_resubscribe. rewrite get_run. rewrite Hs. by destruct (ack_table_full c). Qed.

Lemma retransmit_loop_idle t left_ c e h : forall i,
  retry_interval_ms <> 0 -> slots_recent c e -> clock_at e <= t <= window_end ->
  retransmit_loop left_ i false t (mkSys c e h) = Some (tt, mkSys c e h).
Proof.
  intros i Hr Hs Ht. revert i; induction left_ as [|left_ IH]; intros i; [done|]. cbn [retransmit_loop]. rewrite get_run.
  unfold slot_at. destruct (outbound_ c !! i) as [s|] eqn:Hi; [|exact (IH (S i))]. cbn [default from_option].
  change (id s) with s. destruct (Phase_eqb (slot_phase s) Free) eqn:Eph; [exact (IH (S i))|].
  eapply Forall_lookup_1 in Hs; [|exact Hi]. cbn in Hs. unfold slot_busy, slot_free in Hs. rewrite Eph in Hs.
  assert (Hel : elapsed_ms t (slot_last_sent_ms s) <= window_end - window_start)
    by (specialize (Hs eq_refl); apply elapsed_in_window; lia).
  rewrite (proj2 (Z.eqb_neq _ _) Hr). destruct Hpat as [[?|?] _]; [lia|].
  destruct (elapsed_ms _ _ <? _) eqn:E1; zbool; [|lia]. exact (IH (S i)).
Qed.

Lemma retransmit_idle c e h :
  retransmit_now_ c = false -> alive c e -> slots_recent c e ->
  wp False pump_retransmit (fun _ => passes (c <| retransmit_now_ := false |>) e h) (mkSys c e h).
Proof.
  intros Hf Hal Hs. unfold pump_retransmit. wp_run. rewrite Hf. cbn [negb]. rewrite andb_true_r.
  destruct (retry_interval_ms =? 0) eqn:E0; zbool.
  { wp_run. exists e. split; [done|]. apply same_link_refl. by eapply in_time_alive. }
  wp_run. destruct (peer_now e (in_time_alive _ _ Hal)) as (e' & Hnow & Hs'). rewrite Hnow. cbn [fst snd].
  pose proof Hs' as (Hle & _). unfold later, elapses in Hle. unfold wp.
  rewrite retransmit_loop_idle; [by exists e' | done | by eapply slots_later | lia].
Qed.

(** ** The retransmission that opens a session *)

(** What a slot sends again asks for what the slot awaits. *)
Lemma resend_ups s :
  slot_ok s -> (slot_busy s = true -> id_ok (slot_packet_id s)) ->
  exists ups, resend s = concat (up_bytes <$> ups) /\ Forall up_wf ups /\ omap reply ups = option_list (awaited s).
Proof.
  intros [_ Hs] Hid. unfold resend, slot_busy, slot_free, awaited in *.
  destruct (slot_phase s) eqn:Ep; change (Phase_eqb ?a ?b) with (bool_decide (a = b)) in *; cbn in Hid |- *.
  - by exists [].
  - destruct Hs as [_ (dup & retain & topic & payload & (Hn & Hq & _ & Hw & Hv) & Hst)].
    exists [UpPublish true AtLeastOnce retain topic payload (slot_packet_id s)]. cbn. rewrite app_nil_r.
    split_and!; [eapply mark_dup_stored_publish; [by left | exact Hst] | | done]. constructor; [|done]. by split_and!.
  - destruct Hs as [_ (dup & retain & topic & payload & (Hn & Hq & _ & Hw & Hv) & Hst)].
    exists [UpPublish true ExactlyOnce retain topic payload (slot_packet_id s)]. cbn. rewrite app_nil_r.
    split_and!; [eapply mark_dup_stored_publish; [by right | exact Hst] | | done]. constructor; [|done]. by split_and!.
  - exists [UpPubrel (slot_packet_id s)]. cbn. rewrite app_nil_r.
    split_and!; [by apply mark_dup_pubrel | | done]. constructor; [|done]. by apply Hid.
Qed.

Lemma resend_all_ups l :
  Forall (fun s => slot_ok s /\ (slot_busy s = true -> id_ok (slot_packet_id s))) l ->
  exists ups, concat (resend <$> l) = concat (up_bytes <$> ups) /\ Forall up_wf ups /\ omap reply ups = awaits l.
Proof.
  induction 1 as [|s l [Hs Hid] _ (ups & V1 & V2 & V3)]; [by exists []|].
  destruct (resend_ups s Hs Hid) as (ups0 & U1 & U2 & U3). exists (ups0 ++ ups).
  rewrite fmap_app, concat_app, omap_app, awaits_cons. cbn. rewrite U1, V1, U3, V3.
  split_and!; [done | by apply Forall_app | done].
Qed.

Lemma resends_take c i n :
  (i + n <= length (outbound_ c))%nat -> resends c i n = concat (resend <$> take n (drop i (outbound_ c))).
Proof.
  revert i; induction n as [|n IH]; intros i Hn; [by rewrite take_0|].
  change (resends c i (S n)) with (resend (slot_at c i) ++ resends c (S i) n). rewrite IH by lia.
  destruct (lookup_lt_is_Some_2 (outbound_ c) i ltac:(lia)) as [s Hs].
  by rewrite (drop_S _ _ _ Hs), (slot_at_Some _ _ _ Hs).
Qed.

Lemma resends_ups c e h :
  sys_ok (mkSys c e h) -> exists ups, resends c 0 (Z.to_nat max_inflight_out) = concat (up_bytes <$> ups) /\
    Forall up_wf ups /\ omap reply ups = awaits (outbound_ c).
Proof.
  intros Hok. open_ok Hok. pose proof Hout as (Hz & Hall & Hres). rewrite <- (awaits_take _ Hout).
  rewrite resends_take; [rewrite drop_0; apply resend_all_ups|].
  - apply Forall_take, Forall_lookup. intros i s Hi. split; [by eapply Forall_lookup_1|]. intros Hb. by eapply slot_id_ok.
  - pose proof config_facts. unfold kOutSlots, at_least_one, zlen in Hz. destruct (max_inflight_out >? 0) eqn:?; zbool; lia.
Qed.

(** The accepted connection becomes a session in which everything kept is asked
    for again. *)
Lemma retransmit_opens c e h :
  opening c e h -> state_ c = Connected ->
  wp False pump_retransmit (fun _ s => exists ups, talking [] ups (cl s) (env s) (history s) /\
    arriving (cl s) (env s) [] /\ in_step_ (cl s) = true /\ rx_len_ (cl s) = rx_len_ c /\
    onward c e (cl s) (env s)) (mkSys c e h).
Proof.
  intros Hop Hst. pose proof Hop as [Hstep Hok Hsu Hal Hq (o & Ho & Hsent) Hfit Hstate].
  destruct Hstate as [(? & _)|(_ & Hforce & Har)]; [congruence|].
  destruct (resends_ups c e h Hok) as (ups & Hre & Hups & Hrep).
  assert (Hfree : tx_wf tx_buffer_size (tx_ c) /\ residue_free (outbound_ c))
    by (by open_ok Hok; destruct Hout as (_ & _ & ?)). destruct Hfree as [Hwf Hfree].
  eapply wp_mono with (Q := fun _ s => (exists e' q, same_link e e' /\ tx_peek q = resends c 0 (Z.to_nat max_inflight_out) /\
    s = mkSys (c <| retransmit_now_ := false |> <| tx_ := q |>
      <| outbound_ := resent_from (clock_at e') 0 (Z.to_nat max_inflight_out) (outbound_ c) |>) e' h) /\ tends c s).
  { apply wp_and; [|apply (pump_retransmit_wp False); [exact Hok | congruence]].
    unfold pump_retransmit. wp_run. rewrite Hforce, andb_false_r. wp_run.
    destruct (peer_now e (in_time_alive _ _ Hal)) as (e' & Hnow & Hs). rewrite Hnow. cbn [fst snd].
    eapply wp_mono; [apply retransmit_loop_forced; [done|]|].
    { change (zlen (tx_peek (tx_ c)) + zlen (resends c 0 (Z.to_nat max_inflight_out)) <= tx_buffer_size). by rewrite Hq. }
    intros _ s (q & -> & _ & Hpk). exists e', q. split_and!; [done | | done]. rewrite Hpk. cbn. by rewrite Hq. }
  intros _ s [(e' & q & Hs & Hpk & ->) (Hok' & _)]. cbn [cl env history] in *.
  pose proof Hs as (Hl & Hacc & Hdel). set (l := resent_from _ _ _ _) in *.
  assert (Haw : awaits l = awaits (outbound_ c)).
  { apply awaits_same; [apply slot_phase_resent | apply slot_id_resent]. }
  exists ups. split; [|split_and!; try done].
  - split; try done.
    + destruct (alive_later _ _ _ Hal Hl). by split.
    + apply Forall_lookup. intros i s Hi Hb. subst l. cbn in Hi. unfold resent_from in Hi. rewrite list_lookup_imap in Hi.
      destruct (outbound_ c !! i) as [s0|] eqn:Hi0; [|done]. injection Hi as <-. cbn in Hb |- *. case_bool_decide as Hlt.
      * unfold resent in *. destruct (slot_busy s0) eqn:Hb0; [|congruence]. cbn. unfold later, elapses in Hl. destruct Hal. lia.
      * exfalso. apply Hlt. pose proof (busy_below _ _ _ Hfree Hi0 Hb). lia.
    + exists o, []. split_and!; [done | constructor |]. cbn. by rewrite app_nil_r, Hacc.
    + cbn. by rewrite Hpk.
    + change (omap reply ups ≡ₚ awaits l). by rewrite Haw, Hrep.
  - destruct Har as [Hp Hb]. unfold waiting, held in *. split; unfold waiting, held; by rewrite ?Hacc, ?Hdel.
  - split; [|split; [done | change (awaits (outbound_ c) = [] -> awaits l = []); by rewrite Haw]].
    change (weigh (awaits l) + unanswered (state_ c) - rx_len_ c + delays e' <= todo c e). rewrite Haw. unfold todo, later, elapses in *. lia.
Qed.

(** ** Around a step *)

(** In a session, between the calls. *)
Definition in_session c e h : Prop := exists inc ups,
  talking inc ups c e h /\ arriving c e (concat (ack_bytes <$> inc)).

(** The connection is there and CONNECT is queued. *)
Record calling c e h : Prop := {
  ca_step : in_step_ c = true;
  ca_ok : sys_ok (mkSys c e h);
  ca_subs : subscriptions_ c = [];
  ca_alive : alive c e;
  ca_link : accepted e = [] /\ delivered e = [];
  ca_queue : exists o, connect_wf o /\ tx_peek (tx_ c) = connect_packet o;
  ca_fits : zlen (resends c 0 (Z.to_nat max_inflight_out)) <= tx_buffer_size;
  ca_state : state_ c = AwaitingConnack /\ rx_len_ c = 0 /\ window_start <= connect_started_ms_ c <= clock_at e;
}.

Definition awaiting c e h : Prop := opening c e h /\ state_ c = AwaitingConnack.

(** Nothing is outstanding. *)
Definition quiet c : Prop := state_ c = Connected /\ awaits (outbound_ c) = [].

Lemma roomy_flushed inc c e h : talking inc [] c e h -> roomy inc c.
Proof.
  intros Htk. unfold roomy. rewrite (tk_queue _ _ _ _ _ Htk). cbn. change (zlen []) with 0.
  pose proof (tk_awaits _ _ _ _ _ Htk) as Haw. cbn in Haw. rewrite app_nil_r in Haw.
  assert (Hlen : zlen inc = zlen (awaits (outbound_ c))) by (unfold zlen; by rewrite Haw).
  assert (Hb : zlen (awaits (outbound_ c)) <= max_inflight_out)
    by (apply awaits_bound; pose proof (tk_ok _ _ _ _ _ Htk) as Hok; by open_ok Hok).
  unfold releases_fit in Hrel. lia.
Qed.

(** Less is held than is expected. *)
Lemma arriving_waits c e bytes :
  rx_ok (rx_ c) (rx_len_ c) -> arriving c e bytes -> rx_len_ c < zlen bytes -> waiting e <> [].
Proof.
  intros (Hz & _ & Hl) [_ Hb] Hlt Hw. rewrite Hw, app_nil_r in Hb. rewrite <- Hb in Hlt.
  unfold held in Hlt. rewrite zlen_ztake in Hlt; lia.
Qed.

Definition flushed_well c e (r : Error) (s : Sys E) : Prop :=
  r = Ok /\ engaged (cl s) (env s) (history s) /\ rx_len_ (cl s) < 4 /\ onward c e (cl s) (env s) /\
  (quiet c \/ waiting (env s) <> []).

Lemma flush_session c e h :
  in_step_ c = true -> rx_len_ c < 4 -> in_session c e h ->
  wp False pump_tx (fun r s => flushed_well c e r s /\ conversing (cl s) (env s) (history s) /\ tx_peek (tx_ (cl s)) = []) (mkSys c e h).
Proof.
  intros Hs Hlt (inc & ups & Htk & Har). eapply wp_mono; [by apply (talking_flush inc ups)|].
  intros r [c' e' h'] (-> & Htk' & Har' & Hh & Ho & Hi & Hod & Hdl). cbn [cl env history] in *.
  assert (Hrx : rx_ok (rx_ c) (rx_len_ c) /\ rx_ok (rx_ c') (rx_len_ c')).
  { split; [pose proof (tk_ok _ _ _ _ _ Htk) as Hok | pose proof (tk_ok _ _ _ _ _ Htk') as Hok]; by open_ok Hok. }
  destruct Hrx as [Hrx Hrx'].
  assert (Hlen : rx_len_ c' = rx_len_ c).
  { destruct Hrx as (Hz & _ & Hl), Hrx' as (Hz' & _ & Hl'). apply (f_equal zlen) in Hh. unfold held in Hh.
    rewrite !zlen_ztake in Hh; lia. }
  rewrite <- concat_app, <- fmap_app in Har'. 
  assert (Hcon : conversing c' e' h').
  { split; [congruence|]. exists (inc ++ omap reply ups), []. split_and!; [done | done | by eapply roomy_flushed]. }
  unfold flushed_well. cbn [cl env history]. split; [|split; [done | exact (tk_queue _ _ _ _ _ Htk')]].
  split; [done|]. split; [by left|]. split; [lia|]. split.
  { apply onward_same; try done. by rewrite (tk_state _ _ _ _ _ Htk'), (tk_state _ _ _ _ _ Htk). }
  pose proof (tk_awaits _ _ _ _ _ Htk) as Haw. destruct (inc ++ omap reply ups) as [|a rest].
  - left. split; [by apply Htk|]. by apply Permutation_nil_l in Haw.
  - right. eapply arriving_waits; [exact Hrx' | exact Har'|]. cbn. rewrite zlen_app. unfold ack_bytes at 1.
    rewrite zlen_ack_packet. pose proof (zlen_nonneg (concat (ack_bytes <$> rest))). lia.
Qed.

Lemma flush_awaiting c e h :
  awaiting c e h -> rx_len_ c < 4 -> wp False pump_tx (flushed_well c e) (mkSys c e h).
Proof.
  intros [Hop Hst] Hlt. pose proof (op_ok _ _ _ Hop) as Hok.
  assert (Hf : tx_empty (tx_ c) = true /\ rx_ok (rx_ c) (rx_len_ c)).
  { pose proof (op_queue _ _ _ Hop). open_ok Hok. split; [|done]. by apply (tx_empty_peek tx_buffer_size). }
  destruct Hf as [Hem Hrx]. unfold pump_tx. wp_run. cbn [pump_tx_loop]. wp_run. rewrite Hem. wp_run.
  unfold flushed_well. cbn [cl env history]. split; [done|]. split; [by right|]. split; [done|]. split; [by apply onward_same|]. right.
  destruct (op_state _ _ _ Hop) as [(_ & [present Har] & _)|(? & _)]; [|congruence].
  eapply arriving_waits; [done | exact Har|]. by unfold connack_bytes; destruct present.
Qed.

Lemma flush_calling c e h : calling c e h -> wp False pump_tx (flushed_well c e) (mkSys c e h).
Proof.
  intros [Hs Hok Hsu Hal [Ha0 Hd0] (o & Ho & Hq) Hfit (Hst & Hlen & Hstart)].
  eapply wp_mono; [apply wp_and; [apply pump_tx_flushes | apply pump_tx_wp]|].
  { by open_ok Hok. } { by eapply in_time_alive. } { eapply linked_alive; [done | congruence]. } { exact Hok. } { congruence. }
  intros r [c' e' h'] [(-> & (q & t & Hc & Hpk & Htm) & Ha & Hd & Hl) [Hok' _]]. cbn [cl env history] in *. subst c'.
  rewrite Ha0, Hq in Ha. cbn in Ha. rewrite Hd0 in Hd.
  assert (Hans : answers (accepted e') = delivered e' ++ connack_bytes (session_present o)).
  { rewrite Ha, Hd, <- (app_nil_r (connect_packet o)). rewrite (answers_ok o []) by (done || constructor). by rewrite app_nil_r. }
  unfold flushed_well. cbn [cl env history]. split; [done|].
  split; [right|split; [cbn; lia|]; split; [apply onward_same; try done; by apply later_delays | right]].
  - split; try done.
    + destruct (alive_later _ _ _ Hal Hl). destruct Hal. split; try done. cbn. unfold later, elapses in *. lia.
    + by exists o.
    + left. split; [done|]. split; [|cbn; unfold later, elapses in *; lia]. exists (session_present o).
      pose proof (arriving_app e' (c <| tx_ := q |> <| last_sent_ms_ := t |>) _ Hans) as Har. unfold held in Har. cbn in Har.
      by rewrite Hlen in Har.
  - by rewrite (waiting_app _ _ Hans).
Qed.

(** ** The end of a step *)

(** The connection was asked for. *)
Record connecting c e h : Prop := {
  cg_ok : sys_ok (mkSys c e h);
  cg_subs : subscriptions_ c = [];
  cg_alive : alive c e;
  cg_fits : zlen (resends c 0 (Z.to_nat max_inflight_out)) <= tx_buffer_size;
  cg_state : state_ c = Connecting /\ window_start <= connect_started_ms_ c <= clock_at e;
}.

Definition ready c e h : Prop :=
  in_step_ c = true /\ rx_len_ c < 4 /\ (in_session c e h \/ awaiting c e h \/ connecting c e h).

Definition tail_well c e (r : Error) (s : Sys E) : Prop :=
  r = Ok /\ ready (cl s) (env s) (history s) /\ onward c e (cl s) (env s) /\
  (state_ (cl s) = Connected -> tx_peek (tx_ (cl s)) = []).

Lemma tail_awaiting c e h : awaiting c e h -> rx_len_ c < 4 -> wp False (step_tail callback) (tail_well c e) (mkSys c e h).
Proof.
  intros [Hop Hst] Hlt. unfold step_tail. wp_run. rewrite Hst. wp_run. pose proof (op_alive _ _ _ Hop) as Hal.
  destruct (peer_now e (in_time_alive _ _ Hal)) as (e' & Hnow & Hs). rewrite Hnow. cbn [fst snd].
  destruct (op_state _ _ _ Hop) as [(_ & Har & Hstart)|(? & _)]; [|congruence].
  pose proof Hs as (Hl & _). unfold later, elapses in Hl.
  assert (Hel : elapsed_ms (clock_at e') (connect_started_ms_ c) <= window_end - window_start) by (apply elapsed_in_window; lia).
  destruct Hpat as [_ Hto]. destruct (elapsed_ms _ _ >? _) eqn:E1; zbool; [lia|]. wp_run.
  split; [done|]. split; [|split; [apply onward_same; try done; exact (later_delays _ _ (proj1 Hs)) | cbn; congruence]]. split; [by apply Hop|]. split; [done|]. right. left. split; [|done].
  destruct (engaged_same c e e' h Hs (or_intror Hop)) as [(_ & inc & ups & Htk & _)|?]; [|done].
  pose proof (tk_state _ _ _ _ _ Htk). congruence.
Qed.

Lemma tail_flush c e h :
  in_step_ c = true -> rx_len_ c < 4 -> in_session c e h ->
  wp False pump_tx (fun r s => wp False (if negb (Error_eqb r Ok) then shutdown callback r else ret Ok) (tail_well c e) s) (mkSys c e h).
Proof.
  intros Hs Hlt Hin. eapply wp_mono; [by apply flush_session|].
  intros r [c' e' h'] [(-> & _ & Hlt' & Ht & _) [(Hs' & inc & ups & Htk & Har & _) Hpk]]. cbn [cl env history] in *. wp_run.
  split; [done|]. split; [|by split]. split; [done|]. split; [done|]. left. by exists inc, ups.
Qed.

Lemma tail_engaged c e h : engaged c e h -> rx_len_ c < 4 -> wp False (step_tail callback) (tail_well c e) (mkSys c e h).
Proof.
  intros He Hlt. assert (Hst : state_ c = AwaitingConnack \/ state_ c = Connected).
  { destruct He as [(_ & inc & ups & Htk & _)|Hop]; [right; apply Htk|]. destruct (op_state _ _ _ Hop) as [(? & _)|(? & _)]; auto. }
  destruct Hst as [Hst|Hst].
  { destruct He as [(_ & inc & ups & Htk & _)|Hop]; [|by apply tail_awaiting]. pose proof (tk_state _ _ _ _ _ Htk). congruence. }
  assert (Hal : alive c e) by (destruct He as [(_ & inc & ups & Htk & _)|Hop]; [by eapply tk_alive | by eapply op_alive]).
  assert (Hsu : subscriptions_ c = []) by (destruct He as [(_ & inc & ups & Htk & _)|Hop]; [by eapply tk_subs | by eapply op_subs]).
  unfold step_tail. wp_run. rewrite Hst. change (State_eqb Connected Connected) with true. cbv iota. wp_run.
  eapply wp_mono; [by apply keep_alive_passes|]. intros r s (-> & e1 & -> & Hs1). change (Error_eqb Ok Ok) with true. cbv iota. cbn [negb].
  wp_run. unfold wp at 1. rewrite (resubscribe_idle _ _ _ Hsu). wp_run. apply (engaged_same c e e1 h Hs1) in He.
  destruct He as [(Hs & inc & ups & Htk & Har & _)|Hop].
  - eapply wp_mono; [apply retransmit_idle; by apply Htk|]. intros [] s (e2 & -> & Hs2). wp_run.
    assert (Hc : c <| retransmit_now_ := false |> = c).
    { pose proof (tk_forced _ _ _ _ _ Htk). destruct c. cbn in *. by subst. }
    rewrite Hc. eapply wp_mono; [apply tail_flush; [done | done|]; exists inc, ups; split; [by eapply talking_same | by eapply arriving_same]|].
    intros r s Hr. eapply wp_mono; [exact Hr|]. intros r' s' (-> & Hr' & Ht' & Hpk). split; [done|]. split; [done|]. split; [|done].
    eapply onward_trans; [|exact Ht']. apply onward_same; try done. apply later_delays.
    eapply later_trans; [exact (proj1 Hs1) | exact (proj1 Hs2)].
  - eapply wp_mono; [by apply retransmit_opens|]. intros [] [c2 e2 h2] (ups & Htk & Har & Hs & Hlen & Ht).
    cbn [cl env history] in *. wp_run. eapply wp_mono; [apply tail_flush|]; [done | lia | by exists [], ups|].
    intros r s Hr. eapply wp_mono; [exact Hr|]. intros r' s' (-> & Hr' & Ht' & Hpk). split; [done|]. split; [done|]. split; [|done].
    eapply onward_trans; [|exact Ht']. eapply onward_trans; [|exact Ht].
    apply onward_same; try done. exact (later_delays _ _ (proj1 Hs1)).
Qed.

(** ** The step *)

(** It went well, and something was done if there was something to do. *)
Definition stepped c e (r : Error) (s : Sys E) : Prop :=
  r = Ok /\ ready (cl s) (env s) (history s) /\ onward c e (cl s) (env s) /\
  (state_ (cl s) = Connected -> tx_peek (tx_ (cl s)) = []) /\ (quiet c \/ todo (cl s) (env s) < todo c e).

Lemma step_io_well c e h :
  in_step_ c = true -> rx_len_ c < 4 -> in_session c e h \/ awaiting c e h \/ calling c e h ->
  wp False (step_io callback) (stepped c e) (mkSys c e h).
Proof.
  intros Hs Hlt Hcase. unfold step_io. wp_run. eapply wp_mono with (Q := flushed_well c e).
  { destruct Hcase as [Hin|[Haw|Hca]]; [|by apply flush_awaiting | by apply flush_calling].
    eapply wp_mono; [by apply flush_session|]. by intros r s [? _]. }
  intros r [c1 e1 h1] (-> & He & Hlt1 & Ht1 & Hq). cbn [cl env history] in *. wp_run.
  assert (Hst : state_ c1 <> Disconnecting).
  { destruct He as [(_ & inc & ups & Htk & _)|Hop]; [rewrite (tk_state _ _ _ _ _ Htk); done|].
    destruct (op_state _ _ _ Hop) as [(? & _)|(? & _)]; congruence. }
  unfold State_eqb. rewrite bool_decide_false by done. cbn [andb]. wp_run.
  eapply wp_mono; [by apply pump_rx_engaged|].
  intros r [c2 e2 h2] (-> & He2 & Hlt2 & Ht2 & Hd2). cbn [cl env history] in *. wp_run.
  eapply wp_mono; [by apply tail_engaged|]. intros r [c3 e3 h3] (-> & Hr & Ht3 & Hpk). cbn [cl env history] in *.
  unfold stepped. cbn [cl env history]. split; [done|]. split; [done|].
  split; [eapply onward_trans; [exact Ht1|]; by eapply onward_trans|]. split; [done|].
  destruct Hq as [Hq|Hq]; [by left | right]. specialize (Hd2 ltac:(done) Hq). destruct Ht1, Ht3. lia.
Qed.

Lemma step_once_well c e h :
  in_step_ c = true -> rx_len_ c < 4 -> in_session c e h \/ awaiting c e h \/ connecting c e h ->
  wp False (step_once callback) (stepped c e) (mkSys c e h).
Proof.
  intros Hs Hlt Hcase. unfold step_once. wp_run. destruct Hcase as [Hin|[Haw|Hco]].
  - assert (Hst : state_ c = Connected) by (destruct Hin as (inc & ups & Htk & _); apply Htk).
    rewrite Hst. apply step_io_well; auto.
  - rewrite (proj2 Haw). apply step_io_well; auto.
  - destruct Hco as [Hok Hsu Hal Hfit [Hst Hstart]]. rewrite Hst. wp_run.
    assert (Hdial : dialable e) by (destruct Hal as [_ _ _ _ Hl]; by rewrite Hst in Hl).
    destruct (peer_connect e (in_time_alive _ _ Hal) Hdial) as (e1 & He1 & Hcase). assert (Ht1 : in_time e1) by (unfold elapses, in_time in *; lia).
    destruct (peer_now e1 Ht1) as (e2 & Hnow & (He2 & Hlk & Hdi) & Ha2 & Hd2). unfold elapses in He1, He2.
    destruct Hcase as [(Hrun & Hli & Ha & Hd)|(Hrun & Hdial1 & Hless)]; rewrite Hrun; cbn [fst snd]; wp_run; rewrite Hnow; cbn [fst snd].
    + eapply wp_mono; [apply step_io_well; [done | done | right; right]|].
      * destruct (sys_ok_open (clock_at e2) c e e2 h Hok Hst) as (Hok' & Hlen & Hq). split; try done.
        -- destruct Hal. split; try done; cbn; try lia. by apply Hlk.
        -- split; congruence.
        -- cbn. split_and!; try done; lia.
      * intros r s (-> & Hr & Ht & Hpk & Hq). set (c1 := c <| state_ := AwaitingConnack |> <| last_sent_ms_ := _ |>) in *.
        assert (Hle : onward c e c1 e2).
        { split; [|done]. change (weigh (awaits (outbound_ c)) + 4 - rx_len_ c + delays e2 <= todo c e). unfold todo. rewrite Hst. cbn [unanswered]. lia. }
        split; [done|]. split; [done|]. split; [by eapply onward_trans|]. split; [done|]. right.
        destruct Hq as [[Hq _]|Hq]; [done | destruct Hle; lia].
    + assert (Hel : elapsed_ms (clock_at e2) (connect_started_ms_ c) <= window_end - window_start) by (apply elapsed_in_window; lia).
      destruct Hpat as [_ Hto]. destruct (elapsed_ms _ _ >? _) eqn:E1; zbool; [lia|]. wp_run.
      unfold stepped. cbn [cl env history]. split; [done|].
      split; [|split; [apply onward_same; try done; lia|]; split; [congruence | right; unfold todo; lia]].
      split; [done|]. split; [done|]. right. right. split; try done.
      * destruct Hal as [? ? ? ? _]. split; try done; try lia. rewrite Hst. by apply Hdi.
      * split; [done | lia].
Qed.

(** ** Between the steps *)
Definition poised (s : Sys E) : Prop :=
  let c := (cl s) <| in_step_ := true |> in
  in_step_ (cl s) = false /\ rx_len_ (cl s) < 4 /\
  (in_session c (env s) (history s) \/ awaiting c (env s) (history s) \/ connecting c (env s) (history s)).

Lemma sys_ok_step b c e h : sys_ok (mkSys c e h) -> sys_ok (mkSys (c <| in_step_ := b |>) e h).
Proof. intros Hok. open_ok Hok. ok_fields. Qed.

Lemma ready_poised c e h : ready c e h -> poised (mkSys (c <| in_step_ := false |>) e h).
Proof.
  intros (Hs & Hlt & Hr). unfold poised. cbn [cl env history].
  assert (Hc : c <| in_step_ := false |> <| in_step_ := true |> = c) by (destruct c; cbn in *; by subst).
  rewrite Hc. by split_and!.
Qed.

Lemma step_poised s :
  poised s -> exists s', step callback s = Some (Ok, s') /\ poised s' /\ onward (cl s) (env s) (cl s') (env s') /\
    (state_ (cl s') = Connected -> tx_peek (tx_ (cl s')) = []) /\
    (quiet (cl s) \/ todo (cl s') (env s') < todo (cl s) (env s)).
Proof.
  destruct s as [c e h]. intros (Hf & Hlt & Hcase). cbn [cl env history] in *.
  assert (Hw : wp False (step callback) (fun r s' => r = Ok /\ poised s' /\ onward c e (cl s') (env s') /\
    (state_ (cl s') = Connected -> tx_peek (tx_ (cl s')) = []) /\ (quiet c \/ todo (cl s') (env s') < todo c e)) (mkSys c e h)).
  { unfold step. wp_run. rewrite Hf. wp_run. eapply wp_mono; [by apply step_once_well|].
    intros r [c' e' h'] (-> & Hr & Ht & Hpk & Hq). cbn [cl env history] in *. wp_run.
    split; [done|]. split; [by apply ready_poised|]. split; [exact Ht | split; [exact Hpk | exact Hq]]. }
  unfold wp in Hw. destruct (step callback _) as [[r s']|]; [|done]. destruct Hw as (-> & Hw). by exists s'.
Qed.

Lemma poised_ok s : poised s -> sys_ok s.
Proof.
  intros (Hf & _ & Hcase). destruct s as [c e h]. cbn [cl env history] in *.
  replace c with (c <| in_step_ := true |> <| in_step_ := false |>) by (destruct c; cbn in *; by subst).
  apply sys_ok_step. destruct Hcase as [(inc & ups & Htk & _)|[[Hop _]|Hco]]; [apply Htk | apply Hop | apply Hco].
Qed.

Lemma poised_in_time s : poised s -> in_time (env s).
Proof.
  intros (_ & _ & [(inc & ups & Htk & _)|[[Hop _]|Hco]]); eapply in_time_alive; [by eapply tk_alive | by eapply op_alive | by eapply cg_alive].
Qed.

Lemma poised_linked s : poised s -> state_ (cl s) = Connected -> linked (env s).
Proof.
  intros (_ & _ & [(inc & ups & Htk & _)|[[_ Hst']|Hco]]) Hst; [|cbn in Hst'; congruence|].
  - eapply linked_alive; [by eapply tk_alive | by cbn; rewrite Hst].
  - destruct (cg_state _ _ _ Hco) as [Hst' _]. cbn in Hst'. congruence.
Qed.

Lemma todo_lower s : poised s -> -4 < todo (cl s) (env s).
Proof.
  intros (_ & Hlt & _). unfold todo. assert (Hw : forall l, 0 <= weigh l).
  { induction l as [|a l IH]; [done|]. cbn. unfold weight at 1. unfold weigh in IH. case_if; lia. }
  pose proof (Hw (awaits (outbound_ (cl s)))). assert (0 <= unanswered (state_ (cl s))) by (by destruct (state_ (cl s))).
  pose proof (delays_nonneg (env s)). lia.
Qed.

Lemma todo_upper s : poised s -> todo (cl s) (env s) <= 9 * max_inflight_out + 4 + delays (env s).
Proof.
  intros Hp. unfold todo.
  pose proof (poised_ok s Hp) as Hok. destruct s as [c e h]. open_ok Hok. pose proof (awaits_bound _ Hout) as Hb. destruct Hrx as (_ & _ & ?).
  assert (Hw : forall l, weigh l <= 9 * zlen l).
  { induction l as [|a l IH]; [done|]. rewrite zlen_cons. cbn. unfold weight at 1. unfold weigh in IH. case_if; lia. }
  pose proof (Hw (awaits (outbound_ c))). assert (unanswered (state_ c) <= 4) by (by destruct (state_ c)). cbn. lia.
Qed.

(** ** Publishing in a session *)

(** The packets [us] went into the queue, and the table awaits the answers. *)
Definition queued (us : list Up) c e h (s : Sys E) : Prop := exists q n l e',
  s = mkSys (c <| tx_ := q |> <| next_packet_id_ := n |> <| outbound_ := l |>) e' h /\ same_link e e' /\
  tx_peek q = tx_peek (tx_ c) ++ concat (up_bytes <$> us) /\ Forall up_wf us /\
  awaits l ≡ₚ awaits (outbound_ c) ++ omap reply us /\
  Forall (fun s => slot_busy s = true -> window_start <= slot_last_sent_ms s <= clock_at e') l.

Lemma queued_nothing c e h : alive c e -> slots_recent c e -> queued [] c e h (mkSys c e h).
Proof.
  intros Hal Hsl. exists (tx_ c), (next_packet_id_ c), (outbound_ c), e. cbn. rewrite !app_nil_r.
  split_and!; [by destruct c | by eapply same_link_refl, in_time_alive | done | constructor | done | done].
Qed.

(** Into a free slot. *)
Lemma queued_slot us i s f n q c e e' h :
  outbound_ c !! i = Some s -> slot_free s = true -> same_link e e' -> slots_recent c e ->
  tx_peek q = tx_peek (tx_ c) ++ concat (up_bytes <$> us) -> Forall up_wf us ->
  option_list (awaited (f s)) = omap reply us ->
  (slot_busy (f s) = true -> window_start <= slot_last_sent_ms (f s) <= clock_at e') ->
  queued us c e h (mkSys (c <| tx_ := q |> <| next_packet_id_ := n |> <| outbound_ ::= alter f i |>) e' h).
Proof.
  intros Hi Hfree Hs Hsl Hpk Hus Haw Hre. exists q, n, (alter f i (outbound_ c)), e'. split_and!; try done.
  - rewrite (alter_lookup_insert _ _ _ _ Hi). destruct (awaits_insert _ _ _ (f s) Hi) as (rest & R1 & R2).
    assert (Hnone : awaited s = None).
    { unfold awaited. unfold slot_free, Phase_eqb in Hfree. apply bool_decide_eq_true in Hfree. by rewrite Hfree. }
    rewrite Hnone in R1. rewrite R2, R1, Haw. by rewrite Permutation_app_comm.
  - apply Forall_lookup. intros j s' Hj. destruct (decide (i = j)) as [<-|Hne].
    + rewrite list_lookup_alter_eq, Hi in Hj. by injection Hj as <-.
    + rewrite list_lookup_alter_ne in Hj by done. pose proof (slots_later c e e' Hsl (proj1 Hs)) as Hl.
      by eapply Forall_lookup_1 in Hl.
Qed.

Lemma talking_queued inc ups us c e h s :
  talking inc ups c e h -> queued us c e h s -> sys_ok s -> talking inc (ups ++ us) (cl s) (env s) (history s).
Proof.
  intros [Hok Hst Hfo Hsu Hal Hsl Hsent Hq Hups Haw] (q & n & l & e' & -> & Hs & Hpk & Hus & Hl & Hre) Hok'.
  pose proof Hs as (Hla & Ha & Hd). cbn [cl env history]. split; try done.
  - destruct (alive_later _ _ _ Hal Hla). by split.
  - by rewrite Ha.
  - cbn. by rewrite Hpk, Hq, fmap_app, concat_app.
  - by apply Forall_app.
  - change (inc ++ omap reply (ups ++ us) ≡ₚ awaits l). by rewrite omap_app, app_assoc, Haw, Hl.
Qed.

Lemma publish_slot_queued i s topic payload qos retain id n c e h :
  0 <= qos -> qos <> AtMostOnce -> zlen payload < 2 ^ 63 -> is_valid_topic_name topic = true -> id_ok id ->
  tx_wf tx_buffer_size (tx_ c) -> alive c e -> slots_recent c e -> outbound_ c !! i = Some s -> slot_free s = true ->
  wp False (publish_slot i topic payload qos retain id) (fun _ s => exists us, queued us c e h s)
    (mkSys (c <| next_packet_id_ := n |>) e h).
Proof.
  intros Hq Eq0 Hp Et Hid Htx Hal Hsl Hs Hfree. assert (Hrefl : same_link e e) by (by eapply same_link_refl, in_time_alive).
  unfold publish_slot. wp_run. erewrite slot_at_Some; [|exact Hs].
  assert (Hbusy : forall packet, slot_busy (s <| slot_packet := packet |>) = false)
    by (intros; unfold slot_busy, slot_free in *; cbn; by rewrite Hfree).
  assert (Hawait : forall packet, option_list (awaited (s <| slot_packet := packet |>)) = []).
  { intros. unfold awaited, slot_free, Phase_eqb in *. apply bool_decide_eq_true in Hfree. cbn. by rewrite Hfree. }
  destruct (encode_publish_cases topic payload qos retain id (slot_packet s) Et Hq Hp Hid)
    as [(er & packet & -> & Hlen & Her) | (Hwf & Hl & ->)]; wp_run.
  { exists []. replace (c <| next_packet_id_ := n |>) with (c <| tx_ := tx_ c |> <| next_packet_id_ := n |>) by (by destruct c).
    eapply queued_slot; try done; [by rewrite app_nil_r | intros Hb; by rewrite (Hbusy packet) in Hb]. }
  set (pkt := publish_packet false qos retain topic payload id) in *. rewrite ztake_app_zlen.
  apply wp_enqueue; [done|..]; intros q [_ Hpk] _; wp_run.
  - destruct (peer_now e (in_time_alive _ _ Hal)) as (e' & Hnow & Hs'). rewrite Hnow. cbn [fst snd].
    rewrite outbound_tx_comm, !outbound_alter_alter. exists [UpPublish false qos retain topic payload id].
    eapply queued_slot; try done; [by cbn; rewrite app_nil_r | by constructor | | cbn; intros _; destruct Hs', Hal; unfold later, elapses in *; lia].
    assert (Hq2 : qos = 1 \/ qos = 2) by (destruct Hwf as (_ & ? & _); unfold AtMostOnce in *; lia).
    by destruct Hq2 as [-> | ->].
  - rewrite outbound_tx_comm. exists []. eapply queued_slot; try done; [by rewrite app_nil_r |].
    intros Hb. by rewrite (Hbusy (pkt ++ zdrop (zlen pkt) (slot_packet s))) in Hb.
Qed.

Lemma publish_queued topic payload qos retain c e h :
  0 <= qos -> zlen payload < 2 ^ 63 -> sys_ok (mkSys c e h) -> alive c e -> slots_recent c e ->
  wp False (publish topic payload qos retain) (fun _ s => exists us, queued us c e h s) (mkSys c e h).
Proof.
  intros Hq Hp Hok Hal Hsl. pose proof (queued_nothing c e h Hal Hsl) as Hno.
  assert (Hrefl : same_link e e) by (by eapply same_link_refl, in_time_alive).
  assert (Htx : tx_wf tx_buffer_size (tx_ c)) by (by open_ok Hok).
  unfold publish. wp_run. case_if; [wp_run; by exists []|].
  destruct (is_valid_topic_name topic) eqn:Et; cbn [negb]; [|wp_run; by exists []].
  case_if; [wp_run; by exists []|]. destruct (qos =? AtMostOnce) eqn:Eq0; zbool.
  { subst qos. destruct (publish_remaining_length _ _ _) as [rl|er] eqn:Erl; wp_run; [|by exists []].
    pose proof (encode_publish_encodes topic payload AtMostOnce retain false 0 rl ltac:(done) ltac:(done) Hp
      ltac:(done) ltac:(done) Erl) as Henc.
    apply (publish_remaining_length_Val _ _ _ 0) in Erl as ((_ & _ & Hq2) & -> & Hvbi); [|done].
    eapply wp_enqueue_sized; [done | exact Henc | by apply packet_size_wire | |].
    - intros q [_ Hpk] _. wp_run. exists [UpPublish false AtMostOnce retain topic payload 0], q, (next_packet_id_ c), (outbound_ c), e.
      cbn. rewrite !app_nil_r. split_and!; [by destruct c | done | done | | done | done]. constructor; [|done]. by split_and!.
    - intros q r [_ Hpk] _ _. wp_run. exists [], q, (next_packet_id_ c), (outbound_ c), e. cbn. rewrite !app_nil_r.
      split_and!; [by destruct c | done | done | constructor | done | done]. }
  case_if; [wp_run; by exists []|]. destruct (free_outbound_slot c) as [i|] eqn:Ef; [|wp_run; by exists []].
  apply find_index_Some in Ef as (Hi & s & Hs & Hfree).
  pose proof (alloc_packet_id_spec c ltac:(by clear Htx; open_ok Hok; destruct Hout as (_ & _ & ?)) ltac:(by clear Htx; open_ok Hok))
    as (n & Hc & _ & Hfresh).
  destruct (alloc_packet_id c) as [id c1]. cbn [fst snd] in *. subst c1. wp_run.
  destruct (id =? 0) eqn:Ei; zbool.
  { wp_run. exists [], (tx_ c), n, (outbound_ c), e. cbn. rewrite !app_nil_r.
    split_and!; [by destruct c | done | done | constructor | done | done]. }
  destruct (Hfresh Ei) as [Hid _]. by eapply publish_slot_queued.
Qed.

Lemma in_session_step b c e h : in_session c e h -> in_session (c <| in_step_ := b |>) e h.
Proof.
  intros (inc & ups & [Hok ? ? ? Hal ? ? ? ? ?] & [Hp Hb]). exists inc, ups. split; [|by split].
  split; try done; [by apply sys_ok_step | by destruct Hal].
Qed.

Lemma publish_poised topic payload qos retain s :
  0 <= qos -> zlen payload < 2 ^ 63 -> poised s ->
  wp False (publish topic payload qos retain) (fun _ s' => poised s' /\ delays (env s') <= delays (env s)) s.
Proof.
  destruct s as [c e h]. intros Hq Hp (Hf & Hlt & Hcase). cbn [cl env history] in *. destruct Hcase as [Hin|Hcase].
  - apply (in_session_step false) in Hin. replace (c <| in_step_ := true |> <| in_step_ := false |>) with c in Hin
      by (by destruct c; cbn in *; subst).
    destruct Hin as (inc & ups & Htk & Har). pose proof (tk_ok _ _ _ _ _ Htk) as Hok. eapply wp_mono; [apply wp_and|].
    + apply publish_queued; try done; by apply Htk.
    + by apply (publish_wp False).
    + intros r s [[us Hus] [Hok' _]]. pose proof (talking_queued _ _ _ _ _ _ _ Htk Hus Hok') as Htk'.
      destruct Hus as (q & n & l & e' & -> & Hs & _). cbn [cl env history] in *.
      split; [|by apply later_delays, Hs]. split; [done|]. split; [done|]. left.
      apply (in_session_step true). exists inc, (ups ++ us). split; [done|]. by apply (arriving_same _ _ _ _ Hs) in Har as [? ?].
  - assert (Hst : state_ c <> Connected).
    { destruct Hcase as [[_ Hst]|Hco]; [cbn in Hst; congruence|]. destruct (cg_state _ _ _ Hco) as [Hst _]. cbn in Hst. congruence. }
    unfold publish. wp_run. unfold State_eqb. rewrite bool_decide_false by done. cbn [negb]. wp_run. split; [split_and!; auto | done].
Qed.

(** Time passes. *)
Lemma poised_same c e e' h : same_link e e' -> poised (mkSys c e h) -> poised (mkSys c e' h).
Proof.
  intros Hs (Hf & Hlt & Hcase). split; [done|]. split; [done|]. cbn [cl env history] in *. destruct Hcase as [Hin|[[Hop Hst]|Hco]].
  - left. destruct Hin as (inc & ups & Htk & Har). exists inc, ups. split; [by eapply talking_same | by eapply arriving_same].
  - right. left. split; [|done]. destruct (engaged_same _ e e' h Hs (or_intror Hop)) as [(_ & inc & ups & Htk & _)|?]; [|done].
    pose proof (tk_state _ _ _ _ _ Htk). congruence.
  - right. right. destruct Hs as (Hl & _). destruct Hco as [Hok ? Hal ? [? ?]]. unfold later, elapses in Hl.
    split; [by eapply sys_ok_env | done | by eapply alive_later | done | split; [done | lia]].
Qed.

(** ** Asking for a connection *)

Definition kept_fits (opts : ConnectOptions) c : Prop :=
  opt_clean_session opts = true \/ zlen (resends c 0 (Z.to_nat max_inflight_out)) <= tx_buffer_size.

Lemma resends_reset c n : forall i, resends (reset_session_state c) i n = [].
Proof.
  induction n as [|n IH]; intros i; [done|]. unfold resends in *. cbn [seq fmap list_fmap concat]. rewrite IH, app_nil_r.
  unfold resend, slot_at, reset_session_state, mark_all_resub. cbn. rewrite list_lookup_fmap. by destruct (outbound_ c !! i).
Qed.

Lemma session_of_fits opts c :
  kept_fits opts c -> subscriptions_ c = [] ->
  zlen (resends (session_of opts c) 0 (Z.to_nat max_inflight_out)) <= tx_buffer_size /\ subscriptions_ (session_of opts c) = [].
Proof.
  unfold kept_fits, session_of. pose proof config_facts as (? & ? & _). destruct (opt_clean_session opts).
  - intros _ Hsu. rewrite resends_reset. split; [change (zlen []) with 0; lia|]. unfold reset_session_state, mark_all_resub. cbn. by rewrite Hsu.
  - intros [?|?] ?; done.
Qed.

(** What [connect] leaves behind. *)
Definition connects (opts : ConnectOptions) c q e' : Client :=
  (session_of opts (c <| tx_ ::= tx_clear |> <| rx_len_ := 0 |>)) <| tx_ := q |> <| clean_session_ := opt_clean_session opts |>
    <| keep_alive_ms_ := opt_keep_alive_s opts * 1000 |> <| connack_ := default_ConnackInfo |> <| last_error_ := Ok |>
    <| connect_started_ms_ := clock_at e' |> <| last_sent_ms_ := clock_at e' |> <| last_received_ms_ := clock_at e' |>
    <| ping_outstanding_ := false |> <| state_ := Connecting |>.

Lemma connect_run opts c e h :
  is_u16 (opt_keep_alive_s opts) -> sys_ok (mkSys c e h) -> in_time e ->
  wp False (connect opts) (fun r s => r = Ok -> exists q e', same_link e e' /\ s = mkSys (connects opts c q e') e' h) (mkSys c e h).
Proof.
  intros Hka Hok Ht. unfold connect. wp_run.
  do 6 (case_if; [by wp_run|]). destruct (connect_remaining_length opts) as [rl|er] eqn:Erl;
    [|wp_run; intros ->; by apply connect_remaining_length_Err in Erl].
  pose proof (encode_connect_encodes opts rl Hka Erl) as Henc. apply connect_remaining_length_Val in Erl as (Hopts & -> & Hvbi).
  pose proof (tx_clear_wf _ _ (ok_tx c (proj1 Hok))) as Hclear. unfold connect_start. wp_run.
  eapply wp_mono with (Q := fun _ s => s = mkSys (session_of opts (c <| tx_ ::= tx_clear |> <| rx_len_ := 0 |>)) e h).
  { unfold session_of. by destruct (opt_clean_session opts); wp_run. }
  intros [] s ->. set (c1 := session_of _ _). assert (Htx : tx_ c1 = tx_clear (tx_ c)) by (subst c1; unfold session_of; by case_if).
  wp_run. eapply wp_enqueue_sized; [by rewrite Htx | exact Henc | by apply packet_size_wire | |].
  - intros q _ _. wp_run. intros _. destruct (peer_now e Ht) as (e' & Hnow & Hs). rewrite Hnow. cbn [fst snd]. exists q, e'. split; [done|].
    rewrite u32_small by (unfold is_u16, is_u32 in *; lia). reflexivity.
  - intros q r _ [-> | ->] _; by wp_run.
Qed.

Lemma connect_poised opts c e h :
  is_u16 (opt_keep_alive_s opts) -> sys_ok (mkSys c e h) -> in_step_ c = false ->
  subscriptions_ c = [] -> kept_fits opts c -> window_start <= clock_at e <= window_end -> dialable e ->
  opt_keep_alive_s opts = 0 \/ window_end - window_start < 750 * opt_keep_alive_s opts ->
  wp False (connect opts) (fun r s => r = Ok -> poised s) (mkSys c e h).
Proof.
  intros Hka Hok Hf Hsu Hfit Htime Hdial Hkeep.
  eapply wp_mono; [apply wp_and; [apply connect_run; [done | done | unfold in_time; lia] | by apply (connect_wp False)]|].
  intros r s [Hrun [Hok' _]] ->. destruct (Hrun eq_refl) as (q & e' & Hs & ->). pose proof Hs as (Hl & _). unfold later, elapses in Hl.
  pose (c0 := c <| tx_ ::= tx_clear |> <| rx_len_ := 0 |>). destruct (session_of_fits opts c0 Hfit Hsu) as [Hfit' Hsu'].
  unfold poised. cbn [cl env history]. split; [unfold connects, session_of; by case_if|]. split; [unfold connects, session_of; by case_if|].
  right. right. split.
  - by apply sys_ok_step.
  - exact Hsu'.
  - split; [cbn; lia | done | | cbn; lia | by apply Hl]. cbn. unfold is_u16 in Hka. split; [lia|].
    destruct Hkeep as [->|Hkeep]; [by left | right].
    replace (opt_keep_alive_s opts * 1000) with ((250 * opt_keep_alive_s opts) * 4) by lia. rewrite Z.div_mul by done. lia.
  - exact Hfit'.
  - split; [done|]. cbn. lia.
Qed.

(** ** Stepping on *)

(** [step] called [n] times, each time with success. *)
Fixpoint steps (n : nat) (s : Sys E) : option (Sys E) :=
  match n with
  | O => Some s
  | S n => match step callback s with Some (Ok, s') => steps n s' | _ => None end
  end.

Lemma quiet_dec c : quiet c \/ ~ quiet c.
Proof.
  unfold quiet. destruct (decide (state_ c = Connected)) as [Hs|Hs]; [|by right; intros [? _]].
  destruct (awaits (outbound_ c)) eqn:Ea; [by left | right; by intros [_ ?]].
Qed.

Lemma settles s :
  poised s -> exists n s', Z.of_nat n <= todo (cl s) (env s) + 3 /\ steps n s = Some s' /\ poised s' /\ quiet (cl s').
Proof.
  remember (Z.to_nat (todo (cl s) (env s) + 3)) as k eqn:Hk. revert s Hk. induction k as [k IH] using lt_wf_ind. intros s Hk Hp.
  pose proof (todo_lower s Hp). destruct (quiet_dec (cl s)) as [Hq|Hq].
  { exists 0%nat, s. split_and!; [lia | done | done | done]. }
  destruct (step_poised s Hp) as (s1 & Hrun & Hp1 & _ & _ & [?|Hlt]); [done|]. pose proof (todo_lower s1 Hp1).
  destruct (IH (Z.to_nat (todo (cl s1) (env s1) + 3)) ltac:(lia) s1 eq_refl Hp1) as (n & s' & Hn & Hs' & Hp' & Hq').
  exists (S n), s'. cbn [steps]. rewrite Hrun. split_and!; [lia | done | done | done].
Qed.

(** When nothing is outstanding, no slot is in use. *)
Lemma awaits_nil l i s : awaits l = [] -> l !! i = Some s -> slot_busy s = false.
Proof.
  intros Ha Hi. destruct (awaited s) as [a|] eqn:Es.
  - assert (Hin : a ∈ awaits l) by (unfold awaits; apply list_elem_of_omap; exists s; split; [by eapply list_elem_of_lookup_2 | done]).
    rewrite Ha in Hin. by apply not_elem_of_nil in Hin.
  - unfold awaited in Es. unfold slot_busy, slot_free. by destruct (slot_phase s).
Qed.

Lemma no_busy l k : awaits l = [] -> (forall s, s ∈ k -> s ∈ l) -> List.filter slot_busy k = [].
Proof.
  intros Ha. induction k as [|s k IH]; intros Hk; [done|]. cbn. rewrite IH by (intros; apply Hk; by right).
  destruct (list_elem_of_lookup_1 l s (Hk s ltac:(by left))) as [i Hi]. by rewrite (awaits_nil _ _ _ Ha Hi).
Qed.

Lemma quiet_inflight c : quiet c -> inflight_count c = 0.
Proof.
  intros [_ Ha]. unfold inflight_count. change (fun s => negb (slot_free s)) with slot_busy. rewrite (no_busy (outbound_ c)); [done | done|].
  intros s Hs. apply elem_of_take in Hs as (i & Hi & _). by eapply list_elem_of_lookup_2.
Qed.
End settle.
