(* ===== verification/LiveProps.v ===== *)
(** * LiveProps: with a broker that works, every message is delivered *)
From stdpp Require Import sets.
From S2P Require Import Prelude Errors Packet PacketFacts Utf8 Topic Etl Codec CodecFacts TxQueue.
From S2P Require Import Config Transport ClientState ClientTables Effects Client Application.
From S2P Require Import ClientInv ClientQueue ClientSpecs ReceiveSpecs SessionSpecs AppSpecs ClientPersist ClientTrace TraceSpecs.
From S2P Require Import Broker Talk Settle Bench Scenarios PersistProps.
#[local] Open Scope client_scope.

Section live.
Context {Cfg : Config} {COK : ConfigOk Cfg} {CS : ConfigSane Cfg}.
Context `{WS : WideSizeT} `{BWO : ByteStreamWriterOk} `{BRO : ByteStreamReaderOk}.
Context {E : Type} {T : Transport E} {CK : Clock E} {TOK : TransportOk E} {P : Peer E} {POK : PeerOk E}.
Context (app : Callback -> Handler E).

(** ** Handlers that watch *)
Lemma watching_run callback p :
  watching p -> forall c e h, exists e', run_handler callback p (mkSys c e h) = Some (tt, mkSys c e' h) /\
    (in_time e -> same_link e e').
Proof.
  induction 1 as [|f k Hf _ IH|k _ IH]; intros c e h.
  - exists e. split; [done|]. apply same_link_refl.
  - destruct (IH c (f e) h) as (e' & Hrun & Hs). exists e'. split; [exact Hrun|]. intros Ht.
    pose proof (Hf e Ht) as Hs1. eapply same_link_trans; [exact Hs1|]. apply Hs. by eapply later_in_time, Hs1.
  - exact (IH c e c e h).
Qed.

Lemma watching_watches depth : (forall cb, watching (app cb)) -> watches (run_callback app (S depth)).
Proof.
  intros Happ cb c e h. destruct (watching_run (run_callback app depth) (app cb) (Happ cb) c e (h ++ [EvCall cb])) as (e' & Hrun & Hs).
  by exists e'.
Qed.

Lemma watching_calls Q p : watching p -> handler_calls Q p.
Proof. induction 1; by constructor. Qed.

(** ** A publisher's session *)

(** From a state that [starts] describes and that has no subscriptions, it asks
    for a session, and from then on publishes, steps, and waits. What the table
    keeps from before, if the session is not a clean one, fits the queue, and the
    keep-alive interval is longer than the window. *)
Inductive publishing (starts : Sys E -> Prop) (depth : nat) : Sys E -> Prop :=
  | pub_connect opts s s1 :
      starts s -> subscriptions_ (cl s) = [] ->
      kept_fits opts (cl s) ->
      window_start <= clock_at (env s) <= window_end ->
      is_u16 (opt_keep_alive_s opts) ->
      opt_keep_alive_s opts = 0 \/ window_end - window_start < 750 * opt_keep_alive_s opts ->
      call app depth (CallConnect opts) s = Some ((Ok, None), s1) -> publishing starts depth s1
  | pub_publish topic payload qos retain s r s1 :
      publishing starts depth s -> 0 <= qos -> zlen payload < 2 ^ 63 ->
      call app depth (CallPublish topic payload qos retain) s = Some (r, s1) -> publishing starts depth s1
  | pub_step s r s1 : publishing starts depth s -> call app depth CallStep s = Some (r, s1) -> publishing starts depth s1
  | pub_wait s e : publishing starts depth s -> same_link (env s) e -> publishing starts depth (s <| env := e |>).

(** Any state the application reaches in which the broker can be dialled. *)
Definition may_dial (s : Sys E) : Prop := reachable app s /\ dialable (env s).

Lemma connect_from_idle opts s s1 : connect opts s = Some (Ok, s1) -> state_ (cl s) = Idle.
Proof.
  unfold connect, bind, get. destruct (State_eqb (state_ (cl s)) Idle) eqn:Es; [|by cbn].
  intros _. by apply bool_decide_eq_true in Es.
Qed.

(** What [connect] accepts is a client that is [Idle]. *)
Lemma publishing_starts (starts starts' : Sys E -> Prop) depth s :
  (forall s, starts s -> state_ (cl s) = Idle -> starts' s) -> publishing starts depth s -> publishing starts' depth s.
Proof.
  intros Hst. induction 1 as [opts s s1 Hs ? ? ? ? ? Hrun|? ? ? ? ? ? ? _ IH|? ? ? _ IH|? ? _ IH].
  - eapply pub_connect; try done. apply Hst; [done|]. unfold call in Hrun. cbn [api] in Hrun. unfold bind in Hrun.
    destruct (connect opts s) as [[r s2]|] eqn:Hc; [|done]. injection Hrun as -> ->. by eapply connect_from_idle.
  - by eapply pub_publish.
  - by eapply pub_step.
  - by apply pub_wait.
Qed.

Lemma publishing_poised depth s : patient -> releases_fit -> (forall cb, watching (app cb)) -> publishing may_dial (S depth) s -> poised s.
Proof.
  intros Hpat Hrel Happ. pose proof (watching_watches depth Happ) as Hcb. induction 1 as
    [opts [c e h] s1 [Hr Hdial] Hsu Hfit Htime Hka Hkeep Hrun | topic payload qos retain s r s1 _ IH Hq Hp Hrun
    | s r s1 _ IH Hrun | [c e h] e' _ IH Hs].
  - assert (Hok : sys_ok (mkSys c e h)) by (apply (reachable_sys_ok app); [intros cb _; by apply watching_calls | done]).
    pose proof (tr_step _ _ _ _ (reachable_traced app _ Hr)) as Hf. cbn [cl env history] in *.
    pose proof (connect_poised opts c e h Hka Hok Hf Hsu Hfit Htime Hdial Hkeep) as Hw. unfold wp in Hw.
    unfold call in Hrun. cbn [api] in Hrun. unfold bind in Hrun. destruct (connect opts _) as [[r s]|]; [|done].
    injection Hrun as -> ->. by apply Hw.
  - pose proof (publish_poised topic payload qos retain s Hq Hp IH) as Hw. unfold wp in Hw.
    unfold call in Hrun. cbn [api] in Hrun. rewrite Hrun in Hw. by apply Hw.
  - destruct (step_poised _ Hcb Hpat Hrel s IH) as (s' & Hstep & Hp' & _). unfold call in Hrun. cbn [api] in Hrun.
    unfold bind in Hrun. rewrite Hstep in Hrun. by injection Hrun as _ <-.
  - by eapply poised_same.
Qed.

Lemma poised_carried p s : poised s -> carried p (cl s) -> id_ok (parcel_id p).
Proof.
  intros Hp (i & sl & Hi & Hc). pose proof (poised_ok s Hp) as Hok. destruct s as [c e h]. open_ok Hok.
  pose proof (carries_not_free _ _ Hc) as Hf. destruct Hc as [<- _]. eapply (slot_id_ok c); [done | exact Hi|].
  unfold slot_busy. by rewrite Hf.
Qed.

Lemma steps_continue depth n : forall s s', steps (run_callback app depth) n s = Some s' -> continues false app s s'.
Proof.
  assert (Hon : forall s0 s s', continues false app s0 s -> steps (run_callback app depth) n s = Some s' -> continues false app s0 s').
  { induction n as [|n IH]; intros s0 s s' Hc Hrun; cbn [steps] in Hrun; [by injection Hrun as <-|].
    destruct (step (run_callback app depth) s) as [[[] s1]|] eqn:Es; try done. eapply IH; [|exact Hrun].
    apply (continues_call false app s0 depth CallStep s (Ok, None)); [done | done|]. unfold call. cbn [api]. unfold bind. by rewrite Es. }
  intros s s'. apply Hon, continues_here.
Qed.

(** Within [bound] calls of [step], all of them successful, the client is
    connected, the link up, nothing is in flight, and every message that a slot of
    [s] carries has been reported to the application, if it asked for that. *)
Definition delivers (depth : nat) (bound : Z) (s : Sys E) : Prop :=
  exists n s', Z.of_nat n <= bound /\ steps (run_callback app depth) n s = Some s' /\
    is_connected (cl s') = true /\ linked (env s') /\ inflight_count (cl s') = 0 /\
    forall p, carried p (cl s) -> is_Some (on_delivery_ (cl s)) ->
      exists h, history s' = history s ++ h /\ told p h.

(** Where a session has got to does not matter. *)
Lemma poised_delivers depth s :
  patient -> releases_fit -> (forall cb, watching (app cb)) -> poised s ->
  delivers (S depth) (9 * max_inflight_out + 7 + delays (env s)) s.
Proof.
  intros Hpat Hrel Happ Hp. pose proof (todo_upper s Hp).
  destruct (settles _ (watching_watches depth Happ) Hpat Hrel s Hp) as (n & s' & Hn & Hrun & Hp' & Hq).
  exists n, s'. split; [lia|]. split; [done|]. pose proof Hq as [Hst Haw]. split; [unfold is_connected; by rewrite Hst|].
  split; [by apply (poised_linked s')|]. split; [by apply quiet_inflight|]. intros p Hcar Hod.
  pose proof (poised_carried p s Hp Hcar) as Hid.
  assert (Hsafe : safe_sys false p (history s) s) by (split; try done; exists []; split; [by rewrite app_nil_r | by left]).
  destruct (continues_safe false app p Hid (fun cb => watching_calls _ _ (Happ cb)) (history s) s s'
    (steps_continue (S depth) n s s' Hrun) Hsafe) as [_ _ (h & Hh & [(i & sl & Hi & Hc)|[Ht|[_ Hi]]])]; [|by exists h | congruence].
  pose proof (awaits_nil _ _ _ Haw Hi) as Hb. apply carries_not_free in Hc. unfold slot_busy in Hb. by rewrite Hc in Hb.
Qed.

(** C6: liveness. A client without subscriptions, whose handlers do not call it,
    asks for a session, clean or not, and publishes ([publishing]); the link moves
    bytes and the broker answers; no timer expires in the window of time
    ([patient], and the keep-alive interval in [publishing]); the queue has room
    for a PUBREL per exchange ([releases_fit]), and for the packets kept from
    earlier connections, unless the session is a clean one ([kept_fits]). Then
    within [9 * max_inflight_out + 7] calls of [step], and one more for each time
    the link keeps the client waiting, all of them successful, the client is
    connected, the link is up, nothing is in flight, and every QoS 1 or 2 message
    that a slot carried, from this connection or an earlier one, has been reported
    to the application as delivered. *)
Theorem messages_delivered depth s :
  patient -> releases_fit -> (forall cb, watching (app cb)) -> publishing may_dial (S depth) s ->
  delivers (S depth) (9 * max_inflight_out + 7 + delays (env s)) s.
Proof. intros Hpat Hrel Happ Hpub. apply (poised_delivers depth s Hpat Hrel Happ), (publishing_poised depth s Hpat Hrel Happ Hpub). Qed.
End live.

(** ** Runs of a publisher *)
Section runs.
Import Bench.Target.
Context {E : Type} {T : Transport E} {CK : Clock E} {P : Peer E} (wait : E -> E) (calm : E -> bool).
Context (calm_waits : forall e, calm e = true -> same_link e (wait e)).

Definition watcher : Callback -> Handler E := fun _ => Done.

(** Calls, and a wait after each. *)
Fixpoint calls (l : list ApiCall) (s : Sys E) : option (Sys E) :=
  match l with
  | [] => Some s
  | c :: l =>
      match call watcher 3 c s with
      | Some (_, s') => if calm (env s') then calls l (s' <| env ::= wait |>) else None
      | None => None
      end
  end.

(** What a publisher calls. *)
Definition publishes (c : ApiCall) : Prop := match c with CallStep | CallPublish _ _ _ _ => call_ok c | _ => False end.

Lemma calls_keep (ok : ApiCall -> Prop) (R : Sys E -> Prop) l :
  (forall c s r s', ok c -> R s -> call watcher 3 c s = Some (r, s') -> R s') ->
  (forall s, R s -> calm (env s) = true -> R (s <| env ::= wait |>)) ->
  forall s s', Forall ok l -> R s -> calls l s = Some s' -> R s'.
Proof.
  intros Hcall Hwait. induction l as [|c l IH]; intros s s' Hok Hr Hrun; [by injection Hrun as <-|].
  apply Forall_cons_iff in Hok as [Hc Hok]. cbn [calls] in Hrun. destruct (call watcher 3 c s) as [[r s1]|] eqn:Ec; [|done].
  destruct (calm (env s1)) eqn:Ew; [|done]. eapply IH; [done | | exact Hrun]. apply Hwait; [|done]. by eapply Hcall.
Qed.

Lemma calls_publishing starts l s s' :
  Forall publishes l -> publishing watcher starts 3 s -> calls l s = Some s' -> publishing watcher starts 3 s'.
Proof.
  apply calls_keep.
  - intros c s1 r s2 Hc Hp Hrun. destruct c; try done; [destruct Hc; by eapply pub_publish | by eapply pub_step].
  - intros [c e h] Hp Hw. by apply (pub_wait _ _ _ _ (wait e) Hp), calm_waits.
Qed.

(** A slot carries a PUBLISH. *)
Definition carries_publish (p : Parcel) (dup : bool) (i : nat) (c : Client) : bool :=
  match outbound_ c !! i with
  | Some s =>
      bool_decide (slot_packet_id s = parcel_id p) && (4 <=? zlen (slot_packet s)) &&
      bool_decide (slot_phase s = if parcel_qos p =? AtLeastOnce then WaitPuback else WaitPubrec) &&
      bool_decide (parcel_qos p = AtLeastOnce \/ parcel_qos p = ExactlyOnce) &&
      bool_decide (stored s = publish_packet dup (parcel_qos p) (parcel_retain p) (parcel_topic p) (parcel_payload p) (parcel_id p))
  | None => false
  end.

Lemma carries_publish_carried p dup i c : carries_publish p dup i c = true -> carried p c.
Proof.
  unfold carries_publish. destruct (outbound_ c !! i) as [s|] eqn:Hi; [|done]. rewrite !andb_true_iff.
  intros [[[[Hid Hlen] Hph] Hq] Hst]. apply bool_decide_eq_true in Hid, Hph, Hq, Hst. zbool. exists i, s. split; [done|].
  unfold carries. split; [done|]. split; [done|]. rewrite Hph. destruct Hq as [Hq|Hq]; rewrite Hq; cbn; (split; [done|]; exists dup; by rewrite <- Hq).
Qed.

(** A QoS 2 message is accepted, and the connection given up before anything
    came back. *)
Definition before : list ApiCall :=
  [CallOnDelivery (Some 1); CallConnect options_kept; CallStep; CallStep; CallStep; CallStep; CallPublish topic_t [1] ExactlyOnce false; CallAbort].

Lemma before_ok : Forall call_ok before.
Proof. unfold before. repeat (apply Forall_cons; [first [exact I | unfold call_ok, is_u16; by_decide]|]). apply Forall_nil. Qed.

(** On the next connection a QoS 1 message joins it. *)
Definition after : list ApiCall := [CallStep; CallStep; CallStep; CallStep; CallPublish topic_t [2] AtLeastOnce true].

Definition first_parcel : Parcel := mkParcel 1 ExactlyOnce false topic_t [1].
Definition second_parcel : Parcel := mkParcel 2 AtLeastOnce true topic_t [2].

Definition live_check (s0 s2 : Sys E) (r : ApiResult) : bool :=
  bool_decide (subscriptions_ (cl s0) = []) &&
  (zlen (resends (cl s0) 0 (Z.to_nat max_inflight_out)) <=? tx_buffer_size) &&
  (window_start <=? clock_at (env s0)) && (clock_at (env s0) <=? window_end) && bool_decide (r = (Ok, None)) &&
  carries_publish first_parcel true 0 (cl s2) && carries_publish second_parcel false 1 (cl s2) &&
  bool_decide (on_delivery_ (cl s2) = Some 1).

(** A publisher with two messages in flight. *)
Definition busy_publisher (starts : Sys E -> Prop) : Prop :=
  exists s, publishing watcher starts 3 s /\ carried first_parcel (cl s) /\ carried second_parcel (cl s) /\
    is_Some (on_delivery_ (cl s)).

(** Both are delivered. *)
Definition both_told (bound : Z) (s : Sys E) : Prop :=
  exists n s', Z.of_nat n <= bound /\ steps (run_callback watcher 3) n s = Some s' /\ inflight_count (cl s') = 0 /\
    exists h, history s' = history s ++ h /\ told first_parcel h /\ told second_parcel h.

Lemma both_delivered bound s :
  carried first_parcel (cl s) /\ carried second_parcel (cl s) /\ is_Some (on_delivery_ (cl s)) ->
  delivers watcher 3 bound s -> both_told bound s.
Proof.
  intros (Hp1 & Hp2 & Hod) (n & s' & Hn & Hrun & _ & _ & Hin & Htold). exists n, s'. split; [exact Hn|]. split; [exact Hrun|].
  split; [exact Hin|]. destruct (Htold first_parcel Hp1 Hod) as (h & Hh & Ht1). exists h. split; [exact Hh|]. split; [exact Ht1|].
  destruct (Htold second_parcel Hp2 Hod) as (h' & Hh' & Ht2).
  rewrite Hh in Hh'. apply app_inv_head in Hh' as ->. exact Ht2.
Qed.

Lemma live_run (starts : Sys E -> Prop) s :
  (forall s0, calls before s = Some s0 -> starts s0) -> window_end - window_start < 45000 ->
  match calls before s with
  | Some s0 =>
      match call watcher 3 (CallConnect options_kept) s0 with
      | Some (r, s1) => match calls after s1 with Some s2 => live_check s0 s2 r | None => false end
      | None => false
      end
  | None => false
  end = true -> busy_publisher starts.
Proof.
  intros Hs Hkeep Hrun.
  destruct (calls before s) as [s0|] eqn:R0; [|done]. destruct (call watcher 3 (CallConnect options_kept) s0) as [[r s1]|] eqn:R1; [|done].
  destruct (calls after s1) as [s2|] eqn:R2; [|done]. unfold live_check in Hrun. rewrite !andb_true_iff in Hrun.
  destruct Hrun as [[[[[[[Hsu Hfit] Hc0] Hc1] Hr] Hp1] Hp2] Hod].
  apply bool_decide_eq_true in Hsu, Hr, Hod. apply Z.leb_le in Hfit, Hc0, Hc1. subst r.
  exists s2. split; [|split; [by eapply carries_publish_carried|]; split; [by eapply carries_publish_carried | by eexists]].
  eapply calls_publishing; [| |exact R2]; [by repeat constructor|].
  eapply (pub_connect watcher starts 3 options_kept s0); try done; [by apply Hs | by right | right; exact Hkeep].
Qed.
End runs.

(** ** A broker on the bench *)
Section witnesses.
Import Bench.Target.

(** The link takes five bytes at a time and gives one; ten seconds go by at
    most. *)
#[local] Instance sim_link : Transport Sim.SimLink := Sim.sim_transport 5 1.
#[local] Instance sim_time : Clock Sim.SimLink := Sim.sim_clock_instance 10000.
#[local] Instance sim_broker : Peer Sim.SimLink := Sim.sim_peer 10000.

#[local] Instance sim_link_ok : TransportOk Sim.SimLink.
Proof. apply Sim.sim_transport_ok; lia. Qed.

#[local] Instance sim_broker_ok : PeerOk Sim.SimLink.
Proof. apply Sim.sim_peer_ok; lia. Qed.

(** The link keeps the client waiting now and then. *)
Definition stalls : list bool :=
  [true; false; true; false; true; false; false; false; false; true; false; true; false; true; false; false; false; false;
   true; true; false; true].

Definition sim_start : Sys Sim.SimLink := mkSys client_init (Sim.mkSimLink [] [] stalls 0) [].

Definition sim_calm (e : Sim.SimLink) : bool := Sim.sim_clock e <=? 10000.

Lemma sim_busy : busy_publisher (may_dial (watcher (E := Sim.SimLink))).
Proof.
  apply (live_run id sim_calm) with (s := sim_start); [|intros s0 Hrun|done | vm_compute; reflexivity].
  - intros e He. apply same_link_refl. by apply Z.leb_le.
  - split; [|done]. revert Hrun. apply (calls_keep id sim_calm call_ok).
    + intros c s1 r s2 Hc Hr Hrun. by eapply reach_call.
    + intros s1 Hr _. by apply reach_env.
    + apply before_ok.
    + apply reach_init.
Qed.

Lemma messages_delivered_witness : exists s : Sys Sim.SimLink, both_told (9 * max_inflight_out + 7 + delays (env s)) s.
Proof.
  destruct sim_busy as (s & Hpub & Hbusy). exists s. apply both_delivered; [exact Hbusy|].
  apply (messages_delivered watcher 2 s); [|by vm_compute|exact (fun _ => w_done) | exact Hpub].
  split; [right; by vm_compute | by vm_compute].
Defined.
End witnesses.
