(* ===== verification/Network.v ===== *)
(** * Network: a system whose network works

    What it takes of the operating system and of the broker behind it for
    [TcpIpTransport] to be the link that [Broker] asks for: sockets are there to
    be had, the broker's address answers, what is sent arrives, and what has to
    wait waits only so often. *)
From S2P Require Import Prelude Errors Packet PacketFacts Etl Codec CodecFacts Transport.
From S2P Require Import ClientInv Ipv4 Platform Posix TcpIpTransport LinkSpec Broker.
#[local] Open Scope io_scope.

(** A stream socket before [connect], during it, and after. *)
Inductive SockState := SockNew | SockOpening | SockOpen.

(** The broker's address and its side of a connection; the sockets of the
    process, and the bytes that went up and came down on each; how often the
    network may still keep the process waiting; the time in milliseconds. *)
Class Network (W : Type) := {
  net_broker : SockAddrIn;
  net_answers : list Z -> list Z;
  net_present : ConnectOptions -> bool;
  net_sock : Z -> W -> option SockState;
  net_up : Z -> W -> list Z;
  net_down : Z -> W -> list Z;
  net_delays : W -> Z;
  net_time : W -> Z;
  net_start : Z;
  net_end : Z;
}.

Section network.
Context {W : Type} `{N : Network W}.

Definition net_in_time (w : W) : Prop := net_time w <= net_end.

Definition net_elapses (w w' : W) : Prop :=
  net_time w <= net_time w' <= net_end /\ net_delays w' <= net_delays w.

(** Time passes, and a socket stays as it is. *)
Definition net_keeps (fd : Z) (w w' : W) : Prop :=
  net_elapses w w' /\ net_sock fd w' = net_sock fd w /\ net_up fd w' = net_up fd w /\ net_down fd w' = net_down fd w.

(** A connection on which nothing has moved. *)
Definition net_opened (fd : Z) (w : W) : Prop := net_sock fd w = Some SockOpen /\ net_up fd w = [] /\ net_down fd w = [].

Lemma net_elapses_trans a b c : net_elapses a b -> net_elapses b c -> net_elapses a c.
Proof. unfold net_elapses. lia. Qed.

Lemma net_elapses_in_time a b : net_elapses a b -> net_in_time b.
Proof. unfold net_elapses, net_in_time. lia. Qed.

Lemma net_keeps_trans fd a b c : net_keeps fd a b -> net_keeps fd b c -> net_keeps fd a c.
Proof. intros (? & ? & ? & ?) (? & ? & ? & ?). split; [by eapply net_elapses_trans | split_and!; congruence]. Qed.
End network.

(** The calls, as POSIX documents them for a process that is given what it asks
    for: [errno] says why a call would have waited. *)
Class NetworkOk (W : Type) `{PosixConstants} `{PosixApi W} `{Network W} : Prop := {
  net_window : 0 <= net_start /\ net_end < 2 ^ 32;
  net_delays_nonneg w : 0 <= net_delays w;
  net_answers_ok o ups :
    connect_wf o -> Forall up_wf ups ->
    net_answers (connect_packet o ++ concat (up_bytes <$> ups)) =
      connack_bytes (net_present o) ++ concat (ack_bytes <$> omap reply ups);
  net_socket w : net_in_time w -> exists fd w', sys_socket AF_INET SOCK_STREAM IPPROTO_TCP w = (fd, w') /\
    0 <= fd /\ net_sock fd w' = Some SockNew /\ net_elapses w w';
  net_fcntl fd cmd arg w : net_in_time w -> net_sock fd w = Some SockNew ->
    exists r w', sys_fcntl fd cmd arg w = (r, w') /\ 0 <= r /\ net_keeps fd w w';
  net_setsockopt fd level option value w : net_in_time w -> net_sock fd w = Some SockNew ->
    exists r w', sys_setsockopt fd level option value w = (r, w') /\ net_keeps fd w w';
  (** [connect] succeeds or goes on in the background, *)
  net_connect fd w : net_in_time w -> net_sock fd w = Some SockNew ->
    exists r w', sys_connect fd net_broker w = (r, w') /\ net_elapses w w' /\
      (r = 0 /\ net_opened fd w' \/
       r <> 0 /\ In (sys_errno w') [EINPROGRESS; EALREADY; EINTR] /\ net_sock fd w' = Some SockOpening /\
       net_delays w' < net_delays w);
  (** and then [poll] finds the socket writable in the end. *)
  net_poll fd w : net_in_time w -> net_sock fd w = Some SockOpening ->
    exists r w', sys_poll fd POLLOUT 0 w = (r, w') /\ net_elapses w w' /\
      (0 < r /\ net_opened fd w' \/
       (r = 0 \/ r < 0 /\ sys_errno w' = EINTR) /\ net_sock fd w' = Some SockOpening /\ net_delays w' < net_delays w);
  net_getsockopt fd w : net_in_time w -> net_sock fd w = Some SockOpen ->
    exists w', sys_getsockopt fd SOL_SOCKET SO_ERROR w = (0, 0, w') /\ net_keeps fd w w';
  (** The socket's buffer has room, *)
  net_send fd data w : net_in_time w -> net_sock fd w = Some SockOpen -> data <> [] ->
    exists n w', sys_send fd data MSG_NOSIGNAL w = (n, w') /\ 0 < n <= zlen data /\ net_elapses w w' /\
      net_sock fd w' = Some SockOpen /\ net_up fd w' = net_up fd w ++ ztake n data /\ net_down fd w' = net_down fd w;
  (** and the answers arrive in the end. *)
  net_recv fd n w rest : net_in_time w -> net_sock fd w = Some SockOpen -> 0 < n ->
    net_answers (net_up fd w) = net_down fd w ++ rest ->
    exists r got w', sys_recv fd n 0 w = (r, got, w') /\ net_elapses w w' /\
      net_sock fd w' = Some SockOpen /\ net_up fd w' = net_up fd w /\ net_down fd w' = net_down fd w ++ got /\
      (r < 0 /\ got = [] /\ In (sys_errno w') [EAGAIN; EWOULDBLOCK; EINTR] /\ (rest = [] \/ net_delays w' < net_delays w) \/
       r = zlen got /\ 0 < r <= n /\ got `prefix_of` rest);
  (** A wait ends in time. *)
  net_wait fd ms w : 0 <= ms -> net_time w + ms <= net_end ->
    exists r w', sys_poll fd POLLIN ms w = (r, w') /\ net_keeps fd w w';
  net_clock w : net_in_time w ->
    exists sec nsec w', sys_clock_gettime w = (sec, nsec, w') /\ 0 <= sec /\ 0 <= nsec < 10 ^ 9 /\
      net_time w' = sec * 1000 + nsec / 10 ^ 6 /\ forall fd, net_keeps fd w w';
}.

(** ** The transport over it *)
#[export] Instance tcp_link `{PosixConstants} {W} `{Network W} : Peer (Obj TcpIpTransport W) := {|
  accepted s := net_up (tcp_fd_ (self s)) (os s);
  delivered s := net_down (tcp_fd_ (self s)) (os s);
  answers := net_answers;
  session_present := net_present;
  dialable s :=
    tcp_peer (self s) = net_broker /\ tcp_connected_ (self s) = false /\
    (tcp_fd_ (self s) < 0 \/ 0 <= tcp_fd_ (self s) /\ net_sock (tcp_fd_ (self s)) (os s) = Some SockOpening);
  linked s := tcp_connected_ (self s) = true /\ 0 <= tcp_fd_ (self s) /\ net_sock (tcp_fd_ (self s)) (os s) = Some SockOpen;
  delays s := net_delays (os s);
  clock_at s := net_time (os s);
  window_start := net_start;
  window_end := net_end;
|}.

Section tcp.
Context {W : Type} `{NO : NetworkOk W}.
Implicit Types (s : Obj TcpIpTransport W) (t : TcpIpTransport) (w : W) (tr : list OsEvent).

(** *** The calls of [connect]

    since the system was [w0]. *)
Definition has_sock (st : SockState) w0 fd w : Prop := net_elapses w0 w /\ net_sock fd w = Some st.

Lemma has_sock_keeps st w0 fd w w' : has_sock st w0 fd w -> net_keeps fd w w' -> has_sock st w0 fd w'.
Proof. intros [? ?] (? & He & _). split; [by eapply net_elapses_trans | congruence]. Qed.

Section calls.
Context {O : Type} (o : O) (w0 : W) (tr : list OsEvent).

Lemma post_errno (Q : Z -> Obj O W -> Prop) w :
  Q (sys_errno w) (mkObj o w tr) -> post (sys (fun w => (sys_errno w, w))) Q (mkObj o w tr).
Proof. done. Qed.

Lemma post_socket Q w :
  net_in_time w -> (forall fd w', 0 <= fd -> has_sock SockNew w fd w' -> Q fd (mkObj o w' tr)) ->
  post (sys (sys_socket AF_INET SOCK_STREAM IPPROTO_TCP)) Q (mkObj o w tr).
Proof. intros Ht HQ. apply post_sys. intros a w'. destruct (net_socket w Ht) as (fd & w1 & -> & ? & ? & ?). intros [= <- <-]. by apply HQ. Qed.

Lemma post_fcntl Q fd cmd arg w :
  has_sock SockNew w0 fd w -> (forall r w', 0 <= r -> has_sock SockNew w0 fd w' -> Q r (mkObj o w' tr)) ->
  post (sys (sys_fcntl fd cmd arg)) Q (mkObj o w tr).
Proof.
  intros Hs HQ. apply post_sys. intros a w'. destruct (net_fcntl fd cmd arg w) as (r & w1 & -> & ? & ?); [by eapply net_elapses_in_time, Hs | apply Hs|].
  intros [= <- <-]. apply HQ; [done | by eapply has_sock_keeps].
Qed.

Lemma post_setsockopt Q fd level option value w :
  has_sock SockNew w0 fd w -> (forall r w', has_sock SockNew w0 fd w' -> Q r (mkObj o w' tr)) ->
  post (sys (sys_setsockopt fd level option value)) Q (mkObj o w tr).
Proof.
  intros Hs HQ. apply post_sys. intros a w'. destruct (net_setsockopt fd level option value w) as (r & w1 & -> & ?); [by eapply net_elapses_in_time, Hs | apply Hs|].
  intros [= <- <-]. apply HQ. by eapply has_sock_keeps.
Qed.
End calls.

(** Run up to the next call, the branches that the results exclude aside. *)
Ltac to_call :=
  repeat lazymatch goal with
  | |- post (sys _) _ _ => fail
  | |- post (if _ then _ else _) _ _ => case_if; zbool; try lia
  | |- post _ _ _ => io_step
  end.

(** The end of [connect]. *)
Definition tcp_dials w (e : Error) s : Prop :=
  net_elapses w (os s) /\
  (e = Ok /\ linked s /\ accepted s = [] /\ delivered s = [] \/
   e = WouldBlock /\ dialable s /\ net_delays (os s) < net_delays w).

Lemma tcp_begin_dials t w tr :
  net_in_time w -> tcp_peer t = net_broker -> tcp_connected_ t = false -> post tcp_begin_connect (tcp_dials w) (mkObj t w tr).
Proof.
  intros Ht Hp Hc. unfold tcp_begin_connect, socket, fcntl_getfl, fcntl_nonblock, setsockopt, connect_to, errno.
  to_call. apply post_socket; [done|]. intros fd w1 Hfd Hs1. to_call.
  eapply post_fcntl; [done|]. intros flags w2 Hf Hs2. to_call.
  eapply post_fcntl; [done|]. intros r w3 Hr Hs3. to_call.
  eapply post_setsockopt; [done|]. intros ? w4 [Hw4 Hs4]. to_call.
  apply post_sys. intros c w5. change (tcp_peer (t <| tcp_fd_ := fd |>)) with (tcp_peer t). rewrite Hp.
  destruct (net_connect fd w4) as (c' & w5' & -> & Hw5 & Hc5); [by eapply net_elapses_in_time | done|]. intros [= -> ->].
  pose proof (net_elapses_trans _ _ _ Hw4 Hw5). destruct Hc5 as [(-> & Hs5 & Hu5 & Hd5)|(Hc5 & He5 & Hs5 & Hn5)].
  - to_call. split; [done|]. left. by cbn.
  - unfold net_elapses in *. to_call. apply post_errno. to_call; [|cbn in He5; lia].
    split; [cbn; unfold net_elapses; lia|]. right. cbn [os]. split; [done|]. split; [|lia]. cbn. split_and!; [done | done | by right].
Qed.

Lemma tcp_finish_dials t w tr :
  net_in_time w -> tcp_peer t = net_broker -> tcp_connected_ t = false -> 0 <= tcp_fd_ t ->
  net_sock (tcp_fd_ t) w = Some SockOpening -> post tcp_finish_connect (tcp_dials w) (mkObj t w tr).
Proof.
  intros Ht Hp Hc Hfd Hs. unfold tcp_finish_connect, poll, getsockopt, errno. to_call. apply post_sys. intros r w1.
  destruct (net_poll (tcp_fd_ t) w Ht Hs) as (r' & w1' & -> & Hw1 & [(Hr & Hs1 & Hu1 & Hd1)|(Hr & Hs1 & Hn1)]); intros [= -> ->].
  - to_call. apply post_sys. intros [a b] w2.
    destruct (net_getsockopt (tcp_fd_ t) w1) as (w2' & -> & Hw2 & Hs2 & Hu2 & Hd2); [by eapply net_elapses_in_time | done|].
    intros [= <- <- ->]. to_call; [by destruct E1|]. cbn. split; [by eapply net_elapses_trans|]. left. cbn. split_and!; congruence.
  - assert (Hend : forall tr', tcp_dials w WouldBlock (mkObj t w1 tr')) by
      (intros tr'; split; [done|]; right; cbn; split_and!; [done | done | done | by right | done]).
    to_call; [|apply Hend]. apply post_errno. to_call. apply Hend.
Qed.

Lemma tcp_connect_dials t w tr :
  net_in_time w -> dialable (mkObj t w tr) -> post tcp_connect (tcp_dials w) (mkObj t w tr).
Proof.
  cbn. intros Ht (Hp & Hc & Hcase). unfold tcp_connect. io_step. io_step. rewrite Hc. case_if; zbool.
  - by apply tcp_begin_dials.
  - apply tcp_finish_dials; try done. destruct Hcase as [|[_ ?]]; [lia | done].
Qed.

(** *** The other calls *)
Lemma later_link t w w' tr tr' :
  net_elapses w w' -> net_sock (tcp_fd_ t) w' = net_sock (tcp_fd_ t) w -> later (mkObj t w tr) (mkObj t w' tr').
Proof. intros He Hs. split; [exact He|]. cbn. by rewrite Hs. Qed.

Lemma tcp_send_link t w tr data :
  net_in_time w -> linked (mkObj t w tr) -> data <> [] ->
  post (tcp_send data) (fun r s => fst r = Ok /\ 0 < snd r <= zlen data /\
    accepted s = net_up (tcp_fd_ t) w ++ ztake (snd r) data /\ delivered s = net_down (tcp_fd_ t) w /\ later (mkObj t w tr) s)
    (mkObj t w tr).
Proof.
  cbn [linked tcp_link self os]. intros Ht (Hc & Hfd & Hs) Hd. unfold tcp_send, send_bytes. io_step. io_step. rewrite Hc.
  case_if; zbool; [cbn in *; destruct E; [lia | done]|]. to_call. apply post_sys. intros n w1.
  destruct (net_send (tcp_fd_ t) data w Ht Hs Hd) as (n' & w1' & -> & Hn & Hw1 & Hs1 & Hu1 & Hd1). intros [= -> ->].
  to_call. cbn [fst snd]. split_and!; try done; [lia|]. apply later_link; [done | congruence].
Qed.

Lemma tcp_recv_link t w tr n rest :
  net_in_time w -> linked (mkObj t w tr) -> 0 < n -> net_answers (net_up (tcp_fd_ t) w) = net_down (tcp_fd_ t) w ++ rest ->
  post (tcp_recv n) (fun r s => accepted s = net_up (tcp_fd_ t) w /\ delivered s = net_down (tcp_fd_ t) w ++ snd r /\
    later (mkObj t w tr) s /\
    (fst r = WouldBlock /\ snd r = [] /\ (rest = [] \/ net_delays (os s) < net_delays w) \/
     fst r = Ok /\ snd r <> [] /\ zlen (snd r) <= n /\ snd r `prefix_of` rest))
    (mkObj t w tr).
Proof.
  cbn [linked tcp_link self os]. intros Ht (Hc & Hfd & Hs) Hn Ha. unfold tcp_recv, recv_bytes, errno. io_step. io_step. rewrite Hc.
  case_if; zbool; [cbn in *; destruct E; [lia | done]|]. to_call. apply post_sys. intros [r got] w1.
  destruct (net_recv (tcp_fd_ t) n w rest Ht Hs Hn Ha) as (r' & got' & w1' & -> & Hw1 & Hs1 & Hu1 & Hd1 & Hcase).
  intros [= -> -> ->]. assert (Hl : forall tr', later (mkObj t w tr) (mkObj t w1 tr')) by (intros; apply later_link; [done | congruence]).
  destruct Hcase as [(Hr & -> & He & Hrest)|(Hr & Hrn & Hpre)].
  - to_call. apply post_errno. io_step. cbn [fst snd accepted delivered tcp_link self os].
    split; [done|]. split; [done|]. split; [done|]. left. split; [|done].
    unfold tcp_classify. case_if; [done|]. zbool. cbn in He. lia.
  - to_call. cbn [fst snd accepted delivered tcp_link self os]. rewrite ztake_all by lia.
    split; [done|]. split; [done|]. split; [done|]. right.
    split_and!; try done; [|lia]. intros ->. change (zlen []) with 0 in Hr. lia.
Qed.

Lemma posix_now_link t w tr :
  net_in_time w -> post posix_now_ms (fun now s => now = clock_at s /\ same_link (mkObj t w tr) s) (mkObj t w tr).
Proof.
  intros Ht. unfold posix_now_ms. io_step. apply post_sys. intros ts w1.
  destruct (net_clock w Ht) as (sec & nsec & w1' & -> & Hsec & Hnsec & Htime & Hk). intros [= <- ->]. io_step.
  pose proof net_window as [_ Hend]. destruct (Hk (tcp_fd_ t)) as (He & Hs & Hu & Hd). cbn [fst snd clock_at tcp_link self os].
  unfold net_elapses in He. change (10 ^ 6) with 1000000 in Htime. split.
  - rewrite Htime in *. assert (0 <= nsec / 1000000) by (apply Z.div_pos; lia).
    unfold u64, u32. rewrite (Z.mod_small sec), (Z.mod_small nsec), (Z.mod_small (sec * 1000)) by lia.
    rewrite (Z.mod_small _ (2 ^ 64)), Z.mod_small by lia. done.
  - split; [by apply later_link | done].
Qed.

(** The application's wait, within the window. *)
Lemma tcp_wait_link ms s :
  0 <= ms -> clock_at s + ms <= window_end -> same_link s (snd (tcp_wait_readable ms s)).
Proof.
  destruct s as [t w tr]. cbn [clock_at window_end tcp_link os]. intros Hms Ht.
  change (post (tcp_wait_readable ms) (fun _ s => same_link (mkObj t w tr) s) (mkObj t w tr)).
  unfold tcp_wait_readable, poll_idle. to_call; [apply same_link_refl; unfold in_time; cbn; lia|]. apply post_sys. intros r w1.
  destruct (net_wait (tcp_fd_ t) ms w Hms Ht) as (r' & w1' & -> & He & Hs1 & Hu & Hd). intros [= -> ->]. io_step.
  split; [by apply later_link | done].
Qed.

#[export] Instance tcp_peer_ok : PeerOk (Obj TcpIpTransport W).
Proof.
  split.
  - apply net_window.
  - intros s. apply net_delays_nonneg.
  - apply net_answers_ok.
  - intros [t w tr] Ht Hd. pose proof (tcp_connect_dials t w tr Ht Hd) as Hp. unfold post in Hp.
    change transport_connect with (@tcp_connect _ W _). destruct (tcp_connect (mkObj t w tr)) as [e s]. cbn [fst snd] in Hp.
    destruct Hp as [He Hcase]. exists s. split; [exact He|]. destruct Hcase as [(-> & ?)|(-> & ?)]; [by left | by right].
  - intros data [t w tr] Ht Hl Hd. pose proof (tcp_send_link t w tr data Ht Hl Hd) as Hp. unfold post in Hp.
    change transport_send with (@tcp_send _ W _). destruct (tcp_send data (mkObj t w tr)) as [[e n] s]. cbn [fst snd] in Hp.
    destruct Hp as (-> & Hp). by exists n, s.
  - intros n [t w tr] rest Ht Hl Hn Ha. pose proof (tcp_recv_link t w tr n rest Ht Hl Hn Ha) as Hp. unfold post in Hp.
    change transport_recv with (@tcp_recv _ W _). destruct (tcp_recv n (mkObj t w tr)) as [[e got] s]. cbn [fst snd] in Hp.
    by exists e, got, s.
  - intros [t w tr] Ht. pose proof (posix_now_link t w tr Ht) as Hp. unfold post in Hp. change now_ms with (@posix_now_ms TcpIpTransport W _).
    destruct (posix_now_ms (mkObj t w tr)) as [now s]. cbn [fst snd] in Hp. destruct Hp as [-> ?]. by exists s.
Qed.
End tcp.
