(* ===== verification/NetBench.v ===== *)
(** * NetBench: a network to run

    One broker at one address, reached over the link of [Broker.Sim]; the process
    has a socket at a time. *)
From stdpp Require Import list.
From S2P Require Import Prelude Errors Packet PacketFacts Etl Codec CodecFacts Transport.
From S2P Require Import ClientInv Ipv4 Platform Posix TcpIpTransport Broker Network.

Record NetOs := mkNetOs {
  no_link : Sim.SimLink;
  no_fd : Z;
  no_sock : option SockState;
  no_errno : Z;
}.

#[export] Instance eta_NetOs : Eta NetOs := fun r => mkNetOs (no_link r) (no_fd r) (no_sock r) (no_errno r).

#[export] Instance SockState_eq_dec : EqDecision SockState.
Proof. solve_decision. Defined.

#[export] Instance SockAddrIn_eq_dec : EqDecision SockAddrIn.
Proof. solve_decision. Defined.

#[local] Existing Instance Sim.eta_SimLink.

Section bench.
Context `{SZ : SizeT} `{BW : ByteStreamWriter} `{BR : ByteStreamReader}.
Context `{PC : PosixConstants} (broker : SockAddrIn) (step_up step_down last_tick : Z).

(** The state of a socket that is there. *)
Definition no_state (fd : Z) (w : NetOs) : option SockState := if fd =? no_fd w then no_sock w else None.

Definition no_refuse (e : Z) (w : NetOs) : Z * NetOs := (-1, w <| no_errno := e |>).

(** The handshake takes place, or has to wait: the result of the call then, and
    [errno]. *)
Definition no_dial (opened waits : Z) (w : NetOs) : Z * NetOs :=
  let '(e, l) := Sim.sim_connect (no_link w) in
  let w := w <| no_link := l |> in
  match e with
  | Ok => (opened, w <| no_sock := Some SockOpen |>)
  | _ => (waits, w <| no_sock := Some SockOpening |> <| no_errno := EINPROGRESS |>)
  end.

Definition no_poll (fd events ms : Z) (w : NetOs) : Z * NetOs :=
  if (events =? POLLOUT) && bool_decide (no_state fd w = Some SockOpening) then no_dial 1 0 w
  else (0, w <| no_link ::= fun l => l <| Sim.sim_clock ::= Z.add (Z.max 0 ms) |> |>).

Definition no_recv (fd n : Z) (w : NetOs) : Z * list Z * NetOs :=
  if bool_decide (no_state fd w = Some SockOpen) then
    let '(e, got, l) := Sim.sim_recv step_down n (no_link w) in
    let w := w <| no_link := l |> in
    match e with
    | Ok => (zlen got, got, w)
    | _ => (-1, [], w <| no_errno := EAGAIN |>)
    end
  else (-1, [], w <| no_errno := ENOTCONN |>).

#[export] Instance no_api : PosixApi NetOs := {|
  sys_errno := no_errno;
  sys_socket _ _ _ w := let fd := Z.max 0 (no_fd w) + 1 in (fd, w <| no_fd := fd |> <| no_sock := Some SockNew |>);
  sys_fcntl _ _ _ w := (0, w);
  sys_setsockopt _ _ _ _ w := (0, w);
  sys_getsockopt _ _ _ w := (0, 0, w);
  sys_connect fd addr w :=
    if bool_decide (addr = broker /\ no_state fd w = Some SockNew) then no_dial 0 (-1) w else no_refuse ECONNRESET w;
  sys_poll := no_poll;
  sys_select _ _ _ _ w := (0, w);
  sys_send fd data _ w :=
    if bool_decide (no_state fd w = Some SockOpen) then
      let '(_, n, l) := Sim.sim_send step_up data (no_link w) in (n, w <| no_link := l |>)
    else no_refuse ENOTCONN w;
  sys_recv fd n _ := no_recv fd n;
  sys_close _ w := (0, w <| no_sock := None |>);
  sys_getaddrinfo _ _ _ _ w := (1, None, w);
  sys_freeaddrinfo _ w := (tt, w);
  sys_clock_gettime w :=
    let '(t, l) := now_ms (Clock := Sim.sim_clock_instance last_tick) (no_link w) in
    (t / 1000, t mod 1000 * 10 ^ 6, w <| no_link := l |>);
|}.

#[export] Instance no_network : Network NetOs := {|
  net_broker := broker;
  net_answers := Sim.sim_link_answers;
  net_present o := negb (opt_clean_session o);
  net_sock := no_state;
  net_up fd w := if fd =? no_fd w then Sim.sim_up (no_link w) else [];
  net_down fd w := if fd =? no_fd w then Sim.sim_down (no_link w) else [];
  net_delays w := zlen (List.filter id (Sim.sim_stalls (no_link w)));
  net_time w := Sim.sim_clock (no_link w);
  net_start := 0;
  net_end := last_tick;
|}.
End bench.

Section bench_ok.
Context `{WS : WideSizeT} `{BWO : ByteStreamWriterOk} `{BRO : ByteStreamReaderOk}.
Context `{PC : PosixConstants} (broker : SockAddrIn) (step_up step_down last_tick : Z).
Context (Hpoll : POLLIN <> POLLOUT) (Hup : 0 < step_up) (Hdown : 0 < step_down) (Htick : 0 <= last_tick < 2 ^ 32).

#[local] Instance no_posix : PosixApi NetOs := no_api broker step_up step_down last_tick.
#[local] Instance no_net : Network NetOs := no_network broker last_tick.
#[local] Instance no_transport : Transport Sim.SimLink := Sim.sim_transport step_up step_down.
#[local] Instance no_clock : Clock Sim.SimLink := Sim.sim_clock_instance last_tick.
#[local] Instance no_peer : Peer Sim.SimLink := Sim.sim_peer last_tick.
#[local] Instance no_peer_ok : PeerOk Sim.SimLink := Sim.sim_peer_ok step_up step_down last_tick Hup Hdown Htick.
#[local] Instance no_transport_ok : TransportOk Sim.SimLink := Sim.sim_transport_ok step_up step_down last_tick Hup Hdown Htick.

Lemma no_state_fd fd w st : no_state fd w = Some st -> fd = no_fd w.
Proof. unfold no_state. case_if; zbool; congruence. Qed.

Lemma no_api_ok : PosixApiOk NetOs.
Proof.
  split; cbn.
  - intros fd data flags w. case_bool_decide; cbn; [right | by left]. pose proof (zlen_nonneg data). lia.
  - intros fd n flags w Hn. unfold no_recv. case_bool_decide; [|by left].
    pose proof (transport_recv_room n (no_link w) Hn) as Hr. cbn in Hr. destruct (Sim.sim_recv step_down n (no_link w)) as [[[] got] l]; try (by left).
    right. by split.
  - intros fd n flags w. unfold no_recv. case_bool_decide; [|constructor].
    pose proof (transport_recv_bytes n (no_link w)) as Hr. cbn in Hr.
    destruct (Sim.sim_recv step_down n (no_link w)) as [[[] got] l]; first [exact Hr | constructor].
Qed.

(** The handshake, from a socket that waits for it. *)
Lemma no_dial_ok fd opened waits w :
  Sim.sim_clock (no_link w) <= last_tick -> fd = no_fd w ->
  exists r w', no_dial opened waits w = (r, w') /\ net_elapses w w' /\
    (r = opened /\ net_opened fd w' \/
     r = waits /\ sys_errno w' = EINPROGRESS /\ net_sock fd w' = Some SockOpening /\ net_delays w' < net_delays w).
Proof.
  intros Ht ->. destruct (peer_connect (no_link w)) as (l & He & Hcase); [exact Ht | exact I |]. cbn in Hcase. unfold no_dial.
  destruct Hcase as [(-> & _ & Hu & Hd)|(-> & _ & Hn)]; eexists _, _; (split; [done|]); split; try exact He; [left | right]; (split; [done|]).
  - unfold net_opened, no_state. cbn. unfold no_state. cbn. by rewrite !Z.eqb_refl.
  - cbn. unfold no_state. cbn. by rewrite Z.eqb_refl.
Qed.

Lemma no_keeps fd w : Sim.sim_clock (no_link w) <= last_tick -> net_keeps fd w w.
Proof. intros. split; [|done]. unfold net_elapses. cbn. lia. Qed.

Lemma no_network_ok : NetworkOk NetOs.
Proof.
  split.
  - cbn. lia.
  - intros w. apply zlen_nonneg.
  - apply Sim.sim_answers_ok.
  - intros w Ht. eexists _, _. split; [done|]. cbv zeta. split; [lia|]. cbn. unfold no_state. cbn. rewrite Z.eqb_refl. split; [done|].
    unfold net_elapses, net_in_time in *. cbn in *. lia.
  - intros fd cmd arg w Ht _. eexists _, _. split; [done|]. split; [done | by apply no_keeps].
  - intros fd l o v w Ht _. eexists _, _. split; [done | by apply no_keeps].
  - intros fd w Ht Hs. cbn. rewrite bool_decide_true by done.
    destruct (no_dial_ok fd 0 (-1) w Ht (no_state_fd _ _ _ Hs)) as (r & w' & -> & He & Hcase). exists r, w'. split; [done|]. split; [done|].
    destruct Hcase as [?|(-> & Herr & ? & ?)]; [by left | right]. split_and!; try done. left. by symmetry.
  - intros fd w Ht Hs. cbn. unfold no_poll. rewrite Z.eqb_refl, bool_decide_true by done. cbn [andb].
    destruct (no_dial_ok fd 1 0 w Ht (no_state_fd _ _ _ Hs)) as (r & w' & -> & He & Hcase). exists r, w'. split; [done|]. split; [done|].
    destruct Hcase as [(-> & ?)|(-> & _ & ? & ?)]; [by left | right]. split; [by left | done].
  - intros fd w Ht _. eexists. split; [done | by apply no_keeps].
  - intros fd data w Ht Hs Hd. cbn. rewrite bool_decide_true by done. destruct (peer_send data (no_link w)) as (n & l & E & Hn & Ha & Hde & He & _);
      [exact Ht | exact I | exact Hd |].
    cbn in E. injection E as -> <-. eexists _, _. split; [done|]. split; [done|]. split; [exact He|].
    pose proof (no_state_fd _ _ _ Hs) as ->. cbn in *. unfold no_state in *. cbn in *. by rewrite !Z.eqb_refl in *.
  - intros fd n w rest Ht Hs Hn Ha. cbn. unfold no_recv. rewrite bool_decide_true by done.
    pose proof (no_state_fd _ _ _ Hs) as ->. cbn in Ha, Hs. rewrite Z.eqb_refl in Ha.
    destruct (peer_recv n (no_link w) rest) as (r & got & l & E & Hac & Hde & (He & _) & Hcase); [exact Ht | exact I | exact Hn | exact Ha |].
    cbn in E. rewrite E. destruct Hcase as [(-> & -> & Hrest)|(-> & Hg & Hl & Hpre)]; eexists _, _, _; (split; [done|]);
      (split; [exact He|]); cbn in *; unfold no_state in *; cbn; rewrite Z.eqb_refl in *; (split; [done|]); (split; [done|]); (split; [done|]).
    + left. split_and!; try done. by left.
    + right. split; [done|]. split; [|done]. split; [|done]. destruct got; [done | rewrite zlen_cons; pose proof (zlen_nonneg got); lia].
  - intros fd ms w Hms Ht. cbn in Ht. cbn. unfold no_poll. rewrite (proj2 (Z.eqb_neq _ _) Hpoll). eexists _, _. split; [done|].
    split; [|done]. unfold net_elapses. cbn. lia.
  - intros w Ht. destruct (peer_now (no_link w)) as (l & E & (He & _) & Ha & Hd); [exact Ht|]. cbn in E. injection E as Et El. cbn.
    rewrite El, Et. eexists _, _, _. split; [done|]. cbn in He. unfold elapses in He. cbn in He.
    assert (0 <= Sim.sim_clock l) by lia. cbn.
    split; [apply Z.div_pos; lia|]. change 1000000000 with (1000 * 10 ^ 6). pose proof (Z.mod_pos_bound (Sim.sim_clock l) 1000).
    split; [lia|]. split; [rewrite Z.div_mul by done; pose proof (Z.div_mod (Sim.sim_clock l) 1000); lia|].
    intros fd. cbn in Ha, Hd. split; [exact He|]. unfold no_state. cbn. rewrite Ha, Hd. done.
Qed.
End bench_ok.
