(* ===== verification/TcpLive.v ===== *)
(** * TcpLive: over TCP and a network that works, every message is delivered

    The client, [TcpIpTransport] and [PosixClock] together. *)
From stdpp Require Import sets.
From S2P Require Import Prelude Errors Packet PacketFacts Etl Codec CodecFacts TxQueue.
From S2P Require Import Config Transport ClientState Effects Client Application ClientInv ClientDevice.
From S2P Require Import Ipv4 Platform Posix TcpIpTransport LinkSpec DeviceRuns.
From S2P Require Import Broker Talk Settle Bench Scenarios LiveProps Network NetBench.

(** ** The address stays what it was *)
Section address.
Context `{PC : PosixConstants} {W : Type} `{PAO : PosixApiOk W} (addr : SockAddrIn).

Definition tcp_dials_to (t : TcpIpTransport) (_ : list OsEvent) : Prop := tcp_peer t = addr.

Lemma tcp_connect_address (s : Obj TcpIpTransport W) : post tcp_connect (fun _ s' => tcp_peer (self s') = tcp_peer (self s)) s.
Proof.
  destruct s as [t w tr]. unfold tcp_connect, tcp_begin_connect, tcp_finish_connect, tcp_close, close_fd, socket,
    fcntl_getfl, fcntl_nonblock, setsockopt, connect_to, errno, poll, getsockopt. io_steps; done.
Qed.

Lemma tcp_close_address (s : Obj TcpIpTransport W) : post tcp_close (fun _ s' => tcp_peer (self s') = tcp_peer (self s)) s.
Proof. destruct s as [t w tr]. unfold tcp_close, close_fd. io_steps; done. Qed.

Lemma one_call_address t tr (s : Obj TcpIpTransport W) : one_call t tr s -> tcp_peer t = addr -> tcp_peer (self s) = addr.
Proof. by intros [-> _]. Qed.

Lemma tcp_keeps_address :
  TransportKeeps (fun e : Obj TcpIpTransport W => tcp_dials_to (self e) (trace e)) (fun _ => True).
Proof.
  unfold tcp_dials_to. split; try done; intros; repeat match goal with s : Obj _ _ |- _ => destruct s as [t w tr] end.
  - etrans; [apply tcp_connect_address | done].
  - split; [|done]. etrans; [apply tcp_close_address|]. etrans; [apply tcp_connect_address | done].
  - eapply one_call_address; [apply (tcp_send_call data t w tr) | done].
  - eapply one_call_address; [apply (tcp_recv_call n t w tr) | done].
  - split; [|done]. etrans; [apply tcp_close_address | done].
  - eapply one_call_address; [apply (posix_now_call t w tr) | done].
Qed.
End address.

Section tcp_live.
Context {Cfg : Config} {COK : ConfigOk Cfg} {CS : ConfigSane Cfg}.
Context `{WS : WideSizeT} `{BWO : ByteStreamWriterOk} `{BRO : ByteStreamReaderOk}.
Context `{PC : PosixConstants} {W : Type} `{PAO : PosixApiOk W} {N : Network W} {NO : NetworkOk W}.
Context (app : Callback -> Handler (Obj TcpIpTransport W)) (address : Ipv4) (port : Z).

(** Every state of a client with such a transport. *)
Definition tcp_runs : Sys (Obj TcpIpTransport W) -> Prop :=
  runs (around tcp_wait) app (fresh_device (tcp_of_address address port)).

(** In [Idle] the transport is closed, and the broker can be dialled. *)
Lemma tcp_may_dial s :
  app_acts (around tcp_wait) app -> tcp_peer (tcp_of_address address port) = net_broker (W := W) ->
  tcp_runs s -> state_ (cl s) = Idle -> may_dial app s.
Proof.
  intros Happ Hbr Hruns Hi. split; [by eapply runs_reachable|].
  destruct (device_runs tcp_ok holder_closed tcp_wait app (tcp_of_address address port) s) as [_ Hc];
    [apply tcp_wait_keeps | done | done | done | done |].
  destruct (device_runs (tcp_dials_to net_broker) (fun _ => True) (TK := tcp_keeps_address net_broker) tcp_wait app
    (tcp_of_address address port) s) as [Ha _]; try done.
  { intros ms [t w tr] Hp. split; [|done]. eapply one_call_address; [apply (tcp_wait_call ms t w tr) | exact Hp]. }
  destruct (Hc Hi) as [Hs Hu]. split; [exact Ha|]. split; [exact Hu|]. left.
  destruct (Z.lt_ge_cases (tcp_fd_ (self (env s))) 0) as [|Hfd]; [done|]. by rewrite tcp_open in Hs.
Qed.

(** C7: liveness of the client and [TcpIpTransport] together. The transport is
    constructed with the broker's address, and the application, whose handlers do
    not call the client, runs in any way that leaves the transport to the client.
    Then, idle and with no subscription in its table, it asks for a session, clean
    or not, and publishes. If the system gives what is asked of it and the network
    works, no timer expires ([patient], [publishing]), and the queue has room for a
    PUBREL per exchange ([releases_fit]) and for the packets kept from earlier
    connections unless the session is clean ([kept_fits]), then within [9 * max_inflight_out + 7] calls of [step], and
    one more for each time a system call has to wait, all of them successful, the
    client is connected, so is its socket, nothing is in flight, and every QoS 1 or
    2 message a slot carried has been reported as delivered. *)
Theorem tcp_messages_delivered depth s :
  patient -> releases_fit -> (forall cb, watching (app cb)) -> app_acts (around tcp_wait) app ->
  tcp_peer (tcp_of_address address port) = net_broker (W := W) -> publishing app tcp_runs (S depth) s ->
  delivers app (S depth) (9 * max_inflight_out + 7 + net_delays (os (env s))) s.
Proof.
  intros Hpat Hrel Hw Happ Hbr Hpub. apply (poised_delivers app depth s Hpat Hrel Hw), (publishing_poised app depth s Hpat Hrel Hw).
  eapply publishing_starts; [|exact Hpub]. intros s0. by apply tcp_may_dial.
Qed.
End tcp_live.

(** ** A network on the bench *)
Section witnesses.
Import Bench.Target LinuxConstants.

Definition bench_address : Ipv4 := mkIpv4 [192; 0; 2; 1].

(** The socket takes five bytes at a time and gives one, the first calls have to
    wait now and then, and ten seconds go by at most. *)
#[local] Instance bench_posix : PosixApi NetOs := no_api (tcp_peer (tcp_of_address bench_address 1883)) 5 1 10000.
#[local] Instance bench_net : Network NetOs := no_network (tcp_peer (tcp_of_address bench_address 1883)) 10000.

#[local] Instance bench_posix_ok : PosixApiOk NetOs.
Proof. apply no_api_ok; lia. Qed.

#[local] Instance bench_net_ok : NetworkOk NetOs.
Proof. by apply no_network_ok. Qed.

Definition bench_start : Sys (Obj TcpIpTransport NetOs) :=
  mkSys client_init (mkObj (tcp_of_address bench_address 1883) (mkNetOs (Sim.mkSimLink [] [] stalls 0) 2 None 0) []) [].

(** The application waits for 50 milliseconds after each call. *)
Definition bench_calm (e : Obj TcpIpTransport NetOs) : bool := Sim.sim_clock (no_link (os e)) + 50 <=? 10000.

Lemma bench_busy : busy_publisher (tcp_runs watcher bench_address 1883 (W := NetOs)).
Proof.
  apply (live_run (tcp_wait 50) bench_calm) with (s := bench_start); [|intros s0|done | vm_compute; reflexivity].
  - intros e He. apply tcp_wait_link; [done|]. by apply Z.leb_le.
  - apply (calls_keep (tcp_wait 50) bench_calm call_ok).
    + intros c s1 r s2 Hc Hr Hrun. by eapply run_call.
    + intros s1 Hr _. apply run_outside; [done|]. right. by exists 50.
    + apply before_ok.
    + by apply run_init.
Qed.

Lemma tcp_messages_delivered_witness :
  exists s : Sys (Obj TcpIpTransport NetOs), both_told (9 * max_inflight_out + 7 + net_delays (os (env s))) s.
Proof.
  destruct bench_busy as (s & Hpub & Hbusy). exists s. apply both_delivered; [exact Hbusy|].
  apply (tcp_messages_delivered watcher bench_address 1883 2 s); [|by vm_compute|exact (fun _ => w_done) | intros cb; constructor | done | exact Hpub].
  split; [right; by vm_compute | by vm_compute].
Defined.
End witnesses.
