(* ===== verification/DeviceProps.v ===== *)
(** * DeviceProps: the transports, the addresses, and the client over them *)
From S2P Require Import Prelude Errors Packet PacketFacts Utf8 Topic Etl Codec CodecFacts TxQueue.
From S2P Require Import Config Transport ClientState ClientTables Effects Client Application.
From S2P Require Import ClientInv AppSpecs CLib Ipv4 Platform LinkSpec Posix TcpIpTransport.
From S2P Require Import PosixTransport WinsockTransport TlsTransport ClientDevice DeviceRuns Bench Scenarios.

(** ** Addresses *)

(** C40: [parse_ipv4] accepts exactly the C strings of four fields between dots,
    each of one to three digits and of value at most 255, and stores these
    values; anything else, and a null pointer, is refused and leaves [out]
    alone. *)
Theorem parse_ipv4_exact (t : option (list Z)) (out : Ipv4) :
  parse_ipv4 t out =
  match s ← t; address_of (c_str s) with Some a => (true, a) | None => (false, out) end.
Proof. destruct t as [s|]; [apply parse_ipv4_spec | done]. Qed.

(** An address survives being written as a dotted quad and parsed, and its
    bytes go on the wire in the order they are written: the address both
    transports pass to [connect] is the four octets. *)
Theorem ipv4_roundtrip (a out : Ipv4) :
  ipv4_ok a -> parse_ipv4 (Some (dotted a)) out = (true, a) /\ htonl (to_uint32 a) = octets a.
Proof.
  intros Ha. split; [by rewrite parse_ipv4_spec, dotted_no_nul, address_of_dotted|].
  destruct a as [os]. destruct Ha as [Hl Hb]. cbn in *.
  destruct os as [|a [|b [|c [|d [|? ?]]]]]; unfold zlen in Hl; cbn in Hl; try lia.
  unfold bytes_ok in Hb. rewrite !Forall_cons_iff in Hb. destruct Hb as (? & ? & ? & ? & _).
  change (mkIpv4 [a; b; c; d]) with (Ipv4_of a b c d).
  by rewrite to_uint32_value, htonl_octets.
Qed.

(** ** The transports implement the abstract link *)

(** C22: whatever the system answers, any sequence of calls of [TcpIpTransport]
    returns what the abstract link allows: codes of the interface, nothing
    written or read unless the code is [Ok], [TransportClosed] from transfers
    on a link that is not up, [is_connected] exactly after a [connect] that
    returned [Ok]. *)
Theorem tcp_refines_link `{PosixConstants} {W : Type} `{PosixApiOk W} (address : Ipv4) (port : Z) (w : W) ops :
  link_run Down Down ops (link_results ops (mkObj (tcp_of_address address port) w [])).
Proof. eapply simulation_runs; [apply tcp_simulates|]. by repeat split. Qed.

(** So does [PosixTransport], as long as the system's descriptors are small
    enough for [FD_SET]. *)
Theorem px_refines_link `{PosixConstants} {W : Type} `{PosixApiOk W} `{!SmallFds W} (host : list Z) (port : Z) (w : W) ops :
  link_run Down Down ops (link_results ops (mkObj (px_of_host host port) w [])).
Proof.
  eapply simulation_runs; [apply px_simulates|]. pose proof fd_setsize_nonneg.
  split; [|by split]. split; [by split|]. cbn. lia.
Qed.

(** So does [WinsockTransport], which closes its socket itself when a
    transfer fails. *)
Theorem ws_refines_link `{WinsockConstants} {W : Type} `{WinsockApiOk W} (address : Ipv4) (port : Z) (w : W) ops :
  link_run Down Down ops (link_results ops (mkObj (ws_of_address address port) w [])).
Proof.
  eapply simulation_runs; [apply ws_simulates|]. unfold holder_link, ws_device. cbn [self trace].
  apply ws_shut_ok; done.
Qed.

(** So does [MbedTlsTransport], where a [connect] that failed is followed by
    [close], as the interface promises. *)
Theorem tls_refines_link `{MbedTlsConstants} {W : Type} `{MbedTlsApiOk W} `{PosixApi W} (host port ca : list Z) (w : W) ops :
  link_run Failed Down ops (link_results ops (mkObj (tls_of host port ca) w [])).
Proof. eapply simulation_runs; [apply tls_simulates|]. by repeat split. Qed.

(** ** The client over a transport *)
Section client.
Context {Cfg : Config} {COK : ConfigOk Cfg} {CS : ConfigSane Cfg}.
Context `{WS : WideSizeT} `{BWO : ByteStreamWriterOk} `{BRO : ByteStreamReaderOk}.

(** C20: a client over [TcpIpTransport], whatever the application, its handlers,
    the peer and the system do: at any time the transport holds exactly the one
    socket its member names, has made every call on a socket it held, has made
    no call that can wait apart from the application's own waits, and has given
    every socket back whenever the client is [Idle]. *)
Theorem tcp_client_in_order `{PosixConstants} {W : Type} `{PosixApiOk W} (app : Callback -> Handler (Obj TcpIpTransport W)) address port s :
  app_acts (around tcp_wait) app ->
  runs (around tcp_wait) app (fresh_device (tcp_of_address address port)) s ->
  held_after (trace (env s)) = Some (held_by (self (env s))) /\
  is_Some (prompt_after (trace (env s))) /\
  (state_ (cl s) = Idle -> held_after (trace (env s)) = Some nothing_held).
Proof.
  intros Happ Hruns.
  destruct (device_runs tcp_ok holder_closed tcp_wait app (tcp_of_address address port) s) as [[[Hh _] Hp] Hc];
    [apply tcp_wait_keeps | done | done | done | done |].
  split; [done|]. split; [by eexists|]. intros Hi. destruct (Hc Hi) as [Hs _]. rewrite Hh. unfold held_by. by rewrite Hs.
Qed.

(** The same over [WinsockTransport], which moreover creates sockets and
    calls on them only between a [WSAStartup] and its [WSACleanup], and is
    between them exactly while it holds a socket. *)
Theorem ws_client_in_order `{WinsockConstants} {W : Type} `{WinsockApiOk W} (app : Callback -> Handler (Obj WinsockTransport W)) address port s :
  app_acts (around ws_wait) app ->
  runs (around ws_wait) app (fresh_device (ws_of_address address port)) s ->
  held_after (trace (env s)) = Some (mkHeld (sock_of (self (env s))) false (bool_decide (is_Some (sock_of (self (env s)))))) /\
  is_Some (prompt_after (trace (env s))) /\ is_Some (winsock_after (trace (env s))) /\
  (state_ (cl s) = Idle -> held_after (trace (env s)) = Some nothing_held).
Proof.
  intros Happ Hruns.
  destruct (device_runs ws_ok holder_closed ws_wait app (ws_of_address address port) s) as [[[Hh _] Hp Hw Hst] Hc];
    [apply ws_wait_keeps | done | by apply ws_shut_ok | by apply (ws_shut_ok _ []) | done |].
  assert (Hheld : held_by (self (env s)) =
    mkHeld (sock_of (self (env s))) false (bool_decide (is_Some (sock_of (self (env s)))))).
  { unfold held_by. f_equal. destruct (bool_decide_reflect (is_Some (sock_of (self (env s))))) as [[fd Hs]|Hs].
    - apply Hst. intros Hi. by rewrite (ws_shut_sock _ Hi) in Hs.
    - destruct (started (self (env s))) eqn:E; [|done]. destruct Hs. rewrite (ws_open_sock _ (proj1 Hst E)). by eexists. }
  split; [by rewrite Hh, Hheld|]. split; [by eexists|]. split; [by eexists|].
  intros Hi. destruct (Hc Hi) as [Hs _]. rewrite Hh, Hheld, Hs. by rewrite bool_decide_false by (by intros []).
Qed.

(** C21: a client over [MbedTlsTransport] never moves application data, nor the
    notification that it closes, on a connection whose peer was not verified; it
    makes no connection over another; and it has none in [Idle]. *)
Theorem tls_client_verified `{MbedTlsConstants} {W : Type} `{MbedTlsApiOk W} `{PosixApi W} (app : Callback -> Handler (Obj MbedTlsTransport W)) host port ca s :
  app_acts (around (fun _ e => e)) app ->
  runs (around (fun _ e => e)) app (fresh_device (tls_of host port ca)) s ->
  is_Some (tls_after (trace (env s))) /\
  (state_ (cl s) = Idle -> tls_after (trace (env s)) = Some (mkTlsState false false)).
Proof.
  intros Happ Hruns.
  destruct (device_runs tls_ok tls_closed (fun _ e => e) app (tls_of host port ca) s) as [[Hst _] Hc];
    try done.
  split; [by eexists|]. intros Hi. destruct (Hc Hi) as [Hcon Hset]. by rewrite Hst, Hcon, Hset.
Qed.
End client.

(** ** Witnesses *)
Section witnesses.
Import Bench.Target LinuxConstants WinConstants TlsConstants.

Definition broker_address : Ipv4 := Ipv4_of 192 168 0 10.

Lemma broker_address_ok : ipv4_ok broker_address.
Proof. split; [done|]. cbn. unfold bytes_ok, is_u8. by_decide. Defined.

Lemma ipv4_roundtrip_witness :
  parse_ipv4 (Some (dotted broker_address)) Ipv4_zero = (true, broker_address) /\
  htonl (to_uint32 broker_address) = [192; 168; 0; 10].
Proof. apply (ipv4_roundtrip broker_address Ipv4_zero), broker_address_ok. Defined.

(** A system that connects at the second attempt, delivers three bytes and then
    has nothing more; and the calls that see this. *)
Definition quiet_system : SimOs := mkSimOs EINPROGRESS [5; 6] 0 [-1] [0; 1] 0 [Some [1; 2; 3]] true 0 10.
Definition link_calls : list LinkOp := [LSend [9]; LConnect; LConnect; LConnect; LSend [9; 9]; LRecv 8; LClose; LRecv 8].
Definition link_answers : list LinkResult :=
  [RSend TransportClosed 0; RConnect WouldBlock false; RConnect WouldBlock false; RConnect Ok true; RSend Ok 2;
   RRecv Ok [1; 2; 3]; RClose false; RRecv TransportClosed []].

Lemma tcp_refines_link_witness :
  link_results link_calls (mkObj (tcp_of_address broker_address 1883) quiet_system []) = link_answers /\
  link_run Down Down link_calls (link_results link_calls (mkObj (tcp_of_address broker_address 1883) quiet_system [])).
Proof. split; [by vm_compute | apply tcp_refines_link]. Defined.

Lemma px_refines_link_witness :
  link_results link_calls (mkObj (px_of_host [97] 1883) (mkSmallOs quiet_system) []) = link_answers /\
  link_run Down Down link_calls (link_results link_calls (mkObj (px_of_host [97] 1883) (mkSmallOs quiet_system) [])).
Proof. split; [by vm_compute | apply px_refines_link]. Defined.

Lemma ws_refines_link_witness :
  link_results link_calls (mkObj (ws_of_address broker_address 1883) (quiet_system <| sim_errno := WSAEWOULDBLOCK |>) []) = link_answers /\
  link_run Down Down link_calls
    (link_results link_calls (mkObj (ws_of_address broker_address 1883) (quiet_system <| sim_errno := WSAEWOULDBLOCK |>) [])).
Proof. split; [by vm_compute | apply ws_refines_link]. Defined.

Definition quiet_tls : SimTls :=
  mkSimTls quiet_system [MBEDTLS_ERR_SSL_WANT_READ; MBEDTLS_ERR_SSL_WANT_WRITE] 0 [] [].

Lemma tls_refines_link_witness :
  link_results link_calls (mkObj (tls_of [97] [49] [45]) quiet_tls []) = link_answers /\
  link_run Failed Down link_calls (link_results link_calls (mkObj (tls_of [97] [49] [45]) quiet_tls [])).
Proof. split; [by vm_compute | apply tls_refines_link]. Defined.

(** An application without handlers of its own; a session with a broker that
    accepts. *)
Definition still {E : Type} (cb : Callback) : Handler E := Done.

Lemma still_acts {E : Type} (outside : E -> E -> Prop) : app_acts outside still.
Proof. intros cb. constructor. Qed.

Definition short_session : list ApiCall :=
  [CallConnect options_a; CallStep; CallStep; CallStep; CallPublish topic_t [1] AtLeastOnce false; CallStep; CallDisconnect; CallStep].

Lemma short_session_ok : Forall call_ok short_session.
Proof. unfold short_session. repeat (apply Forall_cons; [first [exact I | unfold call_ok, is_u16; by_decide]|]). apply Forall_nil. Qed.

(** Use the state this session ends in: [Idle], after calls of the transport. *)
Definition ended {O W} (s : Sys (Obj O W)) : Prop :=
  state_ (cl s) = Idle /\ 4 < zlen (trace (env s)).

#[local] Instance ended_dec {O W} (s : Sys (Obj O W)) : Decision (ended s).
Proof. unfold ended. apply _. Defined.

Definition accepting (errno : Z) : SimOs :=
  mkSimOs errno [5; 6] 0 [] [0; 1] 0 [Some [32; 2; 0; 0]; None; Some [64; 2; 0; 1]; None] true 0 10.

Lemma tcp_client_in_order_witness :
  exists s : Sys (Obj TcpIpTransport SimOs), runs (around tcp_wait) still (fresh_device (tcp_of_address broker_address 1883)) s /\ ended s /\
    held_after (trace (env s)) = Some nothing_held.
Proof.
  destruct (device_script tcp_wait still (tcp_of_address broker_address 1883) (accepting EAGAIN) short_session ended)
    as (s & Hr & Hq); [apply short_session_ok | by vm_compute |].
  exists s. split; [done|]. split; [done|].
  apply (tcp_client_in_order still broker_address 1883 s (still_acts _) Hr), Hq.
Defined.

Lemma ws_client_in_order_witness :
  exists s : Sys (Obj WinsockTransport SimOs), runs (around ws_wait) still (fresh_device (ws_of_address broker_address 1883)) s /\ ended s /\
    held_after (trace (env s)) = Some nothing_held.
Proof.
  destruct (device_script ws_wait still (ws_of_address broker_address 1883) (accepting WSAEWOULDBLOCK) short_session ended)
    as (s & Hr & Hq); [apply short_session_ok | by vm_compute |].
  exists s. split; [done|]. split; [done|].
  apply (ws_client_in_order still broker_address 1883 s (still_acts _) Hr), Hq.
Defined.

Lemma tls_client_verified_witness :
  exists s : Sys (Obj MbedTlsTransport SimTls), runs (around (fun _ e => e)) still (fresh_device (tls_of [97] [49] [45])) s /\ ended s /\
    tls_after (trace (env s)) = Some (mkTlsState false false).
Proof.
  destruct (device_script (fun _ e => e) still (tls_of [97] [49] [45]) (mkSimTls (accepting 0) [] 0 [] [])
    short_session ended) as (s & Hr & Hq); [apply short_session_ok | by vm_compute |].
  exists s. split; [done|]. split; [done|].
  apply (tls_client_verified still [97] [49] [45] s (still_acts _) Hr), Hq.
Defined.
End witnesses.
