(* ===== verification/ExampleProps.v ===== *)
(** * ExampleProps: what the programs under examples/ establish *)
From Stdlib Require Import String.
From S2P Require Import Prelude Errors Packet Etl Codec TxQueue Config Transport ClientState.
From S2P Require Import Effects Client Application ClientInv AppSpecs ClientDevice CLib Ipv4 Platform.
From S2P Require Import Posix TcpIpTransport PosixTransport DeviceRuns Examples ExampleFacts.
From S2P Require Import ExampleDeadline Bench.

(** ** What the handlers' variables say of the history *)
Definition is_delivery (cb : Callback) : bool := match cb with CbDelivery _ _ => true | _ => false end.
Definition is_message (cb : Callback) : bool := match cb with CbMessage _ _ => true | _ => false end.
Definition is_connect (cb : Callback) : bool := match cb with CbConnect _ _ => true | _ => false end.

(** How many callbacks of a kind were made. *)
Definition callbacks (p : Callback -> bool) (h : list Event) : Z :=
  zlen (List.filter (fun ev => match ev with EvCall cb => p cb | _ => false end) h).

(** The reason the last session ended with, [Ok] before the first ended. *)
Definition last_reason (h : list Event) : Error :=
  fold_left (fun r ev => match ev with EvCall (CbDisconnect _ reason) => reason | _ => r end) h Ok.

Lemma callbacks_snoc p h ev :
  callbacks p (h ++ [ev]) = callbacks p h + match ev with EvCall cb => if p cb then 1 else 0 | _ => 0 end.
Proof.
  unfold callbacks. rewrite List.filter_app, zlen_app. f_equal. cbn. destruct ev as [|cb| | | |]; try done. by destruct (p cb).
Qed.

Lemma last_reason_snoc h ev :
  last_reason (h ++ [ev]) = match ev with EvCall (CbDisconnect _ reason) => reason | _ => last_reason h end.
Proof. unfold last_reason. by rewrite fold_left_app. Qed.

(** [g_done] is set by a delivery. *)
Definition minimal_says (g_done : bool) (h : list Event) : Prop := g_done = true -> 0 < callbacks is_delivery h.

(** The demo's variables count the callbacks. *)
Record demo_says (g : DemoGlobals) (h : list Event) : Prop := {
  says_echoes : g_echoes g = callbacks is_message h;
  says_deliveries : g_deliveries g = callbacks is_delivery h;
  says_connected : g_connected g = true -> 0 < callbacks is_connect h;
  says_reason : g_end_reason g = last_reason h;
}.

Lemma callbacks_nonneg p h : 0 <= callbacks p h.
Proof. apply zlen_nonneg. Qed.

Lemma minimal_says_event g h ev :
  match ev with EvCall _ => False | _ => True end -> minimal_says g h -> minimal_says g (h ++ [ev]).
Proof. unfold minimal_says. intros Hev Hk Hg. rewrite callbacks_snoc. destruct ev; try done; specialize (Hk Hg); lia. Qed.

Lemma minimal_says_call {D} cb (e : Host D bool) h :
  minimal_says (globals e) h -> minimal_says (globals (minimal_on cb e)) (h ++ [EvCall cb]).
Proof.
  unfold minimal_says. rewrite callbacks_snoc. pose proof (callbacks_nonneg is_delivery h).
  intros Hk Hg. destruct cb; cbn in *; try specialize (Hk Hg); lia.
Qed.

Lemma delivered_event (g : bool) h ev :
  match ev with EvCall _ => False | _ => True end -> 0 < callbacks is_delivery h -> 0 < callbacks is_delivery (h ++ [ev]).
Proof. intros Hev Hk. rewrite callbacks_snoc. destruct ev; try done; lia. Qed.

Lemma delivered_call cb h : 0 < callbacks is_delivery h -> 0 < callbacks is_delivery (h ++ [EvCall cb]).
Proof. intros Hk. rewrite callbacks_snoc. case_if; lia. Qed.

Lemma demo_says_event g h ev :
  match ev with EvCall _ => False | _ => True end -> demo_says g h -> demo_says g (h ++ [ev]).
Proof.
  intros Hev [? ? Hc ?]. split; rewrite ?callbacks_snoc, ?last_reason_snoc; destruct ev; try done; try lia;
    intros Hg; specialize (Hc Hg); lia.
Qed.

Lemma demo_says_call {D} cb (e : Host D DemoGlobals) h :
  demo_says (globals e) h -> demo_says (globals (demo_on cb e)) (h ++ [EvCall cb]).
Proof.
  intros [? ? Hc ?]. pose proof (callbacks_nonneg is_connect h).
  split; rewrite ?callbacks_snoc, ?last_reason_snoc; destruct cb; cbn in *; try done; try lia;
    intros Hg; try specialize (Hc Hg); lia.
Qed.

Lemma demo_starts : demo_says demo_globals [].
Proof. by split. Qed.

(** The programs' configurations pass the checks of [Client]. *)
#[export] Instance minimal_config_ok : ConfigOk minimal_config.
Proof. by split. Qed.
#[export] Instance node_config_ok : ConfigOk node_config.
Proof. by split. Qed.
#[export] Instance node_config_sane : ConfigSane node_config.
Proof. by split. Qed.
#[export] Instance demo_config_ok : ConfigOk demo_config.
Proof. by split. Qed.
#[export] Instance demo_config_sane : ConfigSane demo_config.
Proof. by split. Qed.

(** ** The programs *)
Section programs.
Context `{SZ : SizeT} `{BW : ByteStreamWriter} `{BR : ByteStreamReader}.
Context `{PC : PosixConstants} {W : Type} `{PAO : PosixApiOk W}.

(** A transport just constructed over the system [w]. *)
Definition px_make (w : W) (host : list Z) (port : Z) : Obj PosixTransport W := mkObj (px_of_host host port) w [].
Definition tcp_make (w : W) (address : Ipv4) (port : Z) : Obj TcpIpTransport W := mkObj (tcp_of_address address port) w [].

(** The device at the end: no call was made on a socket it did not hold, and
    none is held. *)
Definition released {O} (d : Obj O W) : Prop := held_after (trace d) = Some nothing_held.

Lemma px_fresh w host port : SmallFds W -> px_device (px_make w host port) /\ px_device_closed (px_make w host port).
Proof. intros ?. pose proof fd_setsize_nonneg. split; [|done]. split; [by split|]. cbn. lia. Qed.

Lemma px_released (d : Obj PosixTransport W) : px_device d -> px_device_closed d -> released d.
Proof. intros [[Hh _] _] [Hs _]. unfold released. rewrite Hh. unfold held_by. by rewrite Hs. Qed.

(** The objects are static: their destructors run when [main] has returned. *)
Lemma px_destroyed `{!SmallFds W} (d : Obj PosixTransport W) : px_device d -> released (snd (px_destroy d)).
Proof. destruct d as [t w tr]. intros Hd. destruct (px_close_post t w tr Hd) as [Hok Hc]. by apply px_released. Qed.

Lemma tcp_destroyed (d : Obj TcpIpTransport W) : tcp_device d -> released (snd (tcp_destroy d)).
Proof.
  destruct d as [t w tr]. intros Hd. destruct (tcp_close_post t w tr Hd) as [[[Hh _] _] [Hs _]].
  unfold released, tcp_destroy. rewrite Hh. unfold held_by. by rewrite Hs.
Qed.

Definition px_program {G} : (G -> list Event -> Prop) -> Sys (Host (Obj PosixTransport W) G) -> Prop :=
  program_kept px_device px_device_closed.

(** C38: [minimal_publisher] returns 0 only after the client reported a message
    delivered, and then the session is over and its socket closed. Whatever it
    returns, the destructor of its transport leaves no socket behind. *)
Theorem minimal_publisher_delivers `{!SmallFds W} (w : W) argv fuel code s :
  minimal_main (Cfg := minimal_config) px_wait (px_make w) argv fuel = Some (code, s) ->
  released (snd (px_destroy (device (env s)))) /\
  (code = 0 -> 0 < callbacks is_delivery (history s) /\ state_ (cl s) = Idle /\ released (device (env s))).
Proof.
  unfold minimal_main. intros Hrun. set (s0 := mkSys _ _ _) in Hrun.
  assert (Hd : driven (Cfg := minimal_config) px_wait minimal_app (px_program minimal_says)).
  { apply (kept_driven px_wait minimal_on px_device px_device_closed px_wait_keeps); [ apply minimal_says_event | by intros [] | apply minimal_says_call]. }
  assert (Hd' : driven (Cfg := minimal_config) px_wait minimal_app (px_program (fun _ h => 0 < callbacks is_delivery h))).
  { apply (kept_driven px_wait minimal_on px_device px_device_closed px_wait_keeps); [ apply delivered_event | by intros [] |].
    intros cb e h. apply delivered_call. }
  pose proof (minimal_session_done px_wait _ _ fuel s0 Hd Hd') as Hw. pose proof (minimal_session_kept px_wait _ fuel s0 Hd) as Hk.
  unfold wp in Hw, Hk. rewrite Hrun in Hw, Hk.
  assert (Hs0 : px_program minimal_says s0) by (apply program_starts; [by apply px_fresh | by apply px_fresh | done]).
  split; [by destruct (Hk Hs0) as [Hp _ _ _]; apply px_destroyed|]. intros Hcode.
  destruct Hw as [[Hp Hi _ Hdel] Hidle]; [|done | done |].
  - intros s' [? ? ? Hsay] Hg. split; [done | done | done | by apply Hsay].
  - split; [done|]. split; [done|]. by apply px_released, Hi.
Qed.

(** C37: [pubsub_demo] returns 0 only if the broker accepted the connection, at
    least three deliveries completed and at least five messages came back, the
    session it ended last ended without an error, and the client is idle with
    its socket closed. Whatever it returns, the destructor of its transport
    leaves no socket behind. *)
Theorem pubsub_demo_passes `{!SmallFds W} (w : W) argv fuel code s :
  Forall bytes_ok argv ->
  demo_main (Cfg := demo_config) px_wait (px_make w) argv fuel = Some (code, s) ->
  released (snd (px_destroy (device (env s)))) /\
  (code = 0 ->
   0 < callbacks is_connect (history s) /\ 3 <= callbacks is_delivery (history s) /\
   5 <= callbacks is_message (history s) /\ last_reason (history s) = Ok /\
   state_ (cl s) = Idle /\ released (device (env s))).
Proof.
  unfold demo_main. intros Hargs Hrun. set (s0 := mkSys _ _ _) in Hrun. set (topic := from_option _ _ _) in Hrun.
  assert (Hd : driven (Cfg := demo_config) px_wait demo_app (px_program demo_says)).
  { apply (kept_driven px_wait demo_on px_device px_device_closed px_wait_keeps); [ apply demo_says_event | by intros [] | apply demo_says_call]. }
  pose proof (demo_session_met px_wait _ topic fuel s0 Hd) as Hw. unfold wp in Hw. rewrite Hrun in Hw.
  destruct Hw as [[Hp Hi _ Hk] Hmet].
  - by apply arg_text_bytes.
  - apply program_starts; [by apply px_fresh | by apply px_fresh | apply demo_starts].
  - split; [by apply px_destroyed|]. intros Hcode. destruct (Hmet Hcode) as (Hidle & Hc & Hdel & Hecho & Hr). destruct Hk as [He Hdl Hcn Hre].
    split; [by apply Hcn|]. split; [lia|]. split; [lia|]. split; [congruence|]. split; [done|]. by apply px_released, Hi.
Qed.

(** C39: [ip_publisher] exits with 2 exactly when its first argument is not a
    dotted quad, at once and without having made a transport. With an address, or
    without arguments, it runs its session. Its main loop has no deadline, and
    nothing is claimed of whether it ends; when it does, the code is 0 or 1, the
    client is well-formed, and the transport holds at most the socket its member
    names, none if the client is idle, and none after its destructor. *)
Theorem ip_publisher_exits `{!WideSizeT} `{!ByteStreamWriterOk} `{!ByteStreamReaderOk} (w : W) argv fuel :
  Forall bytes_ok argv ->
  match ip_main (Cfg := node_config) tcp_wait (tcp_make w) argv fuel with
  | Some (code, None) => code = 2 /\ exists a, arg argv 1 = Some a /\ address_of (c_str a) = None
  | None => forall a, arg argv 1 = Some a -> is_Some (address_of (c_str a))
  | Some (code, Some s) =>
      (code = 0 \/ code = 1) /\ (forall a, arg argv 1 = Some a -> is_Some (address_of (c_str a))) /\
      client_ok (Cfg := node_config) (cl s) /\
      held_after (trace (device (env s))) = Some (held_by (self (device (env s)))) /\
      (state_ (cl s) = Idle -> released (device (env s))) /\ released (snd (tcp_destroy (device (env s))))
  end.
Proof.
  unfold ip_main. intros Hargs. set (choice := match arg argv 1 with Some a => _ | None => _ end).
  assert (Hchoice : if fst choice then forall a, arg argv 1 = Some a -> is_Some (address_of (c_str a))
    else exists a, arg argv 1 = Some a /\ address_of (c_str a) = None).
  { subst choice. destruct (arg argv 1) as [a|]; [|done]. rewrite parse_ipv4_spec.
    destruct (address_of (c_str a)) eqn:E; cbn; [|by eauto]. intros ? [= <-]. by rewrite E. }
  destruct choice as [[] broker]; cbn [fst negb] in *; [|done].
  set (s0 := mkSys _ _ _). set (topic := from_option _ _ _).
  pose proof (kept_driven (Cfg := node_config) tcp_wait ip_on tcp_device tcp_device_closed tcp_wait_keeps (fun _ _ => True)) as Hk.
  pose proof (ip_session_code (Cfg := node_config) tcp_wait _ topic fuel s0 (reachable_driven tcp_wait ip_on)) as Hr.
  assert (Hd : driven (Cfg := node_config) tcp_wait ip_app (program_kept tcp_device tcp_device_closed (fun _ _ => True)))
    by (apply Hk; [done | by intros [] | done]).
  pose proof (ip_session_code tcp_wait _ topic fuel s0 Hd) as Hd'. unfold wp in Hr, Hd'.
  destruct (ip_session tcp_wait topic fuel s0) as [[code s]|]; [|done]. cbn.
  assert (Ht : bytes_ok topic) by (by apply arg_text_bytes).
  destruct Hr as [Hr Hcode]; [done | apply reach_init |]. destruct Hd' as [[Hp Hi _ _] _]; [done | by apply program_starts |].
  split; [done|]. split; [done|]. split.
  - apply (reachable_sys_ok (fun cb => Act (ip_on cb) Done) s); [|done]. intros cb _. by repeat constructor.
  - split; [apply Hp|]. split; [|by apply tcp_destroyed]. intros Hidle. destruct (Hi Hidle) as [Hs _].
    destruct Hp as [[Hh _] _]. unfold released. rewrite Hh. unfold held_by. by rewrite Hs.
Qed.
End programs.


(** ** Witnesses *)
Section witnesses.
Import Bench.Target LinuxConstants.

(** A run that exits with a given code. *)
Lemma exits {A} (code : Z) (run : option (Z * A)) :
  from_option (fun r => fst r =? code) false run = true -> exists s, run = Some (code, s).
Proof. destruct run as [[c s]|]; cbn; [|done]. intros E. zbool. subst. by exists s. Qed.

Lemma exits_in {A} (Q : A -> Prop) `{forall s, Decision (Q s)} (code : Z) (run : option (Z * option A)) :
  from_option (fun r => (fst r =? code) && from_option (fun s => bool_decide (Q s)) false (snd r)) false run = true ->
  exists s, run = Some (code, Some s) /\ Q s.
Proof.
  destruct run as [[c [s|]]|]; cbn; try done; [|by rewrite andb_false_r]. intros E. apply andb_true_iff in E as [Ec Eq].
  apply bool_decide_eq_true in Eq. zbool. subst. by exists s.
Qed.

(** A system whose [recv] finds a chunk, and then nothing, for each in the list. *)
Definition broker (chunks : list (list Z)) (tick_ms : Z) : SimOs :=
  mkSimOs EAGAIN [5; 6] 0 [] [] 0 (concat ((fun c => [Some c; None]) <$> chunks)) true 0 tick_ms.

Definition minimal_broker : SmallOs := mkSmallOs (broker [[32; 2; 0; 0]; [64; 2; 0; 1]] 10).

Lemma minimal_publisher_witness :
  exists s, minimal_main (Cfg := minimal_config) px_wait (px_make minimal_broker) [] 50 = Some (0, s) /\
    0 < callbacks is_delivery (history s) /\ state_ (cl s) = Idle /\ released (device (env s)).
Proof.
  destruct (exits 0 (minimal_main (Cfg := minimal_config) px_wait (px_make minimal_broker) [] 50)) as [s Hs];
    [by vm_compute|].
  exists s. destruct (minimal_publisher_delivers minimal_broker [] 50 0 s Hs) as [_ Hdone].
  split; [exact Hs | exact (Hdone eq_refl)].
Defined.

(** Accepts, acknowledges the subscription, sends five messages back, and then
    acknowledges whatever has been published. *)
Definition demo_acks : list Z :=
  concat ((fun id => [64; 2; 0; id; 80; 2; 0; id; 112; 2; 0; id]) <$> [2; 3; 4]) ++ [208; 0].
Definition demo_broker : SmallOs :=
  mkSmallOs (broker ([[32; 2; 0; 0]; [144; 3; 0; 1; 1]; concat (replicate 5 [48; 3; 0; 1; 97])] ++
                     replicate 100 demo_acks) 250).

Lemma pubsub_demo_witness :
  exists s, demo_main (Cfg := demo_config) px_wait (px_make demo_broker) [] 600 = Some (0, s) /\
    5 <= callbacks is_message (history s) /\ released (device (env s)).
Proof.
  destruct (exits 0 (demo_main (Cfg := demo_config) px_wait (px_make demo_broker) [] 600)) as [s Hs];
    [by vm_compute|].
  exists s. destruct (pubsub_demo_passes demo_broker [] 600 0 s (List.Forall_nil _) Hs) as (_ & Hdone).
  destruct (Hdone eq_refl) as (_ & _ & Hm & _ & _ & Hr).
  split; [exact Hs|]. by split.
Defined.





Definition ip_broker : SimOs :=
  broker ([[32; 2; 0; 0]; [144; 3; 0; 1; 1]] ++ replicate 60 [64; 2; 0; 2; 64; 2; 0; 3; 64; 2; 0; 4]) 250.
Definition ip_arguments : list (list Z) := [text "ip_publisher"; text "127.0.0.1"].

Lemma ip_publisher_witness :
  exists s, ip_main (Cfg := node_config) tcp_wait (tcp_make ip_broker) ip_arguments 100 = Some (0, Some s) /\
    client_ok (Cfg := node_config) (cl s) /\ state_ (cl s) = Idle /\ released (device (env s)).
Proof.
  destruct (exits_in (fun s => state_ (cl s) = Idle) 0
    (ip_main (Cfg := node_config) tcp_wait (tcp_make ip_broker) ip_arguments 100)) as (s & Hs & Hidle); [by vm_compute|].
  exists s.
  assert (Hargs : Forall bytes_ok ip_arguments) by (repeat (apply Forall_cons; [apply text_bytes|]); apply Forall_nil).
  pose proof (ip_publisher_exits ip_broker ip_arguments 100 Hargs) as Hip. rewrite Hs in Hip. destruct Hip as (_ & _ & Hok & _ & Hr & _).
  split; [exact Hs|]. split; [done|]. split; [done|]. by apply Hr.
Defined.
End witnesses.
