(* ===== verification/ExampleLive.v ===== *)
(** * ExampleLive: with a link and a broker that work, minimal_publisher succeeds

    Total correctness of examples/minimal_publisher.cpp over any device that keeps
    to the interface of [Broker]: it ends, and returns 0. *)
From stdpp Require Import sets.
From Stdlib Require Import String.
From S2P Require Import Prelude Errors Packet PacketFacts Utf8 Topic Etl Codec CodecFacts TxQueue.
From S2P Require Import Config Transport ClientState ClientTables Effects Client Application CLib.
From S2P Require Import ClientInv ClientQueue ClientSpecs ReceiveSpecs SessionSpecs AppSpecs ClientPersist ClientDevice.
From S2P Require Import SessionProps Broker Talk Settle LiveProps Examples ExampleFacts ExampleProps.
#[local] Open Scope client_scope.

(** ** A publication that finds room *)
Section room.
Context {Cfg : Config} {COK : ConfigOk Cfg} {CS : ConfigSane Cfg}.
Context `{WS : WideSizeT} `{BWO : ByteStreamWriterOk} `{BRO : ByteStreamReaderOk}.
Context {E : Type} {T : Transport E} {CK : Clock E}.
Implicit Types (c : Client) (e : E) (h : list Event).

(** A free table: identifiers are left, and the first slot is free. *)
Lemma free_ids c e h :
  sys_ok (mkSys c e h) -> awaits (outbound_ c) = [] -> max_pending_acks < 65535 -> zlen (ids_in_use c) < 65535.
Proof.
  intros Hok Ha Hmax. open_ok Hok. destruct Hpend as [Hp _]. unfold ids_in_use, slot_ids.
  rewrite (no_busy (outbound_ c)) by done. rewrite zlen_app, !zlen_fmap. change (zlen []) with 0. lia.
Qed.

Lemma free_slot c e h :
  sys_ok (mkSys c e h) -> awaits (outbound_ c) = [] -> 0 < max_inflight_out -> exists i, free_outbound_slot c = Some i.
Proof.
  intros Hok Ha Hmax. unfold free_outbound_slot. destruct (find_index _ _ _) as [i|] eqn:Ef; [by exists i|]. exfalso.
  open_ok Hok. destruct Hout as (Hz & _). unfold kOutSlots, at_least_one in Hz. case_if_in Hz; zbool; [|lia].
  destruct (outbound_ c) as [|s l] eqn:Eo; [change (zlen []) with 0 in Hz; lia|].
  pose proof (find_index_None _ _ _ Ef s) as Hf. destruct (Z.to_nat max_inflight_out) eqn:En; [lia|]. specialize (Hf ltac:(by left)).
  pose proof (awaits_nil (s :: l) 0 s Ha eq_refl) as Hb. unfold slot_busy in Hb. by rewrite Hf in Hb.
Qed.

Lemma publish_slot_succeeds i s topic payload qos retain id rl c e h :
  0 < qos -> zlen payload < 2 ^ 63 -> id_ok id -> publish_remaining_length topic (zlen payload) qos = Val rl ->
  outbound_ c !! i = Some s -> zlen (publish_packet false qos retain topic payload id) <= zlen (slot_packet s) ->
  tx_wf tx_buffer_size (tx_ c) -> tx_peek (tx_ c) = [] ->
  zlen (publish_packet false qos retain topic payload id) <= tx_buffer_size ->
  wp True (publish_slot i topic payload qos retain id) (fun r _ => r = (Ok, Some id)) (mkSys c e h).
Proof.
  intros Hq Hp Hid Erl Hi Hl Htx Hpk Hroom. unfold publish_slot. wp_run. rewrite (slot_at_Some _ _ _ Hi). unfold id_ok in Hid.
  destruct (encode_publish_encodes topic payload qos retain false id rl ltac:(lia) ltac:(unfold is_u16; lia) Hp ltac:(lia)
    ltac:(unfold AtMostOnce; lia) Erl (slot_packet s)) as [Henc _].
  change (wire_packet Publish false qos retain (publish_body topic payload qos id)) with (publish_packet false qos retain topic payload id) in Henc.
  rewrite Henc by done. wp_run. rewrite ztake_app_zlen. apply wp_enqueue; [done| |].
  - intros q _ _. by wp_run.
  - cbn. rewrite Hpk. change (zlen []) with 0. lia.
Qed.

Lemma publish_succeeds topic payload qos retain rl c e h :
  sys_ok (mkSys c e h) -> state_ c = Connected -> awaits (outbound_ c) = [] -> tx_peek (tx_ c) = [] ->
  max_pending_acks < 65535 -> 0 < max_inflight_out -> 0 < qos -> zlen payload < 2 ^ 63 ->
  is_valid_topic_name topic = true -> zlen topic <= max_topic_len ->
  publish_remaining_length topic (zlen payload) qos = Val rl ->
  (forall id, zlen (publish_packet false qos retain topic payload id) <= Z.min kPersistSize tx_buffer_size) ->
  wp True (publish topic payload qos retain) (fun r _ => exists id, r = (Ok, Some id)) (mkSys c e h).
Proof.
  intros Hok Hstate Ha Hpk Hacks Hmax Hq Hp Ht Htl Erl Hroom. unfold publish. wp_run. rewrite Hstate, Ht.
  change (negb (State_eqb Connected Connected)) with false. cbv iota. cbn [negb].
  destruct (zlen topic >? max_topic_len) eqn:E0; zbool; [lia|]. destruct (qos =? AtMostOnce) eqn:E1; zbool; [unfold AtMostOnce in *; lia|].
  destruct (max_inflight_out =? 0) eqn:E2; zbool; [lia|]. destruct (free_slot c e h Hok Ha Hmax) as [i Hi]. rewrite Hi.
  pose proof (free_ids c e h Hok Ha Hacks) as Hfree. apply find_index_Some in Hi as (_ & s & Hs & _).
  assert (Hk : zlen (slot_packet s) = kPersistSize) by (open_ok Hok; by eapply outbound_ok_lookup in Hout as [? _]).
  open_ok Hok. pose proof (alloc_packet_id_total c Hnpid Hfree) as Hnz.
  destruct (alloc_packet_id_spec c ltac:(by destruct Hout as (_ & _ & ?)) Hnpid) as (n & Hc & _ & Hfresh).
  destruct (alloc_packet_id c) as [id c1]. cbn [fst snd] in *. subst c1. wp_run. destruct (Hfresh Hnz) as [Hid _].
  destruct (id =? 0) eqn:E3; zbool; [done|].
  eapply wp_mono; [eapply (publish_slot_succeeds i s); try done; specialize (Hroom id); lia|]. intros r s' ->. by exists id.
Qed.
End room.

(** ** The end of a session *)
Section leaving.
Context {Cfg : Config} {COK : ConfigOk Cfg} {CS : ConfigSane Cfg}.
Context `{WS : WideSizeT} `{BWO : ByteStreamWriterOk} `{BRO : ByteStreamReaderOk}.
Context {E : Type} {T : Transport E} {CK : Clock E} {TOK : TransportOk E} {P : Peer E} {POK : PeerOk E}.
Context (callback : Callback -> M E unit) (Hcb : watches callback).
Implicit Types (c : Client) (e : E) (h : list Event).

Lemma shutdown_idle reason c e h : wp False (shutdown callback reason) (fun _ s => state_ (cl s) = Idle) (mkSys c e h).
Proof.
  assert (Hend : forall (b : bool) c' e' h', state_ c' = Idle ->
    wp False (if b then call_if callback (on_disconnect_ c) (fun hd => CbDisconnect hd reason) else ret tt)
      (fun _ s => wp False (ret reason) (fun _ s => state_ (cl s) = Idle) s) (mkSys c' e' h')).
  { intros b c' e' h' Hi. destruct b; [|by wp_run]. destruct (on_disconnect_ c) as [hd|]; cbn [call_if]; [|by wp_run].
    destruct (Hcb (CbDisconnect hd reason) c' e' h') as (e2 & Hrun & _). unfold wp at 1. by rewrite Hrun. }
  unfold shutdown. wp_run. destruct (clean_session_ c); wp_run; by apply Hend.
Qed.

(** DISCONNECT is queued, or the session is over. *)
Definition leaving (s : Sys E) : Prop :=
  in_step_ (cl s) = false /\ state_ (cl s) = Disconnecting /\ in_time (env s) /\ linked (env s).

Lemma disconnect_leaves s :
  poised s -> wp False (disconnect callback) (fun _ s' => (state_ (cl s') = Idle \/ leaving s') /\ sys_ok s') s.
Proof.
  intros Hp. pose proof (poised_ok s Hp) as Hok. pose proof (poised_in_time s Hp). pose proof (poised_linked s Hp) as Hli.
  destruct Hp as [Hf _]. destruct s as [c e h]. cbn [cl env history] in *.
  assert (Hdown : forall c' e' h', wp False (shutdown callback Ok)
    (fun _ s => wp False (ret Ok) (fun _ s' => state_ (cl s') = Idle \/ leaving s') s) (mkSys c' e' h')).
  { intros. eapply wp_mono; [apply shutdown_idle|]. intros r s' Hi. wp_run. by left. }
  eapply wp_mono with (Q := fun _ s' => (state_ (cl s') = Idle \/ leaving s') /\ api_keeps c s');
    [|intros r s' [? [? _]]; by split]. apply wp_and; [|apply (disconnect_wp False); [intros hd reason; by apply watches_ok | exact Hok]].
  unfold disconnect. wp_run. destruct (state_ c) eqn:Est; wp_run; try apply Hdown; [by left|].
  eapply wp_enqueue_sized; [by open_ok Hok | apply encode_empty_encodes; by right | apply packet_size_empty | |].
  - intros q _ _. wp_run. right. split_and!; try done. by apply Hli.
  - intros q r _ [-> | ->] _; wp_run; apply Hdown.
Qed.

(** One more step sends it and ends the session. *)
Lemma step_leaves s : leaving s -> sys_ok s -> wp False (step callback) (fun _ s' => state_ (cl s') = Idle) s.
Proof.
  destruct s as [c e h]. intros (Hf & Hst & Ht & Hli) Hok. cbn [cl env] in *. unfold step. wp_run. rewrite Hf. wp_run.
  unfold step_once. wp_run. cbn. rewrite Hst. unfold step_io. wp_run.
  eapply wp_mono; [apply wp_and; [apply pump_tx_flushes | apply pump_tx_wp]|];
    [by open_ok Hok | done | done | by apply sys_ok_step | cbn; congruence|].
  intros r [c' e' h'] [(-> & (q & t & Hc & Hpk & _) & _) [Hok' _]]. cbn [cl] in Hc. subst c'. wp_run.
  assert (He : tx_empty q = true) by (open_ok Hok'; by apply (tx_empty_peek tx_buffer_size)).
  cbn. rewrite Hst, He. change (State_eqb Disconnecting Disconnecting && true) with true. cbv iota.
  eapply wp_mono; [apply shutdown_idle|]. intros r s' Hi. by wp_run.
Qed.
End leaving.

(** ** A connection that is accepted *)
Lemma connect_succeeds {Cfg : Config} {COK : ConfigOk Cfg} {CS : ConfigSane Cfg} `{WS : WideSizeT} `{BWO : ByteStreamWriterOk}
    `{BRO : ByteStreamReaderOk} {E : Type} {T : Transport E} {CK : Clock E} {TOK : TransportOk E} opts c (e : E) h :
  is_u16 (opt_keep_alive_s opts) -> sys_ok (mkSys c e h) -> state_ c = Idle -> connect_valid opts -> zlen (connect_packet opts) <= tx_buffer_size ->
  wp False (connect opts) (fun r _ => r = Ok) (mkSys c e h).
Proof.
  intros Hka Hok Hst Hacc Hfit. pose proof Hacc as ((Hopts & _ & _ & Hwill & Hempty) & Hid & Hu & Hp). unfold connect. wp_run. rewrite Hst.
  change (negb (State_eqb Idle Idle)) with false. cbv iota.
  do 3 (case_if; zbool; [lia|]).
  assert (Hw : will_valid (opt_will opts) && negb (is_valid_topic_name (will_topic (opt_will opts))) = false).
  { destruct (will_valid (opt_will opts)); [by rewrite Hwill | done]. }
  assert (He : empty (opt_client_id opts) && negb (opt_clean_session opts) = false).
  { destruct (empty (opt_client_id opts)) eqn:Ee; [|done]. apply empty_true in Ee. by rewrite Hempty. }
  rewrite Hw, He. destruct (connect_remaining_length_ok _ Hopts) as [rl Erl]. rewrite Erl.
  eapply wp_mono; [by apply (connect_queues opts rl)|].
  intros r s [_ [(_ & ? & _)|[(_ & _ & ? & _)|[(_ & _ & _ & ? & _)|[-> _]]]]]; [done | done | lia | done].
Qed.

(** ** A program over a link that works *)
Section host_peer.
Context {D G : Type} {T : Transport D} {CK : Clock D} {P : Peer D}.

#[export] Instance host_peer : Peer (Host D G) := {|
  accepted e := accepted (device e);
  delivered e := delivered (device e);
  answers := answers (Peer := P);
  session_present := session_present (Peer := P);
  dialable e := dialable (device e);
  linked e := linked (device e);
  delays e := delays (device e);
  clock_at e := clock_at (device e);
  window_start := window_start (Peer := P);
  window_end := window_end (Peer := P);
|}.

#[export] Instance host_peer_ok {POK : PeerOk D} : PeerOk (Host D G).
Proof.
  split.
  - apply (window_u32 (E := D)).
  - intros e. apply (delays_nonneg (device e)).
  - apply (answers_ok (E := D)).
  - intros [d g] Ht Hd. destruct (peer_connect d Ht Hd) as (d' & He & Hc). exists (mkHost d' g). split; [exact He|].
    cbn. unfold on_device. cbn. destruct Hc as [(-> & ?)|(-> & ?)]; [by left | by right].
  - intros data [d g] Ht Hl Hne. destruct (peer_send data d Ht Hl Hne) as (n & d' & Hs & Hr). exists n, (mkHost d' g).
    split; [|exact Hr]. cbn. unfold on_device. cbn. by rewrite Hs.
  - intros n [d g] rest Ht Hl Hn Ha. destruct (peer_recv n d rest Ht Hl Hn Ha) as (r & got & d' & Hs & Hr).
    exists r, got, (mkHost d' g). split; [|exact Hr]. cbn. unfold on_device. cbn. by rewrite Hs.
  - intros [d g] Ht. destruct (peer_now d Ht) as (d' & Hs & Hr). exists (mkHost d' g). split; [|exact Hr].
    cbn. unfold on_device. cbn. by rewrite Hs.
Qed.

Lemma host_same_link (e e' : Host D G) : same_link (device e) (device e') -> same_link e e'.
Proof. done. Qed.
End host_peer.

(** ** minimal_publisher *)
Section minimal.
Context `{WS : WideSizeT} `{BWO : ByteStreamWriterOk} `{BRO : ByteStreamReaderOk}.
Context {D : Type} {T : Transport D} {CK : Clock D} {TOK : TransportOk D} {P : Peer D} {POK : PeerOk D}.
Context (wait_readable : Z -> D -> D) (calm_wait : forall d, in_time d -> same_link d (wait_readable 50 d)).

#[local] Existing Instance minimal_config.

#[local] Instance minimal_config_sane : ConfigSane minimal_config.
Proof. by split. Qed.

Context (Hpat : patient (E := D)).
Notation E := (Host D bool).

(** Every delivery sets [g_done]. *)
Definition noticed (g_done : bool) (h : list Event) : Prop := 0 < callbacks is_delivery h -> g_done = true.

Definition attentive : Sys E -> Prop := program_kept (fun _ => True) (fun _ => True) noticed.

Lemma minimal_watches cb : watching (E := E) (minimal_app cb).
Proof. constructor; [|constructor]. intros e Ht. apply host_same_link. destruct cb; by apply same_link_refl. Qed.

Lemma attentive_driven : driven wait_readable minimal_app attentive.
Proof.
  apply (kept_driven wait_readable minimal_on (fun _ => True) (fun _ => True)); try done.
  - unfold noticed. intros g h ev Hev Hk. rewrite callbacks_snoc. destruct ev; try done; rewrite Z.add_0_r; exact Hk.
  - by intros [].
  - unfold noticed. intros cb e h Hk. rewrite callbacks_snoc. destruct cb; cbn; rewrite ?Z.add_0_r; done.
Qed.

Lemma told_noticed p h0 s : attentive s -> safe_sys false p h0 s -> quiet (cl s) -> globals (env s) = true.
Proof.
  intros [_ _ _ Hn] [_ _ (h & Hh & Hs)] [Hst Haw]. apply Hn. rewrite Hh. destruct Hs as [(i & sl & Hi & Hc)|[[hd Hin]|[_ ?]]]; [| |congruence].
  - apply carries_not_free in Hc. pose proof (awaits_nil _ _ _ Haw Hi) as Hb. unfold slot_busy in Hb. by rewrite Hc in Hb.
  - unfold callbacks. set (f := fun ev => _). enough (Hf : In (EvCall (CbDelivery hd (parcel_id p))) (List.filter f (h0 ++ h))).
    { destruct (List.filter f (h0 ++ h)) as [|x l]; [done|]. rewrite zlen_cons. pose proof (zlen_nonneg l). lia. }
    apply List.filter_In. split; [apply in_or_app; by right | done].
Qed.

(** A call that is known to return. *)
Lemma driven_run c s r s' : call_ok c -> attentive s -> api_call minimal_app c s = Some (r, s') -> attentive s'.
Proof.
  intros Hc Hs Hrun. pose proof (driven_call _ _ _ attentive_driven c s Hc Hs) as Hw. unfold wp in Hw. by rewrite Hrun in Hw.
Qed.

(** The step of the main loop. *)
Lemma minimal_step s :
  poised s -> attentive s -> exists s', api_call minimal_app CallStep s = Some ((Ok, None), s') /\ poised s' /\ attentive s' /\
    onward (cl s) (env s) (cl s') (env s') /\ (state_ (cl s') = Connected -> tx_peek (tx_ (cl s')) = []) /\
    (quiet (cl s) \/ todo (cl s') (env s') < todo (cl s) (env s)) /\ continues false minimal_app s s'.
Proof.
  intros Hp Ha. destruct (step_poised _ (watching_watches minimal_app 0 minimal_watches) Hpat ltac:(by vm_compute) s Hp) as (s' & Hrun & Hp' & Hon & Hpk & Hq).
  assert (Hcall : api_call minimal_app CallStep s = Some ((Ok, None), s'))
    by (unfold api_call, call; cbn [api]; unfold bind; by rewrite Hrun).
  exists s'. split_and!; try done.
  - by eapply (driven_run CallStep).
  - apply (continues_call false minimal_app s 1 CallStep s (Ok, None)); [apply continues_here | done | exact Hcall].
Qed.

Lemma wait_run s : poised s -> attentive s -> exists s', wait wait_readable 50 s = Some (tt, s') /\ poised s' /\ attentive s' /\
  cl s' = cl s /\ history s' = history s /\ delays (env s') <= delays (env s) /\ continues false minimal_app s s'.
Proof.
  intros Hp Ha. destruct s as [c [d g] h]. pose proof (calm_wait d (poised_in_time _ Hp)) as Hs.
  exists (mkSys c (mkHost (wait_readable 50 d) g) h). split; [done|].
  split; [exact (poised_same c (mkHost d g) (mkHost (wait_readable 50 d) g) h Hs Hp)|].
  split; [exact (driven_wait _ _ _ attentive_driven 50 _ Ha)|]. split; [done|]. split; [done|]. split; [apply Hs|].
  apply (continues_env false minimal_app _ (mkSys c (mkHost d g) h)), continues_here.
Qed.

(** Until the delivery: the message is published. *)
Lemma loop_published p h0 fuel : id_ok (parcel_id p) -> forall s, poised s -> attentive s -> safe_sys false p h0 s ->
  todo (cl s) (env s) + 5 <= Z.of_nat fuel -> wp False (minimal_loop wait_readable fuel true) (fun r s' => r = None /\ poised s') s.
Proof.
  intros Hid. induction fuel as [|fuel IH]; intros s Hp Ha Hs Hf; [pose proof (todo_lower s Hp); lia|]. cbn [minimal_loop].
  apply wp_bind. unfold read_globals, wp at 1. destruct (globals (env s)) eqn:Eg; [by apply wp_ret|].
  assert (Hnq : ~ quiet (cl s)) by (intros Hq; by rewrite (told_noticed p h0 s Ha Hs Hq) in Eg).
  destruct (minimal_step s Hp Ha) as (s1 & Hrun & Hp1 & Ha1 & _ & _ & [?|Hlt] & Hc1); [done|].
  apply wp_bind. unfold wp at 1. rewrite Hrun. cbn [fst]. change (negb (Error_eqb Ok Ok)) with false. cbv iota.
  apply wp_bind, wp_get. rewrite andb_false_r. apply wp_bind, wp_ret, wp_bind.
  destruct (wait_run s1 Hp1 Ha1) as (s2 & Hw & Hp2 & Ha2 & Hcl & _ & Hdl & Hc2). unfold wp at 1. rewrite Hw.
  assert (Hcalls : forall cb, handler_calls (carries_on false) (minimal_app (D := D) cb)) by (intros; apply watching_calls, minimal_watches).
  apply IH; [done | done | |].
  - apply (continues_safe false minimal_app p Hid Hcalls h0 s1); [done|]. by apply (continues_safe false minimal_app p Hid Hcalls h0 s).
  - rewrite Hcl. unfold todo in *. lia.
Qed.

Notation demo_topic := (text "demo/minimal").
Notation demo_payload := (text "hello").

(** The message is accepted as soon as the client is connected. *)
Lemma minimal_publish s :
  poised s -> attentive s -> state_ (cl s) = Connected -> tx_peek (tx_ (cl s)) = [] -> awaits (outbound_ (cl s)) = [] ->
  is_Some (on_delivery_ (cl s)) ->
  exists id s', api_call minimal_app (CallPublish demo_topic demo_payload AtLeastOnce false) s = Some ((Ok, Some id), s') /\
    poised s' /\ attentive s' /\ delays (env s') <= delays (env s) /\ id_ok id /\
    safe_sys false (mkParcel id AtLeastOnce false demo_topic demo_payload) (history s') s'.
Proof.
  intros Hp Ha Hst Hpk Haw Hod. pose proof (poised_ok s Hp) as Hok. destruct s as [c e h]. cbn [cl env history] in *.
  assert (Hrl : publish_remaining_length demo_topic (zlen demo_payload) AtLeastOnce = Val (zlen (publish_body demo_topic demo_payload AtLeastOnce 1)))
    by (apply publish_remaining_length_ok; by vm_compute).
  pose proof (publish_succeeds demo_topic demo_payload AtLeastOnce false _ c e h Hok Hst Haw Hpk ltac:(done) ltac:(done) ltac:(done)
    ltac:(by vm_compute) ltac:(by vm_compute) ltac:(by vm_compute) Hrl ltac:(intros; by vm_compute)) as Hs.
  pose proof (publish_poised demo_topic demo_payload AtLeastOnce false (mkSys c e h) ltac:(done) ltac:(by vm_compute) Hp) as Hw.
  pose proof (publish_accepts demo_topic demo_payload AtLeastOnce false c e h ltac:(done) ltac:(by vm_compute) Hok) as Hacc.
  unfold wp in Hs, Hw, Hacc. destruct (publish _ _ _ _ _) as [[r s']|] eqn:Hrun; [|done]. destruct Hs as [id ->]. destruct Hw as [Hp' Hdl].
  assert (Hcall : api_call minimal_app (CallPublish demo_topic demo_payload AtLeastOnce false) (mkSys c e h) = Some ((Ok, Some id), s'))
    by exact Hrun.
  destruct (Hacc id eq_refl) as (Hid & Hcar & _ & _ & Hod'). exists id, s'. split; [exact Hcall|]. split; [done|].
  split; [eapply (driven_run (CallPublish demo_topic demo_payload AtLeastOnce false)); [by vm_compute | exact Ha | exact Hcall]|].
  split; [done|]. split; [done|]. split; [done | by rewrite Hod'|]. exists []. split; [by rewrite app_nil_r | by left].
Qed.

(** Until the connection is there. *)
Lemma loop_unpublished fuel : forall s, poised s -> attentive s -> state_ (cl s) <> Connected -> awaits (outbound_ (cl s)) = [] ->
  is_Some (on_delivery_ (cl s)) -> todo (cl s) (env s) + 24 <= Z.of_nat fuel ->
  wp False (minimal_loop wait_readable fuel false) (fun r s' => r = None /\ poised s') s.
Proof.
  induction fuel as [|fuel IH]; intros s Hp Ha Hst Haw Hod Hf; [pose proof (todo_lower s Hp); lia|]. cbn [minimal_loop].
  apply wp_bind. unfold read_globals, wp at 1. destruct (globals (env s)) eqn:Eg; [by apply wp_ret|].
  destruct (minimal_step s Hp Ha) as (s1 & Hrun & Hp1 & Ha1 & (Ht1 & Hod1 & Haw1) & Hpk1 & [[? _]|Hlt] & _); [done|].
  apply wp_bind. unfold wp at 1. rewrite Hrun. cbn [fst]. change (negb (Error_eqb Ok Ok)) with false. cbv iota.
  apply wp_bind, wp_get. specialize (Haw1 Haw). rewrite <- Hod1 in Hod. cbn [negb]. rewrite andb_true_r.
  unfold is_connected, State_eqb. case_bool_decide as Hc1; apply wp_bind.
  - destruct (minimal_publish s1 Hp1 Ha1 Hc1 (Hpk1 Hc1) Haw1 Hod) as (id & s2 & Hpub & Hp2 & Ha2 & Hdl2 & Hid & Hsafe).
    apply wp_bind. unfold wp at 1. rewrite Hpub. cbn [fst]. change (Error_eqb Ok Ok) with true. apply wp_ret, wp_bind.
    destruct (wait_run s2 Hp2 Ha2) as (s3 & Hw & Hp3 & Ha3 & Hcl & _ & Hdl3 & Hc3). unfold wp at 1. rewrite Hw.
    apply (loop_published (mkParcel id AtLeastOnce false demo_topic demo_payload) (history s2)); try done.
    { apply (continues_safe false minimal_app (mkParcel id AtLeastOnce false demo_topic demo_payload) Hid) with (s := s2);
        [|done | done]. intros cb. apply watching_calls, minimal_watches. }
    pose proof (todo_upper s3 Hp3).
    assert (max_inflight_out = 1) by done. destruct Hp1 as (_ & Hlt1 & _).
    assert (Hn : delays (env s1) - 3 <= todo (cl s1) (env s1)) by (unfold todo; rewrite Haw1, Hc1; cbn; lia). lia.
  - apply wp_ret, wp_bind. destruct (wait_run s1 Hp1 Ha1) as (s2 & Hw & Hp2 & Ha2 & Hcl & _ & Hdl & _). unfold wp at 1. rewrite Hw.
    rewrite <- Hcl in *. apply IH; try done. unfold todo in *. rewrite Hcl in *. lia.
Qed.

(** ** From the connection to the end *)
Lemma minimal_connects d g :
  dialable d -> window_start (E := D) <= clock_at d <= window_end (E := D) ->
  wp False (connect minimal_options) (fun r s => r = Ok /\ poised s /\ state_ (cl s) = Connecting /\
    awaits (outbound_ (cl s)) = [] /\ is_Some (on_delivery_ (cl s)) /\ todo (cl s) (env s) <= 4 + delays d)
    (mkSys (client_init <| on_delivery_ := Some 1 |>) (mkHost d g : E) []).
Proof.
  intros Hd Hw. set (c := client_init <| on_delivery_ := Some 1 |>). set (e := mkHost d g : E).
  assert (Hok : sys_ok (mkSys c e [])) by (pose proof (client_init_ok e) as Hok; open_ok Hok; ok_fields).
  assert (Hka : is_u16 (opt_keep_alive_s minimal_options)) by by vm_compute.
  assert (Hlong : opt_keep_alive_s minimal_options = 0 \/ window_end (E := E) - window_start (E := E) < 750 * opt_keep_alive_s minimal_options).
  { right. destruct Hpat as ([?|Hr] & _); [done|]. cbn. change retry_interval_ms with 20000 in Hr. lia. }
  assert (Ht : in_time e) by (unfold in_time; cbn; lia).
  eapply wp_mono; [apply wp_and; [apply (connect_succeeds minimal_options c e []); try done | apply wp_and;
    [apply (connect_poised minimal_options c e []); try done; by left | by apply (connect_run minimal_options c e [])]]|].
  intros r s (-> & Hp & Hr). split; [done|]. split; [by apply Hp|]. destruct (Hr eq_refl) as (q & e' & Hs & ->).
  split; [done|]. split; [done|]. split; [by eexists|].
  assert (delays e' <= delays d) by apply Hs. change (0 + 4 - 0 + delays (device e') <= 4 + delays d). cbn in *. lia.
Qed.

(** The loop that waits for the session to end needs one step. *)
Lemma drain_leaves fuel s :
  (2 <= fuel)%nat -> state_ (cl s) = Idle \/ leaving s -> sys_ok s ->
  wp False (minimal_drain (D := D) fuel) (fun _ s' => state_ (cl s') = Idle) s.
Proof.
  intros Hf Hs Hok. destruct fuel as [|[|fuel]]; [lia | lia|]. cbn [minimal_drain]. apply wp_bind, wp_get. unfold not_idle.
  destruct Hs as [Hi|Hl]; [rewrite Hi; by apply wp_ret|]. pose proof Hl as (_ & Hst & _). rewrite Hst. cbn [State_eqb].
  apply wp_bind, wp_bind. eapply wp_mono; [apply (step_leaves _ (watching_watches minimal_app 0 minimal_watches) s Hl Hok)|].
  intros r s' Hi. apply wp_ret, wp_bind, wp_get. rewrite Hi. by apply wp_ret.
Qed.

Lemma minimal_session_ends d fuel :
  dialable d -> window_start (E := D) <= clock_at d <= window_end (E := D) -> 28 + delays d <= Z.of_nat fuel ->
  wp False (minimal_session wait_readable fuel) (fun code _ => code = 0) (mkSys client_init (mkHost d false) []).
Proof.
  intros Hd Hw Hf. pose proof (delays_nonneg d). unfold minimal_session. apply wp_bind, wp_bind, wp_modify, wp_ret, wp_bind, wp_bind.
  assert (Ha : attentive (mkSys client_init (mkHost d false) [])) by (by apply program_starts).
  assert (Ha1 : attentive (mkSys (client_init <| on_delivery_ := Some 1 |>) (mkHost d false) []))
    by exact (driven_run (CallOnDelivery (Some 1)) _ _ _ I Ha eq_refl).
  pose proof (minimal_connects d false Hd Hw) as Hc. unfold wp in Hc |- * at 1. destruct (connect _ _) as [[r s]|] eqn:Er; [|done].
  destruct Hc as (-> & Hp & Hst & Haw & Hod & Hto). apply wp_ret. cbn [fst]. change (negb (Error_eqb Ok Ok)) with false. cbv iota.
  assert (Ha2 : attentive s).
  { apply (driven_run (CallConnect minimal_options) _ (Ok, None) s ltac:(by vm_compute) Ha1). unfold api_call, call. cbn [api].
    unfold bind. by rewrite Er. }
  apply wp_bind. eapply wp_mono; [apply (loop_unpublished fuel s); [done | done | congruence | done | done | lia]|].
  intros r s1 [-> Hp1]. apply wp_bind, wp_bind.
  eapply wp_mono; [apply (disconnect_leaves _ (watching_watches minimal_app 0 minimal_watches) s1 Hp1)|].
  intros r s2 [Hl Hok]. apply wp_ret, wp_bind. eapply wp_mono; [apply drain_leaves; [lia | done | done]|]. intros. by apply wp_ret.
Qed.

(** What returning 0 means. *)
Lemma minimal_session_told d fuel :
  wp True (minimal_session wait_readable fuel) (fun code s => code = 0 -> 0 < callbacks is_delivery (history s) /\ state_ (cl s) = Idle)
    (mkSys client_init (mkHost d false) []).
Proof.
  assert (Hd : driven wait_readable minimal_app (program_kept (fun _ : D => True) (fun _ => True) minimal_says))
    by (apply (kept_driven wait_readable minimal_on (fun _ => True) (fun _ => True)); 
      [done | apply minimal_says_event | by intros [] | apply minimal_says_call]).
  assert (Hd' : driven wait_readable minimal_app (program_kept (fun _ : D => True) (fun _ => True)
    (fun (_ : bool) h => 0 < callbacks is_delivery h))).
  { apply (kept_driven wait_readable minimal_on (fun _ => True) (fun _ => True)); [done | apply delivered_event | by intros [] |].
    intros cb e h. apply delivered_call. }
  eapply wp_mono; [apply (minimal_session_done wait_readable _ _ fuel _ Hd Hd'); [|by apply program_starts]|].
  - intros s [? ? ? Hsay] Hg. split; [done | done | done | by apply Hsay].
  - intros code s Hs Hcode. by destruct (Hs Hcode) as [[_ _ _ ?] ?].
Qed.
End minimal.

(** C8: [minimal_publisher] succeeds. When the link to the broker of its
    arguments can be dialled and works, the broker answers, waiting for input
    leaves the link as it is, and all that takes less than the retry interval of
    20 seconds, [main] ends after at most [28 + delays] rounds of its loop,
    whatever the fragmentation: it returns 0, the client has reported the message
    delivered, and the session is over. *)
Theorem minimal_publisher_succeeds `{WS : WideSizeT} `{BWO : ByteStreamWriterOk} `{BRO : ByteStreamReaderOk} {D : Type}
    {T : Transport D} {CK : Clock D} {TOK : TransportOk D} {P : Peer D} {POK : PeerOk D}
    (wait_readable : Z -> D -> D) (make : list Z -> Z -> D) argv fuel :
  (forall d, in_time d -> same_link d (wait_readable 50 d)) ->
  window_end (E := D) - window_start (E := D) < 20000 ->
  let d := make (default (text "127.0.0.1") (arg argv 1)) (u16 (from_option atoi 1883 (arg argv 2))) in
  dialable d -> window_start (E := D) <= clock_at d <= window_end (E := D) -> 28 + delays d <= Z.of_nat fuel ->
  exists s, minimal_main (Cfg := minimal_config) wait_readable make argv fuel = Some (0, s) /\
    0 < callbacks is_delivery (history s) /\ state_ (cl s) = Idle.
Proof.
  intros Hwait Hwin d Hd Hw Hf. assert (Hpat : patient (Cfg := minimal_config) (E := D)).
  { split_and!; [right; exact Hwin | change connect_timeout_ms with 30000; lia]. }
  pose proof (minimal_session_ends wait_readable Hwait Hpat d fuel Hd Hw Hf) as He. pose proof (minimal_session_told wait_readable d fuel) as Ht.
  unfold minimal_main, wp in *. fold d. destruct (minimal_session _ _ _) as [[code s]|] eqn:Er; [|done]. subst code.
  exists s. split; [done | by apply Ht].
Qed.

Section witness.
Import Bench.Target.

(** The link takes five bytes at a time and gives one, with interruptions; ten
    seconds go by at most. *)
#[local] Instance steady_link : Transport Sim.SimLink := Sim.sim_transport 5 1.
#[local] Instance steady_time : Clock Sim.SimLink := Sim.sim_clock_instance 10000.
#[local] Instance steady_broker : Peer Sim.SimLink := Sim.sim_peer 10000.

#[local] Instance steady_link_ok : TransportOk Sim.SimLink.
Proof. apply Sim.sim_transport_ok; lia. Qed.

#[local] Instance steady_broker_ok : PeerOk Sim.SimLink.
Proof. apply Sim.sim_peer_ok; lia. Qed.

Definition steady_make (host : list Z) (port : Z) : Sim.SimLink := Sim.mkSimLink [] [] stalls 0.

Lemma minimal_publisher_succeeds_witness :
  exists s, minimal_main (Cfg := minimal_config) (fun _ l => l) steady_make [] 60 = Some (0, s) /\
    0 < callbacks is_delivery (history s) /\ state_ (cl s) = Idle.
Proof.
  apply (minimal_publisher_succeeds (fun _ l => l) steady_make [] 60); [intros d Ht; by apply same_link_refl|..]; by vm_compute.
Defined.
End witness.
