(* ===== verification/DeviceFindings.v ===== *)
(** * DeviceFindings: where the example transports and programs depart from
    what is written about them *)
From Stdlib Require Import String.
From S2P Require Import Prelude Errors Packet Etl Codec TxQueue Config Transport ClientState.
From S2P Require Import Effects Client Application ClientDevice CLib Ipv4 Platform LinkSpec Posix.
From S2P Require Import PosixTransport TlsTransport DeviceRuns Examples Bench Scenarios ExampleProps.
#[local] Open Scope io_scope.

(** ** Calls that wait *)

(** [PosixTransport::connect] asks a name server, which can take any time,
    whatever the system answers; transport.hpp says that a transport must never
    block. *)
Theorem px_connect_waits `{PosixConstants} {W : Type} `{PosixApi W} (w : W) host port :
  prompt_after (trace (snd (px_connect (px_make w host port)))) = None.
Proof.
  change (post px_connect (fun _ s => prompt_after (trace s) = None) (px_make w host port)).
  unfold px_make, px_connect. io_steps; cbn in *; try done.
  unfold px_begin, getaddrinfo, px_open, socket, fcntl_getfl, fcntl_nonblock, setsockopt, connect_to, freeaddrinfo, errno,
    px_close, close_fd.
  io_steps; try case_match; io_steps; cbn [trace]; by run_monitors.
Qed.

(** ** A TLS session is set up again without being freed *)
Definition tls_calls (c : OsEvent -> bool) (tr : list OsEvent) : Z := zlen (List.filter c tr).
Definition is_setup (ev : OsEvent) : bool := match ev with OsTls TlsSslSetup => true | _ => false end.
Definition is_parse (ev : OsEvent) : bool := match ev with OsTls TlsCaParse => true | _ => false end.
Definition is_free (ev : OsEvent) : bool := match ev with OsTls TlsSslFree => true | _ => false end.

Section tls.
Import TlsConstants.

(** One session: [connect] and [close], with a library that agrees to all. *)
Definition agreeable : SimTls := mkSimTls sim0 [] 0 [] [].
Definition tls_session (e : Obj MbedTlsTransport SimTls) : Obj MbedTlsTransport SimTls :=
  transport_close (snd (transport_connect e)).

Definition tls_session_calls : list OsEvent :=
  [OsTls TlsCaParse; OsTls TlsNetConnect; OsTls TlsSslSetup; OsTls TlsHandshake; OsTls (TlsVerified true); OsTls TlsData;
   OsTls TlsNetFree].

Lemma tls_session_step host port ca tr :
  tls_session (mkObj (tls_of host port ca) agreeable tr) = mkObj (tls_of host port ca) agreeable (tr ++ tls_session_calls).
Proof.
  transitivity (mkObj (tls_of host port ca) agreeable (fold_left (fun tr ev => tr ++ [ev]) tls_session_calls tr));
    [reflexivity|].
  cbn [fold_left tls_session_calls]. by rewrite <- !app_assoc.
Qed.

(** The library's [ssl_setup] allocates the session's buffers and its
    [x509_crt_parse] appends to the chain; [close()] undoes neither, so every
    further session over the same object repeats both on contexts that are in
    use. *)
Theorem tls_sessions_accumulate host port ca (n : nat) :
  let e := Nat.iter n tls_session (mkObj (tls_of host port ca) agreeable []) in
  tls_calls is_setup (trace e) = Z.of_nat n /\ tls_calls is_parse (trace e) = Z.of_nat n /\
  tls_calls is_free (trace e) = 0.
Proof.
  cbv zeta. assert (Hn : Nat.iter n tls_session (mkObj (tls_of host port ca) agreeable []) =
    mkObj (tls_of host port ca) agreeable (concat (replicate n tls_session_calls))).
  { induction n as [|n IH]; [done|]. rewrite Nat.iter_succ, IH, tls_session_step. f_equal.
    rewrite replicate_S_end, concat_app. cbn [concat]. by rewrite app_nil_r. }
  rewrite Hn. cbn [trace]. clear Hn. unfold tls_calls. induction n as [|n IH]; [done|].
  rewrite replicate_S. cbn [concat]. rewrite !List.filter_app, !zlen_app.
  destruct IH as (-> & -> & ->). cbn. unfold zlen. cbn. lia.
Qed.

(** ** A write is not repeated with the data it was first called with *)

Definition retry_calls : list ApiCall :=
  [CallConnect options_a; CallStep; CallPublish topic_t [1] AtMostOnce false; CallStep;
   CallPublish topic_u [2] AtMostOnce false; CallStep].

Definition retry_library : SimTls :=
  mkSimTls (mkSimOs 0 [] 0 [] [] 0 [Some [32; 2; 0; 0]; None] true 0 10) [] 0 [1000; MBEDTLS_ERR_SSL_WANT_WRITE; MBEDTLS_ERR_SSL_WANT_WRITE] [].

Definition unfinished_write : list Z := [48; 4; 0; 1; 116; 1].
Definition repeated_write : list Z := unfinished_write ++ [48; 4; 0; 1; 117; 2].

Import Bench.Target.

(** The library requires that [ssl_write], once it asked to be called
    again, be called with the same arguments, since it has already encrypted
    them. The client offers whatever it has queued by then: here the same packet
    twice, and then that packet and the next. *)
Theorem tls_write_not_repeated :
  exists s : Sys (Obj MbedTlsTransport SimTls),
    runs (around (fun _ e => e)) (fun _ => Done) (fresh_device (tls_of [97] [49] [45])) s /\
    tl (tls_writes (os (env s))) = [unfinished_write; unfinished_write; repeated_write] /\ tls_results (os (env s)) = [].
Proof.
  apply (device_script (fun _ e => e) (fun _ => Done) (tls_of [97] [49] [45]) retry_library retry_calls
    (fun s => tl (tls_writes (os (env s))) = [unfinished_write; unfinished_write; repeated_write] /\ tls_results (os (env s)) = []));
    [|by vm_compute].
  unfold retry_calls. repeat (apply Forall_cons; [first [exact I | unfold call_ok, is_u16; by_decide]|]). apply Forall_nil.
Qed.
End tls.

(** ** A descriptor that does not fit an [fd_set] *)
Section wide.
Import LinuxConstants.

(** [FD_SET] of a descriptor of [FD_SETSIZE] or more is undefined, and
    [PosixTransport] does not look: with descriptor 1024, the second [connect]
    of a connection in progress is enough. *)
Definition crowded : SimOs := mkSimOs EINPROGRESS [1024] 0 [-1] [] 0 [] true 0 10.

Theorem px_wide_descriptor_undefined :
  let e := snd (px_connect (snd (px_connect (px_make crowded [97] 1883)))) in
  In OsUndefined (trace e) /\ held_after (trace e) = None.
Proof. vm_compute. split; [tauto | done]. Qed.

(** ** "SUBSCRIBE acknowledged" *)
Import Bench.Target.

(** A broker that never sends a SUBACK: no chunk has the byte 144. *)
Definition silent_chunks : list (list Z) :=
  [[32; 2; 0; 0]; concat (replicate 5 [48; 3; 0; 1; 97])] ++ replicate 100 demo_acks.

(** [pubsub_demo] still reports the subscription as acknowledged: what it checks
    is that [subscribe()] accepted the request. *)
Theorem demo_passes_without_suback :
  Forall (fun c => ~ In 144 c) silent_chunks /\
  exists s, demo_main (Cfg := demo_config) px_wait (px_make (mkSmallOs (broker silent_chunks 250))) [] 600 = Some (0, s).
Proof.
  split; [|apply exits; by vm_compute].
  apply Forall_app. split.
  - repeat (apply Forall_cons; [cbn; lia|]). apply Forall_nil.
  - apply Forall_replicate. unfold demo_acks. cbn. lia.
Qed.
End wide.
